(* ===== verification/_CoqProject ===== *)
-Q . S2P
Prelude.v
GoTime.v
StoreModel.v
StorePass.v
StoreIntents.v
StoreAuth.v
StoreGithub.v
Sha256.v
Base64.v
Json.v
JsonParse.v
Rfc3339.v
Codec.v
Trust.v
PassModel.v
World.v
Bench.v
Attestor.v
Ceremony.v
Source.v
Proposal.v
Settle.v
Once.v
Approval.v
CLIAuth.v
Launch.v
LaunchHistory.v
Revocation.v
ExpansionDelta.v
Expansion.v
ExpansionSync.v
Events.v
EventJournal.v
Receipt.v
ReceiptService.v
Worker.v
Enroll.v
Recovery.v
RecoveryLive.v
EnrollHistory.v
