(* ===== verification/Prelude.v ===== *)
(** * AuthScope OPE Edition: a verification library

    A Rocq model of the Go service in src/: a founder connects a repository,
    opens a mission pass from an issue, approves it, launches an agent run,
    decides expansions of its authority, revokes it, and reads a receipt.
    Every decision is a passkey ceremony; every effect on AuthScope (the
    upstream authority) is a signed, idempotent call behind a durable intent
    in one SQLite database.

    ** Shape of the model

    A Go function that mutates shared state and returns a value and an error
    is a computation in the state-and-error monad [SE] below.  Store
    operations run on the database ([Tx], file StoreModel), handlers on the
    process state [World] (file World): the database, the ceremony maps kept
    in memory, the log of upstream calls, and counters of clock readings and
    random draws.  [World.Env] is the environment: clock, randomness, the
    WebAuthn verifier, the workload signer, what other requests commit while
    one waits, and the authority, which is any function of the calls made so
    far.  Errors are the packages' sentinels; [store.WithTx] rolls back, and
    everything else survives an error, as in Go.

    ** Files

    - Prelude, GoTime, Sha256, Base64, Json, JsonParse, Rfc3339: the monad
      and its tactics; Go's time, crypto/sha256, encoding/base64,
      encoding/json (both ways) and RFC 3339 texts, as far as the services
      use them.
    - StoreModel: tables and rows (src/internal/store/store.go and the
      migrations), [WithTx]; StorePass, StoreIntents, StoreAuth, StoreGithub:
      the operations on them (sqlite.go, projection_*.go, authn.go,
      cli_authorization.go, launch_exchange.go, recovery.go).
    - PassModel: pass states, canonical approval bytes, template checks
      (missionpass/model.go, template.go).
    - World, Bench: process state and environment; a concrete environment on
      which witnesses run.
    - Codec: types with a JSON form that is read back, as a class.
    - Trust (trust/keys.go): the pinned signing keys and their refresh.
    - Attestor (identity/attestor.go), Ceremony (authn/passkey.go), Source
      (github/source.go), Proposal, Approval, Revocation
      (missionpass/proposal.go, approval.go, revoke.go); Settle and Once hold
      the frames and protocol lemmas these services share.
    - CLIAuth (authn/pkce.go): the authorization of a launch from the command
      line, its loopback callback and the cache of signed decisions; Launch
      (launch/service.go): the exchange of its code for a prepared run;
      LaunchHistory: histories of both.
    - ExpansionDelta (expansion/expansion.go), Expansion, ExpansionSync
      (expansion/service.go): deltas and their digests, the decision on an
      expansion, and the sync of pending expansions.
    - Events (missionpass/events.go): the payload allowlist, the effect of an
      event and the application of a page; EventJournal: the append-only
      journal a page extends.
    - Receipt (receipt/receipt.go, verify.go, filter.go), ReceiptService
      (receipt/service.go): local verification of a receipt, the one
      transition it causes, and the publication of the public check.
    - Worker (reconcile/worker.go): the sweeps that call these services, the
      backoff, and the leased run around them.
    - Enroll (authn/bootstrap.go, session.go, passkey.go): bootstrap codes, the
      bootstrap ceremony, passkey enrolment, completion, login and sessions;
      Recovery (recovery/service.go): the offline reset as a resumable intent;
      RecoveryLive: its completion; EnrollHistory: histories in which
      enrolment, login and resets interleave.

    ** What the theorems show

    Store: compare-and-swap and no lost update on passes, forward-only
    projections, replay of events, final intents, one pending expansion per
    mission, exclusive leases, one claim per launch code.  Services: an
    approval, revocation or expansion decision is sent only for what a live,
    single-use passkey ceremony signed, at most once, and a repeated or
    reconciled attempt returns the recorded result; drafts are opened
    idempotently and only narrowed; every stored expansion carries its own
    digest.  Projection: applying a page appends to a journal without gaps or
    duplicates, a pass moves along its life cycle only, and a page that cannot
    be read latches the pass.  Receipts: what is accepted is exactly what a
    pinned key signed about the projected pass; a verdict is stored once and
    only a verified one ends the pass; a check is intended before it is sent
    and shows four facts; the worker decides nothing, settles what is in
    flight, and gives its lease back.  Enrolment and recovery: at most one
    founder and one usable bootstrap code over every history, completion is
    one transaction and leaves a way to recover, issued tokens work until they
    expire; nothing is reset before AuthScope acknowledged the containment and
    reported no active mission, a reset resumes from every recorded step and
    completes with a cooperative authority, and leads back to enrolment.
    Launch: an authorization is created once per state and approved once by a
    passkey; over every history each run AuthScope is asked to prepare is the
    one the founder decided, at most once per code, and a run is taken over only
    for the pinned pass and a pinned envelope key (and, by a fresh exchange or
    a replay, for the code's verifier; the recovery of an orphaned exchange
    asks for none).
    Bytes: canonical approval, revocation, expansion and receipt bytes
    determine what they encode (short of a SHA-256 collision where a digest is
    compared); stored forms are read back unchanged.

    ** Bounds and fuel

    The JSON reader recurses with fuel twice the input length plus two, and
    [JsonParse.parse_render] shows it enough for every document the program
    writes; Go's own limit of 10000 nesting levels is not modelled.
    SHA-256 is a structural recursion over blocks.  Integers are [Z]; int64
    limits are written where the code can meet them ([JsonParse.num_int64],
    [Source.parse_digits]), and time.Unix and the backoff shift wrap around
    as in Go ([GoTime.int64]).  Times are nanoseconds in [Z]; texts of times
    cover years 0 to 9999, which is what time.MarshalJSON accepts.  Round
    trips are stated for ASCII strings and int64 numbers ([Codec.plain]).
    The walk along a key history has one step more than the history has keys
    as fuel, and [Trust.RefreshFromHistory_exact] shows that it never runs
    out; the worker runs for a given number of lease attempts and ticks, the
    ones before its context is cancelled; an offline reset polls for the empty
    mission list a given number of times, and
    [RecoveryLive.ResetOffline_completes] shows that as many polls as the
    authority takes to drain are enough.  The histories of EnrollHistory bound
    the number of random draws only to state that the draws so far differ.

    ** Not modelled

    Handlers run to completion one at a time, as the mutexes around the
    decision paths make them do for one pass; interleaving appears as
    histories of operations and as [World.peers] at the points where the code
    waits between transactions (in Launch, after every answer of AuthScope, and
    the flag [canceled] says that the request's context is done by then).  A
    transaction reads the clock once, and a
    value that Go returns next to an error is dropped.  fmt.Sprintf is a
    parameter where its output goes into an error text.  net/http, TLS,
    process and terminal I/O, the WebAuthn library, Ed25519, SQLite itself and
    the web console are outside; so are the HTTP client of AuthScope
    (coreapi/client.go), whose typed operations are the calls of World, the
    installation handoff with GitHub (github/handoff.go, whose rows StoreGithub
    keeps), the signing and sealing of launch envelopes (launch/envelope.go),
    and configuration and telemetry. *)

From Stdlib Require Export Ascii.
From stdpp Require Export prelude gmap strings sorting pretty.
From Stdlib Require Export Lia.

#[export] Set Default Goal Selector "!".

Declare Scope go_scope.
Delimit Scope go_scope with go.
Global Open Scope string_scope.
Global Open Scope Z_scope.
Global Open Scope go_scope.

(** ** Struct field update

    [r <| f := v |>] is the Go assignment [r.f = v] on a value [r]: a copy
    of [r] with field [f] replaced.  A struct makes its fields assignable by
    an [Eta] instance that rebuilds it from its projections; the setter of a
    field is then found by type class search.  [upd] only unfolds under a
    projection, so goals keep the short form. *)

Class Eta (T : Type) := eta : T → T.

Class Setter {R A : Type} (f : R → A) := upd : A → R → R.
#[global] Arguments upd {R A} f {_} _ _ : assert.

Ltac build_setter f :=
  match type of f with
  | ?R → ?A =>
    let e0 := constr:(_ : Eta R) in
    let e := eval hnf in e0 in
    exact (fun (v : A) (r : R) =>
       ltac:(let b := eval cbv beta in (e r) in
             let b' := eval pattern (f r) in b in
             match b' with ?g _ => let t := eval cbv beta in (g v) in exact t end))
  end.

#[export] Hint Extern 1 (Setter ?f) => build_setter f : typeclass_instances.

Notation "r <| f := v |>" := (upd f v r)
  (at level 1, left associativity, f at level 0, v at level 200) : go_scope.

(** ** Errors

    The sentinel errors of the packages, by their Go names.  Wrapping with
    [fmt.Errorf("%w: ...")] keeps the sentinel, which is all that
    [errors.Is] observes; a plain [fmt.Errorf] or [errors.New] without a
    sentinel is [ErrOther] with the message that identifies it.  The
    upstream client's failures are the timeout and the HTTP status carried
    by [coreapi.UpstreamError]. *)

Inductive err :=
  (* store *)
  | ErrNotFound | ErrConflict | ErrInstanceRebind | ErrIdempotencyMismatch
  | ErrInvalidHostname | ErrInvalidOrigin | ErrInsecureOrigin
  | ErrOriginNotPermitted | ErrInvalidRPID | ErrRPIDOriginMismatch
  | ErrInvalidCookieName | ErrInvalidInstanceID | ErrEmptyWorkspaceID
  | ErrIdentityDigestNotEmpty | ErrInvalidIdentityDigest
  (* missionpass *)
  | ErrTemplateViolation | ErrProposalMismatch | ErrNotDraft
  | ErrInvalidInput | ErrStaleSource | ErrUnsafePosture
  | ErrOperationInFlight | ErrPendingReconciliation | ErrDuplicateRequestInFlight
  | ErrApprovalReconcilePending | ErrApprovalBindingChanged | ErrApprovalDigest
  | ErrProjectionIncompatible | errUnknownEventType
  | ErrInvalidRevocationReason | ErrPassNotRevocable | ErrRevokeBindingChanged
  | ErrRevokePending | ErrRevokeConflict
  | ErrCLIRevocationNotFound | ErrCLIRevocationConflict | ErrCLIRevocationExpired
  (* expansion *)
  | ErrInvalidDecision | ErrExpansionNotPending | ErrExpansionConflict
  | ErrExpansionBindingChanged | ErrExpansionStale | ErrExpansionPending
  | ErrPassNotDecidable
  (* receipt *)
  | ErrReceiptUnverifiable (reason : string)
  (* authn *)
  | ErrCeremonyNotFound | ErrInvalidPKCE | ErrCeremonyConsumed | ErrCeremonyExpired
  | ErrInvalidPurpose | ErrDecisionBinding | ErrNotEnrolled | ErrVerificationFailed
  | ErrStaleAssertion | ErrUserVerification
  (* github *)
  | ErrIssueUnavailable | ErrStaleSourceRevision | ErrStaleBaseSHA | ErrBindingRevoked
  | ErrWorkspaceMismatch | ErrRepositoryChanged | ErrSourceInput
  (* coreapi *)
  | ErrUpstreamTimeout | ErrUpstreamStatus (code : Z)
  (* anything else *)
  | ErrOther (msg : string).

#[export] Instance err_eq_dec : EqDecision err.
Proof. solve_decision. Defined.

(** ** Results and the state-and-error monad

    A Go function that mutates shared state and returns [(T, error)] is a
    computation [SE S A]: it threads the state and ends in a value or an
    error.  The state survives an error, as Go's does; only
    [Store.WithTx] rolls back (see [StoreModel.WithTx]). *)

Inductive res (A : Type) :=
  | Ok (a : A)
  | Err (e : err).
#[global] Arguments Ok {A} a.
#[global] Arguments Err {A} e.

#[export] Instance res_eq_dec {A} `{EqDecision A} : EqDecision (res A).
Proof. solve_decision. Defined.

Definition is_ok {A} (r : res A) : bool :=
  match r with Ok _ => true | Err _ => false end.

#[export] Instance res_ret : MRet res := λ A, Ok.
#[export] Instance res_bind : MBind res := λ A B f r,
  match r with Ok a => f a | Err e => Err e end.

Definition SE (S A : Type) : Type := S → res A * S.

Section se.
Context {S : Type}.

#[export] Instance se_ret : MRet (SE S) := λ A a s, (Ok a, s).
#[export] Instance se_bind : MBind (SE S) := λ A B f m s,
  match m s with
  | (Ok a, s') => f a s'
  | (Err e, s') => (Err e, s')
  end.

Definition fail {A} (e : err) : SE S A := λ s, (Err e, s).
Definition get : SE S S := λ s, (Ok s, s).
Definition gets {A} (f : S → A) : SE S A := λ s, (Ok (f s), s).
Definition modify (f : S → S) : SE S unit := λ s, (Ok tt, f s).

(** [if !P { return err }] *)
Definition require (P : Prop) `{Decision P} (e : err) : SE S unit :=
  if decide P then mret tt else fail e.

(** [x, err := m()] where the caller inspects [err] itself. *)
Definition try {A} (m : SE S A) : SE S (res A) := λ s,
  let '(r, s') := m s in (Ok r, s').

(** [return r] for an already computed [(T, error)] pair. *)
Definition lift {A} (r : res A) : SE S A := λ s, (r, s).
End se.

Definition opt_res {A} (e : err) (o : option A) : res A :=
  match o with Some a => Ok a | None => Err e end.

Definition require_res (P : Prop) `{Decision P} (e : err) : res unit :=
  if decide P then Ok tt else Err e.

Lemma require_res_then {A} (P : Prop) `{Decision P} e (f : unit → res A) :
  P → require_res P e ≫= f = f tt.
Proof. intros. unfold require_res. by rewrite decide_True. Qed.

Lemma require_res_else {A} (P : Prop) `{Decision P} e (f : unit → res A) :
  ¬ P → (require_res P e ≫= f) = Err e.
Proof. intros HP. unfold require_res. by rewrite decide_False. Qed.
Lemma require_res_inv (P : Prop) `{Decision P} e u : require_res P e = Ok u ↔ P.
Proof. unfold require_res. destruct u. case_decide; naive_solver. Qed.

Lemma require_res_bind_Ok {A} (P : Prop) `{Decision P} e (f : unit → res A) a :
  require_res P e ≫= f = Ok a ↔ P ∧ f tt = Ok a.
Proof. unfold require_res. case_decide; cbn; naive_solver. Qed.

Lemma require_res_bind_ne {A} (P : Prop) `{Decision P} e e' (f : unit → res A) :
  e ≠ e' → (P → f tt ≠ Err e') → require_res P e ≫= f ≠ Err e'.
Proof. intros He Hf. unfold require_res. case_decide; [by apply Hf|]. intros [= E]. by apply He. Qed.

Lemma res_bind_Ok {A B} (m : res A) (f : A → res B) b :
  m ≫= f = Ok b ↔ ∃ a, m = Ok a ∧ f a = Ok b.
Proof. destruct m; unfold mbind; cbn; naive_solver. Qed.

Lemma Ok_inj {A} (a b : A) : Ok a = Ok b → a = b.
Proof. by intros [= ->]. Qed.

Lemma opt_res_Ok {A} e (o : option A) a : opt_res e o = Ok a ↔ o = Some a.
Proof. destruct o; cbn; naive_solver. Qed.

(** [if errors.Is(err, store.ErrNotFound) { return mapped }] *)
Definition not_found_as {A} (mapped : err) (r : res A) : res A :=
  match r with Err e => Err (if decide (e = ErrNotFound) then mapped else e) | Ok a => Ok a end.

Lemma not_found_Ok {A} mapped (r : res A) a : not_found_as mapped r = Ok a ↔ r = Ok a.
Proof. unfold not_found_as. destruct r; [done|]. by case_decide. Qed.

(** *** Which errors a computation fails with

    [fails_with P r]: if [r] fails, its error satisfies [P]; [errs_other r]:
    it is no sentinel. *)
Definition fails_with {A} (P : err → Prop) (r : res A) : Prop := ∀ e, r = Err e → P e.
Definition is_other (e : err) : Prop := ∃ msg, e = ErrOther msg.
Notation errs_other := (fails_with is_other).

Lemma fails_with_bind {A B} P (m : res A) (f : A → res B) :
  fails_with P m → (∀ a, m = Ok a → fails_with P (f a)) → fails_with P (m ≫= f).
Proof.
  intros Hm Hf e H. destruct m as [a|e1]; [by apply (Hf a)|].
  change (@Err B e1 = Err e) in H. injection H as <-. by apply Hm.
Qed.
Lemma fails_with_require (P : err → Prop) (Q : Prop) `{Decision Q} e :
  P e → fails_with P (require_res Q e).
Proof. intros He e'. unfold require_res. case_decide; [done|]. by intros [= <-]. Qed.
Lemma fails_with_Ok {A} P (a : A) : fails_with P (Ok a).
Proof. by intros e. Qed.
Lemma fails_with_opt {A} (P : err → Prop) e (o : option A) : P e → fails_with P (opt_res e o).
Proof. intros He e'. destruct o; [done|]. by intros [= <-]. Qed.
Lemma other_other msg : is_other (ErrOther msg).
Proof. by exists msg. Qed.

Ltac fails_with_step side :=
  first [apply fails_with_require; side|apply fails_with_Ok|apply fails_with_opt; side
        |apply fails_with_bind; [|intros ? ?]].
Ltac errs_other_step := fails_with_step ltac:(apply other_other).

(** *** Inversion of successful and failed runs *)

Section se_lemmas.
Context {S : Type}.
Implicit Types s : S.

Lemma bind_Ok {A B} (m : SE S A) (f : A → SE S B) s b s' :
  (m ≫= f) s = (Ok b, s') ↔ ∃ a s1, m s = (Ok a, s1) ∧ f a s1 = (Ok b, s').
Proof.
  unfold mbind, se_bind. split.
  - destruct (m s) as [[a|e] s1] eqn:E; intros H; [by exists a, s1|done].
  - by intros (a & s1 & -> & ?).
Qed.

Lemma bind_Err {A B} (m : SE S A) (f : A → SE S B) s e s' :
  (m ≫= f) s = (Err e, s') ↔
  m s = (Err e, s') ∨ ∃ a s1, m s = (Ok a, s1) ∧ f a s1 = (Err e, s').
Proof.
  unfold mbind, se_bind. split.
  - destruct (m s) as [[a|e'] s1] eqn:E; intros H.
    + right. by exists a, s1.
    + left. congruence.
  - by intros [->|(a & s1 & -> & ?)].
Qed.

Lemma bind_run {A B} (m : SE S A) (f : A → SE S B) s a s1 :
  m s = (Ok a, s1) → (m ≫= f) s = f a s1.
Proof. unfold mbind, se_bind. by intros ->. Qed.

Lemma bind_fail {A B} (m : SE S A) (f : A → SE S B) s e s1 :
  m s = (Err e, s1) → (m ≫= f) s = (Err e, s1).
Proof. unfold mbind, se_bind. by intros ->. Qed.

Lemma ret_run {A} (a : A) s : (mret a : SE S A) s = (Ok a, s).
Proof. done. Qed.

Lemma require_true (P : Prop) `{Decision P} e s :
  P → (require P e : SE S unit) s = (Ok tt, s).
Proof. unfold require. intros. by rewrite decide_True. Qed.

Lemma require_false (P : Prop) `{Decision P} e s :
  ¬ P → (require P e : SE S unit) s = (Err e, s).
Proof. unfold require. intros. by rewrite decide_False. Qed.

Lemma require_Ok (P : Prop) `{Decision P} e s u s' :
  (require P e : SE S unit) s = (Ok u, s') ↔ P ∧ s' = s.
Proof.
  unfold require. destruct u. case_decide; cbv; split; naive_solver.
Qed.

Lemma require_Err (P : Prop) `{Decision P} e e' s s' :
  (require P e : SE S unit) s = (Err e', s') ↔ ¬ P ∧ e' = e ∧ s' = s.
Proof. unfold require. case_decide; cbv; split; naive_solver. Qed.

Lemma require_then {A} (P : Prop) `{Decision P} e (f : unit → SE S A) s :
  P → (require P e ≫= f) s = f tt s.
Proof. intros. by rewrite (bind_run _ _ _ tt s) by (by apply require_true). Qed.

Lemma require_else {A} (P : Prop) `{Decision P} e (f : unit → SE S A) s :
  ¬ P → (require P e ≫= f) s = (Err e, s).
Proof. intros. by apply bind_fail, require_false. Qed.

Lemma gets_then {A B} (g : S → A) (f : A → SE S B) s : (gets g ≫= f) s = f (g s) s.
Proof. done. Qed.

Lemma modify_then {A} (g : S → S) (f : unit → SE S A) s : (modify g ≫= f) s = f tt (g s).
Proof. done. Qed.

Lemma try_then {A B} (m : SE S A) (f : res A → SE S B) s r s' :
  m s = (r, s') → (try m ≫= f) s = f r s'.
Proof. intros E. unfold mbind, se_bind, try. by rewrite E. Qed.

Lemma lift_inv {A} (r r' : res A) s s' : (lift r : SE S A) s = (r', s') → r = r' ∧ s' = s.
Proof. unfold lift. intros E. split; [exact (f_equal fst E)|exact (eq_sym (f_equal snd E))]. Qed.

Lemma lift_Ok_then {A B} (a : A) (f : A → SE S B) s : (lift (Ok a) ≫= f) s = f a s.
Proof. done. Qed.

Lemma lift_Err_then {A B} e (f : A → SE S B) s : (lift (Err e) ≫= f) s = (Err e, s).
Proof. done. Qed.

Lemma try_run {A} (m : SE S A) s r s' :
  m s = (r, s') → try m s = (Ok r, s').
Proof. unfold try. by intros ->. Qed.

Lemma try_Ok {A} (m : SE S A) s r s' :
  try m s = (Ok r, s') ↔ m s = (r, s').
Proof. unfold try. destruct (m s) as [r1 s1]. naive_solver. Qed.
End se_lemmas.

(** [run_inv] takes apart every hypothesis that says how a computation
    ended, one monadic step at a time. *)
Ltac run_inv_step :=
  match goal with
  | H : (_ ≫= _) _ = (Ok _, _) |- _ =>
      apply bind_Ok in H as (? & ? & ? & H)
  | H : require _ _ _ = (Ok _, _) |- _ => apply require_Ok in H as [? ->]
  | H : require _ _ _ = (Err _, _) |- _ =>
      apply require_Err in H as (? & -> & ->)
  | H : try _ _ = (Ok _, _) |- _ => apply try_Ok in H
  | H : try _ _ = (Err _, _) |- _ => unfold try in H
  | H : gets _ _ = _ |- _ => unfold gets in H
  | H : get _ = _ |- _ => unfold get in H
  | H : modify _ _ = _ |- _ => unfold modify in H
  | H : fail _ _ = _ |- _ => unfold fail in H
  | H : lift _ _ = _ |- _ => unfold lift in H
  | H : mret _ _ = (_, _) |- _ => unfold mret, se_ret in H
  | H : (Ok _, _) = (Ok _, _) |- _ => injection H as H; subst
  | H : (Err _, _) = (Err _, _) |- _ => injection H as H; subst
  | H : (Ok _, _) = (Err _, _) |- _ => discriminate H
  | H : (Err _, _) = (Ok _, _) |- _ => discriminate H
  | H : Ok _ = Ok _ |- _ => injection H as H; subst
  | H : Ok _ = Err _ |- _ => discriminate H
  | H : Err _ = Ok _ |- _ => discriminate H
  end.
Ltac run_inv := repeat (run_inv_step; simplify_eq).

(** [run_step] executes the next monadic step of the goal. *)
Ltac run_step :=
  match goal with
  | |- context [(_ ≫= _) _] =>
      first [ erewrite bind_run by (first [eassumption | apply require_true; eauto | reflexivity])
            | erewrite bind_fail by (first [eassumption | apply require_false; eauto | reflexivity]) ]
  end.

(** [op_inv H] splits a hypothesis [H : op s = (r, s')] into one goal per
    branch of the operation, with the guards and lookups of that branch as
    hypotheses and [r], [s'] replaced by the branch's outcome. *)
Ltac op_inv_step H :=
  lazymatch type of H with
  | (require ?P _ ≫= _) _ = _ =>
      let D := fresh "D" in destruct (decide P) as [D|D];
      [rewrite require_then in H by exact D|rewrite require_else in H by exact D]
  | (mret ?a ≫= ?f) ?s = ?r => change (f a s = r) in H; cbv beta in H
  | (fail ?e ≫= ?f) ?s = ?r => change ((Err e, s) = r) in H
  | (lift ?r ≫= _) _ = _ =>
      let E := fresh "E" in destruct r as [?|?] eqn:E;
      [rewrite lift_Ok_then in H|rewrite lift_Err_then in H]
  | (gets _ ≫= _) _ = _ => rewrite gets_then in H
  | (modify _ ≫= _) _ = _ => rewrite modify_then in H
  | (if decide ?P then _ else _) _ = _ =>
      let D := fresh "D" in destruct (decide P) as [D|D]
  | (match ?m !! ?k with Some _ => _ | None => _ end) _ = _ =>
      let E := fresh "E" in destruct (m !! k) as [?|] eqn:E
  | modify _ _ = _ => unfold modify in H
  | fail _ _ = _ => unfold fail in H
  | mret _ _ = _ => unfold mret, se_ret in H
  | (_, _) = (_, _) => first [discriminate H|injection H as <- <-|injection H as <-|progress simplify_eq H]
  end.
Ltac op_inv H := cbv zeta in H; repeat (op_inv_step H; try (cbv zeta in H)).

(** [call_inv H E] splits [H : (m ≫= f) s = _] on the outcome of [m], kept as
    [E]; [try_inv H E] does so for [try m ≫= f], whose continuation runs
    either way. *)
Ltac call_inv H E :=
  lazymatch type of H with
  | (?m ≫= _) ?s = _ =>
      destruct (m s) as [[?|?] ?] eqn:E;
      [rewrite (bind_run _ _ _ _ _ E) in H|rewrite (bind_fail _ _ _ _ _ E) in H]
  end.
Ltac try_inv H E :=
  lazymatch type of H with
  | (try ?m ≫= _) ?s = _ =>
      destruct (m s) as [? ?] eqn:E; rewrite (try_then _ _ _ _ _ E) in H
  end.

(** *** Frames

    [within R m]: however [m] ends, it relates its start and end states by
    [R].  For a preorder this composes, so the frame of a long handler is
    proved by the hints below, step by step. *)

Definition within {S A} (R : relation S) (m : SE S A) : Prop :=
  ∀ s r s', m s = (r, s') → R s s'.

Section within.
Context {S : Type} (R : relation S) `{!PreOrder R}.

Lemma within_bind {A B} (m : SE S A) (f : A → SE S B) :
  within R m → (∀ a, within R (f a)) → within R (m ≫= f).
Proof.
  intros Hm Hf s r s' H. unfold mbind, se_bind in H. destruct (m s) as [[a|e] s1] eqn:E.
  - transitivity s1; [by eapply Hm|by eapply Hf].
  - injection H as <- <-. by eapply Hm.
Qed.
Lemma within_ret {A} (a : A) : within R (mret a).
Proof. intros s r s' H. injection H as <- <-. reflexivity. Qed.
Lemma within_fail {A} e : within R (fail e : SE S A).
Proof. intros s r s' H. injection H as <- <-. reflexivity. Qed.
Lemma within_gets {A} (f : S → A) : within R (gets f).
Proof. intros s r s' H. injection H as <- <-. reflexivity. Qed.
Lemma within_lift {A} (x : res A) : within R (lift x : SE S A).
Proof. intros s r s' H. injection H as <- <-. reflexivity. Qed.
Lemma within_require (P : Prop) `{Decision P} e : within R (require P e).
Proof. unfold require. case_decide; [apply within_ret|apply within_fail]. Qed.
Lemma within_modify (f : S → S) : (∀ s, R s (f s)) → within R (modify f).
Proof. intros Hf s r s' H. injection H as <- <-. apply Hf. Qed.
Lemma within_try {A} (m : SE S A) : within R m → within R (try m).
Proof.
  intros Hm s r s' H. unfold try in H. destruct (m s) as [r1 s1] eqn:E.
  injection H as <- <-. by eapply Hm.
Qed.
Lemma within_weaken {A} (R' : relation S) (m : SE S A) :
  (∀ s s', R' s s' → R s s') → within R' m → within R m.
Proof. intros HR Hm s r s' H. by eapply HR, Hm. Qed.
End within.

Create HintDb within discriminated.
#[export] Hint Resolve within_ret within_fail within_gets within_lift within_require
  within_try : within.

(** Walks through binds and branches, closing leaves with the hints. *)
Ltac within_step :=
  lazymatch goal with
  | |- within _ (_ ≫= _) => apply within_bind; [| |intros ?]
  | |- within _ (let _ := _ in _) => cbv zeta
  | |- within _ (if decide ?P then _ else _) => destruct (decide P)
  | |- within _ (match ?x with _ => _ end) => destruct x
  | |- within _ (try _) => apply within_try
  | |- within _ (modify _) => apply within_modify; [intros ?]
  | |- PreOrder _ => typeclasses eauto
  end.
Ltac within_auto := repeat (first [solve [auto with within typeclass_instances] | within_step]).

(** *** Successful runs

    [runs m s Q]: the computation succeeds from [s], with a result and a state
    that satisfy [Q]. *)

Definition runs {S A} (m : SE S A) (s : S) (Q : A → S → Prop) : Prop :=
  ∃ a s', m s = (Ok a, s') ∧ Q a s'.

Section runs.
Context {S : Type}.
Implicit Types s : S.

Lemma runs_bind {A B} (m : SE S A) (f : A → SE S B) s Q :
  runs m s (λ a s1, runs (f a) s1 Q) → runs (m ≫= f) s Q.
Proof. intros (a & s1 & E & b & s2 & E2 & HQ). exists b, s2. by rewrite (bind_run _ _ _ _ _ E). Qed.
Lemma runs_mono {A} (m : SE S A) s (P Q : A → S → Prop) :
  runs m s P → (∀ a s', P a s' → Q a s') → runs m s Q.
Proof. intros (a & s1 & E & HP) HPQ. exists a, s1. auto. Qed.
Lemma runs_then {A B} (m : SE S A) (f : A → SE S B) s P Q :
  runs m s P → (∀ a s1, P a s1 → runs (f a) s1 Q) → runs (m ≫= f) s Q.
Proof. intros Hm Hf. by eapply runs_bind, runs_mono. Qed.
Lemma runs_ret {A} (a : A) s (Q : A → S → Prop) : Q a s → runs (mret a) s Q.
Proof. intros HQ. by exists a, s. Qed.
Lemma runs_require (P : Prop) `{Decision P} e s (Q : unit → S → Prop) :
  P → Q tt s → runs (require P e) s Q.
Proof. intros HP HQ. exists tt, s. split; [by apply require_true|done]. Qed.
Lemma runs_lift {A} (r : res A) a s (Q : A → S → Prop) : r = Ok a → Q a s → runs (lift r) s Q.
Proof. intros -> HQ. by exists a, s. Qed.
Lemma runs_try {A} (m : SE S A) s r s' (Q : res A → S → Prop) :
  m s = (r, s') → Q r s' → runs (try m) s Q.
Proof. intros E HQ. exists r, s'. split; [by apply try_run|done]. Qed.
Lemma runs_eq {A} (m : SE S A) s a s' (Q : A → S → Prop) : m s = (Ok a, s') → Q a s' → runs m s Q.
Proof. intros E HQ. by exists a, s'. Qed.
End runs.

(** Decides a closed decidable goal by evaluation. *)
Ltac by_decide := refine (bool_decide_unpack _ _); vm_compute; exact I.

(** ** Ordered reads

    [ORDER BY key ASC, tie ASC] over the rows of a table: rows sorted by two
    string keys in byte order (SQLite's BINARY collation). *)

Definition str_le (a b : string) : Prop := String.leb a b = true.
#[export] Instance str_le_dec : RelDecision str_le.
Proof. intros a b. unfold str_le. apply _. Defined.

Definition lex_le {A} (key tie : A → string) (x y : A) : Prop :=
  if decide (key x = key y) then str_le (tie x) (tie y) else str_le (key x) (key y).
#[export] Instance lex_le_dec {A} (key tie : A → string) : RelDecision (lex_le key tie).
Proof. intros x y. unfold lex_le. case_decide; apply _. Defined.

Definition order_by {A} (key tie : A → string) (l : list A) : list A :=
  merge_sort (lex_le key tie) l.

Lemma order_by_perm {A} (key tie : A → string) (l : list A) : order_by key tie l ≡ₚ l.
Proof. apply merge_sort_Permutation. Qed.

Lemma elem_of_order_by {A} (key tie : A → string) (l : list A) x :
  x ∈ order_by key tie l ↔ x ∈ l.
Proof. by rewrite order_by_perm. Qed.

#[export] Instance str_le_order : PartialOrder str_le.
Proof.
  assert (∀ a b, str_le a b ↔ String.le a b) as E.
  { intros a b. unfold str_le, String.le. by rewrite Is_true_true. }
  split; [split|].
  - intros a. apply E. reflexivity.
  - intros a b c. rewrite !E. apply transitivity.
  - intros a b. unfold str_le. apply String.leb_antisym.
Qed.
#[export] Instance str_le_total : Total str_le.
Proof. intros a b. apply String.leb_total. Qed.

Lemma ltb_le a b : String.ltb a b = true → str_le a b.
Proof. unfold String.ltb, str_le, String.leb. by destruct (String.compare a b). Qed.

Lemma not_ltb_ge a b : String.ltb a b = false ↔ str_le b a.
Proof.
  unfold String.ltb, str_le, String.leb. rewrite (String.compare_antisym a b).
  by destruct (String.compare b a).
Qed.

#[export] Instance lex_le_trans {A} (key tie : A → string) : Transitive (lex_le key tie).
Proof.
  intros x y z. unfold lex_le. intros H1 H2.
  destruct (decide (key x = key y)) as [E1|N1], (decide (key y = key z)) as [E2|N2].
  - rewrite decide_True by congruence. by etransitivity.
  - rewrite decide_False by congruence. by rewrite E1.
  - rewrite decide_False by congruence. by rewrite <- E2.
  - rewrite decide_False; [by etransitivity|]. intros E. apply N1.
    apply (anti_symm str_le); [done|by rewrite E].
Qed.
#[export] Instance lex_le_total {A} (key tie : A → string) : Total (lex_le key tie).
Proof.
  intros x y. unfold lex_le. destruct (decide (key x = key y)) as [E|N].
  - rewrite decide_True by done. apply (total str_le).
  - rewrite decide_False by done. apply (total str_le).
Qed.

Lemma lex_le_key {A} (key tie : A → string) x y : lex_le key tie x y → str_le (key x) (key y).
Proof. unfold lex_le. case_decide as E; [by rewrite E|done]. Qed.

Lemma order_by_sorted {A} (key tie : A → string) (l : list A) :
  StronglySorted (lex_le key tie) (order_by key tie l).
Proof. apply StronglySorted_merge_sort; apply _. Qed.

(** A prefix of a sorted list is below the rest. *)
Lemma sorted_take_drop {A} (R : relation A) (l : list A) n x y :
  StronglySorted R l → x ∈ take n l → y ∈ drop n l → R x y.
Proof.
  intros Hl. revert n. induction Hl as [|a l Hl IH Ha]; intros [|n] Hx Hy;
    try (by apply not_elem_of_nil in Hx).
  cbn [take drop] in *. apply list_elem_of_In in Hx as [<-|Hx].
  - rewrite Forall_forall in Ha. apply Ha.
    rewrite <- (take_drop n l). apply elem_of_app. by right.
  - apply list_elem_of_In in Hx. by eapply IH.
Qed.

(** Rows of a table that satisfy a condition, in scan order. *)
Definition table_rows {K V} `{Countable K} (P : V → Prop) `{∀ v, Decision (P v)}
    (m : gmap K V) : list V :=
  filter P (snd <$> map_to_list m).

Lemma elem_of_table_rows {K V} `{Countable K} (P : V → Prop) `{∀ v, Decision (P v)}
    (m : gmap K V) v :
  v ∈ table_rows P m ↔ P v ∧ ∃ k, m !! k = Some v.
Proof.
  unfold table_rows. rewrite list_elem_of_filter. f_equiv.
  rewrite list_elem_of_fmap. split.
  - intros ([k v'] & -> & Hin). exists k. by apply elem_of_map_to_list in Hin.
  - intros [k Hk]. exists (k, v). split; [done|]. by apply elem_of_map_to_list.
Qed.

Lemma table_rows_nil {K V} `{Countable K} (P : V → Prop) `{∀ v, Decision (P v)}
    (m : gmap K V) :
  table_rows P m = [] ↔ ∀ k v, m !! k = Some v → ¬ P v.
Proof.
  split.
  - intros E k v Hk HP. assert (v ∈ table_rows P m) as Hin.
    { apply elem_of_table_rows. split; [done|]. by exists k. }
    rewrite E in Hin. by apply not_elem_of_nil in Hin.
  - intros Hno. destruct (table_rows P m) as [|v l] eqn:E; [done|]. exfalso.
    assert (v ∈ table_rows P m) as Hin by (rewrite E; constructor).
    apply elem_of_table_rows in Hin as [HP [k Hk]]. by eapply Hno.
Qed.

(** ** Decimals *)

(** [strconv.FormatInt(n, 10)], also [%d]. *)
Definition itoa (n : Z) : string := pretty n.

Lemma itoa_inj n m : itoa n = itoa m → n = m.
Proof. unfold itoa. apply (inj pretty). Qed.
