(* ===== verification/GoTime.v ===== *)
(** * Go's [time.Time] as the program uses it

    An instant is a number of nanoseconds since the Unix epoch, so [Before],
    [After] and [Add] are [<], [>] and [+]; the zero time is the first
    instant of year 1.  [formatTime] is the store's column format
    (RFC3339Nano in UTC), which SQL compares byte by byte. *)

From S2P Require Import Prelude.

Definition time := Z.

Definition Nanosecond : Z := 1.
Definition Millisecond : Z := 1000000.
Definition Second : Z := 1000000000.
Definition Minute : Z := 60 * Second.
Definition Hour : Z := 60 * Minute.

(** [time.Time{}]: 0001-01-01T00:00:00Z. *)
Definition zero_time : time := -62135596800 * Second.
Definition IsZero (t : time) : Prop := t = zero_time.
#[export] Instance IsZero_dec t : Decision (IsZero t).
Proof. unfold IsZero. apply _. Defined.

(** Two's-complement wrap-around to [int64]. *)
Definition int64 (z : Z) : Z := (z + 2 ^ 63) mod 2 ^ 64 - 2 ^ 63.

(** [time.Unix(sec, 0)] and [t.Unix()].  A [time.Time] counts seconds since
    year 1 in an int64, so a second near the end of the range wraps. *)
Definition year1_to_unix : Z := 62135596800.
Definition Unix (sec : Z) : time := (int64 (sec + year1_to_unix) - year1_to_unix) * Second.
Definition UnixSec (t : time) : Z := int64 (t / Second).
Definition UnixMilli (ms : Z) : time := ms * Millisecond.
Definition Before (t u : time) : Prop := t < u.
Definition After (t u : time) : Prop := u < t.
#[export] Instance Before_dec t u : Decision (Before t u).
Proof. unfold Before. apply _. Defined.
#[export] Instance After_dec t u : Decision (After t u).
Proof. unfold After. apply _. Defined.

(** [Truncate(d)] rounds down to a multiple of [d] since the zero time. *)
Definition Truncate (t : time) (d : Z) : time := t - (t - zero_time) mod d.

(** ** Calendar *)

(** Days since 1970-01-01 to the proleptic Gregorian year, month and day. *)
Definition civil_from_days (days : Z) : Z * Z * Z :=
  let z := days + 719468 in
  let era := z / 146097 in
  let doe := z - era * 146097 in
  let yoe := (doe - doe / 1460 + doe / 36524 - doe / 146096) / 365 in
  let doy := doe - (365 * yoe + yoe / 4 - yoe / 100) in
  let mp := (5 * doy + 2) / 153 in
  let d := doy - (153 * mp + 2) / 5 + 1 in
  let m := if decide (mp < 10) then mp + 3 else mp - 9 in
  let y := yoe + era * 400 + (if decide (m ≤ 2) then 1 else 0) in
  (y, m, d).

Definition digit (n : Z) : ascii := Ascii.ascii_of_N (Z.to_N (48 + n mod 10)).

(** [w] decimal digits of [n], zero padded. *)
Fixpoint digits (w : nat) (n : Z) : string :=
  match w with
  | O => ""
  | S w' => digits w' (n / 10) +:+ String (digit n) ""
  end.

(** Nanosecond fraction with trailing zeros removed: nine digits of [n],
    least significant first while they are zero. *)
Fixpoint frac_digits (w : nat) (n : Z) : string :=
  match w with
  | O => ""
  | S w' => if decide (n mod 10 = 0) then frac_digits w' (n / 10) else digits w n
  end.

Definition format_fraction (ns : Z) : string :=
  if decide (ns = 0) then "" else "." +:+ frac_digits 9 ns.

Definition format_date (days : Z) : string :=
  let '(y, m, d) := civil_from_days days in
  digits 4 y +:+ "-" +:+ digits 2 m +:+ "-" +:+ digits 2 d.

Definition format_clock (sec : Z) : string :=
  digits 2 (sec / 3600) +:+ ":" +:+ digits 2 (sec / 60 mod 60) +:+ ":" +:+ digits 2 (sec mod 60).

(** [t.UTC().Format(time.RFC3339)] for years 0 to 9999. *)
Definition format_second (sec : Z) : string :=
  format_date (sec / 86400) +:+ "T" +:+ format_clock (sec mod 86400).

Definition format_rfc3339 (t : time) : string := format_second (t / Second) +:+ "Z".

(** [t.UTC().Format(time.RFC3339Nano)]. *)
Definition formatTime (t : time) : string :=
  format_second (t / Second) +:+ format_fraction (t mod Second) +:+ "Z".

(** [formatOptionalTime]: the zero time is the empty string. *)
Definition formatOptionalTime (t : time) : string :=
  if decide (IsZero t) then "" else formatTime t.

(** SQL [a < b] and [a <= b] on two time columns: byte order of the texts. *)
Definition sql_time_lt (a b : time) : Prop := String.ltb (formatTime a) (formatTime b) = true.
Definition sql_time_le (a b : time) : Prop := String.leb (formatTime a) (formatTime b) = true.
#[export] Instance sql_time_lt_dec a b : Decision (sql_time_lt a b).
Proof. unfold sql_time_lt. apply _. Defined.
#[export] Instance sql_time_le_dec a b : Decision (sql_time_le a b).
Proof. unfold sql_time_le. apply _. Defined.

Example format_zero : formatTime zero_time = "0001-01-01T00:00:00Z".
Proof. vm_compute. reflexivity. Qed.
Example format_leap : formatTime (951782400 * Second + 500000000) = "2000-02-29T00:00:00.5Z".
Proof. vm_compute. reflexivity. Qed.
Example format_late : formatTime (1789344000 * Second + 86399 * Second + 1) = "2026-09-14T23:59:59.000000001Z".
Proof. vm_compute. reflexivity. Qed.

Lemma int64_small z : - 2 ^ 63 ≤ z < 2 ^ 63 → int64 z = z.
Proof. intros. unfold int64. rewrite Z.mod_small; lia. Qed.

Lemma int64_range_int64 z : - 2 ^ 63 ≤ int64 z < 2 ^ 63.
Proof. unfold int64. pose proof (Z.mod_pos_bound (z + 2 ^ 63) (2 ^ 64)). lia. Qed.

Lemma UnixSec_Unix s : - 2 ^ 63 ≤ s < 2 ^ 63 → UnixSec (Unix s) = s.
Proof.
  intros Hs. unfold UnixSec, Unix. rewrite Z.div_mul by done. unfold int64.
  replace ((s + year1_to_unix + 2 ^ 63) mod 2 ^ 64 - 2 ^ 63 - year1_to_unix + 2 ^ 63)
    with ((s + year1_to_unix + 2 ^ 63) mod 2 ^ 64 - year1_to_unix) by lia.
  rewrite Zminus_mod_idemp_l.
  replace (s + year1_to_unix + 2 ^ 63 - year1_to_unix) with (s + 2 ^ 63) by lia.
  rewrite Z.mod_small; lia.
Qed.

Lemma Unix_small s : - 2 ^ 62 ≤ s < 2 ^ 62 → Unix s = s * Second.
Proof. intros. unfold Unix. rewrite int64_small; unfold year1_to_unix; lia. Qed.

(** The largest second is an instant before year 1. *)
Example Unix_wraps : Before (Unix (2 ^ 63 - 1)) zero_time.
Proof. vm_compute. reflexivity. Qed.
