(* ===== verification/StoreModel.v ===== *)
(** * The presentation store: rows, tables and transactions

    The rows are the Go structs of src/internal/store/store.go, field by
    field ([mp_State r] is [r.State] of a [MissionPassRecord]); a nullable
    time column is an [option time] and a nullable 32-byte hash an
    [option string].  The database is one finite map per table of
    src/internal/store/migrations, keyed by the table's primary key.
    Times are instants (formatting and parsing a column is the identity on
    them); where SQL compares a time column, the model compares its text
    ([GoTime.formatTime]).  Driver and disk failures are not modelled. *)

From S2P Require Import Prelude GoTime.

(** ** Rows *)

Record LaunchExchangeIntent := MkLaunchExchangeIntent {
  le_WorkspaceID : string;
  le_CodeHash : string;
  le_AuthorizationID : string;
  le_PassID : string;
  le_RunID : string;
  le_Status : string;
  le_AttestationDigest : string;
  le_EnvelopeDigest : string;
  le_Failure : string;
  le_CreatedAt : time;
  le_UpdatedAt : time
}.
#[export] Instance eta_LaunchExchangeIntent : Eta LaunchExchangeIntent := λ r, MkLaunchExchangeIntent
    (le_WorkspaceID r) (le_CodeHash r) (le_AuthorizationID r) (le_PassID r) (le_RunID r)
    (le_Status r) (le_AttestationDigest r) (le_EnvelopeDigest r) (le_Failure r)
    (le_CreatedAt r) (le_UpdatedAt r).
#[export] Instance LaunchExchangeIntent_eq_dec : EqDecision LaunchExchangeIntent.
Proof. solve_decision. Defined.

Record InstanceRecord := MkInstanceRecord {
  in_InstanceID : string;
  in_WorkspaceID : string;
  in_Hostname : string;
  in_Origin : string;
  in_RPID : string;
  in_SessionCookieName : string;
  in_WorkloadIdentityDigest : string;
  in_CreatedAt : time
}.
#[export] Instance eta_InstanceRecord : Eta InstanceRecord := λ r, MkInstanceRecord
    (in_InstanceID r) (in_WorkspaceID r) (in_Hostname r) (in_Origin r) (in_RPID r)
    (in_SessionCookieName r) (in_WorkloadIdentityDigest r) (in_CreatedAt r).
#[export] Instance InstanceRecord_eq_dec : EqDecision InstanceRecord.
Proof. solve_decision. Defined.

Record MissionPassRecord := MkMissionPassRecord {
  mp_WorkspaceID : string;
  mp_PassID : string;
  mp_StoreRevision : Z;
  mp_DraftVersion : Z;
  mp_AuthScopeMissionVersion : Z;
  mp_ConnectionID : string;
  mp_IssueNumber : Z;
  mp_RepositoryName : string;
  mp_ProposalID : string;
  mp_ProposalDigest : string;
  mp_ApprovedProposalDigest : string;
  mp_SourceRevision : string;
  mp_SourceDigest : string;
  mp_BaseSHA : string;
  mp_MissionBranch : string;
  mp_AgentKitID : string;
  mp_AgentKitVersion : string;
  mp_RunnerArguments : list string;
  mp_InvocationDigest : string;
  mp_ExpiresAt : time;
  mp_MaxAggregateCostMicros : Z;
  mp_Objective : string;
  mp_AcceptanceCriteria : list string;
  mp_ShapedDraftJSON : string;
  mp_State : string;
  mp_Reconciliation : string;
  mp_MissionRef : string;
  mp_MissionHash : string;
  mp_ApprovalDecisionRef : string;
  mp_AttestationDigest : string;
  mp_RunID : string;
  mp_Containment : string;
  mp_ReceiptPendingAt : time;
  mp_CreatedAt : time;
  mp_UpdatedAt : time
}.
#[export] Instance eta_MissionPassRecord : Eta MissionPassRecord := λ r, MkMissionPassRecord
    (mp_WorkspaceID r) (mp_PassID r) (mp_StoreRevision r) (mp_DraftVersion r)
    (mp_AuthScopeMissionVersion r) (mp_ConnectionID r) (mp_IssueNumber r)
    (mp_RepositoryName r) (mp_ProposalID r) (mp_ProposalDigest r)
    (mp_ApprovedProposalDigest r) (mp_SourceRevision r) (mp_SourceDigest r) (mp_BaseSHA
    r) (mp_MissionBranch r) (mp_AgentKitID r) (mp_AgentKitVersion r) (mp_RunnerArguments
    r) (mp_InvocationDigest r) (mp_ExpiresAt r) (mp_MaxAggregateCostMicros r)
    (mp_Objective r) (mp_AcceptanceCriteria r) (mp_ShapedDraftJSON r) (mp_State r)
    (mp_Reconciliation r) (mp_MissionRef r) (mp_MissionHash r) (mp_ApprovalDecisionRef
    r) (mp_AttestationDigest r) (mp_RunID r) (mp_Containment r) (mp_ReceiptPendingAt r)
    (mp_CreatedAt r) (mp_UpdatedAt r).
#[export] Instance MissionPassRecord_eq_dec : EqDecision MissionPassRecord.
Proof. solve_decision. Defined.

Record ApprovalIntentRecord := MkApprovalIntentRecord {
  ai_WorkspaceID : string;
  ai_PassID : string;
  ai_IdempotencyKey : string;
  ai_OperationRef : string;
  ai_State : string;
  ai_ChallengeID : string;
  ai_AttestationDigest : string;
  ai_AttestationJSON : string;
  ai_CreatedAt : time;
  ai_UpdatedAt : time
}.
#[export] Instance eta_ApprovalIntentRecord : Eta ApprovalIntentRecord := λ r, MkApprovalIntentRecord
    (ai_WorkspaceID r) (ai_PassID r) (ai_IdempotencyKey r) (ai_OperationRef r) (ai_State
    r) (ai_ChallengeID r) (ai_AttestationDigest r) (ai_AttestationJSON r) (ai_CreatedAt
    r) (ai_UpdatedAt r).
#[export] Instance ApprovalIntentRecord_eq_dec : EqDecision ApprovalIntentRecord.
Proof. solve_decision. Defined.

Record MissionProjection := MkMissionProjection {
  pj_WorkspaceID : string;
  pj_PassID : string;
  pj_Cursor : string;
  pj_EventSeq : Z;
  pj_MissionVersion : Z;
  pj_Compatible : bool;
  pj_Stale : bool;
  pj_IncompatibilityReason : string;
  pj_UpdatedAt : time
}.
#[export] Instance eta_MissionProjection : Eta MissionProjection := λ r, MkMissionProjection
    (pj_WorkspaceID r) (pj_PassID r) (pj_Cursor r) (pj_EventSeq r) (pj_MissionVersion r)
    (pj_Compatible r) (pj_Stale r) (pj_IncompatibilityReason r) (pj_UpdatedAt r).
#[export] Instance MissionProjection_eq_dec : EqDecision MissionProjection.
Proof. solve_decision. Defined.

Record RevocationIntentRecord := MkRevocationIntentRecord {
  ri_WorkspaceID : string;
  ri_PassID : string;
  ri_IdempotencyKey : string;
  ri_ReasonCode : string;
  ri_CanonicalDigest : string;
  ri_State : string;
  ri_Containment : string;
  ri_AttestationDigest : string;
  ri_AttestationJSON : string;
  ri_UpstreamRef : string;
  ri_CreatedAt : time;
  ri_UpdatedAt : time
}.
#[export] Instance eta_RevocationIntentRecord : Eta RevocationIntentRecord := λ r, MkRevocationIntentRecord
    (ri_WorkspaceID r) (ri_PassID r) (ri_IdempotencyKey r) (ri_ReasonCode r)
    (ri_CanonicalDigest r) (ri_State r) (ri_Containment r) (ri_AttestationDigest r)
    (ri_AttestationJSON r) (ri_UpstreamRef r) (ri_CreatedAt r) (ri_UpdatedAt r).
#[export] Instance RevocationIntentRecord_eq_dec : EqDecision RevocationIntentRecord.
Proof. solve_decision. Defined.

Record ExpansionRecord := MkExpansionRecord {
  ex_WorkspaceID : string;
  ex_ExpansionID : string;
  ex_PassID : string;
  ex_MissionRef : string;
  ex_Status : string;
  ex_DeltaJSON : string;
  ex_ExpansionDigest : string;
  ex_CreatedAt : time;
  ex_UpdatedAt : time
}.
#[export] Instance eta_ExpansionRecord : Eta ExpansionRecord := λ r, MkExpansionRecord
    (ex_WorkspaceID r) (ex_ExpansionID r) (ex_PassID r) (ex_MissionRef r) (ex_Status r)
    (ex_DeltaJSON r) (ex_ExpansionDigest r) (ex_CreatedAt r) (ex_UpdatedAt r).
#[export] Instance ExpansionRecord_eq_dec : EqDecision ExpansionRecord.
Proof. solve_decision. Defined.

Record ExpansionIntentRecord := MkExpansionIntentRecord {
  ei_WorkspaceID : string;
  ei_ExpansionID : string;
  ei_PassID : string;
  ei_IdempotencyKey : string;
  ei_Decision : string;
  ei_CanonicalDigest : string;
  ei_State : string;
  ei_AttestationDigest : string;
  ei_AttestationJSON : string;
  ei_UpstreamRef : string;
  ei_ResultMissionVersion : Z;
  ei_CreatedAt : time;
  ei_UpdatedAt : time
}.
#[export] Instance eta_ExpansionIntentRecord : Eta ExpansionIntentRecord := λ r, MkExpansionIntentRecord
    (ei_WorkspaceID r) (ei_ExpansionID r) (ei_PassID r) (ei_IdempotencyKey r)
    (ei_Decision r) (ei_CanonicalDigest r) (ei_State r) (ei_AttestationDigest r)
    (ei_AttestationJSON r) (ei_UpstreamRef r) (ei_ResultMissionVersion r) (ei_CreatedAt
    r) (ei_UpdatedAt r).
#[export] Instance ExpansionIntentRecord_eq_dec : EqDecision ExpansionIntentRecord.
Proof. solve_decision. Defined.

Record ReceiptViewRecord := MkReceiptViewRecord {
  rv_WorkspaceID : string;
  rv_PassID : string;
  rv_Verification : string;
  rv_ReasonCode : string;
  rv_ReceiptID : string;
  rv_GrantID : string;
  rv_MissionRef : string;
  rv_KeyID : string;
  rv_SignedAt : time;
  rv_ReceiptDigest : string;
  rv_SettlementDigest : string;
  rv_Outcome : string;
  rv_MissionVersionsJSON : string;
  rv_ExpansionDecisionRefsJSON : string;
  rv_RepositoryID : Z;
  rv_IssueNumber : Z;
  rv_Branch : string;
  rv_PullRequestNumber : Z;
  rv_HeadSHA : string;
  rv_ChecksJSON : string;
  rv_StartedAt : time;
  rv_FinishedAt : time;
  rv_AggregateCostMicros : Z;
  rv_BudgetMicros : Z;
  rv_HistoricalEnforcementJSON : string;
  rv_VerifiedAt : time
}.
#[export] Instance eta_ReceiptViewRecord : Eta ReceiptViewRecord := λ r, MkReceiptViewRecord
    (rv_WorkspaceID r) (rv_PassID r) (rv_Verification r) (rv_ReasonCode r) (rv_ReceiptID
    r) (rv_GrantID r) (rv_MissionRef r) (rv_KeyID r) (rv_SignedAt r) (rv_ReceiptDigest
    r) (rv_SettlementDigest r) (rv_Outcome r) (rv_MissionVersionsJSON r)
    (rv_ExpansionDecisionRefsJSON r) (rv_RepositoryID r) (rv_IssueNumber r) (rv_Branch
    r) (rv_PullRequestNumber r) (rv_HeadSHA r) (rv_ChecksJSON r) (rv_StartedAt r)
    (rv_FinishedAt r) (rv_AggregateCostMicros r) (rv_BudgetMicros r)
    (rv_HistoricalEnforcementJSON r) (rv_VerifiedAt r).
#[export] Instance ReceiptViewRecord_eq_dec : EqDecision ReceiptViewRecord.
Proof. solve_decision. Defined.

Record CheckPublicationRecord := MkCheckPublicationRecord {
  cp_WorkspaceID : string;
  cp_PassID : string;
  cp_IdempotencyKey : string;
  cp_ReceiptDigest : string;
  cp_RepositoryID : Z;
  cp_PullRequestNumber : Z;
  cp_HeadSHA : string;
  cp_BindingID : string;
  cp_State : string;
  cp_CheckRunID : string;
  cp_CreatedAt : time;
  cp_UpdatedAt : time
}.
#[export] Instance eta_CheckPublicationRecord : Eta CheckPublicationRecord := λ r, MkCheckPublicationRecord
    (cp_WorkspaceID r) (cp_PassID r) (cp_IdempotencyKey r) (cp_ReceiptDigest r)
    (cp_RepositoryID r) (cp_PullRequestNumber r) (cp_HeadSHA r) (cp_BindingID r)
    (cp_State r) (cp_CheckRunID r) (cp_CreatedAt r) (cp_UpdatedAt r).
#[export] Instance CheckPublicationRecord_eq_dec : EqDecision CheckPublicationRecord.
Proof. solve_decision. Defined.

Record CLIRevocation := MkCLIRevocation {
  cr_WorkspaceID : string;
  cr_RequestID : string;
  cr_PassID : string;
  cr_State : string;
  cr_CodeChallenge : string;
  cr_RedirectURI : string;
  cr_CanonicalDigest : string;
  cr_ReasonCode : string;
  cr_ResultRef : string;
  cr_ResultContainment : string;
  cr_CodeHash : option string;
  cr_ResultConsumedAt : option time;
  cr_ExpiresAt : time;
  cr_CreatedAt : time
}.
#[export] Instance eta_CLIRevocation : Eta CLIRevocation := λ r, MkCLIRevocation
    (cr_WorkspaceID r) (cr_RequestID r) (cr_PassID r) (cr_State r) (cr_CodeChallenge r)
    (cr_RedirectURI r) (cr_CanonicalDigest r) (cr_ReasonCode r) (cr_ResultRef r)
    (cr_ResultContainment r) (cr_CodeHash r) (cr_ResultConsumedAt r) (cr_ExpiresAt r)
    (cr_CreatedAt r).
#[export] Instance CLIRevocation_eq_dec : EqDecision CLIRevocation.
Proof. solve_decision. Defined.

Record MissionEventRecord := MkMissionEventRecord {
  me_WorkspaceID : string;
  me_PassID : string;
  me_EventID : string;
  me_EventType : string;
  me_Cursor : string;
  me_Payload : string;
  me_OccurredAt : time
}.
#[export] Instance eta_MissionEventRecord : Eta MissionEventRecord := λ r, MkMissionEventRecord
    (me_WorkspaceID r) (me_PassID r) (me_EventID r) (me_EventType r) (me_Cursor r)
    (me_Payload r) (me_OccurredAt r).
#[export] Instance MissionEventRecord_eq_dec : EqDecision MissionEventRecord.
Proof. solve_decision. Defined.

Record ConnectionRecord := MkConnectionRecord {
  co_WorkspaceID : string;
  co_ConnectionID : string;
  co_RepositoryBindingRef : string;
  co_InstallationID : Z;
  co_RepositoryID : Z;
  co_RepositoryName : string;
  co_PermissionStatus : string;
  co_VerifiedAt : time;
  co_CreatedAt : time
}.
#[export] Instance eta_ConnectionRecord : Eta ConnectionRecord := λ r, MkConnectionRecord
    (co_WorkspaceID r) (co_ConnectionID r) (co_RepositoryBindingRef r)
    (co_InstallationID r) (co_RepositoryID r) (co_RepositoryName r) (co_PermissionStatus
    r) (co_VerifiedAt r) (co_CreatedAt r).
#[export] Instance ConnectionRecord_eq_dec : EqDecision ConnectionRecord.
Proof. solve_decision. Defined.

Record GitHubHandoffRecord := MkGitHubHandoffRecord {
  gh_WorkspaceID : string;
  gh_HandoffID : string;
  gh_SessionID : string;
  gh_StateHash : string;
  gh_UpstreamHandoffID : string;
  gh_BindingCodeDigest : string;
  gh_AuthScopeOrigin : string;
  gh_ExpiresAt : time;
  gh_CallbackAt : option time;
  gh_ConsumedAt : option time
}.
#[export] Instance eta_GitHubHandoffRecord : Eta GitHubHandoffRecord := λ r, MkGitHubHandoffRecord
    (gh_WorkspaceID r) (gh_HandoffID r) (gh_SessionID r) (gh_StateHash r)
    (gh_UpstreamHandoffID r) (gh_BindingCodeDigest r) (gh_AuthScopeOrigin r)
    (gh_ExpiresAt r) (gh_CallbackAt r) (gh_ConsumedAt r).
#[export] Instance GitHubHandoffRecord_eq_dec : EqDecision GitHubHandoffRecord.
Proof. solve_decision. Defined.

Record WorkflowPostureRecord := MkWorkflowPostureRecord {
  wp_WorkspaceID : string;
  wp_ConnectionID : string;
  wp_Ref : string;
  wp_PostureDigest : string;
  wp_HeadSHA : string;
  wp_Outcome : string;
  wp_ReasonCodes : list string;
  wp_ExpiresAt : time;
  wp_CheckedAt : time
}.
#[export] Instance eta_WorkflowPostureRecord : Eta WorkflowPostureRecord := λ r, MkWorkflowPostureRecord
    (wp_WorkspaceID r) (wp_ConnectionID r) (wp_Ref r) (wp_PostureDigest r) (wp_HeadSHA
    r) (wp_Outcome r) (wp_ReasonCodes r) (wp_ExpiresAt r) (wp_CheckedAt r).
#[export] Instance WorkflowPostureRecord_eq_dec : EqDecision WorkflowPostureRecord.
Proof. solve_decision. Defined.

Record IdempotencyRecord := MkIdempotencyRecord {
  id_WorkspaceID : string;
  id_Key : string;
  id_CanonicalDigest : string
}.
#[export] Instance eta_IdempotencyRecord : Eta IdempotencyRecord := λ r, MkIdempotencyRecord
    (id_WorkspaceID r) (id_Key r) (id_CanonicalDigest r).
#[export] Instance IdempotencyRecord_eq_dec : EqDecision IdempotencyRecord.
Proof. solve_decision. Defined.

Record IdempotencyResult := MkIdempotencyResult {
  ir_Replay : bool;
  ir_Completed : bool;
  ir_Result : string
}.
#[export] Instance eta_IdempotencyResult : Eta IdempotencyResult := λ r, MkIdempotencyResult
    (ir_Replay r) (ir_Completed r) (ir_Result r).
#[export] Instance IdempotencyResult_eq_dec : EqDecision IdempotencyResult.
Proof. solve_decision. Defined.

Record FounderRecord := MkFounderRecord {
  fo_WorkspaceID : string;
  fo_FounderID : string;
  fo_DisplayName : string;
  fo_CreatedAt : time
}.
#[export] Instance eta_FounderRecord : Eta FounderRecord := λ r, MkFounderRecord
    (fo_WorkspaceID r) (fo_FounderID r) (fo_DisplayName r) (fo_CreatedAt r).
#[export] Instance FounderRecord_eq_dec : EqDecision FounderRecord.
Proof. solve_decision. Defined.

Record WebAuthnCredentialRecord := MkWebAuthnCredentialRecord {
  wc_WorkspaceID : string;
  wc_CredentialID : string;
  wc_FounderID : string;
  wc_PublicKey : string;
  wc_SignCount : Z;
  wc_Transports : string;
  wc_CreatedAt : time
}.
#[export] Instance eta_WebAuthnCredentialRecord : Eta WebAuthnCredentialRecord := λ r, MkWebAuthnCredentialRecord
    (wc_WorkspaceID r) (wc_CredentialID r) (wc_FounderID r) (wc_PublicKey r)
    (wc_SignCount r) (wc_Transports r) (wc_CreatedAt r).
#[export] Instance WebAuthnCredentialRecord_eq_dec : EqDecision WebAuthnCredentialRecord.
Proof. solve_decision. Defined.

Record SessionRecord := MkSessionRecord {
  se_WorkspaceID : string;
  se_SessionID : string;
  se_SessionHash : string;
  se_FounderID : string;
  se_CSRFTokenHash : string;
  se_CreatedAt : time;
  se_ExpiresAt : time;
  se_Revoked : bool
}.
#[export] Instance eta_SessionRecord : Eta SessionRecord := λ r, MkSessionRecord
    (se_WorkspaceID r) (se_SessionID r) (se_SessionHash r) (se_FounderID r)
    (se_CSRFTokenHash r) (se_CreatedAt r) (se_ExpiresAt r) (se_Revoked r).
#[export] Instance SessionRecord_eq_dec : EqDecision SessionRecord.
Proof. solve_decision. Defined.

Record BootstrapCodeRecord := MkBootstrapCodeRecord {
  bc_WorkspaceID : string;
  bc_CodeHash : string;
  bc_CreatedAt : time;
  bc_ExpiresAt : time;
  bc_ConsumedAt : option time
}.
#[export] Instance eta_BootstrapCodeRecord : Eta BootstrapCodeRecord := λ r, MkBootstrapCodeRecord
    (bc_WorkspaceID r) (bc_CodeHash r) (bc_CreatedAt r) (bc_ExpiresAt r) (bc_ConsumedAt
    r).
#[export] Instance BootstrapCodeRecord_eq_dec : EqDecision BootstrapCodeRecord.
Proof. solve_decision. Defined.

Record OfflineRecoveryKeyRecord := MkOfflineRecoveryKeyRecord {
  rk_WorkspaceID : string;
  rk_FounderID : string;
  rk_KeyHash : string;
  rk_CreatedAt : time
}.
#[export] Instance eta_OfflineRecoveryKeyRecord : Eta OfflineRecoveryKeyRecord := λ r, MkOfflineRecoveryKeyRecord
    (rk_WorkspaceID r) (rk_FounderID r) (rk_KeyHash r) (rk_CreatedAt r).
#[export] Instance OfflineRecoveryKeyRecord_eq_dec : EqDecision OfflineRecoveryKeyRecord.
Proof. solve_decision. Defined.

Record CLIAuthorization := MkCLIAuthorization {
  ca_WorkspaceID : string;
  ca_AuthorizationID : string;
  ca_PassID : string;
  ca_State : string;
  ca_CodeChallenge : string;
  ca_RedirectURI : string;
  ca_EphemeralPublicKey : string;
  ca_ProposalDigest : string;
  ca_InvocationDigest : string;
  ca_AgentKitID : string;
  ca_AgentKitVersion : string;
  ca_RunnerArguments : list string;
  ca_MissionRef : string;
  ca_MissionVersion : Z;
  ca_CanonicalRequestDigest : string;
  ca_DecisionChallengeID : string;
  ca_DecisionAttestationDigest : string;
  ca_CodeHash : option string;
  ca_ApprovedAt : option time;
  ca_ExpiresAt : time;
  ca_CreatedAt : time
}.
#[export] Instance eta_CLIAuthorization : Eta CLIAuthorization := λ r, MkCLIAuthorization
    (ca_WorkspaceID r) (ca_AuthorizationID r) (ca_PassID r) (ca_State r)
    (ca_CodeChallenge r) (ca_RedirectURI r) (ca_EphemeralPublicKey r) (ca_ProposalDigest
    r) (ca_InvocationDigest r) (ca_AgentKitID r) (ca_AgentKitVersion r)
    (ca_RunnerArguments r) (ca_MissionRef r) (ca_MissionVersion r)
    (ca_CanonicalRequestDigest r) (ca_DecisionChallengeID r)
    (ca_DecisionAttestationDigest r) (ca_CodeHash r) (ca_ApprovedAt r) (ca_ExpiresAt r)
    (ca_CreatedAt r).
#[export] Instance CLIAuthorization_eq_dec : EqDecision CLIAuthorization.
Proof. solve_decision. Defined.

Record RecoveryIntentRecord := MkRecoveryIntentRecord {
  rc_WorkspaceID : string;
  rc_IdempotencyKey : string;
  rc_IntentID : string;
  rc_CanonicalDigest : string;
  rc_AttestationDigest : string;
  rc_Nonce : string;
  rc_State : string;
  rc_ContainmentGeneration : Z;
  rc_RecoveryEventID : string;
  rc_RevokedSessionCount : Z;
  rc_ContainedMissionCount : Z;
  rc_BootstrapExpiresAt : time;
  rc_CreatedAt : time;
  rc_UpdatedAt : time
}.
#[export] Instance eta_RecoveryIntentRecord : Eta RecoveryIntentRecord := λ r, MkRecoveryIntentRecord
    (rc_WorkspaceID r) (rc_IdempotencyKey r) (rc_IntentID r) (rc_CanonicalDigest r)
    (rc_AttestationDigest r) (rc_Nonce r) (rc_State r) (rc_ContainmentGeneration r)
    (rc_RecoveryEventID r) (rc_RevokedSessionCount r) (rc_ContainedMissionCount r)
    (rc_BootstrapExpiresAt r) (rc_CreatedAt r) (rc_UpdatedAt r).
#[export] Instance RecoveryIntentRecord_eq_dec : EqDecision RecoveryIntentRecord.
Proof. solve_decision. Defined.

Record RecoveryEventRecord := MkRecoveryEventRecord {
  re_WorkspaceID : string;
  re_EventID : string;
  re_FounderID : string;
  re_IdempotencyKey : string;
  re_ContainedMissionCount : Z;
  re_ContainmentGeneration : Z;
  re_AttestationDigest : string;
  re_RecoveryProofDigest : string;
  re_BootstrapCodeHash : string;
  re_OccurredAt : time
}.
#[export] Instance eta_RecoveryEventRecord : Eta RecoveryEventRecord := λ r, MkRecoveryEventRecord
    (re_WorkspaceID r) (re_EventID r) (re_FounderID r) (re_IdempotencyKey r)
    (re_ContainedMissionCount r) (re_ContainmentGeneration r) (re_AttestationDigest r)
    (re_RecoveryProofDigest r) (re_BootstrapCodeHash r) (re_OccurredAt r).
#[export] Instance RecoveryEventRecord_eq_dec : EqDecision RecoveryEventRecord.
Proof. solve_decision. Defined.

Record WorkerLeaseRecord := MkWorkerLeaseRecord {
  wl_InstanceID : string;
  wl_Owner : string;
  wl_HeartbeatAt : time;
  wl_ExpiresAt : time
}.
#[export] Instance eta_WorkerLeaseRecord : Eta WorkerLeaseRecord := λ r, MkWorkerLeaseRecord
    (wl_InstanceID r) (wl_Owner r) (wl_HeartbeatAt r) (wl_ExpiresAt r).
#[export] Instance WorkerLeaseRecord_eq_dec : EqDecision WorkerLeaseRecord.
Proof. solve_decision. Defined.

(** Rows that have no Go struct of their own: [idempotency_records] and
    [mission_pass_request_keys]. *)
Record idempotency_row := Mk_idempotency_row {
  iw_canonical_digest : string;
  iw_status : string;
  iw_result : string
}.
#[export] Instance eta_idempotency_row : Eta idempotency_row := λ r, Mk_idempotency_row
    (iw_canonical_digest r) (iw_status r) (iw_result r).

Record request_key_row := Mk_request_key_row {
  rk_pass_id : string;
  rk_created_at : time
}.

(** ** Zero values

    Go's [T{}] for every record. *)

Definition zero_LaunchExchangeIntent : LaunchExchangeIntent :=
  MkLaunchExchangeIntent "" "" "" "" "" "" "" "" "" zero_time zero_time.
Definition zero_InstanceRecord : InstanceRecord :=
  MkInstanceRecord "" "" "" "" "" "" "" zero_time.
Definition zero_MissionPassRecord : MissionPassRecord :=
  MkMissionPassRecord "" "" 0 0 0 "" 0 "" "" "" "" "" "" "" "" "" "" [] "" zero_time 0
    "" [] "" "" "" "" "" "" "" "" "" zero_time zero_time zero_time.
Definition zero_ApprovalIntentRecord : ApprovalIntentRecord :=
  MkApprovalIntentRecord "" "" "" "" "" "" "" "" zero_time zero_time.
Definition zero_MissionProjection : MissionProjection :=
  MkMissionProjection "" "" "" 0 0 false false "" zero_time.
Definition zero_RevocationIntentRecord : RevocationIntentRecord :=
  MkRevocationIntentRecord "" "" "" "" "" "" "" "" "" "" zero_time zero_time.
Definition zero_ExpansionRecord : ExpansionRecord :=
  MkExpansionRecord "" "" "" "" "" "" "" zero_time zero_time.
Definition zero_ExpansionIntentRecord : ExpansionIntentRecord :=
  MkExpansionIntentRecord "" "" "" "" "" "" "" "" "" "" 0 zero_time zero_time.
Definition zero_ReceiptViewRecord : ReceiptViewRecord :=
  MkReceiptViewRecord "" "" "" "" "" "" "" "" zero_time "" "" "" "" "" 0 0 "" 0 "" ""
    zero_time zero_time 0 0 "" zero_time.
Definition zero_CheckPublicationRecord : CheckPublicationRecord :=
  MkCheckPublicationRecord "" "" "" "" 0 0 "" "" "" "" zero_time zero_time.
Definition zero_CLIRevocation : CLIRevocation :=
  MkCLIRevocation "" "" "" "" "" "" "" "" "" "" None None zero_time zero_time.
Definition zero_MissionEventRecord : MissionEventRecord :=
  MkMissionEventRecord "" "" "" "" "" "" zero_time.
Definition zero_ConnectionRecord : ConnectionRecord :=
  MkConnectionRecord "" "" "" 0 0 "" "" zero_time zero_time.
Definition zero_GitHubHandoffRecord : GitHubHandoffRecord :=
  MkGitHubHandoffRecord "" "" "" "" "" "" "" zero_time None None.
Definition zero_WorkflowPostureRecord : WorkflowPostureRecord :=
  MkWorkflowPostureRecord "" "" "" "" "" "" [] zero_time zero_time.
Definition zero_IdempotencyRecord : IdempotencyRecord :=
  MkIdempotencyRecord "" "" "".
Definition zero_IdempotencyResult : IdempotencyResult :=
  MkIdempotencyResult false false "".
Definition zero_FounderRecord : FounderRecord :=
  MkFounderRecord "" "" "" zero_time.
Definition zero_WebAuthnCredentialRecord : WebAuthnCredentialRecord :=
  MkWebAuthnCredentialRecord "" "" "" "" 0 "" zero_time.
Definition zero_SessionRecord : SessionRecord :=
  MkSessionRecord "" "" "" "" "" zero_time zero_time false.
Definition zero_BootstrapCodeRecord : BootstrapCodeRecord :=
  MkBootstrapCodeRecord "" "" zero_time zero_time None.
Definition zero_OfflineRecoveryKeyRecord : OfflineRecoveryKeyRecord :=
  MkOfflineRecoveryKeyRecord "" "" "" zero_time.
Definition zero_CLIAuthorization : CLIAuthorization :=
  MkCLIAuthorization "" "" "" "" "" "" "" "" "" "" "" [] "" 0 "" "" "" None None
    zero_time zero_time.
Definition zero_RecoveryIntentRecord : RecoveryIntentRecord :=
  MkRecoveryIntentRecord "" "" "" "" "" "" "" 0 "" 0 0 zero_time zero_time zero_time.
Definition zero_RecoveryEventRecord : RecoveryEventRecord :=
  MkRecoveryEventRecord "" "" "" "" 0 0 "" "" "" zero_time.
Definition zero_WorkerLeaseRecord : WorkerLeaseRecord :=
  MkWorkerLeaseRecord "" "" zero_time zero_time.

(** ** Fixed state names *)

Definition ApprovalIntentInFlight := "in_flight".
Definition ApprovalIntentCompleted := "completed".
Definition RevocationIntentInFlight := "in_flight".
Definition RevocationIntentCompleted := "completed".
Definition ContainmentAcknowledged := "acknowledged".
Definition ContainmentPending := "pending".
Definition ContainmentPartial := "partial".
Definition ExpansionPending := "pending".
Definition ExpansionApproved := "approved".
Definition ExpansionDenied := "denied".
Definition ExpansionExpired := "expired".
Definition ExpansionIntentInFlight := "in_flight".
Definition ExpansionIntentCompleted := "completed".
Definition ReceiptVerified := "verified".
Definition ReceiptUnverifiable := "unverifiable".
Definition CheckPublicationInFlight := "in_flight".
Definition CheckPublicationSettled := "settled".
Definition CheckPublicationDisputed := "disputed".
Definition RecoveryIntentPending := "pending".
Definition RecoveryIntentContained := "contained".
Definition RecoveryIntentVerifiedEmpty := "verified_empty".
Definition RecoveryIntentCompleted := "completed".
Definition LaunchExchangeInFlight := "in_flight".
Definition LaunchExchangeCompleted := "completed".
Definition LaunchExchangeFailed := "failed".
Definition LaunchExchangeExpired := "expired".
Definition IncompatibleProjectionReason :=
  "unknown event type: parser and pinned contract upgrade required".

(** ** The database *)

Record DB := MkDB {
  db_instance : option InstanceRecord;
  db_founders : gmap (string * string) FounderRecord;
  db_webauthn_credentials : gmap (string * string) WebAuthnCredentialRecord;
  db_sessions : gmap (string * string) SessionRecord;
  db_bootstrap_codes : gmap (string * string) BootstrapCodeRecord;
  db_offline_recovery_keys : gmap (string * string) OfflineRecoveryKeyRecord;
  db_github_connections : gmap (string * string) ConnectionRecord;
  db_github_handoffs : gmap (string * string) GitHubHandoffRecord;
  db_github_posture_checks : gmap (string * string * string) WorkflowPostureRecord;
  db_mission_passes : gmap (string * string) MissionPassRecord;
  db_mission_pass_request_keys : gmap (string * string) request_key_row;
  db_mission_events : gmap (string * string * string) MissionEventRecord;
  db_mission_projections : gmap (string * string) MissionProjection;
  db_idempotency_records : gmap (string * string) idempotency_row;
  db_approval_intents : gmap (string * string) ApprovalIntentRecord;
  db_revocation_intents : gmap (string * string) RevocationIntentRecord;
  db_expansions : gmap (string * string) ExpansionRecord;
  db_expansion_intents : gmap (string * string) ExpansionIntentRecord;
  db_receipt_views : gmap (string * string) ReceiptViewRecord;
  db_check_publications : gmap (string * string) CheckPublicationRecord;
  db_cli_authorizations : gmap (string * string) CLIAuthorization;
  db_cli_revocations : gmap (string * string) CLIRevocation;
  db_launch_exchange_intents : gmap (string * string) LaunchExchangeIntent;
  db_recovery_intents : gmap (string * string) RecoveryIntentRecord;
  db_recovery_events : gmap (string * string) RecoveryEventRecord;
  db_worker_leases : gmap string WorkerLeaseRecord
}.

#[export] Instance eta_DB : Eta DB := λ d, MkDB
  (db_instance d) (db_founders d) (db_webauthn_credentials d) (db_sessions d)
  (db_bootstrap_codes d) (db_offline_recovery_keys d) (db_github_connections d)
  (db_github_handoffs d) (db_github_posture_checks d) (db_mission_passes d)
  (db_mission_pass_request_keys d) (db_mission_events d) (db_mission_projections d)
  (db_idempotency_records d) (db_approval_intents d) (db_revocation_intents d)
  (db_expansions d) (db_expansion_intents d) (db_receipt_views d)
  (db_check_publications d) (db_cli_authorizations d) (db_cli_revocations d)
  (db_launch_exchange_intents d) (db_recovery_intents d) (db_recovery_events d)
  (db_worker_leases d).

Definition empty_DB : DB :=
  MkDB None ∅ ∅ ∅ ∅ ∅ ∅ ∅ ∅ ∅ ∅ ∅ ∅ ∅ ∅ ∅ ∅ ∅ ∅ ∅ ∅ ∅ ∅ ∅ ∅ ∅.

(** ** Transactions *)

Notation Tx := (SE DB).

(** Runs [fn] in one transaction: commit on success, rollback on error. *)
Definition WithTx {A} (fn : Tx A) : SE DB A := λ db,
  match fn db with
  | (Ok a, db') => (Ok a, db')
  | (Err e, _) => (Err e, db)
  end.

Lemma WithTx_Ok {A} (fn : Tx A) db a db' :
  WithTx fn db = (Ok a, db') ↔ fn db = (Ok a, db').
Proof. unfold WithTx. destruct (fn db) as [[]?]; naive_solver. Qed.

Lemma WithTx_Err {A} (fn : Tx A) db e db' :
  WithTx fn db = (Err e, db') ↔ db' = db ∧ ∃ db1, fn db = (Err e, db1).
Proof. unfold WithTx. destruct (fn db) as [[]?]; naive_solver. Qed.

(** [SELECT ... WHERE <primary key>]: the row, or [ErrNotFound]. *)
Definition select {K V} `{Countable K} (table : DB → gmap K V) (k : K) : Tx V :=
  λ db, match table db !! k with
        | Some r => (Ok r, db)
        | None => (Err ErrNotFound, db)
        end.

Lemma select_Ok {K V} `{Countable K} (table : DB → gmap K V) k db r db' :
  select table k db = (Ok r, db') ↔ table db !! k = Some r ∧ db' = db.
Proof. unfold select. destruct (table db !! k); naive_solver. Qed.

Lemma select_Err {K V} `{Countable K} (table : DB → gmap K V) k db e db' :
  select table k db = (Err e, db') ↔ table db !! k = None ∧ e = ErrNotFound ∧ db' = db.
Proof. unfold select. destruct (table db !! k); naive_solver. Qed.

Lemma select_run {K V} `{Countable K} (table : DB → gmap K V) k db r :
  table db !! k = Some r → select table k db = (Ok r, db).
Proof. unfold select. by intros ->. Qed.

Lemma select_none {K V} `{Countable K} (table : DB → gmap K V) k db :
  table db !! k = None → select table k db = (Err ErrNotFound, db).
Proof. unfold select. by intros ->. Qed.

Lemma within_select {K V} `{Countable K} (table : DB → gmap K V) k : within eq (select table k).
Proof. intros db r db' E. unfold select in E. by destruct (table db !! k); injection E as _ <-. Qed.
#[export] Hint Resolve within_select : within.
