(* ===== verification/StorePass.v ===== *)
(** * Store operations on passes, events, projections and idempotency keys

    src/internal/store/sqlite.go and projection_revocation.go: the
    mission-pass rows with their compare-and-swap revision, the append-only
    event rows, the forward-only projection cursor, the draft-open request
    keys and the idempotency records.  [now] is the [time.Now()] an
    operation reads for its [created_at]/[updated_at] columns. *)

From S2P Require Import Prelude GoTime StoreModel.

(** ** Mission passes *)

(** [putMissionPass]: the conditional UPDATE first, then the INSERT that
    only an expected revision of 0 reaches. *)
Definition putMissionPass (now : time) (rec : MissionPassRecord) (expectedStoreRevision : Z)
    : Tx unit :=
  _ ← require (mp_WorkspaceID rec ≠ "" ∧ mp_PassID rec ≠ "")
        (ErrOther "store: put mission pass: workspace and pass IDs are required");
  _ ← require (0 ≤ expectedStoreRevision)
        (ErrOther "store: put mission pass: negative expected revision");
  passes ← gets db_mission_passes;
  let k := (mp_WorkspaceID rec, mp_PassID rec) in
  let insert_new :=
    modify (λ db, db <| db_mission_passes :=
      <[k := rec <| mp_StoreRevision := 1 |> <| mp_UpdatedAt := now |>]> passes |>) in
  match passes !! k with
  | Some cur =>
      if decide (mp_StoreRevision cur = expectedStoreRevision) then
        modify (λ db, db <| db_mission_passes :=
          <[k := rec <| mp_StoreRevision := mp_StoreRevision cur + 1 |>
                     <| mp_CreatedAt := mp_CreatedAt cur |>
                     <| mp_UpdatedAt := now |>]> passes |>)
      else fail ErrConflict
  | None => if decide (expectedStoreRevision = 0) then insert_new else fail ErrConflict
  end.

Definition getMissionPass (workspaceID passID : string) : Tx MissionPassRecord :=
  select db_mission_passes (workspaceID, passID).

(** [ORDER BY created_at ASC, pass_id ASC]. *)
Definition listMissionPasses (workspaceID : string) : Tx (list MissionPassRecord) :=
  passes ← gets db_mission_passes;
  mret (order_by (λ r, formatTime (mp_CreatedAt r)) mp_PassID
          (table_rows (λ r, mp_WorkspaceID r = workspaceID) passes)).

(** ** Draft-open request keys *)

Definition ClaimMissionPassRequestKey (now : time) (workspaceID idempotencyKey passID : string)
    : Tx string :=
  _ ← require (workspaceID ≠ "" ∧ idempotencyKey ≠ "" ∧ passID ≠ "")
        (ErrOther "store: claim mission pass request key: workspace, key, and pass are required");
  keys ← gets db_mission_pass_request_keys;
  match keys !! (workspaceID, idempotencyKey) with
  | Some row => mret (rk_pass_id row)
  | None =>
      _ ← modify (λ db, db <| db_mission_pass_request_keys :=
            <[(workspaceID, idempotencyKey) := Mk_request_key_row passID now]> keys |>);
      mret passID
  end.

Definition GetMissionPassIDByRequestKey (workspaceID idempotencyKey : string) : Tx string :=
  keys ← gets db_mission_pass_request_keys;
  mret (default "" (rk_pass_id <$> keys !! (workspaceID, idempotencyKey))).

Definition DeleteMissionPassRequestKey (workspaceID idempotencyKey : string) : Tx unit :=
  modify (λ db, db <| db_mission_pass_request_keys :=
    delete (workspaceID, idempotencyKey) (db_mission_pass_request_keys db) |>).

Definition GetMissionPassRequestKeyClaimedAt (workspaceID idempotencyKey : string) : Tx time :=
  row ← select db_mission_pass_request_keys (workspaceID, idempotencyKey);
  mret (rk_created_at row).

(** ** Mission events *)

(** [INSERT ... ON CONFLICT DO NOTHING]: true when the event was new. *)
Definition putEventIfAbsent (rec : MissionEventRecord) : Tx bool :=
  _ ← require (me_WorkspaceID rec ≠ "" ∧ me_PassID rec ≠ "" ∧ me_EventID rec ≠ "")
        (ErrOther "store: put event: workspace, pass, and event IDs are required");
  events ← gets db_mission_events;
  let k := (me_WorkspaceID rec, me_PassID rec, me_EventID rec) in
  match events !! k with
  | Some _ => mret false
  | None =>
      _ ← modify (λ db, db <| db_mission_events := <[k := rec]> events |>);
      mret true
  end.

(** Rows of one pass strictly after a cursor, in scan order. *)
Definition events_after (workspaceID passID afterCursor : string)
    (events : gmap (string * string * string) MissionEventRecord) : list MissionEventRecord :=
  table_rows (λ r, me_WorkspaceID r = workspaceID ∧ me_PassID r = passID ∧
                   String.ltb afterCursor (me_Cursor r) = true) events.

(** [ORDER BY cursor ASC, event_id ASC LIMIT limit]. *)
Definition listMissionEvents (workspaceID passID afterCursor : string) (limit : Z)
    : Tx (list MissionEventRecord) :=
  let limit := if decide (limit ≤ 0) then 100 else limit in
  events ← gets db_mission_events;
  mret (take (Z.to_nat limit)
          (order_by me_Cursor me_EventID (events_after workspaceID passID afterCursor events))).

(** ** Event projections *)

(** SQL [CASE WHEN cur < v THEN v ELSE cur END]. *)
Definition forward_cursor (cur v : string) : string := if String.ltb cur v then v else cur.
Definition forward_int (cur v : Z) : Z := if decide (cur < v) then v else cur.

Definition advanceProjection (now : time) (workspaceID passID pageCursor : string)
    (eventSeq missionVersion : Z) : Tx unit :=
  projs ← gets db_mission_projections;
  let k := (workspaceID, passID) in
  match projs !! k with
  | Some p =>
      modify (λ db, db <| db_mission_projections :=
        <[k := p <| pj_Cursor := forward_cursor (pj_Cursor p) pageCursor |>
                 <| pj_EventSeq := forward_int (pj_EventSeq p) eventSeq |>
                 <| pj_MissionVersion := forward_int (pj_MissionVersion p) missionVersion |>
                 <| pj_Compatible := true |> <| pj_Stale := false |>
                 <| pj_UpdatedAt := now |>]> projs |>)
  | None =>
      modify (λ db, db <| db_mission_projections :=
        <[k := MkMissionProjection workspaceID passID pageCursor eventSeq missionVersion
                 true false "" now]> projs |>)
  end.

Definition advanceProjectionCursor (now : time) (workspaceID passID pageCursor : string)
    : Tx unit :=
  projs ← gets db_mission_projections;
  let k := (workspaceID, passID) in
  match projs !! k with
  | Some p =>
      if String.ltb (pj_Cursor p) pageCursor then
        modify (λ db, db <| db_mission_projections :=
          <[k := p <| pj_Cursor := pageCursor |> <| pj_Compatible := true |>
                   <| pj_Stale := false |> <| pj_UpdatedAt := now |>]> projs |>)
      else mret tt
  | None =>
      modify (λ db, db <| db_mission_projections :=
        <[k := MkMissionProjection workspaceID passID pageCursor 0 0 true false "" now]> projs |>)
  end.

Definition markProjectionIncompatible (now : time) (workspaceID passID reason : string)
    : Tx unit :=
  projs ← gets db_mission_projections;
  let k := (workspaceID, passID) in
  match projs !! k with
  | Some p =>
      modify (λ db, db <| db_mission_projections :=
        <[k := p <| pj_Compatible := false |> <| pj_Stale := true |>
                 <| pj_IncompatibilityReason := reason |> <| pj_UpdatedAt := now |>]> projs |>)
  | None =>
      modify (λ db, db <| db_mission_projections :=
        <[k := MkMissionProjection workspaceID passID "" 0 0 false true reason now]> projs |>)
  end.

Definition markProjectionCompatible (now : time) (workspaceID passID : string) : Tx unit :=
  projs ← gets db_mission_projections;
  let k := (workspaceID, passID) in
  match projs !! k with
  | Some p =>
      modify (λ db, db <| db_mission_projections :=
        <[k := p <| pj_Compatible := true |> <| pj_Stale := false |>
                 <| pj_IncompatibilityReason := "" |> <| pj_UpdatedAt := now |>]> projs |>)
  | None => fail ErrNotFound
  end.

Definition getMissionProjection (workspaceID passID : string) : Tx MissionProjection :=
  select db_mission_projections (workspaceID, passID).

(** ** Idempotency records *)

Definition beginIdempotency (rec : IdempotencyRecord) : Tx IdempotencyResult :=
  _ ← require (id_WorkspaceID rec ≠ "" ∧ id_Key rec ≠ "" ∧ id_CanonicalDigest rec ≠ "")
        (ErrOther "store: begin idempotency: workspace, key, and digest are required");
  rows ← gets db_idempotency_records;
  let k := (id_WorkspaceID rec, id_Key rec) in
  match rows !! k with
  | None =>
      _ ← modify (λ db, db <| db_idempotency_records :=
            <[k := Mk_idempotency_row (id_CanonicalDigest rec) "inflight" ""]> rows |>);
      mret (MkIdempotencyResult false false "")
  | Some row =>
      _ ← require (iw_canonical_digest row = id_CanonicalDigest rec) ErrIdempotencyMismatch;
      mret (MkIdempotencyResult true (bool_decide (iw_status row = "completed")) (iw_result row))
  end.

Definition completeIdempotency (workspaceID key result : string) : Tx unit :=
  rows ← gets db_idempotency_records;
  match rows !! (workspaceID, key) with
  | None => fail ErrNotFound
  | Some row =>
      _ ← require (iw_status row = "inflight") ErrConflict;
      modify (λ db, db <| db_idempotency_records :=
        <[(workspaceID, key) := row <| iw_status := "completed" |>
                                    <| iw_result := result |>]> rows |>)
  end.

(** ** Compare-and-swap on pass rows *)

(** The revision a writer must present: 0 for a pass that does not exist. *)
Definition stored_revision (db : DB) (k : string * string) : Z :=
  default 0 (mp_StoreRevision <$> db_mission_passes db !! k).

(** Rows written by the store carry a positive revision and sit at their key. *)
Definition passes_wf (db : DB) : Prop :=
  map_Forall (λ k r, k = (mp_WorkspaceID r, mp_PassID r) ∧ 1 ≤ mp_StoreRevision r)
    (db_mission_passes db).

(** What a write replaces of the caller's record: the three columns the
    store owns. *)
Definition stamped (now : time) (rev : Z) (created : time) (rec : MissionPassRecord) :=
  rec <| mp_StoreRevision := rev |> <| mp_CreatedAt := created |> <| mp_UpdatedAt := now |>.

Definition pass_ids_ok (rec : MissionPassRecord) : Prop :=
  mp_WorkspaceID rec ≠ "" ∧ mp_PassID rec ≠ "".
#[export] Instance pass_ids_ok_dec rec : Decision (pass_ids_ok rec).
Proof. unfold pass_ids_ok. apply _. Defined.

Definition pass_key (rec : MissionPassRecord) : string * string :=
  (mp_WorkspaceID rec, mp_PassID rec).

Lemma putMissionPass_run now rec rev db :
  pass_ids_ok rec → 0 ≤ rev → passes_wf db →
  putMissionPass now rec rev db =
    if decide (stored_revision db (pass_key rec) = rev) then
      (Ok tt, db <| db_mission_passes :=
         <[pass_key rec := stamped now (rev + 1)
             (default (mp_CreatedAt rec)
                (mp_CreatedAt <$> db_mission_passes db !! pass_key rec)) rec]>
           (db_mission_passes db) |>)
    else (Err ErrConflict, db).
Proof.
  intros Hids Hrev Hwf. unfold putMissionPass, stored_revision, pass_key.
  rewrite !require_then, gets_then by done. cbv zeta.
  destruct (db_mission_passes db !! _) as [cur|] eqn:E; cbn.
  - by destruct (decide (mp_StoreRevision cur = rev)) as [<-|].
  - destruct (decide (rev = 0)) as [->|]; [by rewrite decide_True|by rewrite decide_False by congruence].
Qed.

Lemma putMissionPass_bad now rec rev db :
  ¬ (pass_ids_ok rec ∧ 0 ≤ rev) → ∃ msg, putMissionPass now rec rev db = (Err (ErrOther msg), db).
Proof.
  intros H. unfold putMissionPass. destruct (decide (pass_ids_ok rec)) as [Hi|Hi].
  - rewrite require_then by done. eexists. apply require_else. tauto.
  - eexists. by apply require_else.
Qed.

Lemma putMissionPass_Ok now rec rev db u db' :
  putMissionPass now rec rev db = (Ok u, db') →
  pass_ids_ok rec ∧ stored_revision db (pass_key rec) = rev ∧ 0 ≤ rev ∧
  db' = db <| db_mission_passes :=
    <[pass_key rec := stamped now (rev + 1)
        (default (mp_CreatedAt rec)
           (mp_CreatedAt <$> db_mission_passes db !! pass_key rec)) rec]>
      (db_mission_passes db) |>.
Proof.
  intros H. unfold putMissionPass in H. unfold stored_revision, pass_key.
  op_inv H.
  all: subst; split_and!; try done; by destruct rec.
Qed.

Lemma putMissionPass_Err now rec rev db e db' :
  passes_wf db → putMissionPass now rec rev db = (Err e, db') → db' = db.
Proof.
  intros Hwf H. destruct (decide (pass_ids_ok rec ∧ 0 ≤ rev)) as [[Hi Hr]|N].
  - rewrite putMissionPass_run in H by done. case_decide; by simplify_eq.
  - apply (putMissionPass_bad now rec rev db) in N as [? ?]. congruence.
Qed.

Lemma putMissionPass_wf now rec rev db r db' :
  passes_wf db → putMissionPass now rec rev db = (r, db') → passes_wf db'.
Proof.
  intros Hwf H. destruct r as [u|e].
  - apply putMissionPass_Ok in H as (Hi & Hs & Hr & ->).
    intros k row. cbn [db_mission_passes upd]. rewrite lookup_insert_Some.
    intros [[<- <-]|[_ Hrow]]; [|by apply Hwf].
    split; [done|]. cbn. lia.
  - by apply putMissionPass_Err in H as ->.
Qed.

(** A history of writes by any number of writers, each with the revision it
    read, at any times: the interleaving is the order of the list. *)
Record pass_write := Mk_pass_write { pw_now : time; pw_rec : MissionPassRecord; pw_rev : Z }.

Inductive pass_step : DB → DB → Prop :=
  | pass_step_put w r db db' :
      putMissionPass (pw_now w) (pw_rec w) (pw_rev w) db = (r, db') → pass_step db db'.

Lemma pass_step_wf db db' : pass_step db db' → passes_wf db → passes_wf db'.
Proof. intros [w r ? ? H] Hwf. by eapply putMissionPass_wf. Qed.

Lemma stored_revision_insert db k k' row :
  stored_revision (db <| db_mission_passes := <[k := row]> (db_mission_passes db) |>) k' =
    if decide (k = k') then mp_StoreRevision row else stored_revision db k'.
Proof.
  unfold stored_revision. cbn [db_mission_passes upd]. case_decide as E.
  - subst. by rewrite lookup_insert_eq.
  - by rewrite lookup_insert_ne.
Qed.

Lemma pass_step_revision db db' k :
  pass_step db db' → passes_wf db → stored_revision db k ≤ stored_revision db' k.
Proof.
  intros [w r ? ? H] Hwf. destruct r as [u|e].
  - apply putMissionPass_Ok in H as (_ & Hs & _ & ->).
    rewrite stored_revision_insert. case_decide as E; [|lia]. subst k. cbn. lia.
  - by apply putMissionPass_Err in H as ->.
Qed.

Lemma pass_history db db' k :
  rtc pass_step db db' → passes_wf db →
  passes_wf db' ∧ stored_revision db k ≤ stored_revision db' k.
Proof.
  induction 1 as [db|db db1 db' Hs _ IH]; intros Hwf; [done|].
  pose proof (pass_step_revision _ _ k Hs Hwf). apply pass_step_wf in Hs; [|done].
  apply IH in Hs as [? ?]. split; [done|lia].
Qed.

(** C31: [PutMissionPass] is a compare-and-swap on the pass's store revision:
    it succeeds exactly when the presented revision is the stored one (0 for
    a new pass), then stores the record at revision + 1 with the original
    creation time and changes nothing else; otherwise it reports
    [ErrConflict] and leaves the database as it was. *)
Theorem putMissionPass_compare_and_swap now rec rev db :
  passes_wf db → pass_ids_ok rec → 0 ≤ rev →
  match putMissionPass now rec rev db with
  | (Ok _, db') =>
      stored_revision db (pass_key rec) = rev ∧
      stored_revision db' (pass_key rec) = rev + 1 ∧
      (∃ row, db' = db <| db_mission_passes := <[pass_key rec := row]> (db_mission_passes db) |> ∧
         row = stamped now (mp_StoreRevision row) (mp_CreatedAt row) rec ∧
         mp_CreatedAt row = default (mp_CreatedAt rec)
           (mp_CreatedAt <$> db_mission_passes db !! pass_key rec)) ∧
      passes_wf db'
  | (Err e, db') => stored_revision db (pass_key rec) ≠ rev ∧ e = ErrConflict ∧ db' = db
  end.
Proof.
  intros Hwf Hi Hr. destruct (putMissionPass now rec rev db) as [r db'] eqn:H.
  pose proof (putMissionPass_wf _ _ _ _ _ _ Hwf H) as Hwf'.
  rewrite putMissionPass_run in H by done.
  case_decide as E; injection H as <- <-; [|done].
  split; [done|]. split; [by rewrite stored_revision_insert, decide_True|].
  split; [|done]. eexists. split; [done|]. by split.
Qed.

(** No lost update: once a write at revision [rev] has succeeded, every
    later write of the same pass that presents the same revision conflicts,
    whatever other writes happen in between. *)
Theorem putMissionPass_no_lost_update now1 now2 rec1 rec2 rev u db db1 db2 :
  passes_wf db → pass_key rec1 = pass_key rec2 →
  putMissionPass now1 rec1 rev db = (Ok u, db1) →
  rtc pass_step db1 db2 →
  putMissionPass now2 rec2 rev db2 = (Err ErrConflict, db2).
Proof.
  intros Hwf Hk H1 Hsteps. pose proof (putMissionPass_wf _ _ _ _ _ _ Hwf H1) as Hwf1.
  apply putMissionPass_Ok in H1 as (Hi & Hs & Hr & E1).
  destruct (pass_history _ _ (pass_key rec1) Hsteps Hwf1) as [Hwf2 Hle].
  rewrite E1, stored_revision_insert, decide_True in Hle by done. cbn in Hle.
  assert (pass_ids_ok rec2) as Hi2.
  { unfold pass_ids_ok, pass_key in *. injection Hk as <- <-. done. }
  rewrite putMissionPass_run by done. rewrite decide_False; [done|]. rewrite <- Hk. lia.
Qed.

Definition sample_pass : MissionPassRecord :=
  zero_MissionPassRecord <| mp_WorkspaceID := "ws" |> <| mp_PassID := "pass-1" |>
    <| mp_State := "draft" |>.

Lemma empty_passes_wf : passes_wf empty_DB.
Proof. apply map_Forall_empty. Qed.

Lemma putMissionPass_compare_and_swap_witness :
  stored_revision empty_DB (pass_key sample_pass) = 0 ∧
  match putMissionPass 5 sample_pass 0 empty_DB with
  | (Ok _, db') => stored_revision db' (pass_key sample_pass) = 1
  | (Err _, _) => False
  end.
Proof.
  split; [reflexivity|].
  pose proof (putMissionPass_compare_and_swap 5 sample_pass 0 empty_DB empty_passes_wf
    ltac:(split; discriminate) ltac:(lia)) as H.
  destruct (putMissionPass 5 sample_pass 0 empty_DB) as [[u|e] db'].
  - exact (proj1 (proj2 H)).
  - exact (proj1 H eq_refl).
Defined.

Lemma putMissionPass_no_lost_update_witness :
  let db1 := (putMissionPass 5 sample_pass 0 empty_DB).2 in
  let db2 := (putMissionPass 6 (sample_pass <| mp_PassID := "pass-2" |>) 0 db1).2 in
  putMissionPass 7 sample_pass 0 db2 = (Err ErrConflict, db2).
Proof.
  intros db1 db2.
  apply (putMissionPass_no_lost_update 5 7 sample_pass sample_pass 0 tt empty_DB db1 db2).
  - exact empty_passes_wf.
  - reflexivity.
  - vm_compute. reflexivity.
  - apply rtc_once.
    exact (pass_step_put (Mk_pass_write 6 (sample_pass <| mp_PassID := "pass-2" |>) 0)
             (putMissionPass 6 (sample_pass <| mp_PassID := "pass-2" |>) 0 db1).1 db1 db2
             (surjective_pairing _)).
Defined.

(** ** Events are append-only and replay-safe *)

Definition event_key (rec : MissionEventRecord) : string * string * string :=
  (me_WorkspaceID rec, me_PassID rec, me_EventID rec).
Definition event_ids_ok (rec : MissionEventRecord) : Prop :=
  me_WorkspaceID rec ≠ "" ∧ me_PassID rec ≠ "" ∧ me_EventID rec ≠ "".

Lemma putEventIfAbsent_run rec db :
  event_ids_ok rec →
  putEventIfAbsent rec db =
    match db_mission_events db !! event_key rec with
    | Some _ => (Ok false, db)
    | None => (Ok true, db <| db_mission_events :=
                 <[event_key rec := rec]> (db_mission_events db) |>)
    end.
Proof.
  intros Hi. unfold putEventIfAbsent. rewrite require_then, gets_then by done.
  cbv zeta. unfold event_key. by destruct (db_mission_events db !! _).
Qed.

Lemma putEventIfAbsent_Ok rec db b db' :
  putEventIfAbsent rec db = (Ok b, db') →
  event_ids_ok rec ∧ b = bool_decide (db_mission_events db !! event_key rec = None) ∧
  is_Some (db_mission_events db' !! event_key rec) ∧
  (∀ k r, db_mission_events db !! k = Some r → db_mission_events db' !! k = Some r) ∧
  (b = false → db' = db).
Proof.
  intros H. assert (event_ids_ok rec) as Hi.
  { unfold putEventIfAbsent in H. run_inv. done. }
  rewrite putEventIfAbsent_run in H by done.
  destruct (db_mission_events db !! event_key rec) as [r|] eqn:E; injection H as <- <-.
  - by rewrite bool_decide_false by done.
  - cbn [db_mission_events upd]. rewrite bool_decide_true, lookup_insert_eq by done.
    split_and!; eauto; [|done]. intros k r Hk. rewrite lookup_insert_ne; [done|congruence].
Qed.

(** The events of one or more pages, put in order in one transaction. *)
Fixpoint put_events (recs : list MissionEventRecord) : Tx (list bool) :=
  match recs with
  | [] => mret []
  | rec :: recs' => b ← putEventIfAbsent rec; bs ← put_events recs'; mret (b :: bs)
  end.

Lemma put_events_Ok recs db bs db' :
  put_events recs db = (Ok bs, db') →
  length bs = length recs ∧
  Forall (λ rec, event_ids_ok rec ∧ is_Some (db_mission_events db' !! event_key rec)) recs ∧
  (∀ k r, db_mission_events db !! k = Some r → db_mission_events db' !! k = Some r).
Proof.
  revert db bs. induction recs as [|rec recs IH]; intros db bs H; cbn [put_events] in H.
  - run_inv. split_and!; [done|constructor|done].
  - apply bind_Ok in H as (b & db1 & H1 & H). apply bind_Ok in H as (bs' & db2 & H2 & H).
    run_inv. apply IH in H2 as (Hl & Hall & Hkeep).
    apply putEventIfAbsent_Ok in H1 as (Hi & _ & [r Hr] & Hk & _).
    split_and!; [by rewrite length_cons, Hl| |auto].
    constructor; [|done]. split; [done|]. exists r. by apply Hkeep.
Qed.

Lemma put_events_present recs db :
  Forall (λ rec, event_ids_ok rec ∧ is_Some (db_mission_events db !! event_key rec)) recs →
  put_events recs db = (Ok ((λ _, false) <$> recs), db).
Proof.
  induction 1 as [|rec recs [Hi [r Hr]] _ IH]; [done|]. cbn [put_events].
  rewrite (bind_run _ _ _ false db) by (by rewrite putEventIfAbsent_run, Hr).
  by rewrite (bind_run _ _ _ _ _ IH).
Qed.

(** Replaying events is idempotent and history is append-only: after a
    page of events was stored, storing any events drawn from that page again
    reports every one as already present and changes nothing; and storing
    never alters or removes an event that was there before. *)
Theorem put_events_replay recs again db bs db' :
  put_events recs db = (Ok bs, db') → again ⊆ recs →
  put_events again db' = (Ok ((λ _, false) <$> again), db') ∧
  (∀ k r, db_mission_events db !! k = Some r → db_mission_events db' !! k = Some r).
Proof.
  intros H Hsub. apply put_events_Ok in H as (_ & Hall & Hkeep). split; [|done].
  apply put_events_present. rewrite Forall_forall in Hall |- *. auto.
Qed.

Definition sample_event : MissionEventRecord :=
  zero_MissionEventRecord <| me_WorkspaceID := "ws" |> <| me_PassID := "pass-1" |>
    <| me_EventID := "e1" |> <| me_Cursor := "00000000000000000001" |>.

Lemma put_events_replay_witness :
  let db1 := (put_events [sample_event] empty_DB).2 in
  put_events [sample_event; sample_event] db1 = (Ok [false; false], db1).
Proof.
  intros db1.
  apply (put_events_replay [sample_event] [sample_event; sample_event] empty_DB [true] db1).
  - vm_compute. reflexivity.
  - intros x Hx. repeat (apply elem_of_cons in Hx as [->|Hx]; [constructor|]).
    by apply not_elem_of_nil in Hx.
Defined.

(** *** Paging *)

Lemma listMissionEvents_run ws pass cur limit db :
  listMissionEvents ws pass cur limit db =
    (Ok (take (Z.to_nat (if decide (limit ≤ 0) then 100 else limit))
          (order_by me_Cursor me_EventID (events_after ws pass cur (db_mission_events db)))), db).
Proof. done. Qed.

(** A page of events is a bounded, cursor-ordered window that skips
    nothing: every event listed belongs to the pass and lies strictly after
    the cursor, the page is sorted and within the limit (100 when the limit
    is not positive), and every stored event after the cursor that the page
    leaves out comes at or after all the listed ones, and only when the page
    is full. *)
Theorem listMissionEvents_window ws pass cur limit db :
  let n := Z.to_nat (if decide (limit ≤ 0) then 100 else limit) in
  ∃ page, listMissionEvents ws pass cur limit db = (Ok page, db) ∧
    (length page ≤ n)%nat ∧
    StronglySorted (lex_le me_Cursor me_EventID) page ∧
    (∀ e, e ∈ page → me_WorkspaceID e = ws ∧ me_PassID e = pass ∧
       String.ltb cur (me_Cursor e) = true ∧ ∃ k, db_mission_events db !! k = Some e) ∧
    (∀ k e, db_mission_events db !! k = Some e → me_WorkspaceID e = ws → me_PassID e = pass →
       String.ltb cur (me_Cursor e) = true → e ∉ page →
       length page = n ∧ ∀ x, x ∈ page → lex_le me_Cursor me_EventID x e).
Proof.
  intros n. rewrite listMissionEvents_run. fold n. eexists. split; [done|].
  set (all := order_by _ _ _).
  assert (∀ e, e ∈ all ↔ (me_WorkspaceID e = ws ∧ me_PassID e = pass ∧
       String.ltb cur (me_Cursor e) = true) ∧ ∃ k, db_mission_events db !! k = Some e) as Hin.
  { intros e. unfold all, events_after. by rewrite elem_of_order_by, elem_of_table_rows. }
  pose proof (order_by_sorted me_Cursor me_EventID
    (events_after ws pass cur (db_mission_events db)) : StronglySorted _ all) as Hsort.
  split_and!.
  - rewrite length_take. lia.
  - rewrite <- (take_drop n all) in Hsort. by apply StronglySorted_app_1_l in Hsort.
  - intros e He. assert (e ∈ all) as Ha by (rewrite <- (take_drop n all); apply elem_of_app; by left).
    apply Hin in Ha as [(?&?&?) ?]. done.
  - intros k e Hk Hw Hp Hc Hn. assert (e ∈ drop n all) as Hd.
    { assert (e ∈ all) as Ha by (apply Hin; eauto).
      rewrite <- (take_drop n all) in Ha. apply elem_of_app in Ha as [|]; done. }
    split; [|intros x Hx; by eapply sorted_take_drop].
    rewrite length_take. assert (drop n all ≠ []) as Hne by (intros E; rewrite E in Hd; inversion Hd).
    destruct (decide (length all ≤ n)%nat) as [Hl|Hl]; [|lia].
    by rewrite drop_ge in Hne.
Qed.

(** ** Projections move forward only *)

Inductive projection_step : DB → DB → Prop :=
  | ps_advance now ws pass cur seq ver r db db' :
      advanceProjection now ws pass cur seq ver db = (r, db') → projection_step db db'
  | ps_cursor now ws pass cur r db db' :
      advanceProjectionCursor now ws pass cur db = (r, db') → projection_step db db'
  | ps_incompatible now ws pass reason r db db' :
      markProjectionIncompatible now ws pass reason db = (r, db') → projection_step db db'
  | ps_compatible now ws pass r db db' :
      markProjectionCompatible now ws pass db = (r, db') → projection_step db db'.

(** [p'] is at or past [p]. *)
Definition proj_le (p p' : MissionProjection) : Prop :=
  str_le (pj_Cursor p) (pj_Cursor p') ∧ pj_EventSeq p ≤ pj_EventSeq p' ∧
  pj_MissionVersion p ≤ pj_MissionVersion p'.

#[export] Instance proj_le_preorder : PreOrder proj_le.
Proof.
  split.
  - intros p. split_and!; [reflexivity|lia|lia].
  - intros p q r (?&?&?) (?&?&?). split_and!; [by etransitivity|lia|lia].
Qed.

Lemma forward_cursor_ge cur v : str_le cur (forward_cursor cur v) ∧ str_le v (forward_cursor cur v).
Proof.
  unfold forward_cursor. destruct (String.ltb cur v) eqn:E.
  - split; [by apply ltb_le|reflexivity].
  - split; [reflexivity|by apply not_ltb_ge].
Qed.

Lemma forward_int_max cur v : forward_int cur v = Z.max cur v.
Proof. unfold forward_int. case_decide; lia. Qed.

(** One row changes, to one at or past the old. *)
Lemma insert_proj_forward db k (row : MissionProjection) :
  (∀ p, db_mission_projections db !! k = Some p → proj_le p row) →
  ∀ k' p, db_mission_projections db !! k' = Some p →
    ∃ p', db_mission_projections (db <| db_mission_projections :=
            <[k := row]> (db_mission_projections db) |>) !! k' = Some p' ∧ proj_le p p'.
Proof.
  intros Hrow k' p Hp. cbn [db_mission_projections upd].
  destruct (decide (k = k')) as [<-|N].
  - rewrite lookup_insert_eq. eauto.
  - rewrite lookup_insert_ne by done. exists p. split; [done|reflexivity].
Qed.

Ltac projection_case E :=
  match goal with
  | H : context [match db_mission_projections ?db !! ?k with _ => _ end] |- _ =>
      destruct (db_mission_projections db !! k) as [?p|] eqn:E
  end.

Lemma projection_step_forward db db' : projection_step db db' →
  ∀ k p, db_mission_projections db !! k = Some p →
    ∃ p', db_mission_projections db' !! k = Some p' ∧ proj_le p p'.
Proof.
  intros [now ws pass cur seq ver r ? ? H|now ws pass cur r ? ? H|
          now ws pass reason r ? ? H|now ws pass r ? ? H].
  1: unfold advanceProjection in H. 2: unfold advanceProjectionCursor in H.
  3: unfold markProjectionIncompatible in H. 4: unfold markProjectionCompatible in H.
  all: rewrite gets_then in H; projection_case E; try destruct (String.ltb _ _) eqn:C;
    try (injection H as <- <-); try (intros k q Hq; exists q; split; [done|reflexivity]);
    apply insert_proj_forward; rewrite E; intros q [= <-]; unfold proj_le;
    cbn [pj_Cursor pj_EventSeq pj_MissionVersion upd];
    rewrite ?forward_int_max; split_and!; try lia; try reflexivity.
  - apply forward_cursor_ge.
  - by apply ltb_le.
Qed.

(** A pass's projection never regresses: through any history of page
    advances, cursor advances and compatibility marks, its cursor, event
    sequence and mission version only grow, and the row never disappears. *)
Theorem projection_history_forward db db' k p :
  rtc projection_step db db' → db_mission_projections db !! k = Some p →
  ∃ p', db_mission_projections db' !! k = Some p' ∧
    str_le (pj_Cursor p) (pj_Cursor p') ∧ pj_EventSeq p ≤ pj_EventSeq p' ∧
    pj_MissionVersion p ≤ pj_MissionVersion p'.
Proof.
  intros Hs. revert p. induction Hs as [|db db1 db' H1 _ IH]; intros p Hp.
  - exists p. split_and!; [done|reflexivity|lia|lia].
  - destruct (projection_step_forward _ _ H1 _ _ Hp) as (p1 & Hp1 & ? & ? & ?).
    destruct (IH _ Hp1) as (p' & ? & ? & ? & ?). exists p'.
    split_and!; [done|by etransitivity|lia|lia].
Qed.

Lemma projection_history_forward_witness :
  let db1 := (advanceProjection 1 "ws" "p" "05" 5 2 empty_DB).2 in
  let db2 := (advanceProjection 2 "ws" "p" "03" 3 1 db1).2 in
  let db3 := (markProjectionIncompatible 3 "ws" "p" "x" db2).2 in
  ∃ p', db_mission_projections db3 !! ("ws", "p") = Some p' ∧
    str_le "05" (pj_Cursor p') ∧ 5 ≤ pj_EventSeq p' ∧ 2 ≤ pj_MissionVersion p'.
Proof.
  intros db1 db2 db3.
  apply (projection_history_forward db1 db3 ("ws", "p")
           (MkMissionProjection "ws" "p" "05" 5 2 true false "" 1)).
  - apply rtc_l with db2; [eapply ps_advance; apply surjective_pairing|].
    apply rtc_once. eapply ps_incompatible; apply surjective_pairing.
  - vm_compute. reflexivity.
Defined.

(** [AdvanceProjection] stores exactly the pointwise maximum of what was
    recorded and the page's cursor, sequence and version, and marks the
    projection compatible and fresh. *)
Theorem advanceProjection_max now ws pass cur seq ver db :
  ∃ p', advanceProjection now ws pass cur seq ver db =
      (Ok tt, db <| db_mission_projections :=
         <[(ws, pass) := p']> (db_mission_projections db) |>) ∧
    pj_Compatible p' = true ∧ pj_Stale p' = false ∧
    match db_mission_projections db !! (ws, pass) with
    | None => pj_Cursor p' = cur ∧ pj_EventSeq p' = seq ∧ pj_MissionVersion p' = ver
    | Some p =>
        pj_EventSeq p' = Z.max (pj_EventSeq p) seq ∧
        pj_MissionVersion p' = Z.max (pj_MissionVersion p) ver ∧
        (pj_Cursor p' = pj_Cursor p ∨ pj_Cursor p' = cur) ∧
        str_le (pj_Cursor p) (pj_Cursor p') ∧ str_le cur (pj_Cursor p')
    end.
Proof.
  unfold advanceProjection. rewrite gets_then. cbv zeta.
  destruct (db_mission_projections db !! (ws, pass)) as [p|].
  - eexists. split; [reflexivity|].
    cbn [pj_Cursor pj_EventSeq pj_MissionVersion pj_Compatible pj_Stale upd].
    rewrite !forward_int_max. split_and!; try done; try apply forward_cursor_ge.
    unfold forward_cursor. destruct (String.ltb _ _); auto.
  - eexists. split; [reflexivity|]. done.
Qed.

(** ** Idempotency records *)

Inductive idempotency_step : DB → DB → Prop :=
  | is_begin rec r db db' : beginIdempotency rec db = (r, db') → idempotency_step db db'
  | is_complete ws key result r db db' :
      completeIdempotency ws key result db = (r, db') → idempotency_step db db'.

Lemma beginIdempotency_run rec db :
  id_WorkspaceID rec ≠ "" → id_Key rec ≠ "" → id_CanonicalDigest rec ≠ "" →
  beginIdempotency rec db =
    match db_idempotency_records db !! (id_WorkspaceID rec, id_Key rec) with
    | None => (Ok (MkIdempotencyResult false false ""),
               db <| db_idempotency_records :=
                 <[(id_WorkspaceID rec, id_Key rec) :=
                    Mk_idempotency_row (id_CanonicalDigest rec) "inflight" ""]>
                   (db_idempotency_records db) |>)
    | Some row =>
        if decide (iw_canonical_digest row = id_CanonicalDigest rec)
        then (Ok (MkIdempotencyResult true (bool_decide (iw_status row = "completed"))
                    (iw_result row)), db)
        else (Err ErrIdempotencyMismatch, db)
    end.
Proof.
  intros. unfold beginIdempotency. rewrite require_then, gets_then by done. cbv zeta.
  destruct (db_idempotency_records db !! _) as [row|]; [|done].
  case_decide; [by rewrite require_then|by rewrite require_else].
Qed.

Lemma completeIdempotency_run ws key result db :
  completeIdempotency ws key result db =
    match db_idempotency_records db !! (ws, key) with
    | None => (Err ErrNotFound, db)
    | Some row =>
        if decide (iw_status row = "inflight")
        then (Ok tt, db <| db_idempotency_records :=
                <[(ws, key) := row <| iw_status := "completed" |> <| iw_result := result |>]>
                  (db_idempotency_records db) |>)
        else (Err ErrConflict, db)
    end.
Proof.
  unfold completeIdempotency. rewrite gets_then.
  destruct (db_idempotency_records db !! _) as [row|]; [|done].
  case_decide; [by rewrite require_then|by rewrite require_else].
Qed.

Lemma beginIdempotency_bad rec db :
  ¬ (id_WorkspaceID rec ≠ "" ∧ id_Key rec ≠ "" ∧ id_CanonicalDigest rec ≠ "") →
  (beginIdempotency rec db).2 = db.
Proof. intros H. unfold beginIdempotency. by rewrite require_else. Qed.

Lemma idempotency_step_keeps db db' k row :
  idempotency_step db db' → db_idempotency_records db !! k = Some row →
  ∃ row', db_idempotency_records db' !! k = Some row' ∧
    iw_canonical_digest row' = iw_canonical_digest row ∧
    (iw_status row = "completed" → row' = row).
Proof.
  intros [rec r db0 db1 H|ws key result r db0 db1 H] Hk.
  - destruct (decide (id_WorkspaceID rec ≠ "" ∧ id_Key rec ≠ "" ∧ id_CanonicalDigest rec ≠ ""))
      as [(?&?&?)|N].
    + rewrite beginIdempotency_run in H by done.
      match type of H with context [db_idempotency_records ?d !! ?x] =>
        destruct (db_idempotency_records d !! x) as [row1|] eqn:E end.
      * case_decide; injection H as <- <-; eauto.
      * injection H as <- <-. exists row. cbn [db_idempotency_records upd].
        rewrite lookup_insert_ne by congruence. done.
    + apply (beginIdempotency_bad rec db0) in N. rewrite H in N. cbn in N. subst. eauto.
  - rewrite completeIdempotency_run in H.
    match type of H with context [db_idempotency_records ?d !! ?x] =>
      destruct (db_idempotency_records d !! x) as [row1|] eqn:E end;
      [case_decide as D|]; injection H as <- <-; try (by eauto).
    cbn [db_idempotency_records upd]. destruct (decide ((ws, key) = k)) as [<-|N].
    + rewrite lookup_insert_eq. eexists. split; [done|]. simplify_eq.
      split; [done|]. by rewrite D.
    + rewrite lookup_insert_ne by done. eauto.
Qed.

Lemma idempotency_history db db' k row :
  rtc idempotency_step db db' → db_idempotency_records db !! k = Some row →
  ∃ row', db_idempotency_records db' !! k = Some row' ∧
    iw_canonical_digest row' = iw_canonical_digest row ∧
    (iw_status row = "completed" → row' = row).
Proof.
  intros Hs. revert row. induction Hs as [|db db1 db' H1 _ IH]; intros row Hk; [by eauto|].
  destruct (idempotency_step_keeps _ _ _ _ H1 Hk) as (row1 & Hk1 & Hd1 & Hc1).
  destruct (IH _ Hk1) as (row2 & Hk2 & Hd2 & Hc2). exists row2.
  split_and!; [done|congruence|]. intros C. pose proof (Hc1 C) as ->. auto.
Qed.

(** An idempotency key settles once: after a completion, whatever other
    keys are begun or completed, beginning the same key with the same digest
    replays the recorded result, with another digest is a mismatch, and
    completing it again conflicts; none of the three changes the database. *)
Theorem idempotency_settles_once ws key result db db1 db2 rec other :
  completeIdempotency ws key result db = (Ok tt, db1) → rtc idempotency_step db1 db2 →
  id_WorkspaceID rec = ws → id_Key rec = key → ws ≠ "" → key ≠ "" → id_CanonicalDigest rec ≠ "" →
  (∃ row, db_idempotency_records db !! (ws, key) = Some row ∧
     beginIdempotency rec db2 =
       (if decide (id_CanonicalDigest rec = iw_canonical_digest row)
        then Ok (MkIdempotencyResult true true result) else Err ErrIdempotencyMismatch, db2)) ∧
  completeIdempotency ws key other db2 = (Err ErrConflict, db2).
Proof.
  intros H Hs Ew Ek Hw Hk Hd. rewrite completeIdempotency_run in H.
  destruct (db_idempotency_records db !! (ws, key)) as [row|] eqn:E; [|done].
  case_decide as D; [|done]. injection H as <-.
  destruct (idempotency_history _ _ (ws, key)
     (row <| iw_status := "completed" |> <| iw_result := result |>) Hs) as (row2 & H2 & _ & Hc).
  { cbn [db_idempotency_records upd]. by rewrite lookup_insert_eq. }
  pose proof (Hc eq_refl) as ->. split.
  - exists row. split; [done|]. rewrite beginIdempotency_run by congruence. rewrite Ew, Ek, H2.
    cbn [iw_canonical_digest iw_status iw_result upd].
    case_decide as D1; case_decide as D2; congruence || done.
  - by rewrite completeIdempotency_run, H2.
Qed.

Lemma idempotency_settles_once_witness :
  let rec := MkIdempotencyRecord "ws" "k" "sha256:aa" in
  let db := (beginIdempotency rec empty_DB).2 in
  let db1 := (completeIdempotency "ws" "k" "done" db).2 in
  (∃ row, db_idempotency_records db !! ("ws", "k") = Some row ∧
     beginIdempotency rec db1 =
       (if decide ("sha256:aa" = iw_canonical_digest row)
        then Ok (MkIdempotencyResult true true "done") else Err ErrIdempotencyMismatch, db1)) ∧
  completeIdempotency "ws" "k" "again" db1 = (Err ErrConflict, db1).
Proof.
  intros rec db db1.
  apply (idempotency_settles_once "ws" "k" "done" db db1 db1 rec "again");
    try reflexivity; try (vm_compute; reflexivity); discriminate.
Defined.
