(* ===== verification/StoreIntents.v ===== *)
(** * Store operations on durable intents, expansions and receipts

    The intent rows written before an upstream mutation and completed after
    it (src/internal/store/sqlite.go, projection_revocation.go,
    projection_expansion.go), the locally projected expansions, and the
    receipt views and check publications (projection_receipt.go). *)

From S2P Require Import Prelude GoTime StoreModel.

(** ** Approval intents *)

(** [INSERT ... ON CONFLICT(workspace_id, pass_id) DO UPDATE]: the conflict
    branch rewrites the columns it lists, unless the stored intent is
    completed; [idempotency_key] and [created_at] are not among them. *)
Definition putApprovalIntent (now : time) (rec : ApprovalIntentRecord) : Tx unit :=
  _ ← require (ai_WorkspaceID rec ≠ "" ∧ ai_PassID rec ≠ "" ∧ ai_IdempotencyKey rec ≠ "")
        (ErrOther "store: put approval intent: workspace, pass, and idempotency key are required");
  let state := if decide (ai_State rec = "") then ApprovalIntentInFlight else ai_State rec in
  intents ← gets db_approval_intents;
  let k := (ai_WorkspaceID rec, ai_PassID rec) in
  match intents !! k with
  | None =>
      modify (λ db, db <| db_approval_intents :=
        <[k := rec <| ai_State := state |> <| ai_CreatedAt := now |>
                   <| ai_UpdatedAt := now |>]> intents |>)
  | Some old =>
      if decide (ai_State old = "completed") then
        modify (λ db, db <| db_approval_intents :=
          <[k := old <| ai_UpdatedAt := now |>]> intents |>)
      else
        modify (λ db, db <| db_approval_intents :=
          <[k := old <| ai_OperationRef := ai_OperationRef rec |>
                     <| ai_State := state |>
                     <| ai_ChallengeID := ai_ChallengeID rec |>
                     <| ai_AttestationDigest := ai_AttestationDigest rec |>
                     <| ai_AttestationJSON := ai_AttestationJSON rec |>
                     <| ai_UpdatedAt := now |>]> intents |>)
  end.

Definition getApprovalIntent (workspaceID passID : string) : Tx ApprovalIntentRecord :=
  select db_approval_intents (workspaceID, passID).

Definition completeApprovalIntent (now : time) (workspaceID passID operationRef : string)
    : Tx unit :=
  intents ← gets db_approval_intents;
  match intents !! (workspaceID, passID) with
  | Some old =>
      if decide (ai_State old = "in_flight") then
        modify (λ db, db <| db_approval_intents :=
          <[(workspaceID, passID) := old <| ai_State := "completed" |>
              <| ai_OperationRef := operationRef |> <| ai_UpdatedAt := now |>]> intents |>)
      else fail ErrNotFound
  | None => fail ErrNotFound
  end.

(** ** Revocation intents *)

Definition revocationIntentState (state : string) : string :=
  if decide (state = "") then RevocationIntentInFlight else state.

Definition putRevocationIntent (now : time) (rec : RevocationIntentRecord) : Tx unit :=
  _ ← require (ri_WorkspaceID rec ≠ "" ∧ ri_PassID rec ≠ "" ∧ ri_IdempotencyKey rec ≠ "")
        (ErrOther "store: put revocation intent: workspace, pass, and idempotency key are required");
  intents ← gets db_revocation_intents;
  let k := (ri_WorkspaceID rec, ri_PassID rec) in
  let row := rec <| ri_State := revocationIntentState (ri_State rec) |>
                 <| ri_UpdatedAt := now |> in
  match intents !! k with
  | Some old =>
      _ ← require (ri_State old ≠ RevocationIntentCompleted) ErrConflict;
      modify (λ db, db <| db_revocation_intents :=
        <[k := row <| ri_CreatedAt := ri_CreatedAt old |>]> intents |>)
  | None =>
      modify (λ db, db <| db_revocation_intents :=
        <[k := row <| ri_CreatedAt := now |>]> intents |>)
  end.

Definition getRevocationIntent (workspaceID passID : string) : Tx RevocationIntentRecord :=
  select db_revocation_intents (workspaceID, passID).

Definition completeRevocationIntent (now : time)
    (workspaceID passID containment upstreamRef : string) : Tx unit :=
  intents ← gets db_revocation_intents;
  match intents !! (workspaceID, passID) with
  | Some old =>
      _ ← require (ri_State old ≠ RevocationIntentCompleted) ErrConflict;
      modify (λ db, db <| db_revocation_intents :=
        <[(workspaceID, passID) := old <| ri_State := RevocationIntentCompleted |>
            <| ri_Containment := containment |> <| ri_UpstreamRef := upstreamRef |>
            <| ri_UpdatedAt := now |>]> intents |>)
  | None => fail ErrConflict
  end.

(** [ORDER BY created_at ASC]. *)
Definition listRevocationIntents (workspaceID state : string) : Tx (list RevocationIntentRecord) :=
  intents ← gets db_revocation_intents;
  mret (order_by (λ r, formatTime (ri_CreatedAt r)) (λ _, "")
          (table_rows (λ r, ri_WorkspaceID r = workspaceID ∧ ri_State r = state) intents)).

(** ** Expansions *)

Definition expansionStatus (status : string) : string :=
  if decide (status = "") then ExpansionPending else status.

(** The partial unique index [uq_expansions_pending_per_mission]: another
    pending row of the same workspace and mission. *)
Definition pending_clash (workspaceID missionRef expansionID : string)
    (m : gmap (string * string) ExpansionRecord) : Prop :=
  table_rows (λ r, ex_WorkspaceID r = workspaceID ∧ ex_MissionRef r = missionRef ∧
                   ex_Status r = ExpansionPending ∧ ex_ExpansionID r ≠ expansionID) m ≠ [].
#[export] Instance pending_clash_dec w mr e m : Decision (pending_clash w mr e m).
Proof. unfold pending_clash. apply _. Defined.

(** [putExpansion]: the UPDATE matches only a pending row; a resolved row
    falls through to the INSERT and its primary-key conflict.  Only the
    INSERT's constraint failure is mapped to [ErrConflict]. *)
Definition putExpansion (now : time) (rec : ExpansionRecord) : Tx unit :=
  _ ← require (ex_WorkspaceID rec ≠ "" ∧ ex_ExpansionID rec ≠ "" ∧ ex_PassID rec ≠ "" ∧
               ex_DeltaJSON rec ≠ "")
        (ErrOther "store: put expansion: workspace, expansion, pass, and delta are required");
  rows ← gets db_expansions;
  let k := (ex_WorkspaceID rec, ex_ExpansionID rec) in
  let row := rec <| ex_Status := expansionStatus (ex_Status rec) |>
                 <| ex_UpdatedAt := now |> in
  let clash := ex_Status row = ExpansionPending ∧
               pending_clash (ex_WorkspaceID rec) (ex_MissionRef rec) (ex_ExpansionID rec) rows in
  match rows !! k with
  | Some old =>
      _ ← require (ex_Status old = ExpansionPending) ErrConflict;
      _ ← require (¬ clash) (ErrOther "store: put expansion: UNIQUE constraint failed");
      modify (λ db, db <| db_expansions := <[k := row <| ex_CreatedAt := ex_CreatedAt old |>]> rows |>)
  | None =>
      _ ← require (¬ clash) ErrConflict;
      modify (λ db, db <| db_expansions := <[k := row <| ex_CreatedAt := now |>]> rows |>)
  end.

Definition getExpansion (workspaceID expansionID : string) : Tx ExpansionRecord :=
  select db_expansions (workspaceID, expansionID).

Definition listExpansions (workspaceID passID status : string) : Tx (list ExpansionRecord) :=
  rows ← gets db_expansions;
  mret (order_by (λ r, formatTime (ex_CreatedAt r)) (λ _, "")
          (table_rows (λ r, ex_WorkspaceID r = workspaceID ∧ ex_PassID r = passID ∧
                            ex_Status r = status) rows)).

Definition resolveExpansion (now : time) (workspaceID expansionID status : string) : Tx unit :=
  rows ← gets db_expansions;
  match rows !! (workspaceID, expansionID) with
  | Some old =>
      _ ← require (ex_Status old = ExpansionPending) ErrConflict;
      modify (λ db, db <| db_expansions :=
        <[(workspaceID, expansionID) := old <| ex_Status := status |>
            <| ex_UpdatedAt := now |>]> rows |>)
  | None => fail ErrConflict
  end.

(** ** Expansion decision intents *)

Definition expansionIntentState (state : string) : string :=
  if decide (state = "") then ExpansionIntentInFlight else state.

Definition putExpansionIntent (now : time) (rec : ExpansionIntentRecord) : Tx unit :=
  _ ← require (ei_WorkspaceID rec ≠ "" ∧ ei_ExpansionID rec ≠ "" ∧ ei_PassID rec ≠ "" ∧
               ei_IdempotencyKey rec ≠ "")
        (ErrOther "store: put expansion intent: workspace, expansion, pass, and idempotency key are required");
  intents ← gets db_expansion_intents;
  let k := (ei_WorkspaceID rec, ei_ExpansionID rec) in
  let row := rec <| ei_State := expansionIntentState (ei_State rec) |>
                 <| ei_UpdatedAt := now |> in
  match intents !! k with
  | Some old =>
      _ ← require (ei_State old ≠ ExpansionIntentCompleted) ErrConflict;
      modify (λ db, db <| db_expansion_intents :=
        <[k := row <| ei_CreatedAt := ei_CreatedAt old |>]> intents |>)
  | None =>
      modify (λ db, db <| db_expansion_intents :=
        <[k := row <| ei_CreatedAt := now |>]> intents |>)
  end.

Definition getExpansionIntent (workspaceID expansionID : string) : Tx ExpansionIntentRecord :=
  select db_expansion_intents (workspaceID, expansionID).

Definition listExpansionIntents (workspaceID state : string) : Tx (list ExpansionIntentRecord) :=
  intents ← gets db_expansion_intents;
  mret (order_by (λ r, formatTime (ei_CreatedAt r)) (λ _, "")
          (table_rows (λ r, ei_WorkspaceID r = workspaceID ∧ ei_State r = state) intents)).

Definition completeExpansionIntent (now : time) (workspaceID expansionID decisionRef : string)
    (resultMissionVersion : Z) : Tx unit :=
  intents ← gets db_expansion_intents;
  match intents !! (workspaceID, expansionID) with
  | Some old =>
      _ ← require (ei_State old ≠ ExpansionIntentCompleted) ErrConflict;
      modify (λ db, db <| db_expansion_intents :=
        <[(workspaceID, expansionID) := old <| ei_State := ExpansionIntentCompleted |>
            <| ei_UpstreamRef := decisionRef |>
            <| ei_ResultMissionVersion := resultMissionVersion |>
            <| ei_UpdatedAt := now |>]> intents |>)
  | None => fail ErrConflict
  end.

(** ** Receipt views *)

(** The UPDATE skips a row latched unverifiable for another digest; the
    INSERT OR IGNORE that follows then changes nothing and reports success. *)
Definition putReceiptView (now : time) (rec : ReceiptViewRecord) : Tx unit :=
  _ ← require (rv_WorkspaceID rec ≠ "" ∧ rv_PassID rec ≠ "" ∧ rv_Verification rec ≠ "")
        (ErrOther "store: put receipt view: workspace, pass, and verification are required");
  _ ← require (rv_Verification rec = ReceiptVerified ∨ rv_Verification rec = ReceiptUnverifiable)
        (ErrOther "store: put receipt view: unknown verification");
  let row := if decide (IsZero (rv_VerifiedAt rec)) then rec <| rv_VerifiedAt := now |> else rec in
  views ← gets db_receipt_views;
  let k := (rv_WorkspaceID rec, rv_PassID rec) in
  match views !! k with
  | Some old =>
      if decide (rv_Verification old = ReceiptUnverifiable ∧
                 rv_ReceiptDigest old ≠ rv_ReceiptDigest rec)
      then mret tt
      else modify (λ db, db <| db_receipt_views := <[k := row]> views |>)
  | None => modify (λ db, db <| db_receipt_views := <[k := row]> views |>)
  end.

Definition getReceiptView (workspaceID passID : string) : Tx ReceiptViewRecord :=
  select db_receipt_views (workspaceID, passID).

(** ** Check publications *)

Definition validCheckPublicationState (state : string) : Prop :=
  state = CheckPublicationInFlight ∨ state = CheckPublicationSettled ∨
  state = CheckPublicationDisputed.
#[export] Instance validCheckPublicationState_dec s : Decision (validCheckPublicationState s).
Proof. unfold validCheckPublicationState. apply _. Defined.

Definition or_now (now t : time) : time := if decide (IsZero t) then now else t.

Definition putCheckPublicationIfAbsent (now : time) (rec : CheckPublicationRecord) : Tx bool :=
  _ ← require (cp_WorkspaceID rec ≠ "" ∧ cp_PassID rec ≠ "" ∧ cp_IdempotencyKey rec ≠ "")
        (ErrOther "store: put check publication: workspace, pass, and idempotency key are required");
  _ ← require (validCheckPublicationState (cp_State rec))
        (ErrOther "store: put check publication: unknown state");
  rows ← gets db_check_publications;
  let k := (cp_WorkspaceID rec, cp_IdempotencyKey rec) in
  match rows !! k with
  | Some _ => mret false
  | None =>
      _ ← modify (λ db, db <| db_check_publications :=
            <[k := rec <| cp_CreatedAt := or_now now (cp_CreatedAt rec) |>
                       <| cp_UpdatedAt := or_now now (cp_UpdatedAt rec) |>]> rows |>);
      mret true
  end.

Definition getCheckPublication (workspaceID idempotencyKey : string) : Tx CheckPublicationRecord :=
  select db_check_publications (workspaceID, idempotencyKey).

Definition setCheckPublicationState (now : time)
    (workspaceID idempotencyKey state checkRunID : string) (at_ : time) : Tx unit :=
  _ ← require (validCheckPublicationState state)
        (ErrOther "store: set check publication state: unknown state");
  rows ← gets db_check_publications;
  match rows !! (workspaceID, idempotencyKey) with
  | Some old =>
      modify (λ db, db <| db_check_publications :=
        <[(workspaceID, idempotencyKey) := old <| cp_State := state |>
            <| cp_CheckRunID := checkRunID |> <| cp_UpdatedAt := or_now now at_ |>]> rows |>)
  | None => fail ErrNotFound
  end.

(** [ORDER BY updated_at DESC LIMIT 1]; SQL leaves the choice among equal
    times open. *)
Definition getLatestCheckPublicationForPass (workspaceID passID : string)
    : Tx CheckPublicationRecord :=
  rows ← gets db_check_publications;
  match rev (order_by (λ r, formatTime (cp_UpdatedAt r)) (λ _, "")
               (table_rows (λ r, cp_WorkspaceID r = workspaceID ∧ cp_PassID r = passID) rows)) with
  | r :: _ => mret r
  | [] => fail ErrNotFound
  end.

Definition listCheckPublications (workspaceID state : string)
    : Tx (list CheckPublicationRecord) :=
  _ ← require (state = "" ∨ validCheckPublicationState state)
        (ErrOther "store: list check publications: unknown state");
  rows ← gets db_check_publications;
  mret (order_by (λ r, formatTime (cp_UpdatedAt r)) (λ _, "")
          (table_rows (λ r, cp_WorkspaceID r = workspaceID ∧ (state = "" ∨ cp_State r = state)) rows)).

Definition markCheckPublicationsDisputedExcept (now : time)
    (workspaceID passID exceptKey : string) (at_ : time) : Tx unit :=
  modify (λ db, db <| db_check_publications :=
    (λ r, if decide (cp_WorkspaceID r = workspaceID ∧ cp_PassID r = passID ∧
                     cp_IdempotencyKey r ≠ exceptKey ∧ cp_State r ≠ CheckPublicationSettled)
          then r <| cp_State := CheckPublicationDisputed |>
                 <| cp_UpdatedAt := or_now now at_ |>
          else r) <$> db_check_publications db |>).

(** ** One pending expansion per mission *)

Definition expansion_key (r : ExpansionRecord) : string * string :=
  (ex_WorkspaceID r, ex_ExpansionID r).

Definition expansions_wf (m : gmap (string * string) ExpansionRecord) : Prop :=
  (∀ k r, m !! k = Some r → k = expansion_key r) ∧
  (∀ k1 k2 r1 r2, m !! k1 = Some r1 → m !! k2 = Some r2 →
     ex_Status r1 = ExpansionPending → ex_Status r2 = ExpansionPending →
     ex_WorkspaceID r1 = ex_WorkspaceID r2 → ex_MissionRef r1 = ex_MissionRef r2 → k1 = k2).

Inductive expansion_step : DB → DB → Prop :=
  | es_put now rec r db db' : putExpansion now rec db = (r, db') → expansion_step db db'
  | es_resolve now ws id status r db db' :
      resolveExpansion now ws id status db = (r, db') → expansion_step db db'.

Lemma no_pending_clash ws mr id m k r :
  ¬ pending_clash ws mr id m → m !! k = Some r →
  ex_WorkspaceID r = ws → ex_MissionRef r = mr → ex_Status r = ExpansionPending →
  ex_ExpansionID r = id.
Proof.
  unfold pending_clash. intros H Hk Hw Hm Hs. apply dec_stable in H.
  rewrite table_rows_nil in H. apply dec_stable. intros N. by eapply H.
Qed.

(** Storing [row] at its key keeps the invariant when no other pending row
    of the mission exists, or when [row] is not pending. *)
Lemma insert_expansion_wf m row :
  expansions_wf m →
  ¬ (ex_Status row = ExpansionPending ∧
     pending_clash (ex_WorkspaceID row) (ex_MissionRef row) (ex_ExpansionID row) m) →
  expansions_wf (<[expansion_key row := row]> m).
Proof.
  intros [Hkey Hone] Hno.
  assert (∀ k r, m !! k = Some r → ex_Status row = ExpansionPending →
    ex_Status r = ExpansionPending → ex_WorkspaceID r = ex_WorkspaceID row →
    ex_MissionRef r = ex_MissionRef row → k = expansion_key row) as Hnew.
  { intros k r Hk Hp1 Hp2 Hw Hm. rewrite (Hkey _ _ Hk). unfold expansion_key.
    rewrite Hw. f_equal. eapply no_pending_clash; eauto. }
  split.
  - intros k r. rewrite lookup_insert_Some. intros [[<- <-]|[_ Hr]]; auto.
  - intros k1 k2 r1 r2. rewrite !lookup_insert_Some.
    intros [[<- <-]|[_ H1]] [[<- <-]|[_ H2]] P1 P2 W M; eauto.
    symmetry. eauto.
Qed.

Lemma update_pending_wf m k old row :
  expansions_wf m → m !! k = Some old → ex_Status old = ExpansionPending →
  expansion_key row = k → ex_MissionRef row = ex_MissionRef old →
  expansions_wf (<[k := row]> m).
Proof.
  intros Hwf Hk Hp <- Hm. apply insert_expansion_wf; [done|]. intros [_ Hc].
  apply Hc, table_rows_nil. intros k' r Hin (Hw & Hmr & Hs & Hne).
  destruct Hwf as [Hkey Hone].
  assert (expansion_key row = k') as E.
  { eapply Hone; eauto; [|congruence]. apply Hkey in Hk. injection Hk as Hk _. congruence. }
  apply Hkey in Hin. rewrite <- E in Hin. injection Hin. congruence.
Qed.

Lemma expansion_step_wf db db' :
  expansion_step db db' → expansions_wf (db_expansions db) → expansions_wf (db_expansions db').
Proof.
  intros [now rec r db0 db1 H|now ws id status r db0 db1 H] Hwf.
  - unfold putExpansion in H. op_inv H; try done; cbn [db_expansions upd];
      match goal with |- expansions_wf (<[_ := ?row]> _) =>
        by apply (insert_expansion_wf _ row) end.
  - unfold resolveExpansion in H. op_inv H; try done. cbn [db_expansions upd].
    eapply update_pending_wf; eauto. by rewrite (proj1 Hwf _ _ E).
Qed.

Lemma expansion_step_resolved db db' k row :
  expansion_step db db' → db_expansions db !! k = Some row → ex_Status row ≠ ExpansionPending →
  db_expansions db' !! k = Some row.
Proof.
  intros [now rec r db0 db1 H|now ws id status r db0 db1 H] Hk Hp.
  - unfold putExpansion in H. op_inv H; try done; cbn [db_expansions upd];
      rewrite lookup_insert_ne; congruence.
  - unfold resolveExpansion in H. op_inv H; try done. cbn [db_expansions upd].
    rewrite lookup_insert_ne; congruence.
Qed.

(** Through any history of expansion writes and resolutions, a mission
    has at most one pending expansion, and a resolved expansion is final:
    its row never changes again. *)
Theorem expansions_one_pending_and_final db db' :
  expansions_wf (db_expansions db) → rtc expansion_step db db' →
  expansions_wf (db_expansions db') ∧
  ∀ k row, db_expansions db !! k = Some row → ex_Status row ≠ ExpansionPending →
    db_expansions db' !! k = Some row.
Proof.
  intros Hwf Hs. revert Hwf. induction Hs as [|db db1 db' H1 _ IH]; intros Hwf; [done|].
  destruct (IH (expansion_step_wf _ _ H1 Hwf)) as [Hwf' Hfin]. split; [done|].
  intros k row Hk Hp. apply Hfin; [|done]. by eapply expansion_step_resolved.
Qed.

Definition sample_expansion (id : string) : ExpansionRecord :=
  zero_ExpansionRecord <| ex_WorkspaceID := "ws" |> <| ex_ExpansionID := id |>
    <| ex_PassID := "p" |> <| ex_MissionRef := "m" |> <| ex_DeltaJSON := "{}" |>.

Lemma empty_expansions_wf : expansions_wf (db_expansions empty_DB).
Proof. split; intros; by simplify_map_eq. Qed.

Lemma expansions_one_pending_and_final_witness :
  let db1 := (putExpansion 1 (sample_expansion "e1") empty_DB).2 in
  let db2 := (resolveExpansion 2 "ws" "e1" "approved" db1).2 in
  let db3 := (putExpansion 3 (sample_expansion "e2") db2).2 in
  expansions_wf (db_expansions db3).
Proof.
  intros db1 db2 db3.
  apply (expansions_one_pending_and_final empty_DB db3 empty_expansions_wf).
  apply rtc_l with db1; [eapply es_put, surjective_pairing|].
  apply rtc_l with db2; [eapply es_resolve, surjective_pairing|].
  apply rtc_once. eapply es_put, surjective_pairing.
Defined.

(** ** Completed intents are final *)

Inductive intent_step : DB → DB → Prop :=
  | it_put_revocation now rec r db db' :
      putRevocationIntent now rec db = (r, db') → intent_step db db'
  | it_complete_revocation now ws pass containment ref r db db' :
      completeRevocationIntent now ws pass containment ref db = (r, db') → intent_step db db'
  | it_put_expansion now rec r db db' :
      putExpansionIntent now rec db = (r, db') → intent_step db db'
  | it_complete_expansion now ws id ref ver r db db' :
      completeExpansionIntent now ws id ref ver db = (r, db') → intent_step db db'
  | it_put_approval now rec r db db' :
      putApprovalIntent now rec db = (r, db') → intent_step db db'
  | it_complete_approval now ws pass ref r db db' :
      completeApprovalIntent now ws pass ref db = (r, db') → intent_step db db'.

(** Equal but for the [updated_at] column. *)
Definition same_approval (a b : ApprovalIntentRecord) : Prop :=
  a <| ai_UpdatedAt := zero_time |> = b <| ai_UpdatedAt := zero_time |>.
#[export] Instance same_approval_equiv : Equivalence same_approval.
Proof.
  unfold same_approval. split; [intros a; done|intros a b E; done|intros a b c E F].
  by rewrite E.
Qed.

(** What a completed row is owed. *)
Definition completed_kept (db db' : DB) : Prop :=
  (∀ k row, db_revocation_intents db !! k = Some row → ri_State row = RevocationIntentCompleted →
     db_revocation_intents db' !! k = Some row) ∧
  (∀ k row, db_expansion_intents db !! k = Some row → ei_State row = ExpansionIntentCompleted →
     db_expansion_intents db' !! k = Some row) ∧
  (∀ k row, db_approval_intents db !! k = Some row → ai_State row = ApprovalIntentCompleted →
     ∃ row', db_approval_intents db' !! k = Some row' ∧ same_approval row row').

Lemma completed_kept_refl db : completed_kept db db.
Proof. split_and!; [done..|]. intros k row Hk _. by exists row. Qed.

Lemma completed_kept_trans db1 db2 db3 :
  completed_kept db1 db2 → completed_kept db2 db3 → completed_kept db1 db3.
Proof.
  intros (R1 & E1 & A1) (R2 & E2 & A2). split_and!; [by eauto..|].
  intros k row Hk Hc. destruct (A1 _ _ Hk Hc) as (row1 & Hk1 & S1).
  destruct (A2 _ _ Hk1) as (row2 & Hk2 & S2).
  { rewrite <- Hc. symmetry. apply (f_equal ai_State S1). }
  exists row2. split; [done|]. by transitivity row1.
Qed.

Lemma intent_step_keeps db db' : intent_step db db' → completed_kept db db'.
Proof.
  intros [now rec r db0 db1 H|now ws pass c ref r db0 db1 H|now rec r db0 db1 H|
          now ws id ref ver r db0 db1 H|now rec r db0 db1 H|now ws pass ref r db0 db1 H].
  1: unfold putRevocationIntent in H. 2: unfold completeRevocationIntent in H.
  3: unfold putExpansionIntent in H. 4: unfold completeExpansionIntent in H.
  5: unfold putApprovalIntent in H. 6: unfold completeApprovalIntent in H.
  all: op_inv H; try apply completed_kept_refl; split_and!;
    cbn [db_revocation_intents db_expansion_intents db_approval_intents upd];
    try done; try (intros k row Hk Hc; by exists row);
    try (intros k row Hk Hc; rewrite lookup_insert_ne; congruence).
  all: intros k row Hk Hc; match goal with |- context [<[?k0 := _]> _] =>
    destruct (decide (k0 = k)) as [<-|N] end;
    [rewrite lookup_insert_eq|rewrite lookup_insert_ne by done; by exists row].
  all: simplify_eq; try (by eexists); unfold ApprovalIntentCompleted in *; congruence.
Qed.

(** A completed intent is final: through any history of writes and
    completions, a completed revocation or expansion-decision intent keeps
    its whole row, and a completed approval intent keeps every column but
    its update time, so a settled mutation is never re-armed. *)
Theorem completed_intents_final db db' :
  rtc intent_step db db' →
  (∀ k row, db_revocation_intents db !! k = Some row → ri_State row = RevocationIntentCompleted →
     db_revocation_intents db' !! k = Some row) ∧
  (∀ k row, db_expansion_intents db !! k = Some row → ei_State row = ExpansionIntentCompleted →
     db_expansion_intents db' !! k = Some row) ∧
  (∀ k row, db_approval_intents db !! k = Some row → ai_State row = ApprovalIntentCompleted →
     ∃ row', db_approval_intents db' !! k = Some row' ∧ same_approval row row').
Proof.
  intros Hs. change (completed_kept db db').
  induction Hs as [|db db1 db' H1 _ IH]; [apply completed_kept_refl|].
  eapply completed_kept_trans; [by apply intent_step_keeps|done].
Qed.

Definition sample_approval : ApprovalIntentRecord :=
  zero_ApprovalIntentRecord <| ai_WorkspaceID := "ws" |> <| ai_PassID := "p" |>
    <| ai_IdempotencyKey := "k1" |>.

Lemma completed_intents_final_witness :
  let db1 := (putApprovalIntent 1 sample_approval empty_DB).2 in
  let db2 := (completeApprovalIntent 2 "ws" "p" "op-1" db1).2 in
  let db3 := (putApprovalIntent 3 (sample_approval <| ai_OperationRef := "op-2" |>) db2).2 in
  ∃ row', db_approval_intents db3 !! ("ws", "p") = Some row' ∧ ai_OperationRef row' = "op-1".
Proof.
  intros db1 db2 db3.
  assert (rtc intent_step db2 db3) as Hs
    by (apply rtc_once; eapply it_put_approval, surjective_pairing).
  destruct (proj2 (proj2 (completed_intents_final db2 db3 Hs)) ("ws", "p")
    (sample_approval <| ai_State := "completed" |> <| ai_OperationRef := "op-1" |>
       <| ai_CreatedAt := 1 |> <| ai_UpdatedAt := 2 |>)) as (row' & Hr & Hsame).
  - vm_compute. reflexivity.
  - reflexivity.
  - exists row'. split; [exact Hr|]. exact (eq_sym (f_equal ai_OperationRef Hsame)).
Defined.

(** ** The key of an approval intent is its first key *)

(** Whatever is put later, the stored [idempotency_key] stays the one of the
    first intent of the pass: the upsert does not list that column. *)
Theorem putApprovalIntent_keeps_first_key now rec db old db' :
  db_approval_intents db !! (ai_WorkspaceID rec, ai_PassID rec) = Some old →
  putApprovalIntent now rec db = (Ok tt, db') →
  ∃ row, db_approval_intents db' !! (ai_WorkspaceID rec, ai_PassID rec) = Some row ∧
    ai_IdempotencyKey row = ai_IdempotencyKey old ∧ ai_CreatedAt row = ai_CreatedAt old.
Proof.
  intros Hold H. unfold putApprovalIntent in H. op_inv H; simplify_eq;
    cbn [db_approval_intents upd]; rewrite lookup_insert_eq; by eexists.
Qed.

(** ** The receipt latch *)

Lemma putReceiptView_run now rec db :
  rv_WorkspaceID rec ≠ "" → rv_PassID rec ≠ "" →
  rv_Verification rec = ReceiptVerified ∨ rv_Verification rec = ReceiptUnverifiable →
  let k := (rv_WorkspaceID rec, rv_PassID rec) in
  let row := rec <| rv_VerifiedAt := or_now now (rv_VerifiedAt rec) |> in
  putReceiptView now rec db =
    (Ok tt, match db_receipt_views db !! k with
            | Some old =>
                if decide (rv_Verification old = ReceiptUnverifiable ∧
                           rv_ReceiptDigest old ≠ rv_ReceiptDigest rec)
                then db else db <| db_receipt_views := <[k := row]> (db_receipt_views db) |>
            | None => db <| db_receipt_views := <[k := row]> (db_receipt_views db) |>
            end).
Proof.
  intros Hw Hp Hv k row. unfold putReceiptView.
  rewrite !require_then by (first [done|split_and!; [done..|by destruct Hv as [-> | ->]]]).
  rewrite gets_then. cbv zeta. fold k.
  assert ((if decide (IsZero (rv_VerifiedAt rec)) then rec <| rv_VerifiedAt := now |> else rec)
          = row) as ->.
  { unfold row, or_now. case_decide; [done|]. by destruct rec. }
  destruct (db_receipt_views db !! k) as [old|]; [|done]. by case_decide.
Qed.

(** A receipt that failed verification stays failed: once a view is
    recorded unverifiable for a digest, storing a view for any other digest,
    verified or not, reports success and changes nothing; a view for the same
    digest, or over a verified view, is stored as given. *)
Theorem putReceiptView_latch now rec db :
  rv_WorkspaceID rec ≠ "" → rv_PassID rec ≠ "" →
  rv_Verification rec = ReceiptVerified ∨ rv_Verification rec = ReceiptUnverifiable →
  let k := (rv_WorkspaceID rec, rv_PassID rec) in
  let row := rec <| rv_VerifiedAt := or_now now (rv_VerifiedAt rec) |> in
  let stored := db <| db_receipt_views := <[k := row]> (db_receipt_views db) |> in
  (db_receipt_views db !! k = None → putReceiptView now rec db = (Ok tt, stored)) ∧
  (∀ old, db_receipt_views db !! k = Some old →
     (rv_Verification old = ReceiptUnverifiable → rv_ReceiptDigest old ≠ rv_ReceiptDigest rec →
        putReceiptView now rec db = (Ok tt, db)) ∧
     (rv_Verification old = ReceiptVerified ∨ rv_ReceiptDigest old = rv_ReceiptDigest rec →
        putReceiptView now rec db = (Ok tt, stored))).
Proof.
  intros Hw Hp Hv k row stored. rewrite putReceiptView_run by done. fold k. fold row. fold stored.
  split; [by intros ->|]. intros old ->. split.
  - intros H1 H2. by rewrite decide_True.
  - intros H. rewrite decide_False; [done|].
    intros [H1 H2]. destruct H as [H|H]; [|done]. by rewrite H in H1.
Qed.

Definition sample_receipt (verification digest : string) : ReceiptViewRecord :=
  zero_ReceiptViewRecord <| rv_WorkspaceID := "ws" |> <| rv_PassID := "p" |>
    <| rv_Verification := verification |> <| rv_ReceiptDigest := digest |>.

Lemma putReceiptView_latch_witness :
  let db1 := (putReceiptView 1 (sample_receipt ReceiptUnverifiable "d1") empty_DB).2 in
  (putReceiptView 2 (sample_receipt ReceiptVerified "d2") db1).2 = db1.
Proof.
  intros db1.
  assert (putReceiptView 2 (sample_receipt ReceiptVerified "d2") db1 = (Ok tt, db1)) as ->;
    [|reflexivity].
  eapply (putReceiptView_latch 2 (sample_receipt ReceiptVerified "d2") db1).
  - discriminate.
  - discriminate.
  - left. reflexivity.
  - vm_compute. reflexivity.
  - reflexivity.
  - discriminate.
Defined.
