(* ===== verification/StoreAuth.v ===== *)
(** * Store operations on authentication state and one-use handoffs

    src/internal/store/authn.go, cli_authorization.go, launch_exchange.go,
    the CLI revocation rows of projection_revocation.go, the recovery rows
    of recovery.go, and the worker lease. *)

From S2P Require Import Prelude GoTime StoreModel.

(** ** The instance binding *)

Definition getInstance : Tx InstanceRecord :=
  row ← gets db_instance;
  match row with
  | Some rec => mret rec
  | None => fail ErrNotFound
  end.

Definition HasWorkloadIdentity (r : InstanceRecord) : Prop := in_WorkloadIdentityDigest r ≠ "".
#[export] Instance HasWorkloadIdentity_dec r : Decision (HasWorkloadIdentity r).
Proof. unfold HasWorkloadIdentity. apply _. Defined.

Definition digest_char (c : ascii) : bool :=
  let n := Z.of_N (Ascii.N_of_ascii c) in
  bool_decide (48 ≤ n ≤ 57 ∨ 97 ≤ n ≤ 122 ∨ 65 ≤ n ≤ 90 ∨ n = 46 ∨ n = 45 ∨ n = 95 ∨ n = 58).

(** A byte above 127 starts a rune that no case of the loop accepts. *)
Definition ValidateWorkloadIdentityDigest (digest : string) : Prop :=
  digest ≠ "" ∧ String.prefix "sha256:" digest = true ∧ (String.length digest ≤ 128)%nat ∧
  forallb digest_char (String.list_ascii_of_string
    (String.substring 7 (String.length digest - 7) digest)) = true.
#[export] Instance ValidateWorkloadIdentityDigest_dec d : Decision (ValidateWorkloadIdentityDigest d).
Proof. unfold ValidateWorkloadIdentityDigest. apply _. Defined.

Definition attachWorkloadIdentity (expected digest : string) : Tx unit :=
  _ ← require (expected = "")
        (ErrOther "store: attach workload identity: expected must be empty");
  _ ← require (ValidateWorkloadIdentityDigest digest)
        (ErrOther "store: invalid workload identity digest");
  row ← gets db_instance;
  match row with
  | Some rec =>
      _ ← require (in_WorkloadIdentityDigest rec = "") ErrConflict;
      modify (λ db, db <| db_instance := Some (rec <| in_WorkloadIdentityDigest := digest |>) |>)
  | None => fail ErrNotFound
  end.

(** ** Founders and passkeys *)

Definition countFounders (workspaceID : string) : Tx Z :=
  rows ← gets db_founders;
  mret (Z.of_nat (length (table_rows (λ r, fo_WorkspaceID r = workspaceID) rows))).

(** [ORDER BY created_at ASC]. *)
Definition listFounders (workspaceID : string) : Tx (list FounderRecord) :=
  rows ← gets db_founders;
  mret (order_by (λ r, formatTime (fo_CreatedAt r)) (λ _, "")
          (table_rows (λ r, fo_WorkspaceID r = workspaceID) rows)).

Definition createFounder (rec : FounderRecord) : Tx unit :=
  _ ← require (fo_WorkspaceID rec ≠ "" ∧ fo_FounderID rec ≠ "")
        (ErrOther "store: create founder: workspace and founder IDs are required");
  rows ← gets db_founders;
  let k := (fo_WorkspaceID rec, fo_FounderID rec) in
  _ ← require (rows !! k = None) ErrConflict;
  modify (λ db, db <| db_founders := <[k := rec]> rows |>).

(** The foreign key of [webauthn_credentials] blocks the DELETE. *)
Definition deleteFounder (workspaceID founderID : string) : Tx unit :=
  rows ← gets db_founders;
  creds ← gets db_webauthn_credentials;
  let refs := table_rows (λ r, wc_WorkspaceID r = workspaceID ∧ wc_FounderID r = founderID) creds in
  match rows !! (workspaceID, founderID) with
  | Some _ =>
      _ ← require (refs = [])
            (ErrOther "store: delete founder: FOREIGN KEY constraint failed");
      modify (λ db, db <| db_founders := delete (workspaceID, founderID) rows |>)
  | None => fail ErrNotFound
  end.

(** The foreign key to [founders] is enforced (PRAGMA foreign_keys). *)
Definition putWebAuthnCredential (rec : WebAuthnCredentialRecord) : Tx unit :=
  _ ← require (wc_WorkspaceID rec ≠ "" ∧ wc_CredentialID rec ≠ "" ∧ wc_FounderID rec ≠ "")
        (ErrOther "store: put credential: workspace, credential, and founder IDs are required");
  _ ← require (wc_PublicKey rec ≠ "")
        (ErrOther "store: put credential: public key is required");
  rows ← gets db_webauthn_credentials;
  founders ← gets db_founders;
  let k := (wc_WorkspaceID rec, wc_CredentialID rec) in
  _ ← require (rows !! k = None) ErrConflict;
  _ ← require (founders !! (wc_WorkspaceID rec, wc_FounderID rec) ≠ None)
        (ErrOther "store: put credential: FOREIGN KEY constraint failed");
  modify (λ db, db <| db_webauthn_credentials := <[k := rec]> rows |>).

(** [ORDER BY created_at ASC]. *)
Definition listWebAuthnCredentials (workspaceID founderID : string)
    : Tx (list WebAuthnCredentialRecord) :=
  rows ← gets db_webauthn_credentials;
  mret (order_by (λ r, formatTime (wc_CreatedAt r)) (λ _, "")
          (table_rows (λ r, wc_WorkspaceID r = workspaceID ∧ wc_FounderID r = founderID) rows)).

Definition updateWebAuthnCredentialSignCount (workspaceID credentialID : string)
    (signCount : Z) : Tx unit :=
  rows ← gets db_webauthn_credentials;
  match rows !! (workspaceID, credentialID) with
  | Some old =>
      _ ← require (wc_SignCount old < signCount) ErrConflict;
      modify (λ db, db <| db_webauthn_credentials :=
        <[(workspaceID, credentialID) := old <| wc_SignCount := signCount |>]> rows |>)
  | None => fail ErrNotFound
  end.

(** ** Sessions *)

(** [sessions_workspace_hash_idx] makes the token hash unique per workspace. *)
Definition session_hash_taken (workspaceID hash : string)
    (m : gmap (string * string) SessionRecord) : Prop :=
  table_rows (λ r, se_WorkspaceID r = workspaceID ∧ se_SessionHash r = hash) m ≠ [].
#[export] Instance session_hash_taken_dec w h m : Decision (session_hash_taken w h m).
Proof. unfold session_hash_taken. apply _. Defined.

Definition createSession (rec : SessionRecord) : Tx unit :=
  _ ← require (se_WorkspaceID rec ≠ "" ∧ se_SessionID rec ≠ "" ∧ se_SessionHash rec ≠ "" ∧
               se_FounderID rec ≠ "")
        (ErrOther "store: create session: workspace, session, and founder IDs and the token hash are required");
  _ ← require (se_CSRFTokenHash rec ≠ "")
        (ErrOther "store: create session: CSRF token hash is required");
  rows ← gets db_sessions;
  let k := (se_WorkspaceID rec, se_SessionID rec) in
  _ ← require (rows !! k = None ∧ ¬ session_hash_taken (se_WorkspaceID rec) (se_SessionHash rec) rows)
        ErrConflict;
  modify (λ db, db <| db_sessions := <[k := rec <| se_Revoked := false |>]> rows |>).

Definition getSessionByHash (workspaceID sessionHash : string) : Tx SessionRecord :=
  rows ← gets db_sessions;
  match table_rows (λ r, se_WorkspaceID r = workspaceID ∧ se_SessionHash r = sessionHash) rows with
  | r :: _ => mret r
  | [] => fail ErrNotFound
  end.

Definition revokeSession (workspaceID sessionID : string) : Tx unit :=
  rows ← gets db_sessions;
  match rows !! (workspaceID, sessionID) with
  | Some old =>
      _ ← require (se_Revoked old = false) ErrConflict;
      modify (λ db, db <| db_sessions :=
        <[(workspaceID, sessionID) := old <| se_Revoked := true |>]> rows |>)
  | None => fail ErrNotFound
  end.

(** [UPDATE sessions SET revoked = 1 WHERE workspace_id = ? AND revoked = 0]. *)
Definition revoke_if (workspaceID : string) (r : SessionRecord) : SessionRecord :=
  if decide (se_WorkspaceID r = workspaceID ∧ se_Revoked r = false)
  then r <| se_Revoked := true |> else r.

Definition revokeAllSessions (workspaceID : string) : Tx Z :=
  rows ← gets db_sessions;
  let hit := table_rows (λ r, se_WorkspaceID r = workspaceID ∧ se_Revoked r = false) rows in
  _ ← modify (λ db, db <| db_sessions := revoke_if workspaceID <$> rows |>);
  mret (Z.of_nat (length hit)).

(** ** Bootstrap codes *)

(** The active code of a workspace is replaced; consumed codes stay. *)
Definition putBootstrapCode (rec : BootstrapCodeRecord) : Tx unit :=
  _ ← require (bc_WorkspaceID rec ≠ "" ∧ bc_CodeHash rec ≠ "")
        (ErrOther "store: put bootstrap code: workspace ID and code hash are required");
  rows ← gets db_bootstrap_codes;
  let kept := filter (λ kv, ¬ (bc_WorkspaceID kv.2 = bc_WorkspaceID rec ∧
                               bc_ConsumedAt kv.2 = None)) rows in
  let k := (bc_WorkspaceID rec, bc_CodeHash rec) in
  _ ← require (kept !! k = None)
        (ErrOther "store: put bootstrap code: UNIQUE constraint failed");
  modify (λ db, db <| db_bootstrap_codes := <[k := rec <| bc_ConsumedAt := None |>]> kept |>).

(** [ORDER BY created_at DESC LIMIT 1] over the unconsumed codes. *)
Definition getBootstrapCode (workspaceID : string) : Tx BootstrapCodeRecord :=
  rows ← gets db_bootstrap_codes;
  match rev (order_by (λ r, formatTime (bc_CreatedAt r)) (λ _, "")
               (table_rows (λ r, bc_WorkspaceID r = workspaceID ∧ bc_ConsumedAt r = None) rows)) with
  | r :: _ => mret r
  | [] => fail ErrNotFound
  end.

(** The expiry test is SQL's [expires_at > ?] on the two time texts. *)
Definition consumeBootstrapCode (workspaceID codeHash : string) (now : time) : Tx unit :=
  rows ← gets db_bootstrap_codes;
  let k := (workspaceID, codeHash) in
  let miss :=
    rec ← getBootstrapCode workspaceID;
    if decide (bc_CodeHash rec ≠ codeHash) then fail ErrNotFound else fail ErrConflict in
  match rows !! k with
  | Some old =>
      if decide (bc_ConsumedAt old = None ∧ sql_time_lt now (bc_ExpiresAt old)) then
        modify (λ db, db <| db_bootstrap_codes :=
          <[k := old <| bc_ConsumedAt := Some now |>]> rows |>)
      else miss
  | None => miss
  end.

(** ** Offline recovery keys *)

Definition putOfflineRecoveryKey (rec : OfflineRecoveryKeyRecord) : Tx unit :=
  _ ← require (rk_WorkspaceID rec ≠ "" ∧ rk_FounderID rec ≠ "" ∧ rk_KeyHash rec ≠ "")
        (ErrOther "store: put recovery key: workspace and founder IDs and the key hash are required");
  rows ← gets db_offline_recovery_keys;
  let k := (rk_WorkspaceID rec, rk_FounderID rec) in
  _ ← require (rows !! k = None) ErrConflict;
  modify (λ db, db <| db_offline_recovery_keys := <[k := rec]> rows |>).

Definition getOfflineRecoveryKey (workspaceID founderID : string) : Tx OfflineRecoveryKeyRecord :=
  select db_offline_recovery_keys (workspaceID, founderID).

Definition consumeOfflineRecoveryKey (workspaceID founderID : string) : Tx unit :=
  rows ← gets db_offline_recovery_keys;
  match rows !! (workspaceID, founderID) with
  | Some _ => modify (λ db, db <| db_offline_recovery_keys := delete (workspaceID, founderID) rows |>)
  | None => fail ErrNotFound
  end.

(** [DELETE FROM webauthn_credentials WHERE workspace_id = ?]. *)
Definition deleteAllWebAuthnCredentials (workspaceID : string) : Tx Z :=
  rows ← gets db_webauthn_credentials;
  let hit := table_rows (λ r, wc_WorkspaceID r = workspaceID) rows in
  _ ← modify (λ db, db <| db_webauthn_credentials :=
        filter (λ kv, wc_WorkspaceID kv.2 ≠ workspaceID) rows |>);
  mret (Z.of_nat (length hit)).

(** ** CLI authorizations *)

Definition putCLIAuthorization (rec : CLIAuthorization) : Tx unit :=
  _ ← require (ca_WorkspaceID rec ≠ "" ∧ ca_AuthorizationID rec ≠ "" ∧ ca_PassID rec ≠ "")
        (ErrOther "store: put CLI authorization: workspace, authorization, and pass IDs are required");
  _ ← require (ca_State rec ≠ "" ∧ ca_CodeChallenge rec ≠ "" ∧ ca_RedirectURI rec ≠ "" ∧
               ca_EphemeralPublicKey rec ≠ "")
        (ErrOther "store: put CLI authorization: state, code challenge, redirect URI, and ephemeral key are required");
  _ ← require (ca_ProposalDigest rec ≠ "" ∧ ca_InvocationDigest rec ≠ "" ∧ ca_AgentKitID rec ≠ "")
        (ErrOther "store: put CLI authorization: launch binding is required");
  _ ← require (ca_MissionRef rec ≠ "" ∧ 0 < ca_MissionVersion rec)
        (ErrOther "store: put CLI authorization: mission reference and version are required");
  rows ← gets db_cli_authorizations;
  let k := (ca_WorkspaceID rec, ca_AuthorizationID rec) in
  let same_state := table_rows (λ r, ca_WorkspaceID r = ca_WorkspaceID rec ∧
                      ca_PassID r = ca_PassID rec ∧ ca_State r = ca_State rec) rows in
  _ ← require (rows !! k = None ∧ same_state = []) ErrConflict;
  modify (λ db, db <| db_cli_authorizations :=
    <[k := rec <| ca_DecisionChallengeID := "" |> <| ca_DecisionAttestationDigest := "" |>
               <| ca_CodeHash := None |> <| ca_ApprovedAt := None |>]> rows |>).

Definition getCLIAuthorization (workspaceID authorizationID : string) : Tx CLIAuthorization :=
  select db_cli_authorizations (workspaceID, authorizationID).

Definition getCLIAuthorizationByCodeHash (workspaceID codeHash : string) : Tx CLIAuthorization :=
  rows ← gets db_cli_authorizations;
  match table_rows (λ r, ca_WorkspaceID r = workspaceID ∧ ca_CodeHash r = Some codeHash) rows with
  | r :: _ => mret r
  | [] => fail ErrNotFound
  end.

Definition getCLIAuthorizationByState (workspaceID passID state : string) : Tx CLIAuthorization :=
  rows ← gets db_cli_authorizations;
  match table_rows (λ r, ca_WorkspaceID r = workspaceID ∧ ca_PassID r = passID ∧
                         ca_State r = state) rows with
  | r :: _ => mret r
  | [] => fail ErrNotFound
  end.

(** The zero [[32]byte]. *)
Definition zero32 : string := String.string_of_list_ascii (replicate 32 Ascii.zero).

Definition approveCLIAuthorization (workspaceID authorizationID decisionChallengeID
    attestationDigest codeHash : string) (approvedAt : time) : Tx unit :=
  _ ← require (decisionChallengeID ≠ "" ∧ attestationDigest ≠ "")
        (ErrOther "store: approve CLI authorization: challenge ID and attestation digest are required");
  _ ← require (codeHash ≠ zero32)
        (ErrOther "store: approve CLI authorization: code hash is required");
  rows ← gets db_cli_authorizations;
  match rows !! (workspaceID, authorizationID) with
  | Some old =>
      _ ← require (ca_ApprovedAt old = None) ErrConflict;
      modify (λ db, db <| db_cli_authorizations :=
        <[(workspaceID, authorizationID) :=
            old <| ca_DecisionChallengeID := decisionChallengeID |>
                <| ca_DecisionAttestationDigest := attestationDigest |>
                <| ca_CodeHash := Some codeHash |>
                <| ca_ApprovedAt := Some approvedAt |>]> rows |>)
  | None => fail ErrNotFound
  end.

(** ** Launch exchange intents *)

(** [strings.ToLower] on ASCII text (code hashes are hex). *)
Definition lower_ascii (c : ascii) : ascii :=
  let n := Ascii.N_of_ascii c in
  if decide (65 ≤ Z.of_N n ∧ Z.of_N n ≤ 90) then Ascii.ascii_of_N (n + 32) else c.
Fixpoint ToLower (s : string) : string :=
  match s with
  | EmptyString => EmptyString
  | String c s' => String (lower_ascii c) (ToLower s')
  end.

Definition claimLaunchExchangeIntent (intent : LaunchExchangeIntent) (now : time) : Tx bool :=
  _ ← require (le_WorkspaceID intent ≠ "" ∧ le_CodeHash intent ≠ "" ∧
               le_AuthorizationID intent ≠ "" ∧ le_PassID intent ≠ "")
        (ErrOther "store: claim launch exchange intent: workspace, code hash, authorization, and pass IDs are required");
  _ ← require (le_AttestationDigest intent ≠ "")
        (ErrOther "store: claim launch exchange intent: attestation digest is required");
  rows ← gets db_launch_exchange_intents;
  let k := (le_WorkspaceID intent, ToLower (le_CodeHash intent)) in
  match rows !! k with
  | Some _ => mret false
  | None =>
      _ ← modify (λ db, db <| db_launch_exchange_intents :=
            <[k := intent <| le_CodeHash := ToLower (le_CodeHash intent) |>
                <| le_RunID := "" |> <| le_Status := LaunchExchangeInFlight |>
                <| le_EnvelopeDigest := "" |> <| le_Failure := "" |>
                <| le_CreatedAt := now |> <| le_UpdatedAt := now |>]> rows |>);
      mret true
  end.

Definition getLaunchExchangeIntent (workspaceID codeHash : string) : Tx LaunchExchangeIntent :=
  select db_launch_exchange_intents (workspaceID, ToLower codeHash).

Definition settleLaunchExchangeIntent
    (workspaceID codeHash status runID envelopeDigest failure : string) (now : time) : Tx unit :=
  _ ← require (status = LaunchExchangeCompleted ∨ status = LaunchExchangeFailed ∨
               status = LaunchExchangeExpired)
        (ErrOther "store: settle launch exchange intent: bad status");
  rows ← gets db_launch_exchange_intents;
  let k := (workspaceID, ToLower codeHash) in
  match rows !! k with
  | Some old =>
      _ ← require (le_Status old = LaunchExchangeInFlight) ErrConflict;
      modify (λ db, db <| db_launch_exchange_intents :=
        <[k := old <| le_Status := status |> <| le_RunID := runID |>
                   <| le_EnvelopeDigest := envelopeDigest |> <| le_Failure := failure |>
                   <| le_UpdatedAt := now |>]> rows |>)
  | None => fail ErrConflict
  end.

(** ** CLI revocation requests *)

Definition putCLIRevocation (now : time) (rec : CLIRevocation) : Tx unit :=
  _ ← require (cr_WorkspaceID rec ≠ "" ∧ cr_RequestID rec ≠ "" ∧ cr_PassID rec ≠ "")
        (ErrOther "store: put CLI revocation: workspace, request, and pass IDs are required");
  rows ← gets db_cli_revocations;
  let k := (cr_WorkspaceID rec, cr_RequestID rec) in
  _ ← require (rows !! k = None) ErrConflict;
  modify (λ db, db <| db_cli_revocations :=
    <[k := rec <| cr_ResultRef := "" |> <| cr_ResultContainment := "" |>
               <| cr_CodeHash := None |> <| cr_ResultConsumedAt := None |>
               <| cr_CreatedAt := now |>]> rows |>).

Definition mintCLIRevocationResult (workspaceID requestID resultRef containment codeHash : string)
    : Tx unit :=
  rows ← gets db_cli_revocations;
  match rows !! (workspaceID, requestID) with
  | Some old =>
      _ ← require (cr_ResultRef old = "") ErrConflict;
      modify (λ db, db <| db_cli_revocations :=
        <[(workspaceID, requestID) := old <| cr_ResultRef := resultRef |>
            <| cr_ResultContainment := containment |>
            <| cr_CodeHash := Some codeHash |>]> rows |>)
  | None => fail ErrConflict
  end.

Definition getCLIRevocation (workspaceID requestID : string) : Tx CLIRevocation :=
  select db_cli_revocations (workspaceID, requestID).

(** [ORDER BY created_at DESC LIMIT 1]. *)
Definition getCLIRevocationByState (workspaceID passID state : string) : Tx CLIRevocation :=
  rows ← gets db_cli_revocations;
  match rev (order_by (λ r, formatTime (cr_CreatedAt r)) (λ _, "")
               (table_rows (λ r, cr_WorkspaceID r = workspaceID ∧ cr_PassID r = passID ∧
                                 cr_State r = state) rows)) with
  | r :: _ => mret r
  | [] => fail ErrNotFound
  end.

Definition getCLIRevocationByCodeHash (workspaceID codeHash : string) : Tx CLIRevocation :=
  rows ← gets db_cli_revocations;
  match table_rows (λ r, cr_WorkspaceID r = workspaceID ∧ cr_CodeHash r = Some codeHash) rows with
  | r :: _ => mret r
  | [] => fail ErrNotFound
  end.

(** Consumption stamps the row and returns the reference; a retry before
    expiry returns the same one. *)
Definition consumeCLIRevocationResult (workspaceID codeHash : string) (now : time)
    : Tx (string * string) :=
  rec ← getCLIRevocationByCodeHash workspaceID codeHash;
  _ ← require (cr_ResultRef rec ≠ "") ErrNotFound;
  _ ← require (¬ Before (cr_ExpiresAt rec) now) ErrConflict;
  rows ← gets db_cli_revocations;
  let k := (workspaceID, cr_RequestID rec) in
  _ ← match rows !! k with
      | Some old =>
          if decide (cr_CodeHash old = Some codeHash) then
            modify (λ db, db <| db_cli_revocations :=
              <[k := old <| cr_ResultConsumedAt := Some now |>]> rows |>)
          else mret tt
      | None => mret tt
      end;
  mret (cr_ResultRef rec, cr_ResultContainment rec).

(** ** Offline recovery *)

Definition putRecoveryIntent (rec : RecoveryIntentRecord) : Tx unit :=
  _ ← require (rc_WorkspaceID rec ≠ "" ∧ rc_IdempotencyKey rec ≠ "" ∧ rc_IntentID rec ≠ "")
        (ErrOther "store: put recovery intent: workspace, idempotency key, and intent IDs are required");
  _ ← require (rc_CanonicalDigest rec ≠ "" ∧ rc_Nonce rec ≠ "")
        (ErrOther "store: put recovery intent: canonical digest and nonce are required");
  _ ← require (rc_State rec = RecoveryIntentPending)
        (ErrOther "store: put recovery intent: new intents must be pending");
  rows ← gets db_recovery_intents;
  let k := (rc_WorkspaceID rec, rc_IdempotencyKey rec) in
  _ ← require (rows !! k = None) ErrConflict;
  modify (λ db, db <| db_recovery_intents :=
    <[k := rec <| rc_ContainmentGeneration := 0 |> <| rc_RecoveryEventID := "" |>
               <| rc_RevokedSessionCount := 0 |> <| rc_ContainedMissionCount := 0 |>
               <| rc_BootstrapExpiresAt := zero_time |>]> rows |>).

Definition getRecoveryIntent (workspaceID idempotencyKey : string) : Tx RecoveryIntentRecord :=
  select db_recovery_intents (workspaceID, idempotencyKey).

(** [extra] is the map of further column updates, as a row edit. *)
Definition transitionRecoveryIntent (workspaceID idempotencyKey fromState toState : string)
    (extra : RecoveryIntentRecord → RecoveryIntentRecord) (at_ : time) : Tx unit :=
  rows ← gets db_recovery_intents;
  match rows !! (workspaceID, idempotencyKey) with
  | Some old =>
      _ ← require (rc_State old = fromState) ErrConflict;
      modify (λ db, db <| db_recovery_intents :=
        <[(workspaceID, idempotencyKey) :=
            extra (old <| rc_State := toState |> <| rc_UpdatedAt := at_ |>)]> rows |>)
  | None => fail ErrNotFound
  end.

Definition SetRecoveryIntentAttestation (workspaceID key attestationDigest : string)
    (at_ : time) : Tx unit :=
  transitionRecoveryIntent workspaceID key RecoveryIntentPending RecoveryIntentPending
    (λ r, r <| rc_AttestationDigest := attestationDigest |>) at_.

Definition SetRecoveryIntentContained (workspaceID key : string) (generation : Z)
    (at_ : time) : Tx unit :=
  transitionRecoveryIntent workspaceID key RecoveryIntentPending RecoveryIntentContained
    (λ r, r <| rc_ContainmentGeneration := generation |>) at_.

Definition SetRecoveryIntentVerifiedEmpty (workspaceID key : string) (at_ : time) : Tx unit :=
  transitionRecoveryIntent workspaceID key RecoveryIntentContained RecoveryIntentVerifiedEmpty
    (λ r, r) at_.

Definition SetRecoveryIntentCompleted (workspaceID key eventID : string)
    (revokedSessions containedMissions : Z) (bootstrapExpiresAt at_ : time) : Tx unit :=
  transitionRecoveryIntent workspaceID key RecoveryIntentVerifiedEmpty RecoveryIntentCompleted
    (λ r, r <| rc_RecoveryEventID := eventID |>
            <| rc_RevokedSessionCount := revokedSessions |>
            <| rc_ContainedMissionCount := containedMissions |>
            <| rc_BootstrapExpiresAt := bootstrapExpiresAt |>) at_.

Definition putRecoveryEvent (rec : RecoveryEventRecord) : Tx unit :=
  _ ← require (re_WorkspaceID rec ≠ "" ∧ re_EventID rec ≠ "" ∧ re_FounderID rec ≠ "")
        (ErrOther "store: put recovery event: workspace, event, and founder IDs are required");
  _ ← require (re_AttestationDigest rec ≠ "" ∧ re_RecoveryProofDigest rec ≠ "" ∧
               re_BootstrapCodeHash rec ≠ "")
        (ErrOther "store: put recovery event: attestation, proof, and bootstrap digests are required");
  rows ← gets db_recovery_events;
  let k := (re_WorkspaceID rec, re_EventID rec) in
  _ ← require (rows !! k = None) ErrConflict;
  modify (λ db, db <| db_recovery_events := <[k := rec]> rows |>).

Definition getRecoveryEvent (workspaceID eventID : string) : Tx RecoveryEventRecord :=
  select db_recovery_events (workspaceID, eventID).

Definition resetLaunchHandoffs (workspaceID : string) : Tx unit :=
  _ ← modify (λ db, db <| db_cli_authorizations :=
        filter (λ kv, ca_WorkspaceID kv.2 ≠ workspaceID) (db_cli_authorizations db) |>);
  _ ← modify (λ db, db <| db_cli_revocations :=
        filter (λ kv, cr_WorkspaceID kv.2 ≠ workspaceID) (db_cli_revocations db) |>);
  modify (λ db, db <| db_launch_exchange_intents :=
    filter (λ kv, le_WorkspaceID kv.2 ≠ workspaceID) (db_launch_exchange_intents db) |>).

(** ** Worker lease *)

(** [acquireWorkerLease]: [owner] already holds the lease, or it lapsed
    ([expires_at <= now] on the column texts), or nobody holds one. *)
Definition acquireWorkerLease (now : time) (instanceID owner : string) (ttl : Z) : Tx bool :=
  leases ← gets db_worker_leases;
  let row := MkWorkerLeaseRecord instanceID owner now (now + ttl) in
  match leases !! instanceID with
  | Some l =>
      if decide (wl_Owner l = owner ∨ sql_time_le (wl_ExpiresAt l) now) then
        _ ← modify (λ db, db <| db_worker_leases := <[instanceID := row]> leases |>);
        mret true
      else mret false
  | None =>
      _ ← modify (λ db, db <| db_worker_leases := <[instanceID := row]> leases |>);
      mret true
  end.

Definition heartbeatWorkerLease (now : time) (instanceID owner : string) (ttl : Z) : Tx bool :=
  leases ← gets db_worker_leases;
  match leases !! instanceID with
  | Some l =>
      if decide (wl_Owner l = owner ∧ sql_time_lt now (wl_ExpiresAt l)) then
        _ ← modify (λ db, db <| db_worker_leases :=
              <[instanceID := MkWorkerLeaseRecord instanceID owner now (now + ttl)]> leases |>);
        mret true
      else mret false
  | None => mret false
  end.

Definition releaseWorkerLease (instanceID owner : string) : Tx unit :=
  leases ← gets db_worker_leases;
  match leases !! instanceID with
  | Some l =>
      if decide (wl_Owner l = owner) then
        modify (λ db, db <| db_worker_leases := delete instanceID leases |>)
      else mret tt
  | None => mret tt
  end.

(** ** Revoked sessions *)

Inductive session_step : DB → DB → Prop :=
  | ss_create rec r db db' : createSession rec db = (r, db') → session_step db db'
  | ss_revoke ws id r db db' : revokeSession ws id db = (r, db') → session_step db db'
  | ss_revoke_all ws r db db' : revokeAllSessions ws db = (r, db') → session_step db db'.

Lemma revokeAllSessions_run ws db :
  revokeAllSessions ws db =
    (Ok (Z.of_nat (length (table_rows (λ r, se_WorkspaceID r = ws ∧ se_Revoked r = false)
                             (db_sessions db)))),
     db <| db_sessions := revoke_if ws <$> db_sessions db |>).
Proof. done. Qed.

Lemma revoke_if_revoked ws r : se_Revoked r = true → revoke_if ws r = r.
Proof. intros H. unfold revoke_if. rewrite decide_False; [done|]. rewrite H. by intros []. Qed.

Lemma revoke_if_workspace ws r : se_WorkspaceID r = ws → se_Revoked (revoke_if ws r) = true.
Proof.
  intros <-. unfold revoke_if. case_decide as D; [done|]. destruct (se_Revoked r); tauto.
Qed.

Lemma session_step_revoked db db' k row :
  session_step db db' → db_sessions db !! k = Some row → se_Revoked row = true →
  db_sessions db' !! k = Some row.
Proof.
  intros [rec r db0 db1 H|ws id r db0 db1 H|ws r db0 db1 H] Hk Hr.
  - unfold createSession in H. op_inv H; try done. cbn [db_sessions upd].
    rewrite lookup_insert_ne; [done|]. intros <-. destruct D1 as [D1 _]. congruence.
  - unfold revokeSession in H. op_inv H; try done. cbn [db_sessions upd].
    rewrite lookup_insert_ne; [done|]. intros <-. congruence.
  - rewrite revokeAllSessions_run in H. injection H as _ <-. cbn [db_sessions upd].
    by rewrite lookup_fmap, Hk; cbn; rewrite revoke_if_revoked.
Qed.

(** Revoking all sessions of a workspace revokes every one of them,
    counts exactly those that were active, touches no other workspace, and
    is irreversible: no later creation or revocation, of any session, makes
    a revoked session active again. *)
Theorem revokeAllSessions_total ws db db' db2 :
  (revokeAllSessions ws db).2 = db' → rtc session_step db' db2 →
  (revokeAllSessions ws db).1 = Ok (Z.of_nat (length
     (table_rows (λ r, se_WorkspaceID r = ws ∧ se_Revoked r = false) (db_sessions db)))) ∧
  ∀ k row, db_sessions db !! k = Some row →
    if decide (se_WorkspaceID row = ws) then
      ∃ row2, db_sessions db2 !! k = Some row2 ∧ se_Revoked row2 = true
    else db_sessions db' !! k = Some row.
Proof.
  intros <- Hs. split; [done|]. intros k row Hk.
  assert (db_sessions (revokeAllSessions ws db).2 !! k = Some (revoke_if ws row)) as Hk1.
  { rewrite revokeAllSessions_run. cbn [snd db_sessions upd]. by rewrite lookup_fmap, Hk. }
  case_decide as D.
  - exists (revoke_if ws row). split; [|by apply revoke_if_workspace].
    pose proof (revoke_if_workspace ws row D) as Hr. clear Hk.
    induction Hs as [|db0 db1 db2 H1 _ IH]; [done|].
    apply IH. by eapply session_step_revoked.
  - rewrite Hk1. f_equal. unfold revoke_if. rewrite decide_False; [done|]. by intros [].
Qed.

Definition sample_session : SessionRecord :=
  zero_SessionRecord <| se_WorkspaceID := "ws" |> <| se_SessionID := "s1" |>
    <| se_SessionHash := "h" |> <| se_FounderID := "f" |> <| se_CSRFTokenHash := "c" |>.

Lemma revokeAllSessions_total_witness :
  let db := (createSession sample_session empty_DB).2 in
  let db1 := (revokeAllSessions "ws" db).2 in
  let db2 := (createSession sample_session db1).2 in
  ∃ row2, db_sessions db2 !! ("ws", "s1") = Some row2 ∧ se_Revoked row2 = true.
Proof.
  intros db db1 db2.
  assert (rtc session_step db1 db2) as Hs
    by (apply rtc_once; eapply ss_create, surjective_pairing).
  exact (proj2 (revokeAllSessions_total "ws" db db1 db2 eq_refl Hs)
           ("ws", "s1") sample_session eq_refl).
Defined.

(** ** Launch exchange intents *)

Inductive launch_step : DB → DB → Prop :=
  | ls_claim intent now r db db' :
      claimLaunchExchangeIntent intent now db = (r, db') → launch_step db db'
  | ls_settle ws hash status run env failure now r db db' :
      settleLaunchExchangeIntent ws hash status run env failure now db = (r, db') →
      launch_step db db'.

Definition launch_ids_ok (i : LaunchExchangeIntent) : Prop :=
  (le_WorkspaceID i ≠ "" ∧ le_CodeHash i ≠ "" ∧ le_AuthorizationID i ≠ "" ∧ le_PassID i ≠ "") ∧
  le_AttestationDigest i ≠ "".
Definition launch_key (i : LaunchExchangeIntent) : string * string :=
  (le_WorkspaceID i, ToLower (le_CodeHash i)).

Lemma claimLaunchExchangeIntent_run i now db :
  launch_ids_ok i →
  claimLaunchExchangeIntent i now db =
    match db_launch_exchange_intents db !! launch_key i with
    | Some _ => (Ok false, db)
    | None => (Ok true, db <| db_launch_exchange_intents :=
        <[launch_key i := i <| le_CodeHash := ToLower (le_CodeHash i) |>
           <| le_RunID := "" |> <| le_Status := LaunchExchangeInFlight |>
           <| le_EnvelopeDigest := "" |> <| le_Failure := "" |>
           <| le_CreatedAt := now |> <| le_UpdatedAt := now |>]>
          (db_launch_exchange_intents db) |>)
    end.
Proof.
  intros [H1 H2]. unfold claimLaunchExchangeIntent.
  rewrite !require_then, gets_then by done. cbv zeta. fold (launch_key i).
  by destruct (db_launch_exchange_intents db !! launch_key i).
Qed.

(** A row stays, and stays as it is once it left [in_flight]. *)
Lemma launch_step_keeps db db' k row :
  launch_step db db' → db_launch_exchange_intents db !! k = Some row →
  ∃ row', db_launch_exchange_intents db' !! k = Some row' ∧
    le_AttestationDigest row' = le_AttestationDigest row ∧
    (le_Status row ≠ LaunchExchangeInFlight → row' = row).
Proof.
  intros [i now r db0 db1 H|ws hash st run env f now r db0 db1 H] Hk.
  - unfold claimLaunchExchangeIntent in H. op_inv H; try (by eauto).
    cbn [db_launch_exchange_intents upd]. rewrite lookup_insert_ne by congruence. eauto.
  - unfold settleLaunchExchangeIntent in H. op_inv H; try (by eauto).
    cbn [db_launch_exchange_intents upd].
    match goal with |- context [<[?k0 := _]> _] => destruct (decide (k0 = k)) as [<-|N] end.
    + rewrite lookup_insert_eq. eexists. split; [done|]. simplify_eq. by split.
    + rewrite lookup_insert_ne by done. eauto.
Qed.

Lemma launch_history db db' k row :
  rtc launch_step db db' → db_launch_exchange_intents db !! k = Some row →
  ∃ row', db_launch_exchange_intents db' !! k = Some row' ∧
    le_AttestationDigest row' = le_AttestationDigest row ∧
    (le_Status row ≠ LaunchExchangeInFlight → row' = row).
Proof.
  intros Hs. revert row. induction Hs as [|db db1 db' H1 _ IH]; intros row Hk; [by eauto|].
  destruct (launch_step_keeps _ _ _ _ H1 Hk) as (row1 & Hk1 & Ha1 & Hf1).
  destruct (IH _ Hk1) as (row2 & Hk2 & Ha2 & Hf2). exists row2.
  split_and!; [done|congruence|]. intros N. pose proof (Hf1 N) as ->. auto.
Qed.

(** A launch code is exchanged at most once: after one claim of a code
    hash succeeded, every later claim of it, in any letter case and with any
    attestation, reports that it is taken and changes nothing; and a settled
    exchange can never be settled again. *)
Theorem launch_claimed_and_settled_once i1 i2 now1 now2 now3 db db1 db2 status run env failure :
  launch_ids_ok i1 → launch_ids_ok i2 → launch_key i2 = launch_key i1 →
  claimLaunchExchangeIntent i1 now1 db = (Ok true, db1) → rtc launch_step db1 db2 →
  claimLaunchExchangeIntent i2 now2 db2 = (Ok false, db2) ∧
  ∃ row, db_launch_exchange_intents db2 !! launch_key i1 = Some row ∧
    le_AttestationDigest row = le_AttestationDigest i1 ∧
    (le_Status row ≠ LaunchExchangeInFlight →
     ∃ e, settleLaunchExchangeIntent (le_WorkspaceID i1) (le_CodeHash i1) status run env
            failure now3 db2 = (Err e, db2)).
Proof.
  intros Hi1 Hi2 Hkey H Hs. rewrite claimLaunchExchangeIntent_run in H by done.
  destruct (db_launch_exchange_intents db !! launch_key i1); [done|]. injection H as <-.
  eapply (launch_history _ _ (launch_key i1)) in Hs as (row & Hk & Ha & _);
    [|cbn [db_launch_exchange_intents upd]; by rewrite lookup_insert_eq].
  split; [by rewrite claimLaunchExchangeIntent_run, Hkey, Hk|].
  exists row. split_and!; [done..|]. intros N.
  unfold settleLaunchExchangeIntent.
  destruct (decide (status = LaunchExchangeCompleted ∨ status = LaunchExchangeFailed ∨
    status = LaunchExchangeExpired)) as [D|D];
    [|rewrite require_else by done; by eexists].
  rewrite require_then, gets_then by done. cbv zeta.
  change (le_WorkspaceID i1, ToLower (le_CodeHash i1)) with (launch_key i1). rewrite Hk.
  rewrite require_else by done. by eexists.
Qed.

Definition sample_launch : LaunchExchangeIntent :=
  zero_LaunchExchangeIntent <| le_WorkspaceID := "ws" |> <| le_CodeHash := "AB" |>
    <| le_AuthorizationID := "a" |> <| le_PassID := "p" |> <| le_AttestationDigest := "d" |>.

Lemma launch_claimed_and_settled_once_witness :
  let db1 := (claimLaunchExchangeIntent sample_launch 1 empty_DB).2 in
  let db2 := (settleLaunchExchangeIntent "ws" "ab" "completed" "run" "env" "" 2 db1).2 in
  claimLaunchExchangeIntent (sample_launch <| le_CodeHash := "aB" |>) 3 db2 = (Ok false, db2).
Proof.
  intros db1 db2.
  eapply (launch_claimed_and_settled_once sample_launch (sample_launch <| le_CodeHash := "aB" |>)
    1 3 4 empty_DB db1 db2 "failed" "" "" "").
  - split_and!; discriminate.
  - split_and!; discriminate.
  - reflexivity.
  - vm_compute. reflexivity.
  - apply rtc_once. eapply ls_settle, surjective_pairing.
Defined.

(** ** The recovery state machine *)

Inductive recovery_step : DB → DB → Prop :=
  | rs_put rec r db db' : putRecoveryIntent rec db = (r, db') → recovery_step db db'
  | rs_attest ws key d at_ r db db' :
      SetRecoveryIntentAttestation ws key d at_ db = (r, db') → recovery_step db db'
  | rs_contained ws key gen at_ r db db' :
      SetRecoveryIntentContained ws key gen at_ db = (r, db') → recovery_step db db'
  | rs_verified ws key at_ r db db' :
      SetRecoveryIntentVerifiedEmpty ws key at_ db = (r, db') → recovery_step db db'
  | rs_completed ws key ev s m b at_ r db db' :
      SetRecoveryIntentCompleted ws key ev s m b at_ db = (r, db') → recovery_step db db'.

(** pending < contained < verified_empty < completed. *)
Definition recovery_rank (state : string) : Z :=
  if decide (state = RecoveryIntentPending) then 0 else
  if decide (state = RecoveryIntentContained) then 1 else
  if decide (state = RecoveryIntentVerifiedEmpty) then 2 else
  if decide (state = RecoveryIntentCompleted) then 3 else -1.

(** One legal move of a row: the state stays [pending] while the attestation
    is replaced, or advances by one; identity, digest, nonce and the data of
    earlier states are kept. *)
Definition recovery_move (r r' : RecoveryIntentRecord) : Prop :=
  rc_CanonicalDigest r' = rc_CanonicalDigest r ∧ rc_Nonce r' = rc_Nonce r ∧
  rc_IntentID r' = rc_IntentID r ∧
  ((rc_State r = RecoveryIntentPending ∧ rc_State r' = RecoveryIntentPending) ∨
   (0 ≤ recovery_rank (rc_State r) ∧ recovery_rank (rc_State r') = recovery_rank (rc_State r) + 1 ∧
    rc_AttestationDigest r' = rc_AttestationDigest r ∧
    (1 ≤ recovery_rank (rc_State r) → rc_ContainmentGeneration r' = rc_ContainmentGeneration r))).

Lemma transitionRecoveryIntent_step ws key from to extra at_ db r db' k row :
  transitionRecoveryIntent ws key from to extra at_ db = (r, db') →
  db_recovery_intents db !! k = Some row →
  (rc_State row = from →
   recovery_move row (extra (row <| rc_State := to |> <| rc_UpdatedAt := at_ |>))) →
  ∃ row', db_recovery_intents db' !! k = Some row' ∧ (row' = row ∨ recovery_move row row').
Proof.
  unfold transitionRecoveryIntent. intros H Hk Hm. op_inv H; try (by eauto).
  cbn [db_recovery_intents upd].
  match goal with |- context [<[?k0 := _]> _] => destruct (decide (k0 = k)) as [<-|N] end.
  - rewrite lookup_insert_eq. simplify_eq. eexists. split; [done|]. right. by apply Hm.
  - rewrite lookup_insert_ne by done. eauto.
Qed.

Lemma recovery_step_moves db db' k row :
  recovery_step db db' → db_recovery_intents db !! k = Some row →
  ∃ row', db_recovery_intents db' !! k = Some row' ∧ (row' = row ∨ recovery_move row row').
Proof.
  intros [rec r db0 db1 H|? ? ? ? ? ? ? H|? ? ? ? ? ? ? H|? ? ? ? ? ? H|? ? ? ? ? ? ? ? ? ? H] Hk.
  - unfold putRecoveryIntent in H. op_inv H; try (by eauto).
    cbn [db_recovery_intents upd]. rewrite lookup_insert_ne by congruence. eauto.
  - eapply transitionRecoveryIntent_step; [exact H|exact Hk|]. intros E.
    split_and!; try done. left. done.
  - eapply transitionRecoveryIntent_step; [exact H|exact Hk|]. intros E.
    split_and!; try done. right. by rewrite E.
  - eapply transitionRecoveryIntent_step; [exact H|exact Hk|]. intros E.
    split_and!; try done. right. by rewrite E.
  - eapply transitionRecoveryIntent_step; [exact H|exact Hk|]. intros E.
    split_and!; try done. right. by rewrite E.
Qed.

(** Recovery runs in one order: whatever recovery operations happen, in
    any order, a recorded intent keeps its canonical digest, nonce and id,
    its state only advances along pending, contained, verified_empty,
    completed, and its attestation and containment generation are fixed once
    it has left the state that sets them. *)
Theorem recovery_history_forward db db' k row :
  rtc recovery_step db db' → db_recovery_intents db !! k = Some row →
  ∃ row', db_recovery_intents db' !! k = Some row' ∧
    rc_CanonicalDigest row' = rc_CanonicalDigest row ∧ rc_Nonce row' = rc_Nonce row ∧
    rc_IntentID row' = rc_IntentID row ∧
    recovery_rank (rc_State row) ≤ recovery_rank (rc_State row') ∧
    (1 ≤ recovery_rank (rc_State row) →
      rc_AttestationDigest row' = rc_AttestationDigest row ∧
      rc_ContainmentGeneration row' = rc_ContainmentGeneration row).
Proof.
  intros Hs. revert row. induction Hs as [db|db db1 db' H1 _ IH]; intros row Hk.
  - exists row. by split_and!.
  - destruct (recovery_step_moves _ _ _ _ H1 Hk) as (row1 & Hk1 & Hm).
    destruct (IH _ Hk1) as (row2 & Hk2 & Hd & Hn & Hi & Hr & Hf). exists row2.
    destruct Hm as [->|(Ed & En & Ei & [[E1 E2]|(? & E1 & Ea & Eg)])]; [done|..].
    + split_and!; [congruence..|rewrite E1, <- E2; exact Hr|].
      intros P. rewrite E1 in P. by destruct P.
    + split_and!; [congruence..|lia|].
      intros P. destruct Hf as [Hf1 Hf2]; [lia|]. rewrite Hf1, Hf2. auto.
Qed.

Definition sample_recovery : RecoveryIntentRecord :=
  zero_RecoveryIntentRecord <| rc_WorkspaceID := "ws" |> <| rc_IdempotencyKey := "k" |>
    <| rc_IntentID := "i" |> <| rc_CanonicalDigest := "d" |> <| rc_Nonce := "n" |>
    <| rc_State := RecoveryIntentPending |>.

Lemma recovery_history_forward_witness :
  let db := (putRecoveryIntent sample_recovery empty_DB).2 in
  let db1 := (SetRecoveryIntentAttestation "ws" "k" "att" 5 db).2 in
  let db2 := (SetRecoveryIntentContained "ws" "k" 7 6 db1).2 in
  let db3 := (SetRecoveryIntentAttestation "ws" "k" "other" 8 db2).2 in
  ∃ row', db_recovery_intents db3 !! ("ws", "k") = Some row' ∧ rc_Nonce row' = "n".
Proof.
  intros db db1 db2 db3.
  destruct (recovery_history_forward db db3 ("ws", "k") sample_recovery)
    as (row' & Hk & _ & Hn & _).
  - apply rtc_l with db1; [exact (rs_attest "ws" "k" "att" 5 _ db db1 (surjective_pairing _))|].
    apply rtc_l with db2; [exact (rs_contained "ws" "k" 7 6 _ db1 db2 (surjective_pairing _))|].
    apply rtc_once. exact (rs_attest "ws" "k" "other" 8 _ db2 db3 (surjective_pairing _)).
  - vm_compute. reflexivity.
  - exists row'. split; [exact Hk|exact Hn].
Defined.

(** ** The worker lease *)

(** What other owners do while [owner] holds the lease of [instanceID]:
    acquire, heartbeat and release attempts at times that are not past the
    lease's expiry (as the store compares times). *)
Inductive other_lease_step (instanceID owner : string) (expires : time) : DB → DB → Prop :=
  | ol_acquire now other ttl r db db' :
      other ≠ owner → ¬ sql_time_le expires now →
      acquireWorkerLease now instanceID other ttl db = (r, db') →
      other_lease_step instanceID owner expires db db'
  | ol_heartbeat now other ttl r db db' :
      other ≠ owner → heartbeatWorkerLease now instanceID other ttl db = (r, db') →
      other_lease_step instanceID owner expires db db'
  | ol_release other r db db' :
      other ≠ owner → releaseWorkerLease instanceID other db = (r, db') →
      other_lease_step instanceID owner expires db db'.

Lemma other_lease_step_noop inst owner expires db db' l :
  other_lease_step inst owner expires db db' →
  db_worker_leases db !! inst = Some l → wl_Owner l = owner → wl_ExpiresAt l = expires →
  db' = db.
Proof.
  intros [now other ttl r db0 db1 No Ne H|now other ttl r db0 db1 No H|other r db0 db1 No H] Hl Ho He.
  - unfold acquireWorkerLease in H. rewrite gets_then in H. cbv zeta in H. rewrite Hl in H.
    rewrite decide_False in H; [by injection H|]. intros [?|?]; congruence.
  - unfold heartbeatWorkerLease in H. rewrite gets_then in H. rewrite Hl in H.
    rewrite decide_False in H; [by injection H|]. intros [? _]; congruence.
  - unfold releaseWorkerLease in H. rewrite gets_then in H. rewrite Hl in H.
    rewrite decide_False in H; [by injection H|]. congruence.
Qed.

(** C35: the worker lease is exclusive: after an owner acquired it, nothing
    that other owners try before its expiry (acquiring, heartbeating or
    releasing) changes the store; they are told that they do not hold it, and
    the owner can still renew it.  "Before its expiry" is the comparison the
    SQL makes, of RFC 3339 texts: an expiry with a fraction of a second sorts
    before the full second it lies in ([lease_taken_early]). *)
Theorem worker_lease_exclusive now inst owner ttl db db1 db2 later other ttl' :
  acquireWorkerLease now inst owner ttl db = (Ok true, db1) →
  rtc (other_lease_step inst owner (now + ttl)) db1 db2 →
  db2 = db1 ∧
  db_worker_leases db1 !! inst = Some (MkWorkerLeaseRecord inst owner now (now + ttl)) ∧
  (other ≠ owner →
   (¬ sql_time_le (now + ttl) later → acquireWorkerLease later inst other ttl' db2 = (Ok false, db2)) ∧
   heartbeatWorkerLease later inst other ttl' db2 = (Ok false, db2) ∧
   releaseWorkerLease inst other db2 = (Ok tt, db2)) ∧
  (sql_time_lt later (now + ttl) → ∃ db3, heartbeatWorkerLease later inst owner ttl' db2 = (Ok true, db3) ∧
   db_worker_leases db3 !! inst = Some (MkWorkerLeaseRecord inst owner later (later + ttl'))).
Proof.
  intros H Hs.
  assert (db_worker_leases db1 !! inst = Some (MkWorkerLeaseRecord inst owner now (now + ttl)))
    as Hl.
  { unfold acquireWorkerLease in H. op_inv H; try done;
      cbn [db_worker_leases upd]; by rewrite lookup_insert_eq. }
  clear H. assert (db2 = db1) as ->.
  { revert Hl. induction Hs as [db1|db1 dbm db2 H1 _ IH]; intros Hl; [done|].
    pose proof (other_lease_step_noop _ _ _ _ _ _ H1 Hl eq_refl eq_refl) as ->. auto. }
  split; [done|]. split; [done|]. split.
  - intros No. split_and!.
    + intros Ne. unfold acquireWorkerLease. rewrite gets_then. cbv zeta. rewrite Hl.
      rewrite decide_False; [done|]. cbn. intros [?|?]; congruence.
    + unfold heartbeatWorkerLease. rewrite gets_then, Hl.
      rewrite decide_False; [done|]. cbn. intros [? _]; congruence.
    + unfold releaseWorkerLease. rewrite gets_then, Hl. rewrite decide_False; [done|]. cbn. congruence.
  - intros Hlt. unfold heartbeatWorkerLease. rewrite gets_then, Hl.
    rewrite decide_True by done. eexists. split; [reflexivity|]. apply lookup_insert_eq.
Qed.

Lemma worker_lease_exclusive_witness :
  let db1 := (acquireWorkerLease 0 "i" "a" (10 * Second) empty_DB).2 in
  let db2 := (acquireWorkerLease (3 * Second) "i" "b" (10 * Second) db1).2 in
  acquireWorkerLease (4 * Second) "i" "c" (10 * Second) db2 = (Ok false, db2) ∧
  heartbeatWorkerLease (4 * Second) "i" "c" (10 * Second) db2 = (Ok false, db2).
Proof.
  intros db1 db2.
  destruct (worker_lease_exclusive 0 "i" "a" (10 * Second) empty_DB db1 db2 (4 * Second) "c" (10 * Second))
    as (_ & _ & Ho & _).
  - vm_compute. reflexivity.
  - apply rtc_once. eapply (ol_acquire _ _ _ (3 * Second) "b" (10 * Second)).
    + discriminate.
    + intros H. vm_compute in H. discriminate H.
    + apply surjective_pairing.
  - destruct (Ho ltac:(discriminate)) as (HA & HH & _). split; [|exact HH].
    apply HA. intros H. vm_compute in H. discriminate H.
Defined.

(** The lease expires half a second past ten, and is taken over at ten. *)
Example lease_taken_early :
  let db1 := (acquireWorkerLease 0 "i" "a" (10 * Second + Second / 2) empty_DB).2 in
  (acquireWorkerLease (10 * Second) "i" "b" Minute db1).1 = Ok true.
Proof. vm_compute. reflexivity. Qed.
