(* ===== verification/StoreGithub.v ===== *)
(** * Store operations on GitHub connections, handoffs and posture checks

    src/internal/store/sqlite.go: connections by (workspace, connection),
    the opaque installation handoffs with their one callback and one
    consumption, and the latest workflow-posture check per ref. *)

From S2P Require Import Prelude GoTime StoreModel.

(** ** Connections *)

Definition putConnection (rec : ConnectionRecord) : Tx unit :=
  _ ← require (co_WorkspaceID rec ≠ "" ∧ co_ConnectionID rec ≠ "")
        (ErrOther "store: put connection: workspace and connection IDs are required");
  _ ← require (co_RepositoryBindingRef rec ≠ "")
        (ErrOther "store: put connection: repository binding reference is required");
  modify (λ db, db <| db_github_connections :=
    <[(co_WorkspaceID rec, co_ConnectionID rec) := rec]> (db_github_connections db) |>).

Definition getConnection (workspaceID connectionID : string) : Tx ConnectionRecord :=
  select db_github_connections (workspaceID, connectionID).

(** [ORDER BY created_at ASC]. *)
Definition listConnections (workspaceID : string) : Tx (list ConnectionRecord) :=
  rows ← gets db_github_connections;
  mret (order_by (λ r, formatTime (co_CreatedAt r)) (λ _, "")
          (table_rows (λ r, co_WorkspaceID r = workspaceID) rows)).

Definition deleteConnection (workspaceID connectionID : string) : Tx unit :=
  rows ← gets db_github_connections;
  match rows !! (workspaceID, connectionID) with
  | Some _ =>
      modify (λ db, db <| db_github_connections := delete (workspaceID, connectionID) rows |>)
  | None => fail ErrNotFound
  end.

(** ** Handoffs *)

(** [github_handoffs_id_idx] makes the handoff ID unique across workspaces. *)
Definition putGitHubHandoff (rec : GitHubHandoffRecord) : Tx unit :=
  _ ← require (gh_WorkspaceID rec ≠ "" ∧ gh_HandoffID rec ≠ "" ∧ gh_SessionID rec ≠ "")
        (ErrOther "store: put github handoff: workspace, handoff, and session IDs are required");
  _ ← require (gh_StateHash rec ≠ "" ∧ gh_AuthScopeOrigin rec ≠ "")
        (ErrOther "store: put github handoff: state hash and AuthScope origin are required");
  rows ← gets db_github_handoffs;
  _ ← require (rows !! (gh_WorkspaceID rec, gh_HandoffID rec) = None ∧
               table_rows (λ r, gh_HandoffID r = gh_HandoffID rec) rows = []) ErrConflict;
  modify (λ db, db <| db_github_handoffs :=
    <[(gh_WorkspaceID rec, gh_HandoffID rec) :=
       rec <| gh_BindingCodeDigest := "" |> <| gh_CallbackAt := None |>
           <| gh_ConsumedAt := None |>]> rows |>).

Definition getGitHubHandoff (workspaceID handoffID : string) : Tx GitHubHandoffRecord :=
  select db_github_handoffs (workspaceID, handoffID).

Definition getGitHubHandoffByID (handoffID : string) : Tx GitHubHandoffRecord :=
  rows ← gets db_github_handoffs;
  match table_rows (λ r, gh_HandoffID r = handoffID) rows with
  | r :: _ => mret r
  | [] => fail ErrNotFound
  end.

(** The UPDATE of a row that satisfies [P]; a row that exists but does not
    is a conflict. *)
Definition update_handoff (workspaceID handoffID : string) (P : GitHubHandoffRecord → Prop)
    `{∀ r, Decision (P r)} (f : GitHubHandoffRecord → GitHubHandoffRecord) : Tx unit :=
  rows ← gets db_github_handoffs;
  match rows !! (workspaceID, handoffID) with
  | Some old =>
      _ ← require (P old) ErrConflict;
      modify (λ db, db <| db_github_handoffs := <[(workspaceID, handoffID) := f old]> rows |>)
  | None => fail ErrNotFound
  end.

Definition setGitHubHandoffUpstream (workspaceID handoffID upstreamHandoffID : string) : Tx unit :=
  _ ← require (upstreamHandoffID ≠ "")
        (ErrOther "store: set github handoff upstream: upstream handoff ID is required");
  update_handoff workspaceID handoffID (λ r, gh_UpstreamHandoffID r = "")
    (λ r, r <| gh_UpstreamHandoffID := upstreamHandoffID |>).

Definition recordGitHubHandoffCallback (workspaceID handoffID codeDigest : string) (at_ : time)
    : Tx unit :=
  _ ← require (codeDigest ≠ "")
        (ErrOther "store: record github handoff callback: code digest is required");
  update_handoff workspaceID handoffID (λ r, gh_CallbackAt r = None)
    (λ r, r <| gh_BindingCodeDigest := codeDigest |> <| gh_CallbackAt := Some at_ |>).

Definition consumeGitHubHandoff (workspaceID handoffID : string) (at_ : time) : Tx unit :=
  update_handoff workspaceID handoffID (λ r, gh_ConsumedAt r = None)
    (λ r, r <| gh_ConsumedAt := Some at_ |>).

(** ** Workflow posture *)

Definition putWorkflowPosture (rec : WorkflowPostureRecord) : Tx unit :=
  _ ← require (wp_WorkspaceID rec ≠ "" ∧ wp_ConnectionID rec ≠ "" ∧ wp_Ref rec ≠ "")
        (ErrOther "store: put workflow posture: workspace, connection, and ref are required");
  _ ← require (wp_PostureDigest rec ≠ "" ∧ wp_HeadSHA rec ≠ "" ∧ wp_Outcome rec ≠ "")
        (ErrOther "store: put workflow posture: digest, head SHA, and outcome are required");
  modify (λ db, db <| db_github_posture_checks :=
    <[(wp_WorkspaceID rec, wp_ConnectionID rec, wp_Ref rec) := rec]>
      (db_github_posture_checks db) |>).

Definition getWorkflowPosture (workspaceID connectionID ref : string) : Tx WorkflowPostureRecord :=
  select db_github_posture_checks (workspaceID, connectionID, ref).

(** [ORDER BY checked_at DESC LIMIT 1]. *)
Definition latestWorkflowPosture (workspaceID connectionID : string) : Tx WorkflowPostureRecord :=
  rows ← gets db_github_posture_checks;
  match rev (order_by (λ r, formatTime (wp_CheckedAt r)) (λ _, "")
               (table_rows (λ r, wp_WorkspaceID r = workspaceID ∧
                                 wp_ConnectionID r = connectionID) rows)) with
  | r :: _ => mret r
  | [] => fail ErrNotFound
  end.

(** ** A handoff's callback and consumption happen once *)

Inductive handoff_step : DB → DB → Prop :=
  | hs_put rec r db db' : putGitHubHandoff rec db = (r, db') → handoff_step db db'
  | hs_upstream ws id up r db db' :
      setGitHubHandoffUpstream ws id up db = (r, db') → handoff_step db db'
  | hs_callback ws id digest at_ r db db' :
      recordGitHubHandoffCallback ws id digest at_ db = (r, db') → handoff_step db db'
  | hs_consume ws id at_ r db db' :
      consumeGitHubHandoff ws id at_ db = (r, db') → handoff_step db db'.

(** What never changes once it is set. *)
Definition handoff_kept (a b : GitHubHandoffRecord) : Prop :=
  gh_SessionID b = gh_SessionID a ∧ gh_StateHash b = gh_StateHash a ∧
  gh_ExpiresAt b = gh_ExpiresAt a ∧
  (gh_UpstreamHandoffID a ≠ "" → gh_UpstreamHandoffID b = gh_UpstreamHandoffID a) ∧
  (gh_CallbackAt a ≠ None → gh_CallbackAt b = gh_CallbackAt a ∧
     gh_BindingCodeDigest b = gh_BindingCodeDigest a) ∧
  (gh_ConsumedAt a ≠ None → gh_ConsumedAt b = gh_ConsumedAt a).

#[export] Instance handoff_kept_preorder : PreOrder handoff_kept.
Proof.
  split; [intros a; unfold handoff_kept; by split_and!|].
  intros a b c (A1&A2&A3&A4&A5&A6) (B1&B2&B3&B4&B5&B6).
  unfold handoff_kept. split_and!; try congruence.
  - intros N. rewrite <- (A4 N). apply B4. by rewrite (A4 N).
  - intros N. destruct (A5 N) as [E1 E2]. rewrite <- E1, <- E2. apply B5. by rewrite E1.
  - intros N. rewrite <- (A6 N). apply B6. by rewrite (A6 N).
Qed.

Lemma update_handoff_kept ws id P `{∀ r, Decision (P r)} f db r db' k row :
  update_handoff ws id P f db = (r, db') → db_github_handoffs db !! k = Some row →
  (P row → handoff_kept row (f row)) →
  ∃ row', db_github_handoffs db' !! k = Some row' ∧ handoff_kept row row'.
Proof.
  intros E Hk Hf. unfold update_handoff in E. op_inv E; try (exists row; by split).
  cbn [db_github_handoffs upd]. destruct (decide ((ws, id) = k)) as [<-|N].
  - rewrite lookup_insert_eq. eexists. split; [done|]. simplify_eq. auto.
  - rewrite lookup_insert_ne by done. exists row. by split.
Qed.

Lemma handoff_step_kept db db' k row :
  handoff_step db db' → db_github_handoffs db !! k = Some row →
  ∃ row', db_github_handoffs db' !! k = Some row' ∧ handoff_kept row row'.
Proof.
  intros [rec r db0 db1 E|ws id up r db0 db1 E|ws id dg at_ r db0 db1 E|ws id at_ r db0 db1 E] Hk.
  - unfold putGitHubHandoff in E. op_inv E; try (exists row; by split).
    cbn [db_github_handoffs upd]. exists row. split; [|done].
    rewrite lookup_insert_ne; [done|]. intros <-. destruct D1. congruence.
  - unfold setGitHubHandoffUpstream in E.
    op_inv_step E; [|simplify_eq; by exists row].
    eapply update_handoff_kept; [exact E|done|]. intros Hp.
    unfold handoff_kept. by split_and!.
  - unfold recordGitHubHandoffCallback in E.
    op_inv_step E; [|simplify_eq; by exists row].
    eapply update_handoff_kept; [exact E|done|]. intros Hp.
    unfold handoff_kept. by split_and!.
  - unfold consumeGitHubHandoff in E.
    eapply update_handoff_kept; [exact E|done|]. intros Hp.
    unfold handoff_kept. by split_and!.
Qed.
