(* ===== verification/Sha256.v ===== *)
(** * crypto/sha256 and encoding/hex

    A byte string is a [string] of 8-bit characters.  [sha256] is FIPS 180-4
    on 32-bit words held in [Z]; [hex] is [hex.EncodeToString].  The test
    vectors at the end run both. *)

From S2P Require Import Prelude.

Definition byte_val (c : ascii) : Z := Z.of_N (Ascii.N_of_ascii c).
Definition byte_of (z : Z) : ascii := Ascii.ascii_of_N (Z.to_N (z mod 256)).
Definition bytes_of (s : string) : list Z := byte_val <$> String.list_ascii_of_string s.
Definition of_bytes (l : list Z) : string := String.string_of_list_ascii (byte_of <$> l).

Definition w32 (z : Z) : Z := Z.land z 4294967295.
Definition rotr (n x : Z) : Z := w32 (Z.lor (Z.shiftr x n) (Z.shiftl x (32 - n))).
Definition wnot (x : Z) : Z := Z.lxor x 4294967295.

Definition Ch x y z := Z.lxor (Z.land x y) (Z.land (wnot x) z).
Definition Maj x y z := Z.lxor (Z.land x y) (Z.lxor (Z.land x z) (Z.land y z)).
Definition Sigma0 x := Z.lxor (rotr 2 x) (Z.lxor (rotr 13 x) (rotr 22 x)).
Definition Sigma1 x := Z.lxor (rotr 6 x) (Z.lxor (rotr 11 x) (rotr 25 x)).
Definition sigma0 x := Z.lxor (rotr 7 x) (Z.lxor (rotr 18 x) (Z.shiftr x 3)).
Definition sigma1 x := Z.lxor (rotr 17 x) (Z.lxor (rotr 19 x) (Z.shiftr x 10)).

(** FIPS 180-4 gives the constants as fractions of irrational numbers: the
    first 32 bits after the point of the cube roots of the first 64 primes,
    and of the square roots of the first 8. *)
Definition is_prime (n : Z) : bool :=
  forallb (λ d, negb (Z.eqb (Z.modulo n d) 0)) (Z.of_nat <$> seq 2 (Z.to_nat (Z.sqrt n) - 1)).

Definition primes : list Z :=
  Eval vm_compute in filter (λ n, is_prime n = true) (Z.of_nat <$> seq 2 310).

(** [x] with [x^3 <= n], deciding one bit of the root at a time. *)
Fixpoint cbrt_bits (bits : nat) (acc n : Z) : Z :=
  match bits with
  | O => acc
  | S b =>
      let x := acc + Z.shiftl 1 (Z.of_nat b) in
      cbrt_bits b (if decide (x * x * x ≤ n) then x else acc) n
  end.

Definition K256 : list Z :=
  Eval vm_compute in (λ p, w32 (cbrt_bits 40 0 (Z.shiftl p 96))) <$> primes.
Definition H0 : list Z :=
  Eval vm_compute in (λ p, w32 (Z.sqrt (Z.shiftl p 64))) <$> take 8 primes.

Definition word_of (a b c d : Z) : Z := ((a * 256 + b) * 256 + c) * 256 + d.

Fixpoint words_of (l : list Z) : list Z :=
  match l with
  | a :: b :: c :: d :: l' => word_of a b c d :: words_of l'
  | _ => []
  end.

(** Big-endian bytes of an [n]-byte integer. *)
Fixpoint be_bytes (n : nat) (x : Z) : list Z :=
  match n with
  | O => []
  | S n' => be_bytes n' (x / 256) ++ [x mod 256]
  end.

(** Message padding to a multiple of 64 bytes. *)
Definition pad (l : list Z) : list Z :=
  let n := Z.of_nat (length l) in
  l ++ [128] ++ replicate (Z.to_nat ((55 - n) mod 64)) 0 ++ be_bytes 8 (8 * n).

(** The message schedule, kept reversed: the head is the latest word. *)
Fixpoint extend (n : nat) (w : list Z) : list Z :=
  match n with
  | O => w
  | S n' =>
      let x i := nth i w 0 in
      extend n' (w32 (sigma1 (x 1%nat) + x 6%nat + sigma0 (x 14%nat) + x 15%nat) :: w)
  end.

Definition round (st : list Z) (kw : Z * Z) : list Z :=
  match st with
  | [a; b; c; d; e; f; g; h] =>
      let t1 := h + Sigma1 e + Ch e f g + kw.1 + kw.2 in
      let t2 := Sigma0 a + Maj a b c in
      [w32 (t1 + t2); a; b; c; w32 (d + t1); e; f; g]
  | _ => st
  end.

Definition compress (h : list Z) (block : list Z) : list Z :=
  let w := rev (extend 48 (rev (words_of block))) in
  zip_with (λ x y, w32 (x + y)) h (foldl round h (zip K256 w)).

Fixpoint blocks (fuel : nat) (h l : list Z) : list Z :=
  match fuel with
  | O => h
  | S fuel' =>
      match l with
      | [] => h
      | _ => blocks fuel' (compress h (take 64 l)) (drop 64 l)
      end
  end.

(** [sha256.Sum256], as 32 bytes; one step of fuel per padded byte is more
    than one per 64-byte block. *)
Definition Sum256 (s : string) : string :=
  let l := pad (bytes_of s) in
  of_bytes (mjoin (be_bytes 4 <$> blocks (length l) H0 l)).

Definition hex_digit (n : Z) : ascii :=
  if decide (n < 10) then byte_of (48 + n) else byte_of (87 + n).

Fixpoint hex (s : string) : string :=
  match s with
  | EmptyString => ""
  | String c s' =>
      String (hex_digit (byte_val c / 16)) (String (hex_digit (byte_val c mod 16)) (hex s'))
  end.

(** ["sha256:" + hex.EncodeToString(sum[:])] *)
Definition tagged_digest (s : string) : string := "sha256:" +:+ hex (Sum256 s).

#[global] Arguments Sum256 : simpl never.
#[global] Arguments tagged_digest : simpl never.

Example sum_empty : hex (Sum256 "") =
  "e3b0c44298fc1c149afbf4c8996fb92427ae41e4649b934ca495991b7852b855".
Proof. vm_compute. reflexivity. Qed.
Example sum_abc : hex (Sum256 "abc") =
  "ba7816bf8f01cfea414140de5dae2223b00361a396177a9cb410ff61f20015ad".
Proof. vm_compute. reflexivity. Qed.
Example sum_two_blocks :
  hex (Sum256 "abcdbcdecdefdefgefghfghighijhijkijkljklmklmnlmnomnopnopq") =
  "248d6a61d20638b8e5c026930c3e6039a33ce45964ff2167f6ecedd419db06c1".
Proof. vm_compute. reflexivity. Qed.

(** A digest is 32 bytes. *)
Lemma length_be_bytes n x : length (be_bytes n x) = n.
Proof. revert x. induction n; intros; simpl; [done|]. rewrite length_app, IHn. simpl. lia. Qed.

Lemma length_of_bytes l : String.length (of_bytes l) = length l.
Proof. induction l as [|x l IH]; [done|]. cbn. f_equal. exact IH. Qed.

Lemma length_round st kw : length (round st kw) = length st.
Proof. do 9 (destruct st as [|? st]; try done). Qed.

Lemma length_foldl_round l st : length (foldl round st l) = length st.
Proof.
  revert st. induction l as [|x l IH]; intros st; simpl; [done|].
  by rewrite IH, length_round.
Qed.

Lemma length_compress h b : length (compress h b) = length h.
Proof. unfold compress. rewrite length_zip_with, length_foldl_round. lia. Qed.

Lemma length_blocks n h l : length (blocks n h l) = length h.
Proof.
  revert h l. induction n as [|n IH]; intros h l; simpl; [done|].
  destruct l; [done|]. by rewrite IH, length_compress.
Qed.

Lemma length_mjoin_be ws : length (mjoin (be_bytes 4 <$> ws)) = (4 * length ws)%nat.
Proof.
  induction ws as [|w ws IH]; [done|].
  rewrite fmap_cons. change (mjoin (be_bytes 4 w :: (be_bytes 4 <$> ws)))
    with (be_bytes 4 w ++ mjoin (be_bytes 4 <$> ws))%list.
  rewrite length_app, length_be_bytes, IH. simpl. lia.
Qed.

Lemma length_Sum256 s : String.length (Sum256 s) = 32%nat.
Proof.
  unfold Sum256. by rewrite length_of_bytes, length_mjoin_be, length_blocks.
Qed.

Lemma length_hex s : String.length (hex s) = (2 * String.length s)%nat.
Proof. induction s as [|c s IH]; [done|]. cbn [hex String.length]. rewrite IH. lia. Qed.

Lemma Sum256_not_zero_length s : Sum256 s ≠ "".
Proof. intros H. pose proof (length_Sum256 s) as L. by rewrite H in L. Qed.

(** ** Bytes and big-endian integers read back *)

Lemma byte_val_of z : 0 ≤ z < 256 → byte_val (byte_of z) = z.
Proof.
  intros Hz. unfold byte_val, byte_of. rewrite Z.mod_small by done.
  rewrite Ascii.N_ascii_embedding by lia. lia.
Qed.

Lemma bytes_of_of_bytes l : Forall (λ z, 0 ≤ z < 256) l → bytes_of (of_bytes l) = l.
Proof.
  induction 1 as [|z l Hz _ IH]; [done|]. cbn. f_equal; [by apply byte_val_of|exact IH].
Qed.

Lemma be_bytes_range n x : Forall (λ z, 0 ≤ z < 256) (be_bytes n x).
Proof.
  revert x. induction n as [|n IH]; intros x; [constructor|]. cbn [be_bytes].
  apply Forall_app. split; [apply IH|]. constructor; [|constructor]. by apply Z.mod_pos_bound.
Qed.

Lemma be_bytes_inj n x y :
  0 ≤ x < 256 ^ Z.of_nat n → 0 ≤ y < 256 ^ Z.of_nat n → be_bytes n x = be_bytes n y → x = y.
Proof.
  revert x y. induction n as [|n IH]; intros x y Hx Hy E; [cbn in Hx, Hy; lia|].
  cbn [be_bytes] in E. apply app_inj_2 in E as [E1 E2]; [|done]. injection E2 as E2.
  rewrite Nat2Z.inj_succ, Z.pow_succ_r in Hx, Hy by lia.
  apply IH in E1.
  - rewrite (Z.div_mod x 256), (Z.div_mod y 256) by done. lia.
  - split; [apply Z.div_pos; lia|]. apply Z.div_lt_upper_bound; lia.
  - split; [apply Z.div_pos; lia|]. apply Z.div_lt_upper_bound; lia.
Qed.

Lemma string_app_inj (a b x y : string) :
  String.length a = String.length b → a +:+ x = b +:+ y → a = b ∧ x = y.
Proof.
  revert b. induction a as [|c a IH]; intros [|d b] Hl E; try done.
  change (String c (a +:+ x) = String d (b +:+ y)) in E. injection E as -> E.
  injection Hl as Hl. by destruct (IH b Hl E) as [-> ->].
Qed.

Definition unhex (a b : ascii) : ascii :=
  let v c := if decide (byte_val c < 58) then byte_val c - 48 else byte_val c - 87 in
  byte_of (16 * v a + v b).

Lemma unhex_digits c :
  unhex (hex_digit (byte_val c / 16)) (hex_digit (byte_val c mod 16)) = c.
Proof. by destruct c as [[] [] [] [] [] [] [] []]. Qed.

Lemma hex_inj s t : hex s = hex t → s = t.
Proof.
  revert t. induction s as [|c s IH]; intros [|d t] E; try done.
  cbn in E. injection E as E1 E2 E. f_equal; [|by apply IH].
  by rewrite <- (unhex_digits c), <- (unhex_digits d), E1, E2.
Qed.

Lemma tagged_digest_eq s t : tagged_digest s = tagged_digest t → Sum256 s = Sum256 t.
Proof. unfold tagged_digest. intros E. apply hex_inj. by injection E. Qed.
