(* ===== verification/Base64.v ===== *)
(** * base64 as the program uses it (encoding/base64)

    [RawURLEncoding] (no padding) for credential IDs, nonces and PKCE, and
    [StdEncoding] (padded) for the byte slices inside [json.Marshal].  The
    decoder is Go's: it skips CR and LF, rejects other foreign characters
    and one dangling character, and ignores the unused low bits of the last
    group. *)

From S2P Require Import Prelude Sha256.

Definition sextet (url : bool) (n : Z) : ascii :=
  if decide (n < 26) then byte_of (65 + n)
  else if decide (n < 52) then byte_of (71 + n)
  else if decide (n < 62) then byte_of (n - 4)
  else if decide (n = 62) then byte_of (if url then 45 else 43)
  else byte_of (if url then 95 else 47).

Definition unsextet (url : bool) (c : ascii) : option Z :=
  let b := byte_val c in
  if decide (65 ≤ b ≤ 90) then Some (b - 65)
  else if decide (97 ≤ b ≤ 122) then Some (b - 71)
  else if decide (48 ≤ b ≤ 57) then Some (b + 4)
  else if decide (b = if url then 45 else 43) then Some 62
  else if decide (b = if url then 95 else 47) then Some 63
  else None.

Fixpoint sextets (l : list Z) : list Z :=
  match l with
  | [] => []
  | [a] => [a / 4; (a mod 4) * 16]
  | [a; b] => [a / 4; (a mod 4) * 16 + b / 16; (b mod 16) * 4]
  | a :: b :: c :: l' =>
      a / 4 :: (a mod 4) * 16 + b / 16 :: (b mod 16) * 4 + c / 64 :: c mod 64 :: sextets l'
  end.

Definition encode (url : bool) (s : string) : string :=
  String.string_of_list_ascii (sextet url <$> sextets (bytes_of s)).

(** [base64.RawURLEncoding.EncodeToString] and [base64.StdEncoding]. *)
Definition RawURLEncode (s : string) : string := encode true s.
Definition StdEncode (s : string) : string :=
  encode false s +:+
  match String.length s mod 3 with 1 => "==" | 2 => "=" | _ => "" end%nat.

(** Groups of up to four sextets back to bytes; one left over is an error. *)
Fixpoint unsextets (l : list Z) : option (list Z) :=
  match l with
  | [] => Some []
  | [_] => None
  | [a; b] => Some [a * 4 + b / 16]
  | [a; b; c] => Some [a * 4 + b / 16; (b mod 16) * 16 + c / 4]
  | a :: b :: c :: d :: l' =>
      r ← unsextets l';
      Some (a * 4 + b / 16 :: (b mod 16) * 16 + c / 4 :: (c mod 4) * 64 + d :: r)
  end.

Definition newline (c : ascii) : bool :=
  bool_decide (byte_val c = 10) || bool_decide (byte_val c = 13).

(** [base64.RawURLEncoding.DecodeString]. *)
Definition RawURLDecode (s : string) : option string :=
  let cs := filter (λ c, newline c = false) (String.list_ascii_of_string s) in
  vs ← mapM (unsextet true) cs;
  bs ← unsextets vs;
  Some (of_bytes bs).

(** [base64.StdEncoding.DecodeString]: whole quanta, padded at the end. *)
Fixpoint unpad (n : nat) (l : list ascii) : list ascii * nat :=
  match n, l with
  | S n', c :: l' => if decide (byte_val c = 61) then let '(r, k) := unpad n' l' in (r, S k) else (l, O)
  | _, _ => (l, O)
  end.
Definition StdDecode (s : string) : option string :=
  let cs := filter (λ c, newline c = false) (String.list_ascii_of_string s) in
  let '(body, _) := unpad 2 (rev cs) in
  if decide (length cs mod 4 = 0)%nat then
    vs ← mapM (unsextet false) (rev body);
    bs ← unsextets vs;
    Some (of_bytes bs)
  else None.

Example encode_ex : RawURLEncode "any carnal pleas" = "YW55IGNhcm5hbCBwbGVhcw".
Proof. vm_compute. reflexivity. Qed.
Example std_ex : StdEncode "any carnal pleas" = "YW55IGNhcm5hbCBwbGVhcw==".
Proof. vm_compute. reflexivity. Qed.
Example std_decode_ex : StdDecode "YW55IGNhcm5hbCBwbGVhcw==" = Some "any carnal pleas".
Proof. vm_compute. reflexivity. Qed.
Example decode_ex : RawURLDecode "YW55IGNhcm5hbCBwbGVhcw" = Some "any carnal pleas".
Proof. vm_compute. reflexivity. Qed.

(** ** Decoding an encoding *)

Lemma unsextet_sextet url n : 0 ≤ n < 64 → unsextet url (sextet url n) = Some n.
Proof.
  intros Hn.
  assert (∀ u, forallb (λ k, bool_decide (unsextet u (sextet u (Z.of_nat k)) = Some (Z.of_nat k)))
            (seq 0 64) = true) as T by (intros []; vm_compute; reflexivity).
  specialize (T url). rewrite forallb_forall in T.
  specialize (T (Z.to_nat n)). rewrite Z2Nat.id in T by lia.
  apply bool_decide_eq_true in T; [done|]. apply in_seq. lia.
Qed.

Lemma sextet_not_newline url n : 0 ≤ n < 64 → newline (sextet url n) = false.
Proof.
  intros Hn.
  assert (∀ u, forallb (λ k, negb (newline (sextet u (Z.of_nat k)))) (seq 0 64) = true) as T
    by (intros []; vm_compute; reflexivity).
  specialize (T url). rewrite forallb_forall in T.
  specialize (T (Z.to_nat n)). rewrite Z2Nat.id in T by lia.
  apply negb_true_iff. apply T, in_seq. lia.
Qed.

Definition byte (z : Z) : Prop := 0 ≤ z < 256.

(** Lists by blocks of three. *)
Lemma list_ind3 {A} (P : list A → Prop) :
  P [] → (∀ a, P [a]) → (∀ a b, P [a; b]) →
  (∀ a b c l, P l → P (a :: b :: c :: l)) → ∀ l, P l.
Proof.
  intros H0 H1 H2 H3. fix go 1. intros [|a [|b [|c l]]]; [done|apply H1|apply H2|apply H3, go].
Qed.

Lemma sextets_range l : Forall byte l → Forall (λ n, 0 ≤ n < 64) (sextets l).
Proof.
  unfold byte. induction l as [|a|a b|a b c l IH] using list_ind3; intros H; cbn [sextets];
    repeat (apply Forall_cons in H as [? H]); repeat constructor; auto; try (apply IH; done);
    try apply Z.div_pos; try apply Z.div_lt_upper_bound; try apply Z.mod_pos_bound; try lia;
    Z.to_euclidean_division_equations; lia.
Qed.

Lemma unsextets_sextets l : Forall byte l → unsextets (sextets l) = Some l.
Proof.
  unfold byte. induction l as [|a|a b|a b c l IH] using list_ind3; intros H; cbn [sextets unsextets];
    repeat (apply Forall_cons in H as [? H]); [done|..|rewrite IH by done; cbn];
    repeat f_equal; Z.to_euclidean_division_equations; lia.
Qed.

Lemma bytes_of_range s : Forall byte (bytes_of s).
Proof.
  unfold bytes_of. apply Forall_fmap, Forall_forall. intros c _. unfold byte, byte_val; cbn.
  pose proof (Ascii.N_ascii_bounded c). lia.
Qed.

Lemma of_bytes_of s : of_bytes (bytes_of s) = s.
Proof.
  induction s as [|c s IH]; [done|]. unfold of_bytes, bytes_of in *. cbn. f_equal; [|exact IH].
  unfold byte_of, byte_val. pose proof (Ascii.N_ascii_bounded c).
  rewrite Z.mod_small by lia. rewrite N2Z.id. apply Ascii.ascii_N_embedding.
Qed.

Lemma RawURLDecode_encode s : RawURLDecode (RawURLEncode s) = Some s.
Proof.
  unfold RawURLDecode, RawURLEncode, encode. rewrite String.list_ascii_of_string_of_list_ascii.
  pose proof (sextets_range _ (bytes_of_range s)) as Hr.
  assert (filter (λ c, newline c = false) (sextet true <$> sextets (bytes_of s)) =
    sextet true <$> sextets (bytes_of s)) as ->.
  { induction Hr as [|n l Hn _ IH]; [done|]. cbn [fmap list_fmap].
    rewrite filter_cons_True by (by apply sextet_not_newline). by rewrite IH. }
  assert (mapM (unsextet true) (sextet true <$> sextets (bytes_of s)) =
    Some (sextets (bytes_of s))) as ->.
  { apply mapM_Some, Forall2_fmap_l, Forall_Forall2_diag.
    eapply Forall_impl; [exact Hr|]. intros n Hn. by apply unsextet_sextet. }
  cbn. rewrite unsextets_sextets by apply bytes_of_range. cbn. by rewrite of_bytes_of.
Qed.

Lemma RawURLEncode_inj s t : RawURLEncode s = RawURLEncode t → s = t.
Proof.
  intros E. apply (f_equal RawURLDecode) in E. rewrite !RawURLDecode_encode in E. congruence.
Qed.
