(* ===== verification/Json.v ===== *)
(** * encoding/json as the program's canonical encodings use it

    [json.Marshal] of a struct with fixed field order: a document is a tree
    of strings, integers, booleans, arrays and objects, and [render] is the
    compact text, with Go's HTML-safe string escaping and its replacement of
    invalid UTF-8.  The main result is that the text determines the
    document ([render_inj]) when its strings are ASCII: that is what makes a
    digest of such a text bind every field. *)

From S2P Require Import Prelude Sha256.

(** ** Strings *)

Definition in_range (lo hi b : Z) : bool := bool_decide (lo ≤ b) && bool_decide (b ≤ hi).

Definition hex2 (b : Z) : string :=
  String (hex_digit (b / 16)) (String (hex_digit (b mod 16)) "").

(** The escape of one ASCII byte. *)
Definition esc_ascii (html : bool) (b : Z) : string :=
  if decide (b = 92) then "\\"
  else if decide (b = 34) then String (byte_of 92) (String (byte_of 34) "")
  else if decide (b = 8) then "\b"
  else if decide (b = 12) then "\f"
  else if decide (b = 10) then "\n"
  else if decide (b = 13) then "\r"
  else if decide (b = 9) then "\t"
  else if decide (b < 32 ∨ (html = true ∧ (b = 60 ∨ b = 62 ∨ b = 38))) then "\u00" +:+ hex2 b
  else String (byte_of b) "".

(** Bytes of a well-formed multi-byte UTF-8 sequence at the head of the
    input: its width, or 0. *)
Definition utf8_width (l : list Z) : nat :=
  match l with
  | b0 :: b1 :: l' =>
      let cont := in_range 128 191 in
      if in_range 194 223 b0 && cont b1 then 2%nat else
      match l' with
      | b2 :: l'' =>
          if in_range 224 239 b0 &&
             in_range (if decide (b0 = 224) then 160 else 128)
                      (if decide (b0 = 237) then 159 else 191) b1 && cont b2 then 3%nat else
          match l'' with
          | b3 :: _ =>
              if in_range 240 244 b0 &&
                 in_range (if decide (b0 = 240) then 144 else 128)
                          (if decide (b0 = 244) then 143 else 191) b1 && cont b2 && cont b3
              then 4%nat else 0%nat
          | [] => 0%nat
          end
      | [] => 0%nat
      end
  | _ => 0%nat
  end.

(** The body of a JSON string; [skip] counts bytes of a rune already
    copied as part of a multi-byte sequence. *)
Fixpoint json_body (html : bool) (skip : nat) (l : list Z) : string :=
  match l with
  | [] => ""
  | b :: l' =>
      match skip with
      | S k => String (byte_of b) (json_body html k l')
      | O =>
          if decide (b < 128) then esc_ascii html b +:+ json_body html 0 l' else
          match utf8_width l with
          | O => "\ufffd" +:+ json_body html 0 l'
          | S w =>
              match l' with
              | 128 :: 168 :: l3 =>
                  if decide (b = 226) then "\u2028" +:+ json_body html 0 l3
                  else String (byte_of b) (json_body html w l')
              | 128 :: 169 :: l3 =>
                  if decide (b = 226) then "\u2029" +:+ json_body html 0 l3
                  else String (byte_of b) (json_body html w l')
              | _ => String (byte_of b) (json_body html w l')
              end
          end
      end
  end.

Definition quote : ascii := byte_of 34.
Definition json_string (html : bool) (s : string) : string :=
  String quote (json_body html 0 (bytes_of s) +:+ String quote "").

(** ** Documents *)

Inductive json :=
  | JStr (s : string)
  | JInt (z : Z)
  | JBool (b : bool)
  | JArr (l : list json)
  | JObj (l : list (string * json)).

Definition sep (first : bool) : string := if first then "" else ",".

Section render_list.
Context {A : Type} (r : A → string).
Fixpoint render_items (first : bool) (l : list A) : string :=
  match l with
  | [] => ""
  | x :: l' => sep first +:+ r x +:+ render_items false l'
  end.
End render_list.

Fixpoint render (html : bool) (v : json) : string :=
  match v with
  | JStr s => json_string html s
  | JInt z => itoa z
  | JBool b => if b then "true" else "false"
  | JArr l => "[" +:+ render_items (render html) true l +:+ "]"
  | JObj l =>
      "{" +:+ render_items (λ kv : string * json,
                 json_string html kv.1 +:+ ":" +:+ render html kv.2) true l +:+ "}"
  end.

Definition text (s : string) := bytes_of s.

Example render_ex :
  render true (JObj [("a", JStr "x<y"); ("n", JInt (-12)); ("l", JArr [JBool true; JStr ""])]) =
  "{" +:+ json_string true "a" +:+ ":" +:+ String quote ("x\u003cy" +:+ String quote (
    "," +:+ json_string true "n" +:+ ":-12," +:+ json_string true "l" +:+ ":[true," +:+ json_string true "" +:+ "]}")).
Proof. vm_compute. reflexivity. Qed.
Example body_utf8 : json_body true 0 [195; 169; 226; 128; 168; 255] =
  of_bytes [195; 169] +:+ "\u2028\ufffd".
Proof. vm_compute. reflexivity. Qed.

(** ** The text determines the document *)

(** Two strings with a common extension: one is a prefix of the other. *)
Fixpoint compat (s t : string) : bool :=
  match s, t with
  | String a s', String b t' => Ascii.eqb a b && compat s' t'
  | _, _ => true
  end.

Lemma compat_spec s t x y : s +:+ x = t +:+ y → compat s t = true.
Proof.
  revert t. induction s as [|a s IH]; intros [|b t] H; try done.
  simpl in *. injection H as -> H. by rewrite Ascii.eqb_refl, (IH t).
Qed.

Lemma app_inj s x y : s +:+ x = s +:+ y → x = y.
Proof. apply (inj (String.append s)). Qed.

Lemma app_assoc_s (a b c : string) : (a +:+ b) +:+ c = a +:+ (b +:+ c).
Proof. induction a as [|x a IH]; [done|]. change (String x ((a +:+ b) +:+ c) = String x (a +:+ (b +:+ c))). by rewrite IH. Qed.

Definition ascii_bytes : list Z := Z.of_nat <$> seq 0 128.

Lemma elem_of_ascii_bytes b : b ∈ ascii_bytes ↔ 0 ≤ b < 128.
Proof.
  unfold ascii_bytes. rewrite list_elem_of_fmap. split.
  - intros (n & -> & Hn). apply elem_of_seq in Hn. lia.
  - intros Hb. exists (Z.to_nat b). rewrite elem_of_seq. lia.
Qed.

(** No escape is a prefix of another one, nor of the closing quote. *)
Definition esc_table_ok (html : bool) : bool :=
  forallb (λ b1, negb (compat (esc_ascii html b1) (String quote "")) &&
     forallb (λ b2, bool_decide (b1 = b2) || negb (compat (esc_ascii html b1) (esc_ascii html b2)))
       ascii_bytes) ascii_bytes.

Lemma esc_table html : esc_table_ok html = true.
Proof. destruct html; vm_compute; reflexivity. Qed.

Lemma esc_table_at html b1 : b1 ∈ ascii_bytes →
  compat (esc_ascii html b1) (String quote "") = false ∧
  ∀ b2, b2 ∈ ascii_bytes → b1 = b2 ∨ compat (esc_ascii html b1) (esc_ascii html b2) = false.
Proof.
  intros H1. pose proof (esc_table html) as T. unfold esc_table_ok in T.
  rewrite forallb_forall in T. specialize (T b1 (proj1 (list_elem_of_In _ _) H1)).
  apply andb_true_iff in T as [T1 T2]. split; [by apply negb_true_iff in T1|].
  intros b2 H2. rewrite forallb_forall in T2.
  specialize (T2 b2 (proj1 (list_elem_of_In _ _) H2)).
  apply orb_true_iff in T2 as [T2|T2].
  - left. by apply bool_decide_eq_true in T2.
  - right. by apply negb_true_iff in T2.
Qed.

Definition ascii_only (s : string) : Prop := Forall (λ b, 0 ≤ b < 128) (bytes_of s).
#[export] Instance ascii_only_dec s : Decision (ascii_only s).
Proof. unfold ascii_only. apply _. Defined.

Fixpoint esc_all (html : bool) (l : list Z) : string :=
  match l with [] => "" | b :: l' => esc_ascii html b +:+ esc_all html l' end.

Lemma json_body_ascii html l : Forall (λ b, 0 ≤ b < 128) l → json_body html 0 l = esc_all html l.
Proof.
  induction 1 as [|b l Hb _ IH]; [done|]. cbn [json_body esc_all].
  rewrite decide_True by lia. by rewrite IH.
Qed.

Lemma quote_not_esc html b r r' : 0 ≤ b < 128 → esc_ascii html b +:+ r ≠ String quote r'.
Proof.
  intros Hb H. apply elem_of_ascii_bytes in Hb.
  destruct (esc_table_at html b Hb) as [T _].
  apply (compat_spec _ (String quote "") _ r') in H. congruence.
Qed.

Lemma esc_all_inj html l1 l2 r1 r2 :
  Forall (λ b, 0 ≤ b < 128) l1 → Forall (λ b, 0 ≤ b < 128) l2 →
  esc_all html l1 +:+ String quote r1 = esc_all html l2 +:+ String quote r2 → l1 = l2 ∧ r1 = r2.
Proof.
  intros H1. revert l2. induction H1 as [|b1 l1 Hb1 _ IH]; intros [|b2 l2] H2 E.
  - by injection E.
  - exfalso. inversion H2; subst. cbn [esc_all] in E. rewrite app_assoc_s in E.
    symmetry in E. by apply quote_not_esc in E.
  - exfalso. cbn [esc_all] in E. rewrite app_assoc_s in E. by apply quote_not_esc in E.
  - inversion H2 as [|? ? Hb2 H2']; subst. cbn [esc_all] in E. rewrite !app_assoc_s in E.
    destruct (proj2 (esc_table_at html b1 (proj2 (elem_of_ascii_bytes _) Hb1)) b2
                (proj2 (elem_of_ascii_bytes _) Hb2)) as [->|T].
    + apply app_inj in E. by destruct (IH l2 H2' E) as [-> ->].
    + apply compat_spec in E. congruence.
Qed.

Lemma bytes_of_inj s t : bytes_of s = bytes_of t → s = t.
Proof.
  revert t. induction s as [|a s IH]; intros [|b t] H; try done.
  injection H as Hab Hst. f_equal; [|by apply IH].
  apply N2Z.inj in Hab. rewrite <- (Ascii.ascii_N_embedding a), <- (Ascii.ascii_N_embedding b).
  by rewrite Hab.
Qed.

Lemma json_string_inj html s1 s2 r1 r2 : ascii_only s1 → ascii_only s2 →
  json_string html s1 +:+ r1 = json_string html s2 +:+ r2 → s1 = s2 ∧ r1 = r2.
Proof.
  intros H1 H2 E. unfold json_string in E. injection E as E. rewrite !app_assoc_s in E.
  rewrite !json_body_ascii in E by done.
  apply esc_all_inj in E as [E ->]; [|done..]. by apply bytes_of_inj in E.
Qed.

(** *** Decimals *)

Definition num_char (c : ascii) : bool :=
  in_range 48 57 (byte_val c) || bool_decide (byte_val c = 45).

Fixpoint all_chars (p : ascii → bool) (s : string) : bool :=
  match s with EmptyString => true | String c s' => p c && all_chars p s' end.

(** A text whose first character ends a run of [p]. *)
Definition stops (p : ascii → bool) (r : string) : Prop :=
  match r with EmptyString => True | String c _ => p c = false end.

(** The rest of a text does not continue a number. *)
Definition stop : string → Prop := stops num_char.

Lemma chars_span (p : ascii → bool) a b r1 r2 :
  all_chars p a = true → all_chars p b = true → stops p r1 → stops p r2 →
  a +:+ r1 = b +:+ r2 → a = b ∧ r1 = r2.
Proof.
  revert b. induction a as [|c a IH]; intros [|d b] Ha Hb S1 S2 E.
  - by split.
  - change (r1 = String d (b +:+ r2)) in E. subst r1.
    apply andb_true_iff in Hb as [Hd _]. cbn in S1. congruence.
  - change (String c (a +:+ r1) = r2) in E. subst r2.
    apply andb_true_iff in Ha as [Hc _]. cbn in S2. congruence.
  - apply andb_true_iff in Ha as [_ Ha]. apply andb_true_iff in Hb as [_ Hb].
    change (String c (a +:+ r1) = String d (b +:+ r2)) in E.
    injection E as -> E. by destruct (IH b Ha Hb S1 S2 E) as [-> ->].
Qed.

Lemma pretty_N_char_num x : num_char (pretty_N_char x) = true.
Proof. unfold pretty_N_char. by repeat case_match. Qed.

Lemma pretty_N_go_num x s :
  all_chars num_char s = true → all_chars num_char (pretty_N_go x s) = true.
Proof.
  revert s. induction (N.lt_wf_0 x) as [x _ IH]; intros s Hs.
  destruct (decide (x = 0)%N) as [->|Hx]; [done|].
  rewrite pretty_N_go_step by lia. apply IH; [by apply N.div_lt; lia|].
  simpl. by rewrite pretty_N_char_num.
Qed.

Lemma itoa_num n : all_chars num_char (itoa n) = true.
Proof.
  unfold itoa. assert (∀ p, all_chars num_char (pretty (N.pos p)) = true) as Hp.
  { intros p. unfold pretty, pretty_N. rewrite decide_False by done. by apply pretty_N_go_num. }
  destruct n as [|p|p]; [done|apply Hp|]. cbn. apply Hp.
Qed.

Lemma itoa_text_inj n m r1 r2 :
  stop r1 → stop r2 → itoa n +:+ r1 = itoa m +:+ r2 → n = m ∧ r1 = r2.
Proof.
  intros S1 S2 E. apply (chars_span num_char) in E as [E ->]; auto using itoa_num.
  by apply itoa_inj in E.
Qed.

(** *** Documents *)

Fixpoint json_ascii (v : json) : bool :=
  match v with
  | JStr s => bool_decide (ascii_only s)
  | JInt _ | JBool _ => true
  | JArr l => forallb json_ascii l
  | JObj l => forallb (λ kv, bool_decide (ascii_only kv.1) && json_ascii kv.2) l
  end.

Section json_induction.
Variable P : json → Prop.
Hypothesis HStr : ∀ s, P (JStr s).
Hypothesis HInt : ∀ z, P (JInt z).
Hypothesis HBool : ∀ b, P (JBool b).
Hypothesis HArr : ∀ l, Forall P l → P (JArr l).
Hypothesis HObj : ∀ l, Forall (λ kv : string * json, P kv.2) l → P (JObj l).

Fixpoint json_rect_nested (v : json) : P v :=
  match v with
  | JStr s => HStr s
  | JInt z => HInt z
  | JBool b => HBool b
  | JArr l => HArr l ((fix go l : Forall P l :=
      match l with [] => Forall_nil_2 _ | x :: l' => Forall_cons_2 _ _ _ (json_rect_nested x) (go l') end) l)
  | JObj l => HObj l ((fix go l : Forall (λ kv : string * json, P kv.2) l :=
      match l with
      | [] => Forall_nil_2 _
      | x :: l' => Forall_cons_2 _ x _ (json_rect_nested x.2) (go l') end) l)
  end.
End json_induction.

(** The first character tells the sort of a document; the closing brackets
    start none. *)
Definition char_sort (c : ascii) : nat :=
  if bool_decide (c = quote) then 0 else
  if bool_decide (c = "["%char) then 1 else
  if bool_decide (c = "{"%char) then 2 else
  if bool_decide (c = "t"%char) then 3 else
  if bool_decide (c = "f"%char) then 4 else
  if num_char c then 5 else 6.

Definition json_sort (v : json) : nat :=
  match v with
  | JStr _ => 0 | JArr _ => 1 | JObj _ => 2
  | JBool true => 3 | JBool false => 4 | JInt _ => 5
  end.

Lemma num_char_sort c : num_char c = true → char_sort c = 5%nat.
Proof.
  intros H. unfold char_sort.
  repeat (rewrite bool_decide_false by (intros ->; discriminate H)).
  by rewrite H.
Qed.

Lemma itoa_head n : ∃ c s, itoa n = String c s ∧ num_char c = true.
Proof.
  pose proof (itoa_num n) as H. destruct (itoa n) as [|c s] eqn:E.
  - exfalso. destruct n as [|p|p]; [done| |done]. revert E. unfold itoa.
    change (pretty (Z.pos p)) with (pretty (N.pos p)). unfold pretty, pretty_N.
    rewrite decide_False by done. rewrite pretty_N_go_step by lia.
    assert (∀ x t c, pretty_N_go x (String c t) ≠ "") as Hne; [|apply Hne].
    intros x. induction (N.lt_wf_0 x) as [x _ IH]; intros t c.
    destruct (decide (x = 0)%N) as [->|Hx]; [done|].
    rewrite pretty_N_go_step by lia. apply IH. by apply N.div_lt; lia.
  - exists c, s. split; [done|]. by apply andb_true_iff in H as [? _].
Qed.

Lemma render_head html v : ∃ c s, render html v = String c s ∧ char_sort c = json_sort v.
Proof.
  destruct v as [s|n|b|l|l].
  - by eexists _, _.
  - destruct (itoa_head n) as (c & s & E & Hc). exists c, s.
    split; [done|]. by apply num_char_sort.
  - destruct b; by eexists _, _.
  - by eexists _, _.
  - by eexists _, _.
Qed.

Lemma render_sort html v1 v2 r1 r2 :
  render html v1 +:+ r1 = render html v2 +:+ r2 → json_sort v1 = json_sort v2.
Proof.
  destruct (render_head html v1) as (c1 & s1 & -> & <-), (render_head html v2) as (c2 & s2 & -> & <-).
  intros E. by injection E as ->.
Qed.

Section items.
Context {A : Type} (r : A → string) (P : A → Prop) (c : ascii).
Hypothesis Hc : num_char c = false.
Hypothesis Hcomma : c ≠ ","%char.
Hypothesis Hhead : ∀ x q q', r x +:+ q ≠ String c q'.

Definition reads_back (x : A) : Prop := ∀ y q1 q2, P y → stop q1 → stop q2 →
  r x +:+ q1 = r y +:+ q2 → x = y ∧ q1 = q2.

Lemma items_stop l q : stop (render_items r false l +:+ String c q).
Proof. by destruct l. Qed.

Lemma items_inj first l1 l2 q1 q2 :
  Forall reads_back l1 → Forall P l2 →
  render_items r first l1 +:+ String c q1 = render_items r first l2 +:+ String c q2 →
  l1 = l2 ∧ q1 = q2.
Proof.
  intros H1. revert first l2. induction H1 as [|x l1 Hx _ IH];
    intros first [|y l2] H2 E; cbn [render_items] in E; rewrite ?app_assoc_s in E.
  - by injection E.
  - exfalso. destruct first; [symmetry in E; by apply Hhead in E|].
    by injection E as ->.
  - exfalso. destruct first; [by apply Hhead in E|]. by injection E as <-.
  - apply Forall_cons in H2 as [Hy H2]. apply app_inj in E.
    apply Hx in E as [-> E]; auto using items_stop.
    by destruct (IH false l2 H2 E) as [-> ->].
Qed.
End items.

Lemma render_not_close html v q q' c :
  c = "]"%char ∨ c = "}"%char → render html v +:+ q ≠ String c q'.
Proof.
  intros Hc E. destruct (render_head html v) as (a & s & Ea & Hs). rewrite Ea in E.
  injection E as -> _. destruct Hc as [->| ->], v as [| |[]| |]; done.
Qed.

Lemma reads_back_pair html (kv : string * json) :
  reads_back (render html) (λ v, json_ascii v = true) kv.2 → ascii_only kv.1 →
  reads_back (λ kv : string * json, json_string html kv.1 +:+ ":" +:+ render html kv.2)
    (λ kv, bool_decide (ascii_only kv.1) && json_ascii kv.2 = true) kv.
Proof.
  destruct kv as [k v]. intros Hv Hk [k' v'] q1 q2 Hy S1 S2 E. cbn [fst snd] in *.
  apply andb_true_iff in Hy as [Hk' Hv']. apply bool_decide_eq_true in Hk'.
  rewrite !app_assoc_s in E. apply json_string_inj in E as [-> E]; [|done..].
  apply app_inj in E. by apply Hv in E as [-> ->].
Qed.

Lemma render_reads_back html v :
  json_ascii v = true → reads_back (render html) (λ v, json_ascii v = true) v.
Proof.
  induction v as [s|n|b|l IH|l IH] using json_rect_nested; intros H1 w q1 q2 H2 S1 S2 E;
    pose proof (render_sort html _ _ _ _ E) as Hs;
    destruct w as [s'|n'|[]|l'|l']; try destruct b; try discriminate Hs; clear Hs.
  - cbn in H1, H2. apply bool_decide_eq_true in H1, H2.
    by apply json_string_inj in E as [-> ->].
  - by apply itoa_text_inj in E as [-> ->].
  - split; [done|]. by eapply app_inj.
  - split; [done|]. by eapply app_inj.
  - cbn [render] in E. rewrite !app_assoc_s in E. apply app_inj in E.
    apply items_inj with (P := λ v, json_ascii v = true) in E as [-> ->]; try done.
    + intros x q q'. apply render_not_close. by left.
    + cbn in H1. rewrite List.Forall_forall in IH |- *. rewrite forallb_forall in H1. auto.
    + cbn in H2. rewrite forallb_forall in H2. by rewrite List.Forall_forall.
  - cbn [render] in E. rewrite !app_assoc_s in E. apply app_inj in E.
    cbn in H1, H2. rewrite forallb_forall in H1, H2.
    apply items_inj with
      (P := λ kv, bool_decide (ascii_only kv.1) && json_ascii kv.2 = true) in E as [-> ->]; try done.
    + rewrite List.Forall_forall in IH |- *. intros x Hx.
      pose proof (H1 x Hx) as Hb. apply andb_true_iff in Hb as [Hk Hv].
      apply bool_decide_eq_true in Hk. apply reads_back_pair; auto.
    + by rewrite List.Forall_forall.
Qed.

(** The text of an ASCII document determines the document. *)
Lemma render_inj html v1 v2 :
  json_ascii v1 = true → json_ascii v2 = true → render html v1 = render html v2 → v1 = v2.
Proof.
  intros H1 H2 E. apply (render_reads_back html v1 H1 v2 "" "" H2); [done..|]. by rewrite E.
Qed.

(** A digest of a text binds the text: two texts with one digest are equal
    or are a SHA-256 collision. *)
Definition sha256_collision (s t : string) : Prop := s ≠ t ∧ Sum256 s = Sum256 t.

Lemma digest_collision s t : hex (Sum256 s) = hex (Sum256 t) → s = t ∨ sha256_collision s t.
Proof.
  intros E%hex_inj. destruct (decide (s = t)); [by left|right]. by split.
Qed.
