(* ===== verification/JsonParse.v ===== *)
(** * encoding/json reading

    The reader behind [json.Unmarshal] and [json.Decoder]: text to a tree of
    values with Go's string unescaping and number grammar, and the typed
    reads of struct fields, with Go's case-insensitive field matching, its
    last-value-wins rule and its treatment of [null].  A document [Json.render]
    wrote is read back exactly ([parse_render]). *)

From S2P Require Import Prelude GoTime Sha256 Base64 Json.

Inductive value :=
  | VNull
  | VBool (b : bool)
  | VNum (text : list Z)
  | VStr (s : string)
  | VArr (l : list value)
  | VObj (l : list (string * value)).

(** ** Strings *)

Definition hex_val (c : Z) : option Z :=
  if in_range 48 57 c then Some (c - 48)
  else if in_range 97 102 c then Some (c - 87)
  else if in_range 65 70 c then Some (c - 55) else None.

Definition hex4 (a b c d : Z) : option Z :=
  a ← hex_val a; b ← hex_val b; c ← hex_val c; d ← hex_val d;
  Some (((a * 16 + b) * 16 + c) * 16 + d).

Definition simple_escape (c : Z) : option Z :=
  if decide (c = 34 ∨ c = 92 ∨ c = 47) then Some c
  else if decide (c = 98) then Some 8 else if decide (c = 102) then Some 12
  else if decide (c = 110) then Some 10 else if decide (c = 114) then Some 13
  else if decide (c = 116) then Some 9 else None.

Definition utf8_encode (r : Z) : list Z :=
  if decide (r < 128) then [r]
  else if decide (r < 2048) then [192 + r / 64; 128 + r mod 64]
  else if decide (r < 65536) then [224 + r / 4096; 128 + r / 64 mod 64; 128 + r mod 64]
  else [240 + r / 262144; 128 + r / 4096 mod 64; 128 + r / 64 mod 64; 128 + r mod 64].

(** U+FFFD *)
Definition replacement : list Z := [239; 191; 189].

(** The low surrogate escape at the head of [l], as the rune it completes. *)
Definition low_surrogate (hi : Z) (l : list Z) : option (Z * list Z) :=
  match l with
  | b1 :: b2 :: g1 :: g2 :: g3 :: g4 :: l' =>
      if decide (b1 = 92 ∧ b2 = 117) then
        lo ← hex4 g1 g2 g3 g4;
        if in_range 55296 56319 hi && in_range 56320 57343 lo
        then Some ((hi - 55296) * 1024 + (lo - 56320) + 65536, l') else None
      else None
  | _ => None
  end.

Definition push (p : list Z) (r : option (list Z * list Z)) : option (list Z * list Z) :=
  match r with Some (s, l) => Some ((p ++ s)%list, l) | None => None end.

(** The body of a string up to its closing quote, unescaped, and the rest;
    [skip] counts bytes of a rune already validated. *)
Fixpoint str_body (skip : nat) (l : list Z) : option (list Z * list Z) :=
  match l with
  | [] => None
  | b :: l1 =>
      match skip with
      | S k => push [b] (str_body k l1)
      | O =>
          if decide (b = 34) then Some ([], l1)
          else if decide (b = 92) then
            match l1 with
            | [] => None
            | c :: l2 =>
                match simple_escape c with
                | Some d => push [d] (str_body 0 l2)
                | None =>
                    if decide (c = 117) then
                      match l2 with
                      | h1 :: h2 :: h3 :: h4 :: l3 =>
                          match hex4 h1 h2 h3 h4 with
                          | None => None
                          | Some r =>
                              if in_range 55296 57343 r then
                                match l3 with
                                | _ :: _ :: _ :: _ :: _ :: _ :: l4 =>
                                    match low_surrogate r l3 with
                                    | Some (full, _) => push (utf8_encode full) (str_body 0 l4)
                                    | None => push replacement (str_body 0 l3)
                                    end
                                | _ => push replacement (str_body 0 l3)
                                end
                              else push (utf8_encode r) (str_body 0 l3)
                          end
                      | _ => None
                      end
                    else None
                end
            end
          else if decide (b < 32) then None
          else if decide (b < 128) then push [b] (str_body 0 l1)
          else match utf8_width (b :: l1) with
               | O => push replacement (str_body 0 l1)
               | S w => push [b] (str_body w l1)
               end
      end
  end.

(** ** Numbers *)

Definition is_digit (c : Z) : bool := in_range 48 57 c.
Definition number_char (c : Z) : bool :=
  is_digit c || bool_decide (c = 45 ∨ c = 43 ∨ c = 46 ∨ c = 101 ∨ c = 69).

Fixpoint span (p : Z → bool) (l : list Z) : list Z * list Z :=
  match l with
  | [] => ([], [])
  | c :: l' => if p c then let '(a, b) := span p l' in (c :: a, b) else ([], l)
  end.

Definition strip_sign (l : list Z) : list Z :=
  match l with c :: l' => if decide (c = 45) then l' else l | [] => l end.

Definition valid_exponent (l : list Z) : bool :=
  match l with
  | [] => true
  | c :: l1 =>
      if decide (c = 101 ∨ c = 69) then
        let l2 := match l1 with
                  | s :: l2 => if decide (s = 43 ∨ s = 45) then l2 else l1
                  | [] => l1
                  end in
        negb (bool_decide (l2 = [])) && forallb is_digit l2
      else false
  end.

Definition valid_fraction (l : list Z) : bool :=
  match l with
  | c :: l1 =>
      if decide (c = 46) then
        let '(d, l2) := span is_digit l1 in negb (bool_decide (d = [])) && valid_exponent l2
      else valid_exponent l
  | [] => true
  end.

Definition valid_number (t : list Z) : bool :=
  let '(d, rest) := span is_digit (strip_sign t) in
  match d with
  | [] => false
  | c :: d' => (negb (bool_decide (c = 48)) || bool_decide (d' = [])) && valid_fraction rest
  end.

(** ** Values *)

Definition is_ws (c : Z) : bool := bool_decide (c = 32 ∨ c = 9 ∨ c = 10 ∨ c = 13).
Definition skip_ws (l : list Z) : list Z := (span is_ws l).2.

Fixpoint after (p l : list Z) : option (list Z) :=
  match p, l with
  | [], _ => Some l
  | a :: p', b :: l' => if decide (a = b) then after p' l' else None
  | _ :: _, [] => None
  end.

Definition word (s : string) (v : value) (l : list Z) : option (value * list Z) :=
  match after (bytes_of s) l with Some r => Some (v, r) | None => None end.

(** The value, array and object readers; a level of fuel is spent on each
    value, element and member. *)
Fixpoint pvalue (fuel : nat) (l : list Z) : option (value * list Z) :=
  match fuel with
  | O => None
  | S n =>
      match skip_ws l with
      | [] => None
      | b :: l1 =>
          if decide (b = 34) then
            match str_body 0 l1 with Some (s, r) => Some (VStr (of_bytes s), r) | None => None end
          else if decide (b = 91) then
            match skip_ws l1 with
            | [] => None
            | c :: r =>
                if decide (c = 93) then Some (VArr [], r)
                else match pelems n l1 with Some (vs, r) => Some (VArr vs, r) | None => None end
            end
          else if decide (b = 123) then
            match skip_ws l1 with
            | [] => None
            | c :: r =>
                if decide (c = 125) then Some (VObj [], r)
                else match pmembers n l1 with Some (vs, r) => Some (VObj vs, r) | None => None end
            end
          else if decide (b = 116) then word "true" (VBool true) (b :: l1)
          else if decide (b = 102) then word "false" (VBool false) (b :: l1)
          else if decide (b = 110) then word "null" VNull (b :: l1)
          else
            let '(t, r) := span number_char (b :: l1) in
            if valid_number t then Some (VNum t, r) else None
      end
  end
with pelems (fuel : nat) (l : list Z) : option (list value * list Z) :=
  match fuel with
  | O => None
  | S n =>
      match pvalue n l with
      | None => None
      | Some (v, r) =>
          match skip_ws r with
          | [] => None
          | c :: r' =>
              if decide (c = 93) then Some ([v], r')
              else if decide (c = 44) then
                match pelems n r' with Some (vs, r'') => Some (v :: vs, r'') | None => None end
              else None
          end
      end
  end
with pmembers (fuel : nat) (l : list Z) : option (list (string * value) * list Z) :=
  match fuel with
  | O => None
  | S n =>
      match skip_ws l with
      | [] => None
      | b :: l1 =>
          if decide (b = 34) then
            match str_body 0 l1 with
            | None => None
            | Some (k, r0) =>
                match skip_ws r0 with
                | [] => None
                | c0 :: r1 =>
                    if decide (c0 = 58) then
                      match pvalue n r1 with
                      | None => None
                      | Some (v, r) =>
                          match skip_ws r with
                          | [] => None
                          | c :: r' =>
                              if decide (c = 125) then Some ([(of_bytes k, v)], r')
                              else if decide (c = 44) then
                                match pmembers n r' with
                                | Some (vs, r'') => Some ((of_bytes k, v) :: vs, r'')
                                | None => None
                                end
                              else None
                          end
                      end
                    else None
                end
            end
          else None
      end
  end.

(** [json.Decoder.Decode]: the first value and the unread bytes. *)
Definition decode_first (s : string) : option (value * list Z) :=
  let l := bytes_of s in pvalue (2 * length l + 2) l.

(** [json.Unmarshal] before the assignment: one value and nothing else. *)
Definition parse (s : string) : option value :=
  match decode_first s with
  | Some (v, r) => if decide (skip_ws r = []) then Some v else None
  | None => None
  end.

(** ** Typed reads *)

(** [strconv.ParseInt(text, 10, 64)] on a JSON number. *)
Definition digits_val (l : list Z) : Z := foldl (λ n c, n * 10 + (c - 48)) 0 l.
Definition num_int64 (t : list Z) : option Z :=
  let body := strip_sign t in
  if negb (bool_decide (body = [])) && forallb is_digit body then
    let z := if decide (body = t) then digits_val body else - digits_val body in
    if bool_decide (- 2 ^ 63 ≤ z < 2 ^ 63) then Some z else None
  else None.

(** Go's folding of field names: ASCII case, and the two letters outside
    ASCII that fold into it. *)
Fixpoint fold_name (l : list Z) : list Z :=
  match l with
  | [] => []
  | b :: l' =>
      if decide (b = 197) then
        match l' with
        | c :: l2 => if decide (c = 191) then 115 :: fold_name l2 else b :: fold_name l'
        | [] => [b]
        end
      else if decide (b = 226) then
        match l' with
        | c :: d :: l3 => if decide (c = 132 ∧ d = 170) then 107 :: fold_name l3 else b :: fold_name l'
        | _ => b :: fold_name l'
        end
      else (if in_range 65 90 b then b + 32 else b) :: fold_name l'
  end.

Definition same_name (a b : string) : bool :=
  bool_decide (fold_name (bytes_of a) = fold_name (bytes_of b)).

(** Reads the field [name] of a struct: each occurrence is decoded in turn,
    the last one stays; [null] leaves the field as it was. *)
Definition field {A} (dec : value → option A) (zero : A) (name : string)
    (o : list (string * value)) : option A :=
  foldl (λ acc kv,
    if same_name kv.1 name then
      match kv.2 with VNull => acc | v => _ ← acc; dec v end
    else acc) (Some zero) o.

Definition as_str (v : value) : option string := match v with VStr s => Some s | _ => None end.
Definition as_bool (v : value) : option bool := match v with VBool b => Some b | _ => None end.
Definition as_int (v : value) : option Z := match v with VNum t => num_int64 t | _ => None end.
Definition as_list {A} (dec : value → option A) (v : value) : option (list A) :=
  match v with VArr l => mapM dec l | _ => None end.
(** Array elements that may be [null] keep the zero value. *)
Definition or_zero {A} (zero : A) (dec : value → option A) (v : value) : option A :=
  match v with VNull => Some zero | _ => dec v end.

Definition str_field := field as_str "".
Definition int_field := field as_int 0.
Definition bool_field := field as_bool false.

(** [DisallowUnknownFields] *)
Definition known_fields (names : list string) (o : list (string * value)) : Prop :=
  Forall (λ kv, Exists (λ n, same_name kv.1 n = true) names) o.
#[export] Instance known_fields_dec names o : Decision (known_fields names o).
Proof. unfold known_fields. apply _. Defined.

(** ** Reading back what was written *)

Fixpoint of_json (v : json) : value :=
  match v with
  | JStr s => VStr s
  | JInt z => VNum (bytes_of (itoa z))
  | JBool b => VBool b
  | JArr l => VArr (of_json <$> l)
  | JObj l => VObj ((λ kv, (kv.1, of_json kv.2)) <$> l)
  end.

Lemma bytes_of_app s t : bytes_of (s +:+ t) = (bytes_of s ++ bytes_of t)%list.
Proof.
  induction s as [|c s IH]; [done|]. change (bytes_of (String c s +:+ t)) with
    (byte_val c :: bytes_of (s +:+ t)). by rewrite IH.
Qed.

Lemma str_body_escape html b X : 0 ≤ b < 128 →
  str_body 0 (bytes_of (esc_ascii html b) ++ X) = push [b] (str_body 0 X).
Proof.
  intros Hb. apply elem_of_ascii_bytes in Hb. revert b Hb. apply Forall_forall.
  destruct html; repeat (apply Forall_cons; split; [reflexivity|]); constructor.
Qed.

Lemma str_body_escaped html l X : Forall (λ b, 0 ≤ b < 128) l →
  str_body 0 (bytes_of (esc_all html l) ++ 34 :: X) = Some (l, X).
Proof.
  induction 1 as [|b l Hb _ IH]; [done|]. cbn [esc_all].
  rewrite bytes_of_app, <- app_assoc, str_body_escape, IH by done. done.
Qed.

Lemma str_body_string html s X : ascii_only s →
  ∃ t, bytes_of (json_string html s) = 34 :: t ∧ str_body 0 (t ++ X) = Some (bytes_of s, X).
Proof.
  intros Hs. exists (bytes_of (json_body html 0 (bytes_of s)) ++ [34])%list. split.
  - unfold json_string. change (bytes_of (String quote ?s)) with (byte_val quote :: bytes_of s).
    by rewrite bytes_of_app.
  - rewrite json_body_ascii by done. rewrite <- app_assoc. by apply str_body_escaped.
Qed.

(** *** Decimals *)

Lemma digits_val_snoc l c : digits_val (l ++ [c]) = digits_val l * 10 + (c - 48).
Proof. unfold digits_val. by rewrite foldl_app. Qed.

Lemma pretty_char_val x : (x < 10)%N → byte_val (pretty_N_char x) = 48 + Z.of_N x.
Proof.
  intros Hx. assert (x ∈ [0; 1; 2; 3; 4; 5; 6; 7; 8; 9]%N) as Hin.
  { rewrite !elem_of_cons. destruct x as [|p]; [by left|].
    do 4 (destruct p as [p|p|]; try lia; try tauto). }
  clear Hx. revert x Hin. apply Forall_forall.
  repeat (apply Forall_cons; split; [reflexivity|]). constructor.
Qed.

Lemma pretty_go_digits x s : (0 < x)%N →
  ∃ c d, bytes_of (pretty_N_go x s) = ((c :: d) ++ bytes_of s)%list ∧ c ≠ 48 ∧
    forallb is_digit (c :: d) = true ∧ digits_val (c :: d) = Z.of_N x.
Proof.
  revert s. induction (N.lt_wf_0 x) as [x _ IH]; intros s Hx.
  rewrite pretty_N_go_step by done.
  assert (x mod 10 < 10)%N as Hm by (apply N.mod_lt; lia).
  pose proof (pretty_char_val (x mod 10) Hm) as Ev.
  assert (is_digit (48 + Z.of_N (x mod 10)) = true) as Hd.
  { unfold is_digit, in_range. clear -Hm. set (m := (x mod 10)%N) in *. clearbody m.
    rewrite !bool_decide_true; [done|lia..]. }
  pose proof (N.div_mod x 10 ltac:(lia)) as Edm.
  destruct (decide (x / 10 = 0)%N) as [E0|N0].
  - rewrite E0. exists (48 + Z.of_N (x mod 10)), []. split_and!.
    + rewrite pretty_N_go_0. cbn. by rewrite <- Ev.
    + lia.
    + cbn. by rewrite Hd.
    + cbn. lia.
  - destruct (IH (x / 10)%N ltac:(apply N.div_lt; lia)
      (String (pretty_N_char (x mod 10)) s) ltac:(lia)) as (c & d & E & Hc & Hf & Hv).
    exists c, (d ++ [48 + Z.of_N (x mod 10)])%list. split_and!; [|done| |].
    + rewrite E, <- Ev. cbn. by rewrite <- app_assoc.
    + change (forallb is_digit ((c :: d) ++ [48 + Z.of_N (x mod 10)]) = true).
      rewrite forallb_app, Hf. cbn. by rewrite Hd.
    + change (digits_val ((c :: d) ++ [48 + Z.of_N (x mod 10)]) = Z.of_N x).
      rewrite digits_val_snoc, Hv. lia.
Qed.

Lemma span_all p l : forallb p l = true → span p l = (l, []).
Proof.
  induction l as [|c l IH]; [done|]. cbn. intros [Hc Hl]%andb_true_iff.
  by rewrite Hc, (IH Hl).
Qed.

(** The decimal of a nonnegative number: its digits, no leading zero. *)
Lemma nat_digits x :
  ∃ c d, bytes_of (pretty x) = c :: d ∧ (c = 48 → d = []) ∧
    forallb is_digit (c :: d) = true ∧ digits_val (c :: d) = Z.of_N x.
Proof.
  destruct (decide (x = 0)%N) as [->|Hx]; [by exists 48, []|].
  destruct (pretty_go_digits x "" ltac:(lia)) as (c & d & E & Hc & Hf & Hv). exists c, d.
  rewrite app_nil_r in E. split_and!; [|done..].
  unfold pretty, pretty_N. by rewrite decide_False.
Qed.

Lemma digits_number c d : (c = 48 → d = []) → forallb is_digit (c :: d) = true →
  valid_number (c :: d) = true ∧ strip_sign (c :: d) = c :: d.
Proof.
  intros H0 Hf. assert (c ≠ 45) as H45.
  { intros ->. cbn in Hf. by apply andb_true_iff in Hf as [[=] _]. }
  assert (strip_sign (c :: d) = c :: d) as Es by (cbn; by rewrite decide_False).
  split; [|done]. unfold valid_number. rewrite Es, span_all by done. cbn.
  destruct (decide (c = 48)) as [Ec|Ec].
  - by rewrite (H0 Ec), (bool_decide_true (@nil Z = [])), orb_true_r.
  - by rewrite (bool_decide_false (c = 48)).
Qed.

Lemma itoa_number n :
  let t := bytes_of (itoa n) in
  valid_number t = true ∧ (- 2 ^ 63 ≤ n < 2 ^ 63 → num_int64 t = Some n) ∧
  forallb number_char t = true ∧ ∃ c t', t = c :: t' ∧ (is_digit c = true ∨ c = 45).
Proof.
  cbv zeta. destruct (nat_digits (Z.to_N (Z.abs n))) as (c & d & E & H0 & Hf & Hv).
  destruct (digits_number c d H0 Hf) as [Hn Hs].
  assert (forallb number_char (c :: d) = true) as Hc.
  { clear -Hf. induction (c :: d) as [|x l IH]; [done|]. cbn in *.
    apply andb_true_iff in Hf as [Hx Hl]. unfold number_char at 1. by rewrite Hx, IH. }
  assert (is_digit c = true) as Hd by (cbn in Hf; by apply andb_true_iff in Hf as [? _]).
  rewrite Z2N.id in Hv by lia.
  destruct (decide (0 ≤ n)) as [Hp|Hp].
  - assert (bytes_of (itoa n) = c :: d) as ->.
    { rewrite <- E. destruct n; [done|done|lia]. }
    split_and!; [done| |done|by exists c, d; auto].
    intros Hr. unfold num_int64. rewrite Hs, Hf, decide_True, Hv by done.
    rewrite Z.abs_eq in * by lia. cbn. by rewrite bool_decide_true.
  - assert (bytes_of (itoa n) = 45 :: c :: d) as ->.
    { rewrite <- E. destruct n; [lia|lia|done]. }
    split_and!; [|  |by cbn in *; rewrite Hc|by exists 45, (c :: d); auto].
    + unfold valid_number in *. cbn [strip_sign]. rewrite decide_True by done. by rewrite Hs in Hn.
    + intros Hr. unfold num_int64. cbn [strip_sign]. rewrite decide_True by done. rewrite Hf.
      rewrite decide_False, Hv by (intros E'; apply (f_equal length) in E'; cbn in E'; lia).
      cbn. rewrite bool_decide_true by lia. f_equal. lia.
Qed.

(** *** Documents *)

Fixpoint levels (v : json) : nat :=
  match v with
  | JArr l => S (list_sum ((λ x, S (levels x)) <$> l))
  | JObj l => S (list_sum ((λ kv, S (levels kv.2)) <$> l))
  | _ => 1
  end.

(** The rest does not continue a number. *)
Definition num_stop (r : list Z) : Prop :=
  match r with [] => True | c :: _ => number_char c = false end.

Lemma span_stop t r : forallb number_char t = true → num_stop r →
  span number_char (t ++ r) = (t, r).
Proof.
  induction t as [|c t IH]; intros Ht Hr.
  - destruct r as [|c r]; [done|]. cbn in *. by rewrite Hr.
  - cbn in *. apply andb_true_iff in Ht as [Hc Ht]. by rewrite Hc, IH.
Qed.

Lemma skip_ws_cons c l : is_ws c = false → skip_ws (c :: l) = c :: l.
Proof. intros H. unfold skip_ws. cbn. by rewrite H. Qed.

Lemma digit_not_ws c : is_digit c = true ∨ c = 45 →
  is_ws c = false ∧ c ≠ 34 ∧ c ≠ 91 ∧ c ≠ 123 ∧ c ≠ 116 ∧ c ≠ 102 ∧ c ≠ 110.
Proof.
  unfold is_digit, in_range. intros H. assert (45 ≤ c ≤ 57) as Hc.
  { destruct H as [H| ->]; [|lia].
    apply andb_true_iff in H as [?%bool_decide_eq_true ?%bool_decide_eq_true]. lia. }
  split_and!; try lia. unfold is_ws. rewrite bool_decide_false; [done|lia].
Qed.

Definition reads (html : bool) (v : json) : Prop := ∀ fuel r,
  (levels v ≤ fuel)%nat → num_stop r →
  pvalue fuel (bytes_of (render html v) ++ r) = Some (of_json v, r).

Lemma pelems_render html x l fuel r :
  reads html x → Forall (reads html) l →
  (S (levels x) + list_sum ((λ x, S (levels x)) <$> l) ≤ fuel)%nat →
  pelems fuel (bytes_of (render html x +:+ render_items (render html) false l) ++ 93 :: r) =
    Some (of_json x :: (of_json <$> l), r).
Proof.
  intros Hx Hl. revert x Hx fuel. induction Hl as [|y l Hy Hl IH]; intros x Hx [|n] Hf; try lia.
  - cbn [render_items pelems]. rewrite bytes_of_app, <- app_assoc, (Hx n) by (done || lia).
    cbn [bytes_of]. cbn. done.
  - cbn [pelems]. rewrite bytes_of_app, <- app_assoc.
    change (bytes_of (render_items (render html) false (y :: l))) with
      (44 :: bytes_of (render html y +:+ render_items (render html) false l)).
    cbn in Hf. rewrite (Hx n) by (done || lia). cbn [app]. rewrite skip_ws_cons by done.
    rewrite decide_False, decide_True by done. rewrite IH; [done|done|unfold list_sum; lia].
Qed.

Definition member html (kv : string * json) : string :=
  json_string html kv.1 +:+ ":" +:+ render html kv.2.

Lemma pmembers_render html x l fuel r :
  ascii_only x.1 → reads html x.2 → Forall (λ kv, ascii_only kv.1 ∧ reads html kv.2) l →
  (S (levels x.2) + list_sum ((λ kv : string * json, S (levels kv.2)) <$> l) ≤ fuel)%nat →
  pmembers fuel (bytes_of (member html x +:+ render_items (member html) false l) ++ 125 :: r) =
    Some ((x.1, of_json x.2) :: ((λ kv, (kv.1, of_json kv.2)) <$> l), r).
Proof.
  intros Ha Hx Hl. revert x Ha Hx fuel.
  induction Hl as [|y l [Hk Hy] Hl IH]; intros x Ha Hx [|n] Hf; try lia.
  all: cbn [pmembers]; rewrite bytes_of_app; unfold member at 1; rewrite bytes_of_app.
  all: rewrite <- !app_assoc; match goal with |- context [(bytes_of (json_string _ _) ++ ?X)%list] =>
    destruct (str_body_string html x.1 X Ha) as (t & Et & Eb) end.
  all: rewrite Et; cbn [app]; rewrite skip_ws_cons, decide_True, Eb by done.
  all: rewrite bytes_of_app; cbn [app]; rewrite <- app_assoc.
  all: change (bytes_of ":") with [58]; cbn [app].
  all: rewrite skip_ws_cons, decide_True by done.
  - cbn in Hf. rewrite (Hx n) by (done || lia). cbn. by rewrite of_bytes_of.
  - change (bytes_of (render_items (member html) false (y :: l))) with
      (44 :: bytes_of (member html y +:+ render_items (member html) false l)).
    cbn in Hf. rewrite (Hx n) by (done || lia). cbn [app]. rewrite skip_ws_cons by done.
    rewrite decide_False, decide_True by done. rewrite IH by (done || (unfold list_sum; lia)).
    by rewrite of_bytes_of.
Qed.

Lemma render_first html v :
  ∃ c t, bytes_of (render html v) = c :: t ∧ is_ws c = false ∧ c ≠ 93 ∧ c ≠ 125.
Proof.
  destruct (render_head html v) as (c & s & E & Hc). exists (byte_val c), (bytes_of s).
  rewrite E. split; [done|]. assert (char_sort c ≠ 6%nat) as H6 by (rewrite Hc; by destruct v as [| |[]| |]).
  clear -H6. revert H6. destruct c as [[] [] [] [] [] [] [] []]; vm_compute;
    intros H; (exfalso; by apply H) || (split_and!; congruence).
Qed.

Lemma skip_ws_render html v q : skip_ws (bytes_of (render html v) ++ q) = (bytes_of (render html v) ++ q)%list.
Proof. destruct (render_first html v) as (c & t & -> & Hw & _). by apply skip_ws_cons. Qed.

Lemma render_reads html v : json_ascii v = true → reads html v.
Proof.
  induction v as [s|z|b|l IH|l IH] using json_rect_nested; intros Ha [|n] r Hf Hr; try (cbn in Hf; lia).
  - apply bool_decide_eq_true in Ha. cbn [render of_json pvalue].
    destruct (str_body_string html s r Ha) as (t & -> & E). cbn [app].
    by rewrite skip_ws_cons, decide_True, E, of_bytes_of by done.
  - cbn [render of_json]. destruct (itoa_number z) as (Hv & _ & Hc & c & t & E & Hd).
    rewrite E in *. destruct (digit_not_ws c Hd) as (Hw&?&?&?&?&?&?).
    cbn [app pvalue]. rewrite skip_ws_cons by done. rewrite !decide_False by done.
    change (c :: (t ++ r)%list) with ((c :: t) ++ r)%list. by rewrite span_stop, Hv.
  - by destruct b.
  - assert (Forall (reads html) l) as Hl.
    { rewrite Forall_forall in *. intros x Hx. apply IH; [done|].
      cbn in Ha. rewrite forallb_forall in Ha. apply Ha. by apply list_elem_of_In. }
    destruct l as [|x l]; [done|]. apply Forall_cons in Hl as [Hx Hl].
    change (bytes_of (render html (JArr (x :: l)))) with
      (91 :: bytes_of ((render html x +:+ render_items (render html) false l) +:+ "]")).
    rewrite bytes_of_app. change (bytes_of "]") with [93]. cbn [app].
    rewrite <- app_assoc. cbn [app pvalue]. rewrite skip_ws_cons by done.
    rewrite decide_False, decide_True by done.
    rewrite pelems_render; [|done|done|cbn in Hf; unfold list_sum; lia].
    rewrite bytes_of_app, <- app_assoc, skip_ws_render.
    destruct (render_first html x) as (c & t & -> & Hw & H93 & _). cbn [app].
    by rewrite decide_False.
  - assert (Forall (λ kv, ascii_only kv.1 ∧ reads html kv.2) l) as Hl.
    { rewrite Forall_forall in *. intros x Hx. cbn in Ha. rewrite forallb_forall in Ha.
      apply list_elem_of_In in Hx as Hx'. specialize (Ha x Hx').
      apply andb_true_iff in Ha as [Ha Hj]. apply bool_decide_eq_true in Ha. auto. }
    destruct l as [|x l]; [done|]. apply Forall_cons in Hl as [[Hk Hx] Hl].
    change (bytes_of (render html (JObj (x :: l)))) with
      (123 :: bytes_of ((member html x +:+ render_items (member html) false l) +:+ "}")).
    rewrite bytes_of_app. change (bytes_of "}") with [125]. cbn [app].
    rewrite <- app_assoc. cbn [app pvalue]. rewrite skip_ws_cons by done.
    do 2 rewrite decide_False by done. rewrite decide_True by done.
    rewrite pmembers_render; [|done|done|done|cbn in Hf; unfold list_sum; lia].
    rewrite bytes_of_app. unfold member at 1. rewrite bytes_of_app, <- !app_assoc.
    destruct (str_body_string html x.1 [] Hk) as (t & -> & _). cbn [app].
    by rewrite skip_ws_cons, decide_False.
Qed.

Lemma levels_length html v : (levels v ≤ 2 * length (bytes_of (render html v)))%nat.
Proof.
  assert (∀ s, length (bytes_of s) = String.length s) as Hlen.
  { intros s. unfold bytes_of. rewrite length_fmap. induction s; cbn; auto. }
  induction v as [s|z|b|l IH|l IH] using json_rect_nested.
  - cbn [levels render]. unfold json_string. cbn. lia.
  - cbn [levels render]. destruct (itoa_head z) as (c & s & -> & _). cbn. lia.
  - by destruct b; cbn; lia.
  - cbn [levels render]. assert (∀ first, (list_sum ((λ x, S (levels x)) <$> l) ≤
      2 * length (bytes_of (render_items (render html) first l)) + (if first then 2 else 0))%nat) as Hi.
    { induction IH as [|x l Hx _ IHl]; intros first; [by cbn; lia|]. specialize (IHl false).
      cbn [render_items]. rewrite !bytes_of_app, !length_app. cbn in *. unfold list_sum in *.
      destruct first; cbn; lia. }
    specialize (Hi true). rewrite !bytes_of_app, !length_app. cbn in *. unfold list_sum in *. lia.
  - cbn [levels render]. change (λ kv, _ +:+ _) with (member html).
    assert (∀ first, (list_sum ((λ kv : string * json, S (levels kv.2)) <$> l) ≤
      2 * length (bytes_of (render_items (member html) first l)) + (if first then 2 else 0))%nat) as Hi.
    { induction IH as [|x l Hx _ IHl]; intros first; [by cbn; lia|]. specialize (IHl false).
      cbn [render_items]. unfold member at 1. rewrite !bytes_of_app, !length_app.
      cbn in *. unfold list_sum in *. destruct first; cbn; lia. }
    specialize (Hi true). rewrite !bytes_of_app, !length_app. cbn in *. unfold list_sum in *. lia.
Qed.

(** A document of ASCII strings is read back as it was written. *)
Lemma decode_first_render html v : json_ascii v = true →
  decode_first (render html v) = Some (of_json v, []).
Proof.
  intros Ha. unfold decode_first. pose proof (levels_length html v) as Hl.
  pose proof (render_reads html v Ha (2 * length (bytes_of (render html v)) + 2)%nat []
    ltac:(lia) I) as E. rewrite app_nil_r in E. exact E.
Qed.

Lemma parse_render html v : json_ascii v = true → parse (render html v) = Some (of_json v).
Proof. intros Ha. unfold parse. by rewrite decode_first_render. Qed.

(** *** Fields by position

    Which member a field reads depends on the names alone, so on a document
    with known names it is a computation. *)
Definition no_name (name : string) (keys : list string) : bool :=
  forallb (λ k, negb (same_name k name)) keys.
Fixpoint only_at (name : string) (keys : list string) (i : nat) : bool :=
  match keys, i with
  | [], _ => false
  | k :: ks, O => same_name k name && no_name name ks
  | k :: ks, S i' => negb (same_name k name) && only_at name ks i'
  end.

Lemma fold_absent {A} (dec : value → option A) name o (acc : option A) :
  no_name name o.*1 = true →
  foldl (λ acc kv, if same_name kv.1 name then
    match kv.2 with VNull => acc | v => _ ← acc; dec v end else acc) acc o = acc.
Proof.
  unfold no_name. revert acc. induction o as [|[k v] o IH]; intros acc H; [done|]. cbn in *.
  destruct (same_name k name); [done|]. by apply IH.
Qed.

Lemma field_absent {A} (dec : value → option A) zero name o :
  no_name name o.*1 = true → field dec zero name o = Some zero.
Proof. apply fold_absent. Qed.

Lemma field_only_at {A} (dec : value → option A) zero name o i kv a :
  only_at name o.*1 i = true → o !! i = Some kv → kv.2 ≠ VNull → dec kv.2 = Some a →
  field dec zero name o = Some a.
Proof.
  unfold field. intros Hk Hi Hn Ha. revert i Hk Hi.
  induction o as [|[k v] o IH]; intros i Hk Hi; [done|]. destruct i as [|i]; cbn in *.
  - injection Hi as <-. apply andb_prop in Hk as [-> Hk]. cbn in *.
    rewrite fold_absent by done. destruct v; done.
  - apply andb_prop in Hk as [Hk Hr]. destruct (same_name k name); [done|]. by eapply IH.
Qed.

Lemma known_keys names o :
  Forall (λ k, Exists (λ n, same_name k n = true) names) o.*1 → known_fields names o.
Proof. by rewrite Forall_fmap. Qed.

Lemma option_step {A B} (m : option A) (f : A → option B) a r :
  m = Some a → f a = r → m ≫= f = r.
Proof. by intros -> <-. Qed.

(** Numbers an int64 field holds. *)
Definition int64_range (n : Z) : Prop := - 2 ^ 63 ≤ n < 2 ^ 63.
#[export] Instance int64_range_dec n : Decision (int64_range n).
Proof. unfold int64_range. apply _. Defined.

Lemma int_text n : int64_range n → num_int64 (bytes_of (itoa n)) = Some n.
Proof. destruct (itoa_number n) as (_ & Hi & _). exact Hi. Qed.

Lemma field_holds {A} (P : A → Prop) (dec : value → option A) zero name o a :
  P zero → (∀ v x, dec v = Some x → P x) → field dec zero name o = Some a → P a.
Proof.
  unfold field. intros Hz Hd. assert (∀ acc : option A, (∀ x, acc = Some x → P x) →
    ∀ a, foldl (λ acc kv, if same_name kv.1 name then
      match kv.2 with VNull => acc | v => _ ← acc; dec v end else acc) acc o = Some a → P a) as H.
  { induction o as [|[k v] o IH]; intros acc Ha x; cbn; [apply Ha|]. apply IH.
    intros y. destruct (same_name k name); [|apply Ha].
    destruct v; try apply Ha; destruct acc; cbn; try done; apply Hd. }
  apply H. by intros x [= <-].
Qed.

Lemma int_field_range name o n : int_field name o = Some n → int64_range n.
Proof.
  apply field_holds; [unfold int64_range; lia|]. intros v x. unfold as_int, num_int64.
  destruct v; try done. case_match; [|done].
  match goal with |- context [if ?b then _ else _] => destruct b eqn:D end; [|done].
  apply bool_decide_eq_true in D. by intros [= <-].
Qed.

(** ** Times

    [time.Time.UnmarshalJSON]: an RFC 3339 text with any offset. *)

Definition days_from_civil (y m d : Z) : Z :=
  let y' := if decide (m ≤ 2) then y - 1 else y in
  let era := y' / 400 in
  let yoe := y' - era * 400 in
  let doy := (153 * (m + (if decide (2 < m) then -3 else 9)) + 2) / 5 + d - 1 in
  let doe := yoe * 365 + yoe / 4 - yoe / 100 + doy in
  era * 146097 + doe - 719468.

(** [n] decimal digits at the head of [l]. *)
Definition take_digits (n : nat) (l : list Z) : option (Z * list Z) :=
  let d := take n l in
  if bool_decide (length d = n) && forallb is_digit d then Some (digits_val d, drop n l) else None.

Definition expect (c : Z) (l : list Z) : option (list Z) :=
  match l with b :: l' => if decide (b = c) then Some l' else None | [] => None end.

Definition days_in (y m : Z) : Z :=
  if decide (m = 2) then
    if decide (y mod 4 = 0 ∧ (y mod 100 ≠ 0 ∨ y mod 400 = 0)) then 29 else 28
  else if decide (m = 4 ∨ m = 6 ∨ m = 9 ∨ m = 11) then 30 else 31.

(** Nanoseconds of a fraction: its first nine digits. *)
Definition fraction_ns (d : list Z) : Z :=
  digits_val (take 9 (d ++ replicate 9 48)).

Definition parse_offset (l : list Z) : option Z :=
  match l with
  | [] => None
  | c :: l1 =>
      if decide (c = 90) then (if decide (l1 = []) then Some 0 else None)
      else if decide (c = 43 ∨ c = 45) then
        '(h, l2) ← take_digits 2 l1;
        l3 ← expect 58 l2;
        '(m, l4) ← take_digits 2 l3;
        if decide (h < 24 ∧ m < 60 ∧ l4 = []) then
          Some ((if decide (c = 43) then 1 else -1) * (h * 3600 + m * 60))
        else None
      else None
  end.

Definition parse_time (s : string) : option time :=
  '(y, l) ← take_digits 4 (bytes_of s);
  l ← expect 45 l; '(mo, l) ← take_digits 2 l;
  l ← expect 45 l; '(d, l) ← take_digits 2 l;
  l ← expect 84 l; '(h, l) ← take_digits 2 l;
  l ← expect 58 l; '(mi, l) ← take_digits 2 l;
  l ← expect 58 l; '(se, l) ← take_digits 2 l;
  '(ns, l) ← match expect 46 l with
             | None => Some (0, l)
             | Some l1 =>
                 let '(f, l2) := span is_digit l1 in
                 if decide (f = []) then None else Some (fraction_ns f, l2)
             end;
  off ← parse_offset l;
  if decide (1 ≤ mo ≤ 12 ∧ 1 ≤ d ≤ days_in y mo ∧ h < 24 ∧ mi < 60 ∧ se < 60) then
    Some ((days_from_civil y mo d * 86400 + h * 3600 + mi * 60 + se - off) * Second + ns)
  else None.

Definition as_time (v : value) : option time :=
  match v with VStr s => parse_time s | _ => None end.
Definition time_field := field as_time zero_time.

Example parse_zero : parse_time "0001-01-01T00:00:00Z" = Some zero_time.
Proof. vm_compute. reflexivity. Qed.
Example parse_format : parse_time (formatTime (1789344000 * Second + 86399 * Second + 1)) =
  Some (1789344000 * Second + 86399 * Second + 1).
Proof. vm_compute. reflexivity. Qed.
Example parse_zone : parse_time "2000-02-29T01:30:00.5+01:30" = Some (951782400 * Second + 500000000).
Proof. vm_compute. reflexivity. Qed.
Example parse_bad_day : parse_time "2001-02-29T01:30:00Z" = None.
Proof. vm_compute. reflexivity. Qed.

(** Evaluates the field reads of a document with known field names. *)
Ltac read_fields :=
  unfold str_field, int_field, bool_field, time_field, field; cbn [foldl fst snd];
  repeat match goal with
  | |- context [same_name ?a ?b] =>
      let r := eval vm_compute in (same_name a b) in
      replace (same_name a b) with r by (vm_compute; reflexivity)
  end;
  cbn [as_str as_int as_bool snd mbind option_bind].

(** Reads the [i]-th member of a document with known names. *)
Ltac read_at i :=
  eapply option_step;
  [eapply (field_only_at _ _ _ _ i);
   [vm_compute; reflexivity|reflexivity|done
   |cbn [as_str as_int as_bool as_time snd]; first [reflexivity|eassumption]]|cbv beta].
(** Reads [n] members in order from the [i]-th on. *)
Ltac read_from i n :=
  lazymatch n with
  | O => idtac
  | S ?m => read_at i; read_from (S i) m
  end.
Ltac read_absent :=
  eapply option_step; [apply field_absent; vm_compute; reflexivity|cbv beta].
