(* ===== verification/Rfc3339.v ===== *)
(** * RFC 3339 texts read back

    The calendar conversions of [GoTime] and [JsonParse] are inverse to each
    other, so a time written by [time.MarshalJSON] at whole seconds is read
    back by [time.UnmarshalJSON], and two times with the same text are the
    same second. *)

From S2P Require Import Prelude GoTime Sha256 Json JsonParse.

(** [t.UTC().Year()]; [time.MarshalJSON] fails outside 0 to 9999. *)
Definition Year (t : time) : Z := (civil_from_days (t / Second / 86400)).1.1.
Definition json_year (t : time) : Prop := 0 ≤ Year t ≤ 9999.
#[export] Instance json_year_dec t : Decision (json_year t).
Proof. unfold json_year. apply _. Defined.

(** ** Years and days of a 400-year era *)

Definition year_start (y : Z) : Z := 365 * y + y / 4 - y / 100.
Definition year_index (doe : Z) : Z := doe - doe / 1460 + doe / 36524 - doe / 146096.

Lemma year_index_mono a b : 0 ≤ a → a ≤ b → b < 146097 → year_index a ≤ year_index b.
Proof. unfold year_index. intros. Z.div_mod_to_equations. lia. Qed.

Definition leap_start (y : Z) : Prop :=
  (y + 1) mod 4 = 0 ∧ ((y + 1) mod 100 ≠ 0 ∨ (y + 1) mod 400 = 0).
#[export] Instance leap_start_dec y : Decision (leap_start y).
Proof. unfold leap_start. apply _. Defined.

Definition year_len (y : Z) : Z := if decide (leap_start y) then 366 else 365.

Lemma year_start_bounds y : 0 ≤ y < 400 → 0 ≤ year_start y ≤ 365 * y + 97.
Proof. unfold year_start. intros. Z.div_mod_to_equations. lia. Qed.

Lemma year_len_bounds y : 365 ≤ year_len y ≤ 366.
Proof. unfold year_len. case_decide; lia. Qed.

(** The first and last day of every year of the era. *)
Lemma era_years y : 0 ≤ y < 400 →
  year_index (year_start y) / 365 = y ∧
  year_index (year_start y + year_len y - 1) / 365 = y ∧
  year_start y + year_len y = year_start (y + 1) + (if decide (y = 399) then 1 else 0).
Proof.
  intros Hy. assert (Forall (λ y, year_index (year_start y) / 365 = y ∧
    year_index (year_start y + year_len y - 1) / 365 = y ∧
    year_start y + year_len y = year_start (y + 1) + (if decide (y = 399) then 1 else 0))
    (seqZ 0 400)) as Ha by by_decide.
  rewrite Forall_forall in Ha. apply Ha, elem_of_seqZ. lia.
Qed.

Lemma era_year doe y : 0 ≤ doe < 146097 → y = year_index doe / 365 →
  0 ≤ y < 400 ∧ year_start y ≤ doe < year_start y + year_len y.
Proof.
  intros Hd Ey. assert (0 ≤ y < 400) as Hy.
  { pose proof (year_index_mono 0 doe ltac:(lia) ltac:(lia) ltac:(lia)) as H0.
    pose proof (year_index_mono doe 146096 ltac:(lia) ltac:(lia) ltac:(lia)) as H1.
    change (year_index 0) with 0 in H0. change (year_index 146096) with 145999 in H1.
    rewrite Ey. split; [apply Z.div_pos; lia|apply Z.div_lt_upper_bound; lia]. }
  split; [done|]. destruct (era_years y Hy) as (E1 & E2 & E3).
  pose proof (year_start_bounds y Hy) as Hb.
  pose proof (year_len_bounds y) as Hl.
  split.
  - destruct (decide (year_start y ≤ doe)) as [|N]; [done|exfalso].
    destruct (decide (y = 0)) as [->|N0]; [change (year_start 0) with 0 in N; lia|].
    destruct (era_years (y - 1) ltac:(lia)) as (_ & F2 & F3).
    rewrite decide_False in F3 by lia. replace (y - 1 + 1) with y in F3 by lia.
    pose proof (year_index_mono doe (year_start (y - 1) + year_len (y - 1) - 1)
      ltac:(lia) ltac:(lia) ltac:(lia)) as Hm.
    apply (Z.div_le_mono _ _ 365) in Hm; [|lia]. rewrite <- Ey in Hm. lia.
  - destruct (decide (doe < year_start y + year_len y)) as [|N]; [done|exfalso].
    destruct (decide (y = 399)) as [->|N0].
    { change (year_start (399 + 1)) with 146096 in E3. lia. }
    destruct (era_years (y + 1) ltac:(lia)) as (F1 & _).
    pose proof (year_index_mono (year_start (y + 1)) doe ltac:(lia) ltac:(lia) ltac:(lia)) as Hm.
    apply (Z.div_le_mono _ _ 365) in Hm; [|lia]. rewrite <- Ey in Hm. lia.
Qed.

(** ** Months and days of a year that starts in March *)

Definition month_day (doy : Z) : Z * Z :=
  let mp := (5 * doy + 2) / 153 in
  (if decide (mp < 10) then mp + 3 else mp - 9, doy - (153 * mp + 2) / 5 + 1).

Lemma month_day_spec doy : 0 ≤ doy < 366 →
  let '(m, d) := month_day doy in
  1 ≤ m ≤ 12 ∧ 1 ≤ d ∧ (153 * (m + (if decide (2 < m) then -3 else 9)) + 2) / 5 + d - 1 = doy ∧
  (m ≠ 2 → d ≤ (if decide (m = 4 ∨ m = 6 ∨ m = 9 ∨ m = 11) then 30 else 31)) ∧
  (m = 2 → d ≤ 29 ∧ (d = 29 → doy = 365)).
Proof.
  intros Hd. assert (Forall (λ doy, 
    1 ≤ (month_day doy).1 ≤ 12 ∧ 1 ≤ (month_day doy).2 ∧
    (153 * ((month_day doy).1 + (if decide (2 < (month_day doy).1) then -3 else 9)) + 2) / 5
      + (month_day doy).2 - 1 = doy ∧
    ((month_day doy).1 = 2 ∨ (month_day doy).2 ≤
       (if decide ((month_day doy).1 = 4 ∨ (month_day doy).1 = 6 ∨ (month_day doy).1 = 9 ∨
                   (month_day doy).1 = 11) then 30 else 31)) ∧
    ((month_day doy).1 ≠ 2 ∨
       (month_day doy).2 ≤ 29 ∧ ((month_day doy).2 ≠ 29 ∨ doy = 365))) (seqZ 0 366)) as Ha
    by by_decide.
  rewrite Forall_forall in Ha. specialize (Ha doy). destruct (month_day doy) as [m d].
  cbn [fst snd] in Ha. destruct Ha as (?&?&?&?&?); [apply elem_of_seqZ; lia|].
  split_and!; try done; try lia; naive_solver.
Qed.

Lemma civil_unfold days :
  let z := days + 719468 in
  let doe := z mod 146097 in
  let yoe := year_index doe / 365 in
  let '(m, d) := month_day (doe - year_start yoe) in
  civil_from_days days = (yoe + z / 146097 * 400 + (if decide (m ≤ 2) then 1 else 0), m, d).
Proof.
  cbv zeta. unfold month_day. unfold civil_from_days. cbv zeta.
  replace (days + 719468 - (days + 719468) / 146097 * 146097) with ((days + 719468) mod 146097)
    by (rewrite (Z.mod_eq _ 146097) by lia; lia).
  unfold year_index, year_start. done.
Qed.

(** Any day has a valid date, and the date gives the day back. *)
Lemma civil_round_trip days :
  let '(y, m, d) := civil_from_days days in
  1 ≤ m ≤ 12 ∧ 1 ≤ d ≤ days_in y m ∧ days_from_civil y m d = days.
Proof.
  pose proof (civil_unfold days) as E. cbv zeta in E.
  remember (days + 719468) as z eqn:Ez.
  assert (z = 146097 * (z / 146097) + z mod 146097) as Hz by (apply Z.div_mod; lia).
  assert (0 ≤ z mod 146097 < 146097) as Hd by (apply Z.mod_pos_bound; lia).
  remember (z mod 146097) as doe eqn:Ed. remember (z / 146097) as era eqn:Eera.
  destruct (era_year doe _ Hd eq_refl) as [Hy Hs].
  remember (year_index doe / 365) as yoe eqn:Eyoe.
  assert (0 ≤ doe - year_start yoe < year_len yoe) as Hdoy by lia.
  remember (doe - year_start yoe) as doy eqn:Edoy.
  assert (year_len yoe = 366 ↔ leap_start yoe) as Hleap by (unfold year_len; case_decide; naive_solver).
  pose proof (year_len_bounds yoe) as Hlen.
  pose proof (month_day_spec doy ltac:(lia)) as Hm. destruct (month_day doy) as [m d].
  destruct Hm as (Hm & Hd1 & Hback & Hother & Hfeb). rewrite E.
  split; [done|split].
  - split; [done|]. unfold days_in. destruct (decide (m = 2)) as [->|N]; [|by apply Hother].
    rewrite (decide_True (P := 2 ≤ 2)) by lia. destruct (Hfeb eq_refl) as [H29 H365].
    match goal with |- context [if decide ?P then 29 else 28] =>
      destruct (decide P) as [L|L] end; [done|]. destruct (decide (d = 29)) as [->|]; [|lia]. exfalso. apply L.
    assert (leap_start yoe) as [L1 L2] by (apply Hleap; specialize (H365 eq_refl); lia).
    clear -L1 L2. replace (yoe + era * 400 + 1) with (yoe + 1 + (era * 100) * 4) by lia.
    rewrite Z_mod_plus_full. split; [done|].
    replace (yoe + 1 + (era * 100) * 4) with (yoe + 1 + (era * 4) * 100) by lia.
    rewrite Z_mod_plus_full. replace (yoe + 1 + (era * 4) * 100) with (yoe + 1 + era * 400) by lia.
    by rewrite Z_mod_plus_full.
  - unfold days_from_civil. cbv zeta.
    replace (if decide (m ≤ 2) then yoe + era * 400 + (if decide (m ≤ 2) then 1 else 0) - 1
             else yoe + era * 400 + (if decide (m ≤ 2) then 1 else 0)) with (yoe + era * 400)
      by (repeat case_decide; lia).
    rewrite Z.div_add, (Z.div_small yoe 400), Z.add_0_l by lia.
    replace (yoe + era * 400 - era * 400) with yoe by lia. rewrite Hback.
    unfold year_start in Edoy. lia.
Qed.

(** ** Digits *)

Lemma digit_val n : byte_val (digit n) = 48 + n mod 10.
Proof.
  unfold digit. pose proof (Z.mod_pos_bound n 10 ltac:(lia)) as Hb.
  generalize dependent (n mod 10). intros k Hk.
  assert (Forall (λ k, byte_val (Ascii.ascii_of_N (Z.to_N (48 + k))) = 48 + k) (seqZ 0 10)) as Ha
    by by_decide.
  rewrite Forall_forall in Ha. apply Ha, elem_of_seqZ. lia.
Qed.

Lemma digits_text w n : 
  let l := bytes_of (digits w n) in
  length l = w ∧ forallb is_digit l = true ∧ digits_val l = n mod 10 ^ Z.of_nat w.
Proof.
  revert n. induction w as [|w IH]; intros n; cbv zeta.
  { split_and!; [done|done|]. by rewrite Z.mod_1_r. }
  destruct (IH (n / 10)) as (H1 & H2 & H3). cbn [digits].
  rewrite bytes_of_app. change (bytes_of (String (digit n) "")) with [byte_val (digit n)].
  rewrite digit_val. split_and!.
  - rewrite length_app, H1. cbn. lia.
  - rewrite forallb_app, H2. cbn. unfold is_digit, in_range.
    pose proof (Z.mod_pos_bound n 10 ltac:(lia)). by rewrite !bool_decide_true by lia.
  - rewrite digits_val_snoc, H3. rewrite Nat2Z.inj_succ, Z.pow_succ_r by lia.
    rewrite (Z.rem_mul_r n 10) by lia. lia.
Qed.

Lemma take_digits_text w n r :
  take_digits w (bytes_of (digits w n) ++ r) = Some (n mod 10 ^ Z.of_nat w, r).
Proof.
  destruct (digits_text w n) as (H1 & H2 & H3). unfold take_digits.
  rewrite take_app_length', drop_app_length' by done.
  by rewrite H1, H2, H3, bool_decide_true.
Qed.

(** ** The text of a whole second *)

Lemma expect_text c r : expect (byte_val c) (bytes_of (String c "") ++ r) = Some r.
Proof. cbn. by rewrite decide_True. Qed.

Lemma take_digits_mod w n r m : 0 ≤ n < m → m = 10 ^ Z.of_nat w →
  take_digits w (bytes_of (digits w n) ++ r) = Some (n, r).
Proof. intros Hn ->. rewrite take_digits_text. by rewrite Z.mod_small. Qed.

(** What follows the seconds: an optional fraction and an offset. *)
Definition parse_tail (s : Z) (l : list Z) : option time :=
  '(ns, l) ← match expect 46 l with
             | None => Some (0, l)
             | Some l1 =>
                 let '(f, l2) := span is_digit l1 in
                 if decide (f = []) then None else Some (fraction_ns f, l2)
             end;
  off ← parse_offset l;
  Some ((s - off) * Second + ns).

Lemma parse_format_tail s tail :
  json_year (s * Second) → parse_time (format_second s +:+ tail) = parse_tail s (bytes_of tail).
Proof.
  unfold json_year, Year. rewrite (Z.div_mul s Second) by done. intros Hy.
  unfold format_second, format_date. pose proof (civil_round_trip (s / 86400)) as Hc.
  destruct (civil_from_days (s / 86400)) as [[y m] d]. cbn [fst snd] in Hy.
  destruct Hc as (Hm & Hd & Hback). unfold format_clock.
  pose proof (Z.mod_pos_bound s 86400 ltac:(lia)) as Hs.
  pose proof (Z.div_mod s 86400 ltac:(lia)) as Es.
  remember (s mod 86400) as c eqn:Ec.
  assert (days_in y m ≤ 31) as H31 by (unfold days_in; repeat case_match; lia).
  unfold parse_time. rewrite !bytes_of_app, <- !app_assoc.
  rewrite (take_digits_mod 4 y _ 10000) by (done || lia). cbn [mbind option_bind].
  rewrite (expect_text "-"). cbn [mbind option_bind].
  rewrite (take_digits_mod 2 m _ 100) by (done || lia). cbn [mbind option_bind].
  rewrite (expect_text "-"). cbn [mbind option_bind].
  rewrite (take_digits_mod 2 d _ 100) by (done || lia). cbn [mbind option_bind].
  rewrite (expect_text "T"). cbn [mbind option_bind].
  assert (c / 3600 < 24 ∧ 0 ≤ c / 3600) as Hh.
  { split; [apply Z.div_lt_upper_bound; lia|apply Z.div_pos; lia]. }
  pose proof (Z.mod_pos_bound (c / 60) 60 ltac:(lia)) as Hmi.
  pose proof (Z.mod_pos_bound c 60 ltac:(lia)) as Hse.
  rewrite (take_digits_mod 2 (c / 3600) _ 100) by (done || lia). cbn [mbind option_bind].
  rewrite (expect_text ":"). cbn [mbind option_bind].
  rewrite (take_digits_mod 2 (c / 60 mod 60) _ 100) by (done || lia). cbn [mbind option_bind].
  rewrite (expect_text ":"). cbn [mbind option_bind].
  rewrite (take_digits_mod 2 (c mod 60) _ 100) by (done || lia). cbn [mbind option_bind].
  unfold parse_tail. destruct (match expect 46 (bytes_of tail) with Some _ => _ | None => _ end)
    as [[ns l]|]; [|reflexivity]. cbn [mbind option_bind].
  destruct (parse_offset l) as [off|]; [|reflexivity]. cbn [mbind option_bind].
  rewrite decide_True by (split_and!; lia). rewrite Hback.
  assert (c / 3600 * 3600 + c / 60 mod 60 * 60 + c mod 60 = c) as Ehms.
  { clear -Hs. Z.div_mod_to_equations. lia. }
  f_equal. f_equal. f_equal. lia.
Qed.

Lemma parse_format_second s :
  json_year (s * Second) → parse_time (format_second s +:+ "Z") = Some (s * Second).
Proof.
  intros Hy. rewrite parse_format_tail by exact Hy. unfold parse_tail.
  change (Some ((s - 0) * Second + 0) = Some (s * Second)). f_equal. lia.
Qed.

(** ** Fractions of a second *)

Lemma frac_digits_spec w n : 0 < n < 10 ^ Z.of_nat w →
  ∃ k m, frac_digits w n = digits k m ∧ (1 ≤ k ≤ w)%nat ∧ 0 ≤ m < 10 ^ Z.of_nat k ∧
    n = m * 10 ^ Z.of_nat (w - k).
Proof.
  revert n. induction w as [|w IH]; intros n Hn; [cbn in Hn; lia|].
  rewrite Nat2Z.inj_succ, Z.pow_succ_r in Hn by lia. cbn [frac_digits].
  case_decide as D.
  - pose proof (Z.div_mod n 10 ltac:(lia)) as E.
    destruct (IH (n / 10) ltac:(lia)) as (k & m & -> & Hk & Hm & En). exists k, m.
    split_and!; try done; try lia. replace (S w - k)%nat with (S (w - k)) by lia.
    rewrite Nat2Z.inj_succ, Z.pow_succ_r by lia. lia.
  - exists (S w), n. split_and!; try done; try lia.
    + rewrite Nat2Z.inj_succ, Z.pow_succ_r by lia. lia.
    + rewrite Nat.sub_diag. cbn. lia.
Qed.

Lemma digits_val_zeros l j : digits_val (l ++ replicate j 48) = digits_val l * 10 ^ Z.of_nat j.
Proof.
  induction j as [|j IH]; [rewrite app_nil_r; cbn; lia|].
  rewrite replicate_S_end, app_assoc, digits_val_snoc, IH, Nat2Z.inj_succ, Z.pow_succ_r by lia. lia.
Qed.

Lemma span_app p a r : forallb p a = true → match r with [] => True | c :: _ => p c = false end →
  span p (a ++ r) = (a, r).
Proof.
  induction a as [|c a IH]; intros Ha Hr.
  - destruct r as [|c r]; [done|]. cbn. by rewrite Hr.
  - cbn in *. apply andb_true_iff in Ha as [Hc Ha]. by rewrite Hc, IH.
Qed.

Lemma fraction_ns_digits k m : (k ≤ 9)%nat → 0 ≤ m < 10 ^ Z.of_nat k →
  fraction_ns (bytes_of (digits k m)) = m * 10 ^ Z.of_nat (9 - k).
Proof.
  intros Hk Hm. destruct (digits_text k m) as (Hl & _ & Hv). unfold fraction_ns.
  rewrite take_app_ge, Hl, take_replicate by lia.
  replace ((9 - k) `min` 9)%nat with (9 - k)%nat by lia.
  by rewrite digits_val_zeros, Hv, Z.mod_small.
Qed.

(** Any time of a four-digit year is written and read back exactly. *)
Lemma parse_formatTime t : json_year t → parse_time (formatTime t) = Some t.
Proof.
  intros Hy. unfold formatTime.
  assert (json_year (t / Second * Second)) as Hy'.
  { unfold json_year, Year in *. rewrite Z.div_mul by discriminate. exact Hy. }
  rewrite parse_format_tail by exact Hy'. unfold format_fraction, parse_tail.
  pose proof (Z.div_mod t Second ltac:(discriminate)) as Et.
  pose proof (Z.mod_pos_bound t Second ltac:(reflexivity)) as Hb.
  generalize dependent (t mod Second). intros ns Et Hb.
  case_decide as D.
  { subst ns. change (Some ((t / Second - 0) * Second + 0) = Some t). f_equal. lia. }
  destruct (frac_digits_spec 9 ns) as (k & m & -> & Hk & Hm & En); [cbn; unfold Second in Hb; lia|].
  destruct (digits_text k m) as (Hl & Hd & _).
  rewrite !bytes_of_app. change (bytes_of ".") with [46]. change (bytes_of "Z") with [90].
  cbn [app expect]. rewrite decide_True, span_app by done.
  rewrite decide_False by (intros E; rewrite E in Hl; cbn in Hl; lia).
  cbn [mbind option_bind]. change (parse_offset [90]) with (Some 0). cbn [mbind option_bind].
  rewrite fraction_ns_digits, <- En by lia. f_equal. lia.
Qed.

(** A year the wire format can carry is written and read back to the second. *)
Lemma parse_rfc3339 t : json_year t → parse_time (format_rfc3339 t) = Some (t / Second * Second).
Proof.
  intros Hy. unfold format_rfc3339. refine (parse_format_second (t / Second) _). unfold json_year, Year in *.
  rewrite Z.div_mul by discriminate. exact Hy.
Qed.

Lemma Truncate_second t : Truncate t Second = t / Second * Second.
Proof.
  unfold Truncate, zero_time. rewrite Zminus_mod, Z_mod_mult, Z.sub_0_r, Z.mod_mod by discriminate.
  rewrite (Z.mod_eq t Second) by discriminate. lia.
Qed.

Lemma formatTime_truncated t : formatTime (Truncate t Second) = format_rfc3339 t.
Proof.
  rewrite Truncate_second. unfold formatTime, format_rfc3339.
  rewrite Z.div_mul, Z_mod_mult by discriminate. reflexivity.
Qed.

Lemma parse_truncated t : json_year t →
  parse_time (formatTime (Truncate t Second)) = Some (Truncate t Second).
Proof. intros. rewrite formatTime_truncated, Truncate_second. by apply parse_rfc3339. Qed.

(** Times with the same text are the same second. *)
Lemma format_rfc3339_inj t u : json_year t → json_year u →
  format_rfc3339 t = format_rfc3339 u → t / Second = u / Second.
Proof.
  intros Ht Hu E. pose proof (parse_rfc3339 t Ht) as H1. rewrite E, (parse_rfc3339 u Hu) in H1.
  injection H1 as H1. apply Z.mul_cancel_r in H1; [exact (eq_sym H1)|discriminate].
Qed.

(** Times are written with ASCII characters. *)
Lemma digits_ascii w n : ascii_only (digits w n).
Proof.
  unfold ascii_only. destruct (digits_text w n) as (_ & H & _).
  apply Forall_forall. intros b Hb. rewrite forallb_forall in H.
  apply list_elem_of_In in Hb. apply H in Hb. unfold is_digit, in_range in Hb.
  apply andb_prop in Hb as [H1%bool_decide_eq_true H2%bool_decide_eq_true]. lia.
Qed.

Lemma format_rfc3339_ascii t : ascii_only (format_rfc3339 t).
Proof.
  unfold format_rfc3339, format_second, format_date, format_clock.
  destruct (civil_from_days _) as [[y m] d]. unfold ascii_only.
  rewrite !bytes_of_app, !Forall_app.
  split_and!; first [apply digits_ascii|repeat constructor; done].
Qed.

Lemma frac_digits_ascii w n : ascii_only (frac_digits w n).
Proof.
  revert n. induction w as [|w IH]; intros n; cbn [frac_digits]; [constructor|].
  case_decide; [apply IH|apply digits_ascii].
Qed.

Lemma formatTime_ascii t : ascii_only (formatTime t).
Proof.
  pose proof (format_rfc3339_ascii t) as H. unfold format_rfc3339, formatTime, ascii_only in *.
  rewrite bytes_of_app in H. apply Forall_app in H as [Hs Hz].
  rewrite !bytes_of_app, !Forall_app. split_and!; [done| |done].
  unfold format_fraction. case_decide; [constructor|].
  rewrite bytes_of_app, Forall_app. split; [by repeat constructor|apply frac_digits_ascii].
Qed.
