(* ===== verification/Codec.v ===== *)
(** * Types with a JSON form

    A class for the types whose values are written with [json.Marshal] and
    read back with [json.Unmarshal], with instances for strings, int64
    numbers and slices; structs are added by the components.  [codec_reads]
    is the round trip for values whose strings are ASCII and whose numbers
    are int64. *)

From S2P Require Import Prelude Sha256 Json JsonParse.

Class Codec (A : Type) := {
  enc : A → json;
  dec : value → option A;
  zero_value : A;
  plain : A → Prop;
  enc_ascii a : plain a → json_ascii (enc a) = true;
  enc_not_null a : of_json (enc a) ≠ VNull;
  dec_enc a : plain a → dec (of_json (enc a)) = Some a
}.
#[global] Hint Mode Codec + : typeclass_instances.

(** A struct field of a type with a codec. *)
Definition read {A} `{Codec A} (name : string) (o : list (string * value)) : option A :=
  field dec zero_value name o.

#[export] Program Instance string_codec : Codec string := {|
  enc := JStr; dec := as_str; zero_value := ""; plain s := json_ascii (JStr s) = true
|}.
Solve All Obligations with done.

#[export] Program Instance int64_codec : Codec Z := {|
  enc := JInt; dec := as_int; zero_value := 0; plain n := int64_range n
|}.
Solve All Obligations with (try done).
Next Obligation. intros n Hn. cbn. by apply int_text. Qed.

Lemma mapM_inverse {A B C} (f : A → C) (g : C → B) (h : B → option A) l :
  Forall (λ a, h (g (f a)) = Some a) l → mapM h (g <$> (f <$> l)) = Some l.
Proof. induction 1 as [|a l E _ IH]; [done|]. cbn. by rewrite E, IH. Qed.

Lemma forallb_fmap_true {A B} (f : A → B) (p : B → bool) l :
  forallb p (f <$> l) = true ↔ Forall (λ a, p (f a) = true) l.
Proof.
  rewrite forallb_forall, Forall_forall. setoid_rewrite <- list_elem_of_In.
  setoid_rewrite list_elem_of_fmap. naive_solver.
Qed.

(** A slice: the elements may be [null], which keeps their zero value. *)
#[export] Program Instance list_codec {A} `{Codec A} : Codec (list A) := {|
  enc l := JArr (enc <$> l); dec := as_list (or_zero zero_value dec); zero_value := [];
  plain l := Forall plain l
|}.
Next Obligation.
  intros A HA l Hl. cbn. rewrite forallb_fmap_true. eapply Forall_impl; [exact Hl|].
  intros a. apply enc_ascii.
Qed.
Next Obligation. done. Qed.
Next Obligation.
  intros A HA l Hl. cbn. apply mapM_inverse. eapply Forall_impl; [exact Hl|]. intros a Ha.
  unfold or_zero. pose proof (enc_not_null a) as Hn. pose proof (dec_enc a Ha) as Hd.
  by destruct (of_json (enc a)).
Qed.

(** The members of a written struct as they are read back. *)
Definition members (l : list (string * json)) : list (string * value) :=
  (λ kv, (kv.1, of_json kv.2)) <$> l.

Lemma members_app a b : members (a ++ b) = (members a ++ members b)%list.
Proof. apply fmap_app. Qed.

Lemma members_keys l : (members l).*1 = l.*1.
Proof. unfold members. rewrite <- list_fmap_compose. by apply list_fmap_ext. Qed.

Lemma same_name_refl n : same_name n n = true.
Proof. apply bool_decide_eq_true. reflexivity. Qed.

Lemma no_name_app name a b : no_name name (a ++ b) = no_name name a && no_name name b.
Proof. apply forallb_app. Qed.

Lemma field_skip {A} (dec : value → option A) zero name a b :
  no_name name a.*1 = true → field dec zero name (a ++ b)%list = field dec zero name b.
Proof. intros H. unfold field. rewrite foldl_app. by rewrite (fold_absent dec name a). Qed.

Lemma field_only {A} (dec : value → option A) zero name a b :
  no_name name b.*1 = true → field dec zero name (a ++ b)%list = field dec zero name a.
Proof. intros H. unfold field. rewrite foldl_app. by apply fold_absent. Qed.

(** A member written with a codec is read back by its name. *)
Lemma read_member {A} `{Codec A} name l i (a : A) :
  only_at name l.*1 i = true → l !! i = Some (name, enc a) → plain a →
  read name (members l) = Some a.
Proof.
  intros Hk Hi Ha. unfold read. eapply (field_only_at _ _ _ _ i).
  - by rewrite members_keys.
  - unfold members. by rewrite list_lookup_fmap, Hi.
  - cbn. apply enc_not_null.
  - cbn. by apply dec_enc.
Qed.

(** Reads the [i]-th member of a written struct in a decoder. *)
Ltac read_at i :=
  eapply option_step;
  [apply (read_member _ _ i); [lazy; reflexivity|reflexivity|assumption]|cbv beta].
Ltac read_all i :=
  lazymatch goal with
  | |- read _ _ ≫= _ = _ => read_at i; read_all (S i)
  | _ => idtac
  end.

(** The members' strings are ASCII when the values' are. *)
Lemma members_ascii l :
  Forall (λ kv, json_ascii (JStr kv.1) = true ∧ json_ascii kv.2 = true) l →
  json_ascii (JObj l) = true.
Proof.
  intros H. cbn. induction H as [|[k v] l [H1 H2] _ IH]; [done|]. cbn in *.
  by rewrite H1, H2, IH.
Qed.
