(* ===== verification/Trust.v ===== *)
(** * Pinned signing keys (src/internal/trust/keys.go)

    The key store behind receipt and envelope verification: the signed pin
    file, the validity windows, and the refresh from a served history that
    must chain to the pinned root.  Ed25519 verification is a parameter, of
    which nothing is assumed. *)

From S2P Require Import Prelude GoTime Sha256 Base64 Json JsonParse Rfc3339.

(** [ed25519.Verify(publicKey, message, sig)] *)
Class Ed25519 := ed25519_Verify : string → string → string → bool.

Definition PublicKeySize : nat := 32.
Definition SignatureSize : nat := 64.

Definition PinFormat : string := "authscope-signing-keys/v1".
Definition RotationDomain : string := "authscope-signing-keys/rotation/v1".
Definition maxServedHistoryAge : Z := 24 * Hour.
Definition maxServedHistorySkew : Z := 5 * Minute.

Record pinKey := Mk_pinKey {
  pk_KeyID : string;
  pk_Algorithm : string;
  pk_PublicKey : string;
  pk_ValidFrom : string;
  pk_ValidUntil : string;
  pk_Root : bool;
  pk_RotatedFrom : string;
  pk_RotationStatement : string;
  pk_RotationSignature : string
}.

Record pinFile := Mk_pinFile {
  pf_Format : string;
  pf_Note : string;
  pf_SigningRootFingerprint : string;
  pf_Keys : list pinKey
}.

Record rotationStatement := Mk_rotationStatement {
  rs_Domain : string;
  rs_PreviousKeyID : string;
  rs_NewKeyID : string;
  rs_NewPublicKey : string;
  rs_IssuedAt : string
}.

Record keyRecord := Mk_keyRecord {
  kr_pub : string;
  kr_validFrom : time;
  kr_validUntil : time
}.
#[export] Instance keyRecord_eq_dec : EqDecision keyRecord.
Proof. solve_decision. Defined.
Definition zero_keyRecord : keyRecord := Mk_keyRecord "" zero_time zero_time.

Record KeyStore := MkKeyStore {
  ks_fingerprint : string;
  ks_keys : gmap string keyRecord;
  ks_keyIDs : list string
}.
#[export] Instance eta_KeyStore : Eta KeyStore := λ k, MkKeyStore
  (ks_fingerprint k) (ks_keys k) (ks_keyIDs k).

(** ** Decoding *)

(** A struct with unknown fields rejected; [null] keeps the zero value. *)
Definition strict_struct {A} (names : list string) (decode : list (string * value) → option A)
    (v : value) : option A :=
  match v with
  | VObj o => if decide (known_fields names o) then decode o else None
  | VNull => decode []
  | _ => None
  end.

Definition decode_pinKey (o : list (string * value)) : option pinKey :=
  f1 ← str_field "key_id" o; f2 ← str_field "algorithm" o; f3 ← str_field "public_key" o;
  f4 ← str_field "valid_from" o; f5 ← str_field "valid_until" o; f6 ← bool_field "root" o;
  f7 ← str_field "rotated_from" o; f8 ← str_field "rotation_statement" o;
  f9 ← str_field "rotation_signature" o;
  Some (Mk_pinKey f1 f2 f3 f4 f5 f6 f7 f8 f9).
Definition pinKey_names : list string :=
  ["key_id"; "algorithm"; "public_key"; "valid_from"; "valid_until"; "root"; "rotated_from";
   "rotation_statement"; "rotation_signature"].

Definition decode_pinFile (o : list (string * value)) : option pinFile :=
  f1 ← str_field "format" o; f2 ← str_field "note" o;
  f3 ← str_field "signing_root_fingerprint" o;
  f4 ← field (as_list (strict_struct pinKey_names decode_pinKey)) [] "keys" o;
  Some (Mk_pinFile f1 f2 f3 f4).
Definition pinFile_names : list string := ["format"; "note"; "signing_root_fingerprint"; "keys"].

Definition decode_rotationStatement (o : list (string * value)) : option rotationStatement :=
  f1 ← str_field "domain" o; f2 ← str_field "previous_key_id" o; f3 ← str_field "new_key_id" o;
  f4 ← str_field "new_public_key" o; f5 ← str_field "issued_at" o;
  Some (Mk_rotationStatement f1 f2 f3 f4 f5).
Definition rotationStatement_names : list string :=
  ["domain"; "previous_key_id"; "new_key_id"; "new_public_key"; "issued_at"].

Definition err_trust (msg : string) : err := ErrOther ("trust: " +:+ msg).

(** One strict document and nothing after it ([Decode], then [io.EOF]). *)
Definition strict_document {A} (names : list string) (decode : list (string * value) → option A)
    (raw : string) : option A :=
  v ← parse raw; strict_struct names decode v.

(** ** [time.Parse(time.RFC3339, s)]

    More lenient than the JSON form: an hour of one digit, a comma before the
    fraction, and zone offsets up to 24:60. *)
Definition parse_hour (l : list Z) : option (Z * list Z) :=
  match take_digits 2 l with Some r => Some r | None => take_digits 1 l end.

Definition layout_fraction (l : list Z) : Z * list Z :=
  match l with
  | c :: l1 =>
      let '(f, l2) := span is_digit l1 in
      if decide ((c = 46 ∨ c = 44) ∧ f ≠ []) then (fraction_ns f, l2) else (0, l)
  | [] => (0, l)
  end.

Definition layout_offset (l : list Z) : option Z :=
  match l with
  | [] => None
  | c :: l1 =>
      if decide (c = 90) then (if decide (l1 = []) then Some 0 else None)
      else if decide (c = 43 ∨ c = 45) then
        '(h, l2) ← take_digits 2 l1;
        l3 ← expect 58 l2;
        '(m, l4) ← take_digits 2 l3;
        if decide (h ≤ 24 ∧ m ≤ 60 ∧ l4 = []) then
          Some ((if decide (c = 43) then 1 else -1) * (h * 3600 + m * 60))
        else None
      else None
  end.

Definition Parse_RFC3339 (s : string) : option time :=
  '(y, l) ← take_digits 4 (bytes_of s);
  l ← expect 45 l; '(mo, l) ← take_digits 2 l;
  l ← expect 45 l; '(d, l) ← take_digits 2 l;
  l ← expect 84 l; '(h, l) ← parse_hour l;
  l ← expect 58 l; '(mi, l) ← take_digits 2 l;
  l ← expect 58 l; '(se, l) ← take_digits 2 l;
  let '(ns, l) := layout_fraction l in
  off ← layout_offset l;
  if decide (1 ≤ mo ≤ 12 ∧ 1 ≤ d ≤ days_in y mo ∧ h < 24 ∧ mi < 60 ∧ se < 60) then
    Some ((days_from_civil y mo d * 86400 + h * 3600 + mi * 60 + se - off) * Second + ns)
  else None.

Definition parseValidityWindow (validFrom validUntil : string) : res (time * time) :=
  from ← opt_res (err_trust "bad valid_from") (Parse_RFC3339 validFrom);
  if decide (validUntil = "") then Ok (from, zero_time)
  else
    until ← opt_res (err_trust "bad valid_until") (Parse_RFC3339 validUntil);
    _ ← require_res (After until from) (err_trust "valid_until is not after valid_from");
    Ok (from, until).

(** ** The pin file *)

Definition key_fingerprint (pub : string) : string := "sha256:" +:+ hex (Sum256 pub).

(** A 32-byte public key in base64url. *)
Definition decode_pub (s : string) : res string :=
  raw ← opt_res (err_trust "bad public key") (RawURLDecode s);
  _ ← require_res (String.length raw = PublicKeySize) (err_trust "public key size");
  Ok raw.

Section trust.
Context `{Ed25519}.

(** The rotation of [k] from its trusted predecessor's key [prevPub]. *)
Definition check_rotation (k : pinKey) (prevPub : string) : res unit :=
  stmtRaw ← opt_res (err_trust "bad rotation statement") (RawURLDecode (pk_RotationStatement k));
  sig ← opt_res (err_trust "bad rotation signature") (RawURLDecode (pk_RotationSignature k));
  stmt ← opt_res (err_trust "rotation statement does not decode")
           (strict_document rotationStatement_names decode_rotationStatement stmtRaw);
  _ ← require_res (rs_Domain stmt = RotationDomain) (err_trust "rotation domain");
  _ ← require_res (rs_PreviousKeyID stmt = pk_RotatedFrom k)
        (err_trust "rotation names another previous key");
  _ ← require_res (rs_NewKeyID stmt = pk_KeyID k) (err_trust "rotation names another new key");
  _ ← require_res (rs_NewPublicKey stmt = pk_PublicKey k)
        (err_trust "rotation names a different public key");
  _ ← require_res (is_Some (Parse_RFC3339 (rs_IssuedAt stmt))) (err_trust "bad issued_at");
  require_res (ed25519_Verify prevPub stmtRaw sig = true)
    (err_trust "rotation signature does not verify").

Definition addKey (k : pinKey) (ks : KeyStore) (trusted : gset string) (pinnedFingerprint : string)
    : res (KeyStore * gset string) :=
  _ ← require_res (pk_KeyID k ≠ "") (err_trust "key with empty id");
  _ ← require_res (ks_keys ks !! pk_KeyID k = None) (err_trust "duplicate key id");
  _ ← require_res (pk_Algorithm k = "Ed25519") (err_trust "unsupported algorithm");
  rawPub ← decode_pub (pk_PublicKey k);
  _ ← require_res (pk_ValidFrom k ≠ "") (err_trust "no valid_from");
  window ← parseValidityWindow (pk_ValidFrom k) (pk_ValidUntil k);
  let rec := Mk_keyRecord rawPub (fst window) (snd window) in
  let added := (ks <| ks_keys := <[pk_KeyID k := rec]> (ks_keys ks) |>
                   <| ks_keyIDs := ks_keyIDs ks ++ [pk_KeyID k] |>)%list in
  if pk_Root k then
    let fp := key_fingerprint rawPub in
    _ ← require_res (fp = pinnedFingerprint)
          (err_trust "root key does not match pinned fingerprint");
    _ ← require_res (ks_fingerprint ks = "") (err_trust "more than one root key");
    Ok (added <| ks_fingerprint := fp |>, {[pk_KeyID k]} ∪ trusted)
  else
    _ ← require_res (pk_RotatedFrom k ∈ trusted) (err_trust "rotates from untrusted key");
    _ ← check_rotation k (kr_pub (default zero_keyRecord (ks_keys ks !! pk_RotatedFrom k)));
    Ok (added, {[pk_KeyID k]} ∪ trusted).

Fixpoint addKeys (l : list pinKey) (ks : KeyStore) (trusted : gset string)
    (pinnedFingerprint : string) : res KeyStore :=
  match l with
  | [] => Ok ks
  | k :: l' =>
      '(ks, trusted) ← addKey k ks trusted pinnedFingerprint;
      addKeys l' ks trusted pinnedFingerprint
  end.

(** [sort.Strings] *)
Definition sort_strings (l : list string) : list string := merge_sort str_le l.

(** [raw] is the content of the pin file. *)
Definition LoadSigningKeys (raw expectedRootFingerprint : string) : res KeyStore :=
  doc ← opt_res (err_trust "decode pin file") (strict_document pinFile_names decode_pinFile raw);
  _ ← require_res (pf_Format doc = PinFormat) (err_trust "unsupported pin format");
  _ ← require_res (¬ (expectedRootFingerprint ≠ "" ∧
                      pf_SigningRootFingerprint doc ≠ expectedRootFingerprint))
        (err_trust "pin file root fingerprint does not match the expected root");
  _ ← require_res (pf_Keys doc ≠ []) (err_trust "pin file has no keys");
  ks ← addKeys (pf_Keys doc) (MkKeyStore "" ∅ []) ∅ (pf_SigningRootFingerprint doc);
  _ ← require_res (ks_fingerprint ks ≠ "") (err_trust "pin file has no root key");
  _ ← require_res (ks_fingerprint ks = pf_SigningRootFingerprint doc)
        (err_trust "root fingerprint mismatch");
  Ok (ks <| ks_keyIDs := sort_strings (ks_keyIDs ks) |>).

(** ** Using keys *)

Definition VerifySignature (ks : KeyStore) (keyID msg sig : string) : res unit :=
  rec ← opt_res (err_trust "unknown signing key") (ks_keys ks !! keyID);
  require_res (ed25519_Verify (kr_pub rec) msg sig = true)
    (err_trust "signature does not verify").

Definition KeyAt (ks : KeyStore) (keyID : string) (at_ : time) : res string :=
  rec ← opt_res (err_trust "unknown signing key") (ks_keys ks !! keyID);
  _ ← require_res (¬ Before at_ (kr_validFrom rec)) (err_trust "signing key not yet valid");
  _ ← require_res (¬ (¬ IsZero (kr_validUntil rec) ∧ ¬ Before at_ (kr_validUntil rec)))
        (err_trust "signing key expired");
  Ok (kr_pub rec).
End trust.

(** ** Refreshing from a served history *)

Record ServedKey := MkServedKey {
  sk_KeyID : string;
  sk_PublicKey : string;
  sk_ValidFrom : Z;
  sk_ValidUntil : Z;
  sk_RotatedFrom : string
}.
Definition zero_ServedKey : ServedKey := MkServedKey "" "" 0 0 "".

Definition served_record (k : ServedKey) : res keyRecord :=
  rawPub ← decode_pub (sk_PublicKey k);
  let validFrom := if decide (sk_ValidFrom k ≠ 0) then Unix (sk_ValidFrom k) else zero_time in
  if decide (sk_ValidUntil k ≠ 0) then
    let validUntil := Unix (sk_ValidUntil k) in
    _ ← require_res (After validUntil validFrom)
          (err_trust "refreshed valid_until is not after valid_from");
    Ok (Mk_keyRecord rawPub validFrom validUntil)
  else Ok (Mk_keyRecord rawPub validFrom zero_time).

(** The first loop: the parsed records and the entries by id. *)
Fixpoint parse_served (keys : list ServedKey) (parsed : gmap string keyRecord)
    (byID : gmap string ServedKey) : res (gmap string keyRecord * gmap string ServedKey) :=
  match keys with
  | [] => Ok (parsed, byID)
  | k :: keys' =>
      _ ← require_res (sk_KeyID k ≠ "") (err_trust "refreshed key with empty id");
      _ ← require_res (parsed !! sk_KeyID k = None) (err_trust "duplicate refreshed key id");
      rec ← served_record k;
      parse_served keys' (<[sk_KeyID k := rec]> parsed) (<[sk_KeyID k := k]> byID)
  end.

Definition out_of_fuel : err := ErrOther "chain walk out of fuel".

Section history.
Context (parsed : gmap string keyRecord) (byID : gmap string ServedKey) (fingerprint : string).

Definition is_root (cur : string) : Prop :=
  key_fingerprint (kr_pub (default zero_keyRecord (parsed !! cur))) = fingerprint.
#[export] Instance is_root_dec cur : Decision (is_root cur).
Proof. unfold is_root. apply _. Defined.

Definition predecessor (cur : string) : string :=
  sk_RotatedFrom (default zero_ServedKey (byID !! cur)).

(** The walk of one key towards the root, with the ids seen so far. *)
Fixpoint chain_walk (fuel : nat) (seen : gset string) (cur : string) : res unit :=
  match fuel with
  | O => Err out_of_fuel
  | S n =>
      _ ← require_res (cur ∉ seen) (err_trust "refreshed history has a rotation cycle");
      if decide (is_root cur) then Ok tt
      else
        let prevID := predecessor cur in
        _ ← require_res (prevID ≠ "") (err_trust "refreshed key does not chain to the pinned root");
        _ ← require_res (is_Some (parsed !! prevID))
              (err_trust "refreshed key rotates from unknown key");
        chain_walk n ({[cur]} ∪ seen) prevID
  end.

Fixpoint chain_all (keys : list ServedKey) : res unit :=
  match keys with
  | [] => Ok tt
  | k :: keys' =>
      _ ← chain_walk (S (size parsed)) ∅ (sk_KeyID k);
      chain_all keys'
  end.
End history.

Definition RefreshFromHistory (ks : KeyStore) (keys : list ServedKey) (servedAt now : time)
    : res KeyStore :=
  _ ← require_res (keys ≠ []) (err_trust "refreshed history has no keys");
  _ ← require_res (¬ IsZero servedAt) (err_trust "refreshed history has no served_at");
  _ ← require_res (¬ maxServedHistoryAge < now - servedAt) (err_trust "refreshed history is stale");
  _ ← require_res (¬ After servedAt (now + maxServedHistorySkew))
        (err_trust "refreshed history served_at is in the future");
  '(parsed, byID) ← parse_served keys ∅ ∅;
  _ ← chain_all parsed byID (ks_fingerprint ks) keys;
  Ok (MkKeyStore (ks_fingerprint ks) parsed (sort_strings (sk_KeyID <$> keys))).

(** ** The pin file certifies every key *)

Section certified.
Context `{Ed25519}.

(** A signed chain from the pinned root: the root's key has the pinned
    fingerprint, and every other key is named, with its public key, in a
    statement that an already certified key signed. *)
Inductive certified (pinned : string) (ks : KeyStore) : string → Prop :=
  | certified_root id rec :
      ks_keys ks !! id = Some rec → key_fingerprint (kr_pub rec) = pinned →
      certified pinned ks id
  | certified_step id rec prev prevRec stmtRaw sig stmt :
      ks_keys ks !! id = Some rec → certified pinned ks prev →
      ks_keys ks !! prev = Some prevRec →
      strict_document rotationStatement_names decode_rotationStatement stmtRaw = Some stmt →
      rs_Domain stmt = RotationDomain → rs_PreviousKeyID stmt = prev → rs_NewKeyID stmt = id →
      RawURLDecode (rs_NewPublicKey stmt) = Some (kr_pub rec) →
      ed25519_Verify (kr_pub prevRec) stmtRaw sig = true →
      certified pinned ks id.

Lemma certified_mono pinned ks ks' id :
  ks_keys ks ⊆ ks_keys ks' → certified pinned ks id → certified pinned ks' id.
Proof.
  intros Hs. induction 1.
  - eapply certified_root; [by eapply lookup_weaken|done].
  - eapply certified_step; try done; by eapply lookup_weaken.
Qed.

(** What loading maintains: keys are certified and of the right size, the
    trusted ids are those of the keys, and a set fingerprint is the pinned
    one. *)
Record store_ok (pinned : string) (ks : KeyStore) (trusted : gset string) : Prop := {
  so_certified : ∀ id rec, ks_keys ks !! id = Some rec → certified pinned ks id;
  so_size : ∀ id rec, ks_keys ks !! id = Some rec → String.length (kr_pub rec) = PublicKeySize;
  so_window : ∀ id rec, ks_keys ks !! id = Some rec →
    IsZero (kr_validUntil rec) ∨ kr_validFrom rec < kr_validUntil rec;
  so_trusted : ∀ id, id ∈ trusted → is_Some (ks_keys ks !! id);
  so_ids : ∀ id, id ∈ ks_keyIDs ks ↔ is_Some (ks_keys ks !! id);
  so_fingerprint : ks_fingerprint ks = "" ∨ ks_fingerprint ks = pinned
}.

Lemma parseValidityWindow_Ok f u w : parseValidityWindow f u = Ok w →
  IsZero (snd w) ∨ fst w < snd w.
Proof.
  unfold parseValidityWindow. intros E. apply res_bind_Ok in E as (from & _ & E).
  case_decide; [apply Ok_inj in E as <-; by left|].
  apply res_bind_Ok in E as (until & _ & E). apply res_bind_Ok in E as ([] & Hu & E).
  apply require_res_inv in Hu. apply Ok_inj in E as <-. by right.
Qed.

Lemma decode_pub_Ok s raw : decode_pub s = Ok raw →
  RawURLDecode s = Some raw ∧ String.length raw = PublicKeySize.
Proof.
  unfold decode_pub. intros E. apply res_bind_Ok in E as (r & Hr & E). apply opt_res_Ok in Hr.
  apply res_bind_Ok in E as ([] & Hl & E). apply require_res_inv in Hl.
  by apply Ok_inj in E as <-.
Qed.

Lemma store_ok_add pinned ks trusted id rec fp :
  store_ok pinned ks trusted → ks_keys ks !! id = None →
  String.length (kr_pub rec) = PublicKeySize →
  IsZero (kr_validUntil rec) ∨ kr_validFrom rec < kr_validUntil rec →
  (fp = ks_fingerprint ks ∨ fp = pinned) →
  let ks' := MkKeyStore fp (<[id := rec]> (ks_keys ks)) (ks_keyIDs ks ++ [id]) in
  certified pinned ks' id → store_ok pinned ks' ({[id]} ∪ trusted).
Proof.
  intros [H1 H2 H3 H4 H5 H6] Hn Hl Hw Hfp ks' Hc.
  assert (ks_keys ks ⊆ ks_keys ks') as Hsub by by apply insert_subseteq.
  constructor; cbn.
  - intros i r Hi. apply lookup_insert_Some in Hi as [[<- _]|[_ Hi]]; [exact Hc|].
    eapply certified_mono; [exact Hsub|by eapply H1].
  - intros i r Hi. apply lookup_insert_Some in Hi as [[_ <-]|[_ Hi]]; [done|by eapply H2].
  - intros i r Hi. apply lookup_insert_Some in Hi as [[_ <-]|[_ Hi]]; [done|by eapply H3].
  - intros i. rewrite elem_of_union, elem_of_singleton. intros [->|Hi].
    + by rewrite lookup_insert_eq.
    + apply lookup_insert_is_Some. destruct (decide (id = i)); [by left|right; auto].
  - intros i. rewrite elem_of_app, list_elem_of_singleton, H5, lookup_insert_is_Some.
    destruct (decide (id = i)); naive_solver.
  - destruct Hfp as [->| ->]; [done|by right].
Qed.

Lemma check_rotation_Ok k prevPub : check_rotation k prevPub = Ok tt →
  ∃ stmtRaw sig stmt,
    strict_document rotationStatement_names decode_rotationStatement stmtRaw = Some stmt ∧
    rs_Domain stmt = RotationDomain ∧ rs_PreviousKeyID stmt = pk_RotatedFrom k ∧
    rs_NewKeyID stmt = pk_KeyID k ∧ rs_NewPublicKey stmt = pk_PublicKey k ∧
    ed25519_Verify prevPub stmtRaw sig = true.
Proof.
  unfold check_rotation. intros E. apply res_bind_Ok in E as (stmtRaw & _ & E).
  apply res_bind_Ok in E as (sig & _ & E). apply res_bind_Ok in E as (stmt & Hs & E).
  apply opt_res_Ok in Hs. repeat (apply res_bind_Ok in E as ([] & ?%require_res_inv & E)).
  apply require_res_inv in E. exists stmtRaw, sig, stmt. done.
Qed.

Lemma addKey_ok pinned k ks trusted ks' trusted' :
  store_ok pinned ks trusted → addKey k ks trusted pinned = Ok (ks', trusted') →
  store_ok pinned ks' trusted'.
Proof.
  intros Hok E. unfold addKey in E.
  do 3 (apply res_bind_Ok in E as ([] & ?%require_res_inv & E)).
  apply res_bind_Ok in E as (rawPub & Hp & E). apply decode_pub_Ok in Hp as [Hp Hl].
  apply res_bind_Ok in E as ([] & _ & E). apply res_bind_Ok in E as (w & Hw & E).
  apply parseValidityWindow_Ok in Hw. cbv zeta in E.
  set (rec := Mk_keyRecord rawPub (fst w) (snd w)) in E.
  destruct (pk_Root k).
  - repeat (apply res_bind_Ok in E as ([] & ?%require_res_inv & E)).
    apply Ok_inj in E. injection E as <- <-.
    apply (store_ok_add pinned ks trusted (pk_KeyID k) rec); try done; [by right|].
    apply certified_root with rec; [apply lookup_insert_eq|done].
  - apply res_bind_Ok in E as ([] & Ht%require_res_inv & E).
    apply res_bind_Ok in E as ([] & Hr & E). apply Ok_inj in E. injection E as <- <-.
    destruct (so_trusted _ _ _ Hok _ Ht) as [prevRec Hprev]. rewrite Hprev in Hr. cbn in Hr.
    apply check_rotation_Ok in Hr as (stmtRaw & sig & stmt & Hs & Hd & Hpi & Hni & Hnp & Hv).
    apply (store_ok_add pinned ks trusted (pk_KeyID k) rec); try done; [by left|].
    assert (pk_KeyID k ≠ pk_RotatedFrom k) by congruence.
    eapply certified_step with (rec := rec) (prevRec := prevRec); try done.
    + apply lookup_insert_eq.
    + eapply certified_mono; [|by eapply (so_certified _ _ _ Hok)]. by apply insert_subseteq.
    + cbn. by rewrite lookup_insert_ne.
    + by rewrite Hnp.
Qed.

Lemma addKeys_ok pinned l ks trusted ks' :
  store_ok pinned ks trusted → addKeys l ks trusted pinned = Ok ks' →
  ∃ trusted', store_ok pinned ks' trusted'.
Proof.
  revert ks trusted. induction l as [|k l IH]; intros ks trusted Hok E; cbn [addKeys] in E.
  - apply Ok_inj in E as <-. by exists trusted.
  - apply res_bind_Ok in E as ([ks1 t1] & E1 & E). eapply IH; [by eapply addKey_ok|exact E].
Qed.

(** The record an entry of the pin file becomes. *)
Definition pinned_record (k : pinKey) (rec : keyRecord) : Prop :=
  RawURLDecode (pk_PublicKey k) = Some (kr_pub rec) ∧
  parseValidityWindow (pk_ValidFrom k) (pk_ValidUntil k) = Ok (kr_validFrom rec, kr_validUntil rec).

Definition pin_roots (l : list pinKey) : list pinKey := filter (λ k, pk_Root k = true) l.

(** What one entry adds. *)
Lemma addKey_entry k ks trusted pinned ks' trusted' :
  addKey k ks trusted pinned = Ok (ks', trusted') →
  pk_KeyID k ≠ "" ∧ ks_keys ks !! pk_KeyID k = None ∧ pk_Algorithm k = "Ed25519" ∧
  (∃ rec, pinned_record k rec ∧ ks_keys ks' = <[pk_KeyID k := rec]> (ks_keys ks) ∧
     (pk_Root k = true → key_fingerprint (kr_pub rec) = pinned)) ∧
  (pk_Root k = true → ks_fingerprint ks = "" ∧ ks_fingerprint ks' ≠ "") ∧
  (pk_Root k = false → ks_fingerprint ks' = ks_fingerprint ks).
Proof.
  unfold addKey. intros E. do 3 (apply res_bind_Ok in E as ([] & ?%require_res_inv & E)).
  apply res_bind_Ok in E as (rawPub & Hp & E). apply decode_pub_Ok in Hp as [Hp Hl].
  apply res_bind_Ok in E as ([] & _ & E). apply res_bind_Ok in E as ([f u] & Hw & E). cbv zeta in E.
  split; [done|]. split; [done|]. split; [done|]. destruct (pk_Root k).
  - apply res_bind_Ok in E as ([] & Hf%require_res_inv & E).
    apply res_bind_Ok in E as ([] & Hn%require_res_inv & E). apply Ok_inj in E. injection E as <- <-.
    split; [|by split]. exists (Mk_keyRecord rawPub f u). split; [by split|]. by split.
  - apply res_bind_Ok in E as ([] & _ & E). apply res_bind_Ok in E as ([] & _ & E).
    apply Ok_inj in E. injection E as <- <-.
    split; [|by split]. exists (Mk_keyRecord rawPub f u). split; [by split|]. by split.
Qed.

(** The entries of the pin file are the keys, and at most one is a root. *)
Lemma addKeys_entries l ks trusted pinned ks' :
  addKeys l ks trusted pinned = Ok ks' →
  ks_keys ks ⊆ ks_keys ks' ∧
  (∀ k, k ∈ l → pk_KeyID k ≠ "" ∧ pk_Algorithm k = "Ed25519" ∧
     (∃ rec, ks_keys ks' !! pk_KeyID k = Some rec ∧ pinned_record k rec ∧
        (pk_Root k = true → key_fingerprint (kr_pub rec) = pinned))) ∧
  (∀ id, is_Some (ks_keys ks' !! id) → is_Some (ks_keys ks !! id) ∨ id ∈ pk_KeyID <$> l) ∧
  NoDup (pk_KeyID <$> l) ∧ (∀ k, k ∈ l → ks_keys ks !! pk_KeyID k = None) ∧
  (length (pin_roots l) + (if decide (ks_fingerprint ks = "") then 0 else 1) =
   if decide (ks_fingerprint ks' = "") then 0 else 1)%nat.
Proof.
  revert ks trusted. induction l as [|k l IH]; intros ks trusted E; cbn [addKeys] in E.
  { apply Ok_inj in E as <-. split_and!; try done; [by intros ? ?%not_elem_of_nil|by left| |].
    - constructor.
    - by intros ? ?%not_elem_of_nil. }
  apply res_bind_Ok in E as ([ks1 t1] & E1 & E).
  apply addKey_entry in E1 as (Hi & Hn & Ha & (rec & Hr & Ek & Hf) & Hroot & Hother).
  apply IH in E as (Hs & Hl & Hb & Hd & Hfresh & Hc).
  assert (ks_keys ks1 !! pk_KeyID k = Some rec) as Hk by (rewrite Ek; apply lookup_insert_eq).
  assert (ks_keys ks ⊆ ks_keys ks1) as Hs1 by (rewrite Ek; by apply insert_subseteq).
  split_and!.
  - by etrans.
  - intros k2 [->|Hk2]%elem_of_cons; [|by apply Hl]. split; [done|]. split; [done|].
    exists rec. split; [by eapply lookup_weaken|by split].
  - intros id Hid. rewrite fmap_cons, elem_of_cons. destruct (Hb _ Hid) as [H1|H1]; [|by right; right].
    rewrite Ek, lookup_insert_is_Some in H1. naive_solver.
  - rewrite fmap_cons. constructor; [|done]. intros (k2 & E2 & Hk2)%list_elem_of_fmap.
    specialize (Hfresh _ Hk2). by rewrite <- E2, Hk in Hfresh.
  - intros k2 [->|Hk2]%elem_of_cons; [done|]. specialize (Hfresh _ Hk2).
    rewrite Ek in Hfresh. by apply lookup_insert_None in Hfresh as [? _].
  - rewrite <- Hc. unfold pin_roots. rewrite filter_cons. destruct (pk_Root k).
    + destruct (Hroot eq_refl) as [-> Hne]. rewrite (decide_True (P := "" = "")) by done.
      rewrite (decide_False (P := ks_fingerprint ks1 = "")) by done. rewrite decide_True by done. cbn. lia.
    + rewrite (Hother eq_refl), decide_False by done. lia.
Qed.

(** C34: a loaded key store trusts exactly what the pin file lists and signs.
    The file declares the pin format and, when one is configured, the
    expected root fingerprint, which becomes the store's; exactly one entry
    is a root, and its key has that fingerprint.  The keys are those of the
    entries, under distinct ids, each declared Ed25519, 32 bytes long and with
    a well-formed validity window, and each chains by rotation statements,
    every one signed by the key before it, back to a key with the declared
    fingerprint; the listed ids are exactly those of the keys, in order. *)
Theorem LoadSigningKeys_certified raw expected ks :
  LoadSigningKeys raw expected = Ok ks →
  ∃ doc, strict_document pinFile_names decode_pinFile raw = Some doc ∧ pf_Format doc = PinFormat ∧
  ks_fingerprint ks = pf_SigningRootFingerprint doc ∧
  (expected ≠ "" → ks_fingerprint ks = expected) ∧
  (∃ root rec, pin_roots (pf_Keys doc) = [root] ∧ ks_keys ks !! pk_KeyID root = Some rec ∧
     key_fingerprint (kr_pub rec) = ks_fingerprint ks) ∧
  NoDup (pk_KeyID <$> pf_Keys doc) ∧
  (∀ k, k ∈ pf_Keys doc → pk_KeyID k ≠ "" ∧ pk_Algorithm k = "Ed25519") ∧
  (∀ id rec, ks_keys ks !! id = Some rec ↔
     ∃ k, k ∈ pf_Keys doc ∧ pk_KeyID k = id ∧ pinned_record k rec) ∧
  (∀ id rec, ks_keys ks !! id = Some rec →
    certified (ks_fingerprint ks) ks id ∧ String.length (kr_pub rec) = PublicKeySize ∧
    (IsZero (kr_validUntil rec) ∨ kr_validFrom rec < kr_validUntil rec)) ∧
  (∀ id, id ∈ ks_keyIDs ks ↔ is_Some (ks_keys ks !! id)) ∧
  StronglySorted str_le (ks_keyIDs ks).
Proof.
  unfold LoadSigningKeys. intros E. apply res_bind_Ok in E as (doc & Hdoc%opt_res_Ok & E).
  apply res_bind_Ok in E as ([] & Hfmt%require_res_inv & E).
  apply res_bind_Ok in E as ([] & He%require_res_inv & E).
  apply res_bind_Ok in E as ([] & _ & E). apply res_bind_Ok in E as (ks1 & Ea & E).
  apply res_bind_Ok in E as ([] & Hne%require_res_inv & E).
  apply res_bind_Ok in E as ([] & Hf%require_res_inv & E).
  apply Ok_inj in E as <-. pose proof Ea as (_ & Hl & Hb & Hd & _ & Hc)%addKeys_entries.
  cbn [ks_fingerprint] in Hc. rewrite decide_True, decide_False in Hc by done.
  eapply addKeys_ok in Ea as [trusted [H1 H2 H3 H4 H5 H6]].
  2: { constructor; cbn; [by intros ? ? ?%lookup_empty_Some..| | |].
       - intros id Hid. by apply not_elem_of_empty in Hid.
       - intros id. rewrite lookup_empty, elem_of_nil. split; [done|by intros []].
       - by left. }
  exists doc. cbn. split; [done|]. split; [done|]. split; [done|]. split.
  { intros N. apply dec_stable. intros N2. apply He. split; [done|congruence]. }
  split.
  { destruct (pin_roots (pf_Keys doc)) as [|root [|]] eqn:Er; cbn in Hc; [lia| |lia].
    assert (root ∈ pin_roots (pf_Keys doc)) as [Ht Hin]%list_elem_of_filter by (rewrite Er; by left).
    destruct (Hl _ Hin) as (_ & _ & rec & Hr & _ & Hp). exists root, rec.
    rewrite Hf. split_and!; [done|done|by apply Hp]. }
  split; [done|]. split; [intros k Hk; by destruct (Hl _ Hk) as (? & ? & _)|]. split_and!.
  - intros id rec. split.
    + intros Hr. destruct (Hb id) as [[? Hx]|(k & -> & Hin)%list_elem_of_fmap]; [by eexists| |].
      { cbn in Hx. by rewrite lookup_empty in Hx. }
      exists k. destruct (Hl _ Hin) as (_ & _ & rec2 & Hr2 & Hp & _). split_and!; [done..|congruence].
    + intros (k & Hin & <- & Hp1 & Hp2). destruct (Hl _ Hin) as (_ & _ & rec2 & Hr2 & [Hq1 Hq2] & _).
      rewrite Hr2. f_equal. destruct rec, rec2. cbn in *. congruence.
  - intros id rec Hr. split_and!; [|by eapply H2|by eapply H3].
    rewrite Hf. eapply certified_mono; [|by eapply H1]. done.
  - intros id. unfold sort_strings. by rewrite merge_sort_Permutation, H5.
  - apply StronglySorted_merge_sort; apply _.
Qed.
End certified.

(** A pin file with a root key and one key rotated from it, under signatures
    that are digests of key and message. *)
Definition toy_Ed25519 : Ed25519 := λ pub msg sig, bool_decide (sig = Sum256 (pub +:+ msg)).
Definition toy_key (n : Z) : string := of_bytes (replicate 32 n).
Definition toy_statement : string := render false (JObj [
  ("domain", JStr RotationDomain); ("previous_key_id", JStr "key-1"); ("new_key_id", JStr "key-2");
  ("new_public_key", JStr (RawURLEncode (toy_key 2))); ("issued_at", JStr "2023-11-14T00:00:00Z")]).
Definition toy_pin_file : string := render false (JObj [
  ("format", JStr PinFormat); ("signing_root_fingerprint", JStr (key_fingerprint (toy_key 1)));
  ("keys", JArr [
    JObj [("key_id", JStr "key-1"); ("algorithm", JStr "Ed25519");
          ("public_key", JStr (RawURLEncode (toy_key 1)));
          ("valid_from", JStr "2023-01-01T00:00:00Z"); ("root", JBool true)];
    JObj [("key_id", JStr "key-2"); ("algorithm", JStr "Ed25519");
          ("public_key", JStr (RawURLEncode (toy_key 2)));
          ("valid_from", JStr "2023-11-14T00:00:00Z"); ("valid_until", JStr "2024-11-14T00:00:00Z");
          ("rotated_from", JStr "key-1"); ("rotation_statement", JStr (RawURLEncode toy_statement));
          ("rotation_signature", JStr (RawURLEncode (Sum256 (toy_key 1 +:+ toy_statement))))]])]).
Definition toy_loaded : res KeyStore :=
  @LoadSigningKeys toy_Ed25519 toy_pin_file (key_fingerprint (toy_key 1)).
Definition toy_store : KeyStore := match toy_loaded with Ok ks => ks | Err _ => MkKeyStore "" ∅ [] end.

Lemma LoadSigningKeys_certified_witness :
  toy_loaded = Ok toy_store ∧ ks_keyIDs toy_store = ["key-1"; "key-2"] ∧
  @certified toy_Ed25519 (ks_fingerprint toy_store) toy_store "key-2".
Proof.
  assert (toy_loaded = Ok toy_store) as E.
  { unfold toy_store. destruct toy_loaded eqn:E; [done|]. vm_compute in E. discriminate. }
  split; [exact E|]. split; [vm_compute; reflexivity|].
  destruct (@LoadSigningKeys_certified toy_Ed25519 toy_pin_file (key_fingerprint (toy_key 1))
              toy_store E) as (doc & _ & _ & _ & _ & _ & _ & _ & _ & Hall & Hids & _).
  destruct (proj1 (Hids "key-2")) as [rec Hrec].
  { replace (ks_keyIDs toy_store) with ["key-1"; "key-2"] by (vm_compute; reflexivity).
    right. left. }
  exact (proj1 (Hall "key-2" rec Hrec)).
Defined.

(** ** A refreshed history is anchored at the pinned root *)

Section anchored.
Context (parsed : gmap string keyRecord) (byID : gmap string ServedKey) (fingerprint : string).

(** [n] rotations away from a key with the pinned fingerprint. *)
Inductive anchored : nat → string → Prop :=
  | anchored_root cur : is_root parsed fingerprint cur → anchored 0 cur
  | anchored_step n cur :
      ¬ is_root parsed fingerprint cur → predecessor byID cur ≠ "" →
      is_Some (parsed !! predecessor byID cur) → anchored n (predecessor byID cur) →
      anchored (S n) cur.

Lemma anchored_unique n m cur : anchored n cur → anchored m cur → n = m.
Proof.
  intros H. revert m. induction H as [cur Hr|n cur Hr _ _ _ IH]; intros m Hm; inversion Hm; subst; try done.
  f_equal. by apply IH.
Qed.

Lemma chain_walk_sound fuel seen cur :
  chain_walk parsed byID fingerprint fuel seen cur = Ok tt → ∃ n, anchored n cur.
Proof.
  revert seen cur. induction fuel as [|f IH]; intros seen cur E; [done|]. cbn [chain_walk] in E.
  apply res_bind_Ok in E as ([] & _ & E). case_decide as D; [exists 0%nat; by constructor|].
  cbv zeta in E. apply res_bind_Ok in E as ([] & Hp%require_res_inv & E).
  apply res_bind_Ok in E as ([] & Hs%require_res_inv & E).
  apply IH in E as [n Hn]. exists (S n). by constructor.
Qed.

(** An anchored key is accepted: its walk cannot revisit a key. *)
Lemma chain_walk_complete fuel seen n cur :
  anchored n cur → (∀ x m, x ∈ seen → anchored m x → (n < m)%nat) →
  chain_walk parsed byID fingerprint fuel seen cur = Ok tt ∨
  chain_walk parsed byID fingerprint fuel seen cur = Err out_of_fuel.
Proof.
  intros Ha. revert fuel seen. induction Ha as [cur Hr|n cur Hr Hp Hs Ha IH];
    intros [|f] seen Hseen; try (by right); cbn [chain_walk].
  - rewrite require_res_then, decide_True; [by left|done|].
    intros Hin. specialize (Hseen cur 0%nat Hin (anchored_root _ Hr)). lia.
  - rewrite require_res_then.
    2: { intros Hin. specialize (Hseen cur (S n) Hin (anchored_step _ _ Hr Hp Hs Ha)). lia. }
    rewrite decide_False by done. cbv zeta. rewrite !require_res_then by done.
    apply IH. intros x m [->%elem_of_singleton|Hx]%elem_of_union Hm.
    + rewrite (anchored_unique _ _ _ Hm (anchored_step _ _ Hr Hp Hs Ha)). lia.
    + specialize (Hseen x m Hx Hm). lia.
Qed.

(** The walk ends: it visits each key of the history at most once. *)
Lemma chain_walk_terminates fuel seen cur :
  seen ⊆ dom parsed → is_Some (parsed !! cur) → (size (dom parsed) < fuel + size seen)%nat →
  chain_walk parsed byID fingerprint fuel seen cur ≠ Err out_of_fuel.
Proof.
  revert seen cur. induction fuel as [|f IH]; intros seen cur Hs Hc Hf.
  { apply subseteq_size in Hs. lia. }
  cbn [chain_walk]. apply require_res_bind_ne; [done|intros Hn].
  case_decide; [done|]. cbv zeta.
  apply require_res_bind_ne; [done|intros Hp]. apply require_res_bind_ne; [done|intros Hq].
  apply IH; [|done|].
  - apply elem_of_dom in Hc. set_solver.
  - rewrite size_union, size_singleton by set_solver. lia.
Qed.

Lemma chain_walk_start cur : is_Some (parsed !! cur) →
  chain_walk parsed byID fingerprint (S (size parsed)) ∅ cur ≠ Err out_of_fuel.
Proof.
  intros Hc. apply chain_walk_terminates; [apply empty_subseteq|done|].
  rewrite size_dom, size_empty. lia.
Qed.

Lemma chain_all_exact keys :
  (∀ k, k ∈ keys → is_Some (parsed !! sk_KeyID k)) →
  chain_all parsed byID fingerprint keys ≠ Err out_of_fuel ∧
  (chain_all parsed byID fingerprint keys = Ok tt ↔
   ∀ k, k ∈ keys → ∃ n, anchored n (sk_KeyID k)).
Proof.
  induction keys as [|k keys IH]; intros Hin; cbn [chain_all].
  { split; [done|]. split; [|done]. intros _ k Hk. by apply not_elem_of_nil in Hk. }
  destruct IH as [IHf IHe]; [intros; apply Hin; by right|].
  pose proof (chain_walk_start _ (Hin k ltac:(by left))) as Hf.
  destruct (chain_walk parsed byID fingerprint (S (size parsed)) ∅ (sk_KeyID k)) as [[]|e] eqn:E.
  - split; [exact IHf|]. change (chain_all parsed byID fingerprint keys = Ok tt ↔
      ∀ k0, k0 ∈ k :: keys → ∃ n, anchored n (sk_KeyID k0)). rewrite IHe.
    apply chain_walk_sound in E. split.
    + intros H k0 [->|Hk]%elem_of_cons; [exact E|auto].
    + intros H k0 Hk. apply H. by right.
  - split; [intros E2; injection E2 as E2; by subst|]. split; [done|]. intros H.
    destruct (H k ltac:(by left)) as [n Hn].
    destruct (chain_walk_complete (S (size parsed)) ∅ n (sk_KeyID k) Hn) as [E2|E2];
      [set_solver|congruence|congruence].
Qed.
End anchored.

Lemma parse_served_Ok keys parsed byID p b :
  parse_served keys parsed byID = Ok (p, b) →
  NoDup (sk_KeyID <$> keys) ∧
  (∀ k, k ∈ keys → sk_KeyID k ≠ "" ∧ parsed !! sk_KeyID k = None ∧
     ∃ rec, served_record k = Ok rec ∧ p !! sk_KeyID k = Some rec ∧ b !! sk_KeyID k = Some k) ∧
  (∀ id, id ∉ sk_KeyID <$> keys → p !! id = parsed !! id ∧ b !! id = byID !! id).
Proof.
  revert parsed byID. induction keys as [|k keys IH]; intros parsed byID E; cbn [parse_served] in E.
  { apply Ok_inj in E. injection E as <- <-. split_and!; [constructor| |done].
    intros k Hk. by apply not_elem_of_nil in Hk. }
  apply res_bind_Ok in E as ([] & Hid%require_res_inv & E).
  apply res_bind_Ok in E as ([] & Hn%require_res_inv & E).
  apply res_bind_Ok in E as (rec & Hr & E). apply IH in E as (Hd & Hk & Ho).
  assert (sk_KeyID k ∉ sk_KeyID <$> keys) as Hnew.
  { intros (k2 & E2 & Hk2)%list_elem_of_fmap. destruct (Hk _ Hk2) as (_ & Hno & _).
    rewrite <- E2, lookup_insert_eq in Hno. done. }
  split_and!.
  - rewrite fmap_cons. by constructor.
  - intros k0 [->|Hk0]%elem_of_cons.
    + split; [done|split; [done|]]. exists rec. destruct (Ho _ Hnew) as [-> ->].
      by rewrite !lookup_insert_eq.
    + destruct (Hk _ Hk0) as (? & Hno & Hrest). split; [done|split; [|done]].
      by apply lookup_insert_None in Hno as [? _].
  - intros id Hid2. rewrite fmap_cons, not_elem_of_cons in Hid2. destruct Hid2 as [N1 N2].
    destruct (Ho _ N2) as [-> ->]. by rewrite !lookup_insert_ne by done.
Qed.

(** What an entry of a served history must be, and the record it becomes. *)
Definition served_valid (k : ServedKey) (rec : keyRecord) : Prop :=
  RawURLDecode (sk_PublicKey k) = Some (kr_pub rec) ∧ String.length (kr_pub rec) = PublicKeySize ∧
  kr_validFrom rec = (if decide (sk_ValidFrom k = 0) then zero_time else Unix (sk_ValidFrom k)) ∧
  kr_validUntil rec = (if decide (sk_ValidUntil k = 0) then zero_time else Unix (sk_ValidUntil k)) ∧
  (sk_ValidUntil k ≠ 0 → kr_validFrom rec < kr_validUntil rec).

Lemma decode_pub_iff s raw : decode_pub s = Ok raw ↔
  RawURLDecode s = Some raw ∧ String.length raw = PublicKeySize.
Proof.
  split; [apply decode_pub_Ok|]. intros [E Hl]. unfold decode_pub. rewrite E.
  change (opt_res ?e (Some raw) ≫= ?f) with (f raw). cbv beta. by rewrite require_res_then.
Qed.

Lemma served_record_valid k rec : served_record k = Ok rec ↔ served_valid k rec.
Proof.
  unfold served_record, served_valid. rewrite res_bind_Ok. split.
  - intros (raw & [Hd Hl]%decode_pub_iff & E). cbv zeta in E. destruct (decide (sk_ValidUntil k ≠ 0)) as [D|D].
    + apply require_res_bind_Ok in E as [Ha E]. apply Ok_inj in E as <-. cbn. unfold After in Ha.
      rewrite (decide_False (P := sk_ValidUntil k = 0)) by done.
      destruct (decide (sk_ValidFrom k = 0)) as [Z0|Z0]; [rewrite decide_False in * by tauto|rewrite decide_True in * by done].
      all: by split_and!.
    + apply dec_stable in D. apply Ok_inj in E as <-. cbn. rewrite (decide_True (P := sk_ValidUntil k = 0)) by done.
      destruct (decide (sk_ValidFrom k = 0)); [rewrite decide_False by tauto|rewrite decide_True by done].
      all: by split_and!.
  - destruct rec as [raw f u]. cbn. intros (Hd & Hl & -> & -> & Hw). exists raw. split; [by apply decode_pub_iff|].
    cbv zeta. destruct (decide (sk_ValidUntil k ≠ 0)) as [D|D].
    + rewrite (decide_False (P := sk_ValidUntil k = 0)) in * by done.
      rewrite require_res_then.
      * f_equal. f_equal. by destruct (decide (sk_ValidFrom k = 0)), (decide (sk_ValidFrom k ≠ 0)).
      * unfold After. specialize (Hw D).
        by destruct (decide (sk_ValidFrom k = 0)), (decide (sk_ValidFrom k ≠ 0)).
    + apply dec_stable in D. rewrite (decide_True (P := sk_ValidUntil k = 0)) by done.
      f_equal. f_equal. by destruct (decide (sk_ValidFrom k = 0)), (decide (sk_ValidFrom k ≠ 0)).
Qed.

(** The first loop succeeds on distinct, well-formed entries. *)
Lemma parse_served_complete keys parsed byID :
  NoDup (sk_KeyID <$> keys) →
  (∀ k, k ∈ keys → sk_KeyID k ≠ "" ∧ parsed !! sk_KeyID k = None ∧ ∃ rec, served_valid k rec) →
  is_ok (parse_served keys parsed byID) = true.
Proof.
  revert parsed byID. induction keys as [|k keys IH]; intros parsed byID Hd Hk; [done|].
  cbn [parse_served]. rewrite fmap_cons in Hd. apply NoDup_cons in Hd as [Hn Hd].
  destruct (Hk k ltac:(by left)) as (Hi & Hf & rec & Hr%served_record_valid).
  rewrite !require_res_then by done. rewrite Hr. change (Ok rec ≫= ?f) with (f rec). cbv beta.
  apply IH; [done|]. intros k2 Hk2. destruct (Hk k2 ltac:(by right)) as (Hi2 & Hf2 & Hr2).
  split_and!; [done| |done]. rewrite lookup_insert_ne; [done|]. intros E. apply Hn.
  rewrite E. by apply list_elem_of_fmap_2.
Qed.

Lemma parse_served_map keys p b : parse_served keys ∅ ∅ = Ok (p, b) →
  (∀ k, k ∈ keys → is_Some (p !! sk_KeyID k)) ∧
  (∀ id rec, p !! id = Some rec ↔ ∃ k, k ∈ keys ∧ sk_KeyID k = id ∧ served_valid k rec) ∧
  (∀ id k, b !! id = Some k ↔ k ∈ keys ∧ sk_KeyID k = id) ∧
  NoDup (sk_KeyID <$> keys) ∧ ∀ k, k ∈ keys → sk_KeyID k ≠ "" ∧ ∃ rec, served_valid k rec.
Proof.
  intros E. apply parse_served_Ok in E as (Hd & Hk & Ho). split_and!; [| | |done|].
  - intros k Hin. destruct (Hk _ Hin) as (_ & _ & rec & _ & -> & _). done.
  - intros id rec. setoid_rewrite <- served_record_valid. split.
    + intros Hl. destruct (decide (id ∈ sk_KeyID <$> keys)) as [Hin|Hin].
      * apply list_elem_of_fmap in Hin as (k & -> & Hin). exists k.
        destruct (Hk _ Hin) as (_ & _ & rec2 & Hr & Hl2 & _). split_and!; congruence.
      * destruct (Ho _ Hin) as [E _]. rewrite E, lookup_empty in Hl. done.
    + intros (k & Hin & <- & Hr). destruct (Hk _ Hin) as (_ & _ & rec2 & Hr2 & -> & _). congruence.
  - intros id k. split.
    + intros Hl. destruct (decide (id ∈ sk_KeyID <$> keys)) as [Hin|Hin].
      * apply list_elem_of_fmap in Hin as (k2 & -> & Hin).
        destruct (Hk _ Hin) as (_ & _ & rec2 & _ & _ & Hb). rewrite Hb in Hl. by injection Hl as <-.
      * destruct (Ho _ Hin) as [_ E]. rewrite E, lookup_empty in Hl. done.
    + intros [Hin <-]. by destruct (Hk _ Hin) as (_ & _ & rec2 & _ & _ & Hb).
  - intros k Hin. destruct (Hk _ Hin) as (Hi & _ & rec & Hr%served_record_valid & _). eauto.
Qed.

(** Served entries are refused with the messages of the trust package. *)
Lemma parse_served_fuel keys p b : parse_served keys p b ≠ Err out_of_fuel.
Proof.
  revert p b. induction keys as [|k keys IH]; intros p b; cbn [parse_served]; [done|].
  do 2 (apply require_res_bind_ne; [done|intros _]).
  assert (served_record k ≠ Err out_of_fuel) as Hs.
  { assert (decode_pub (sk_PublicKey k) ≠ Err out_of_fuel) as Hd.
    { unfold decode_pub. destruct (RawURLDecode (sk_PublicKey k)) as [raw|]; [|done].
      by apply (require_res_bind_ne (String.length raw = PublicKeySize)). }
    unfold served_record. destruct (decode_pub (sk_PublicKey k)) as [raw|e].
    2: { intros E. apply Hd. by injection E as ->. }
    change (Ok raw ≫= ?f) with (f raw). cbv beta zeta. case_decide; [|done].
    by apply require_res_bind_ne. }
  destruct (served_record k) as [rec|e]; [apply IH|]. intros E. apply Hs. by injection E as ->.
Qed.

(** C40: refreshing the keys from a served history is exact and always
    terminates, even on a history with rotation cycles: the history is
    accepted exactly when it was served at most 24 hours ago and at most five
    minutes ahead of the clock, its ids are distinct and not empty, each key
    is 32 bytes in base64url with an expiry, if it has one, after its start,
    and every key chains through rotated_from to a key with the pinned root
    fingerprint; the new key set then holds exactly the served keys and the
    pinned fingerprint never changes. *)
Theorem RefreshFromHistory_exact ks keys servedAt now :
  RefreshFromHistory ks keys servedAt now ≠ Err out_of_fuel ∧
  ∀ ks', RefreshFromHistory ks keys servedAt now = Ok ks' ↔
    keys ≠ [] ∧ ¬ IsZero servedAt ∧
    servedAt - 5 * Minute ≤ now ≤ servedAt + 24 * Hour ∧
    NoDup (sk_KeyID <$> keys) ∧
    (∀ k, k ∈ keys → sk_KeyID k ≠ "" ∧ ∃ rec, served_valid k rec) ∧
    ∃ parsed byID,
      (∀ id rec, parsed !! id = Some rec ↔ ∃ k, k ∈ keys ∧ sk_KeyID k = id ∧ served_valid k rec) ∧
      (∀ id k, byID !! id = Some k ↔ k ∈ keys ∧ sk_KeyID k = id) ∧
      (∀ k, k ∈ keys → ∃ n, anchored parsed byID (ks_fingerprint ks) n (sk_KeyID k)) ∧
      ks' = MkKeyStore (ks_fingerprint ks) parsed (sort_strings (sk_KeyID <$> keys)).
Proof.
  unfold RefreshFromHistory. split.
  - do 4 (apply require_res_bind_ne; [done|intros _]).
    pose proof (parse_served_fuel keys ∅ ∅) as Hs.
    destruct (parse_served keys ∅ ∅) as [[p b]|e] eqn:E.
    2: { intros E2. apply Hs. by injection E2 as ->. }
    destruct (parse_served_map _ _ _ E) as (Hin & _).
    destruct (chain_all_exact p b (ks_fingerprint ks) keys Hin) as [Hf _].
    change (Ok (p, b) ≫= ?f) with (f (p, b)). cbv beta iota.
    destruct (chain_all p b (ks_fingerprint ks) keys) as [[]|e]; [done|].
    intros E2. apply Hf. by injection E2 as ->.
  - intros ks'. rewrite !require_res_bind_Ok, res_bind_Ok. unfold After.
    change maxServedHistoryAge with (24 * Hour). change maxServedHistorySkew with (5 * Minute). split.
    + intros (H1 & H2 & H3 & H4 & [p b] & E & H5).
      apply res_bind_Ok in H5 as ([] & Ec & H5). apply Ok_inj in H5 as <-.
      destruct (parse_served_map _ _ _ E) as (Hin & Hmap & Hby & Hd & Hv).
      split; [done|]. split; [done|]. split; [lia|]. split; [done|]. split; [done|].
      exists p, b. split_and!; try done. by apply chain_all_exact.
    + intros (H1 & H2 & H3 & Hd & Hv & p & b & Hmap & Hby & Ha & ->). split_and!; try done; [lia|lia|].
      destruct (parse_served keys ∅ ∅) as [[p' b']|e] eqn:E.
      2: { pose proof (parse_served_complete keys ∅ ∅ Hd) as Hc. rewrite E in Hc. discriminate Hc.
           intros k Hk. destruct (Hv _ Hk). split_and!; [done|apply lookup_empty|done]. }
      destruct (parse_served_map _ _ _ E) as (Hin & Hmap' & Hby' & _).
      assert (p' = p) as -> by (apply map_eq; intros i; apply option_eq; intros r; by rewrite Hmap', Hmap).
      assert (b' = b) as -> by (apply map_eq; intros i; apply option_eq; intros r; by rewrite Hby', Hby).
      exists (p, b). split; [done|]. apply res_bind_Ok. exists tt. split; [|done].
      by apply chain_all_exact.
Qed.

(** A key is used only inside its validity window. *)
Lemma KeyAt_exact ks keyID at_ pub :
  KeyAt ks keyID at_ = Ok pub ↔
  ∃ rec, ks_keys ks !! keyID = Some rec ∧ kr_pub rec = pub ∧ kr_validFrom rec ≤ at_ ∧
    (IsZero (kr_validUntil rec) ∨ at_ < kr_validUntil rec).
Proof.
  unfold KeyAt. rewrite res_bind_Ok. split.
  - intros (rec & Hr%opt_res_Ok & E). rewrite !require_res_bind_Ok in E.
    destruct E as (H1 & H2 & E). apply Ok_inj in E. exists rec. unfold Before in *.
    split_and!; [done..|lia|]. destruct (decide (IsZero (kr_validUntil rec))); [by left|right].
    apply Z.nle_gt. intros Hle. apply H2. split; [done|lia].
  - intros (rec & Hr & <- & H1 & H2). exists rec. split; [by apply opt_res_Ok|].
    rewrite !require_res_bind_Ok. unfold Before. split_and!; [lia| |done].
    intros [Hz Hu]. destruct H2 as [H2|H2]; [done|lia].
Qed.
