(* ===== verification/PassModel.v ===== *)
(** * The mission-pass model and template (src/internal/missionpass)

    model.go: the proposal record, the life-cycle states with their
    transition table, and the canonical bytes a founder's approval binds;
    template.go: the fixed bounds every shaped draft and created proposal is
    checked against.  The upstream types they check are those of
    src/internal/coreapi/types.go. *)

From S2P Require Import Prelude GoTime Sha256 Json.

(** ** Records *)

Record EditableLimits := MkEditableLimits {
  li_ExpiresAt : time;
  li_MaxAggregateCostMicros : Z
}.
#[export] Instance EditableLimits_eq_dec : EqDecision EditableLimits.
Proof. solve_decision. Defined.

Definition PassState := string.
Definition ReconciliationState := string.

Record ProposalRecord := MkProposalRecord {
  pr_WorkspaceID : string;
  pr_PassID : string;
  pr_StoreRevision : Z;
  pr_DraftVersion : Z;
  pr_AuthScopeMissionVersion : Z;
  pr_ProposalID : string;
  pr_ProposalDigest : string;
  pr_ApprovedProposalDigest : string;
  pr_SourceRevision : string;
  pr_SourceDigest : string;
  pr_BaseSHA : string;
  pr_MissionBranch : string;
  pr_AgentKitID : string;
  pr_AgentKitVersion : string;
  pr_RunnerArguments : list string;
  pr_InvocationDigest : string;
  pr_Limits : EditableLimits;
  pr_State : PassState;
  pr_Reconciliation : ReconciliationState;
  pr_MissionRef : string;
  pr_MissionHash : string;
  pr_ApprovalDecisionRef : string;
  pr_AttestationDigest : string;
  pr_RunID : string
}.
#[export] Instance eta_ProposalRecord : Eta ProposalRecord := λ r, MkProposalRecord
    (pr_WorkspaceID r) (pr_PassID r) (pr_StoreRevision r) (pr_DraftVersion r)
    (pr_AuthScopeMissionVersion r) (pr_ProposalID r) (pr_ProposalDigest r)
    (pr_ApprovedProposalDigest r) (pr_SourceRevision r) (pr_SourceDigest r) (pr_BaseSHA r)
    (pr_MissionBranch r) (pr_AgentKitID r) (pr_AgentKitVersion r) (pr_RunnerArguments r)
    (pr_InvocationDigest r) (pr_Limits r) (pr_State r) (pr_Reconciliation r)
    (pr_MissionRef r) (pr_MissionHash r) (pr_ApprovalDecisionRef r)
    (pr_AttestationDigest r) (pr_RunID r).
#[export] Instance ProposalRecord_eq_dec : EqDecision ProposalRecord.
Proof. solve_decision. Defined.

(** ** Life cycle *)

Definition PassDraft : PassState := "draft".
Definition PassApproved : PassState := "approved".
Definition PassLaunching : PassState := "launching".
Definition PassRunning : PassState := "running".
Definition PassAwaitingExpansion : PassState := "awaiting_expansion".
Definition PassOutcomePending : PassState := "outcome_pending".
Definition PassCompleted : PassState := "completed".
Definition PassFailed : PassState := "failed".
Definition PassRevoked : PassState := "revoked".
Definition PassExpired : PassState := "expired".

Definition ReconciliationSettled : ReconciliationState := "settled".
Definition ReconciliationPending : ReconciliationState := "pending".
Definition ReconciliationDisputed : ReconciliationState := "disputed".

(** [passTransitions]: the states reachable in one move; a state absent
    from the Go map has none. *)
Definition passTransitions (from : PassState) : list PassState :=
  if decide (from = PassDraft) then [PassApproved; PassExpired]
  else if decide (from = PassApproved) then [PassLaunching; PassRevoked; PassExpired]
  else if decide (from = PassLaunching) then
    [PassApproved; PassRunning; PassRevoked; PassExpired]
  else if decide (from = PassRunning) then
    [PassAwaitingExpansion; PassOutcomePending; PassRevoked; PassExpired]
  else if decide (from = PassAwaitingExpansion) then
    [PassRunning; PassOutcomePending; PassRevoked; PassExpired]
  else if decide (from = PassOutcomePending) then [PassCompleted; PassFailed; PassRevoked]
  else [].

Definition revocableStates : list PassState :=
  [PassApproved; PassLaunching; PassRunning; PassAwaitingExpansion; PassOutcomePending].

Definition Revocable (state : PassState) : Prop := state ∈ revocableStates.
#[export] Instance Revocable_dec s : Decision (Revocable s).
Proof. unfold Revocable. apply _. Defined.

Definition knownPassStates : list PassState :=
  [PassDraft; PassApproved; PassLaunching; PassRunning; PassAwaitingExpansion;
   PassOutcomePending; PassCompleted; PassFailed; PassRevoked; PassExpired].

Definition Transition (from to : PassState) : res unit :=
  if decide (from ∉ knownPassStates) then Err (ErrOther "missionpass: unknown pass state")
  else if decide (to ∉ knownPassStates) then Err (ErrOther "missionpass: unknown pass state")
  else if decide (to ∈ passTransitions from) then Ok tt
  else Err (ErrOther "missionpass: illegal pass transition").

(** events.go: [isTerminalPassState]. *)
Definition isTerminalPassState (s : PassState) : Prop :=
  s = PassCompleted ∨ s = PassFailed ∨ s = PassRevoked ∨ s = PassExpired.
#[export] Instance isTerminalPassState_dec s : Decision (isTerminalPassState s).
Proof. unfold isTerminalPassState. apply _. Defined.

(** ** Canonical approval bytes *)

Definition approvalDomain : string := "authscope-ope/pass-approval/v1".

(** [binary.BigEndian.PutUint64] of the length, then the bytes. *)
Definition writeApprovalField (s : string) : string :=
  of_bytes (be_bytes 8 (Z.of_nat (String.length s))) +:+ s.

Definition approval_fields (record : ProposalRecord) : list string :=
  [pr_WorkspaceID record; pr_PassID record; itoa (pr_DraftVersion record);
   pr_ProposalID record; pr_ProposalDigest record; pr_InvocationDigest record;
   pr_SourceDigest record; pr_BaseSHA record].

Definition CanonicalApprovalBytes (record : ProposalRecord) : string :=
  approvalDomain +:+ foldr (λ f rest, writeApprovalField f +:+ rest) "" (approval_fields record).

(** ** Template *)

Definition MissionBranchPrefix : string := "authscope/".
Definition MaxTTL : Z := 2 * Hour.
Definition MaxTTLSeconds : Z := 7200.
Definition MaxAggregateCostMicros : Z := 20000000.
Definition FixedAgentKitID : string := "authscope-agent-kit".
Definition FixedAgentKitVersion : string := "1.0.0".

Definition MissionBranch (passID : string) (issueNumber : Z) : string :=
  MissionBranchPrefix +:+ passID +:+ "-" +:+ itoa issueNumber.

(** [canonicalDigestPattern], ["^sha256:[0-9a-f]{64}$"]. *)
Definition lower_hex (c : ascii) : bool :=
  bool_decide (48 ≤ byte_val c ≤ 57) || bool_decide (97 ≤ byte_val c ≤ 102).
Fixpoint all_lower_hex (s : string) : bool :=
  match s with EmptyString => true | String c s' => lower_hex c && all_lower_hex s' end.
Definition canonicalDigest (s : string) : Prop :=
  String.substring 0 7 s = "sha256:" ∧ String.length s = 71%nat ∧
  all_lower_hex (String.substring 7 64 s) = true.
#[export] Instance canonicalDigest_dec s : Decision (canonicalDigest s).
Proof. unfold canonicalDigest. apply _. Defined.

(** coreapi.MissionDraft and coreapi.Proposal. *)
Record MissionDraft := MkMissionDraft {
  md_ProposalDigest : string;
  md_InvocationDigest : string;
  md_AgentKitID : string;
  md_AgentKitVersion : string;
  md_RunnerArguments : list string;
  md_DecisionDigest : string;
  md_BudgetMicros : Z;
  md_TTLSeconds : Z;
  md_CanonicalDraft : string;
  md_ShapedAt : Z;
  md_WorkspaceID : string
}.
#[export] Instance MissionDraft_eq_dec : EqDecision MissionDraft.
Proof. solve_decision. Defined.

Record Proposal := MkProposal {
  po_ProposalID : string;
  po_ProposalDigest : string;
  po_InvocationDigest : string;
  po_AgentKitID : string;
  po_AgentKitVersion : string;
  po_RunnerArguments : list string;
  po_Status : string;
  po_WorkspaceID : string;
  po_DecisionDigest : string;
  po_CreatedAt : Z
}.
#[export] Instance Proposal_eq_dec : EqDecision Proposal.
Proof. solve_decision. Defined.

Definition ValidateShaped (draft : MissionDraft) (ttlSeconds budgetMicros : Z) : res unit :=
  _ ← require_res (canonicalDigest (md_ProposalDigest draft)) ErrTemplateViolation;
  _ ← require_res (canonicalDigest (md_InvocationDigest draft)) ErrTemplateViolation;
  _ ← require_res (md_AgentKitID draft = FixedAgentKitID) ErrTemplateViolation;
  _ ← require_res (md_AgentKitVersion draft = FixedAgentKitVersion) ErrTemplateViolation;
  _ ← require_res (md_RunnerArguments draft ≠ []) ErrTemplateViolation;
  _ ← require_res (Forall (λ arg, arg ≠ "") (md_RunnerArguments draft)) ErrTemplateViolation;
  _ ← require_res (¬ (md_BudgetMicros draft ≤ 0 ∨ budgetMicros < md_BudgetMicros draft))
        ErrTemplateViolation;
  _ ← require_res (¬ MaxAggregateCostMicros < md_BudgetMicros draft) ErrTemplateViolation;
  _ ← require_res (¬ (md_TTLSeconds draft ≤ 0 ∨ ttlSeconds < md_TTLSeconds draft))
        ErrTemplateViolation;
  _ ← require_res (¬ MaxTTLSeconds < md_TTLSeconds draft) ErrTemplateViolation;
  require_res (md_CanonicalDraft draft ≠ "") ErrTemplateViolation.

(** The loop over the shaped arguments, after the length check. *)
Fixpoint same_arguments (shaped proposed : list string) : res unit :=
  match shaped, proposed with
  | [], _ => Ok tt
  | a :: shaped', b :: proposed' =>
      _ ← require_res (b = a) ErrProposalMismatch;
      same_arguments shaped' proposed'
  | _ :: _, [] => Err ErrProposalMismatch
  end.

Definition ValidateProposal (shaped : MissionDraft) (proposal : Proposal) : res unit :=
  _ ← require_res (po_ProposalID proposal ≠ "") ErrProposalMismatch;
  _ ← require_res (canonicalDigest (po_ProposalDigest proposal)) ErrProposalMismatch;
  _ ← require_res (canonicalDigest (po_InvocationDigest proposal)) ErrProposalMismatch;
  _ ← require_res (po_InvocationDigest proposal = md_InvocationDigest shaped) ErrProposalMismatch;
  _ ← require_res (¬ (po_AgentKitID proposal ≠ FixedAgentKitID ∨
                      po_AgentKitVersion proposal ≠ FixedAgentKitVersion)) ErrProposalMismatch;
  _ ← require_res (length (po_RunnerArguments proposal) = length (md_RunnerArguments shaped))
        ErrProposalMismatch;
  same_arguments (md_RunnerArguments shaped) (po_RunnerArguments proposal).

(** ** The life cycle *)

Definition life_step (from to : PassState) : Prop := Transition from to = Ok tt.

Lemma life_step_iff from to :
  life_step from to ↔ to ∈ passTransitions from.
Proof.
  unfold life_step, Transition. split.
  - intros H. repeat case_decide; done.
  - intros H. assert (from ∈ knownPassStates ∧ to ∈ knownPassStates) as [H1 H2].
    { revert H. unfold passTransitions. repeat case_decide; subst;
        rewrite ?elem_of_cons, ?elem_of_nil; intros Hin; try tauto;
        destruct_or?; subst; try done; split; by_decide. }
    rewrite !decide_False by tauto. by rewrite decide_True.
Qed.

Ltac life_cases H :=
  apply life_step_iff in H; unfold passTransitions in H;
  repeat case_decide; subst; rewrite ?elem_of_cons, ?elem_of_nil in H;
  destruct_or?; subst; try done.

Lemma terminal_no_step s t : isTerminalPassState s → ¬ life_step s t.
Proof.
  intros Hs H. apply life_step_iff in H.
  destruct Hs as [->|[->|[->| ->]]]; by apply not_elem_of_nil in H.
Qed.

Lemma terminal_stuck s t : isTerminalPassState s → rtc life_step s t → t = s.
Proof. intros Hs H. destruct H as [|s u t H _]; [done|]. by apply terminal_no_step in H. Qed.

(** [life_step s t ↔ s = ...]: every entry of the table, both ways. *)
Ltac entered_from :=
  intros; split; [intros Hstep; life_cases Hstep; tauto
    |intros; destruct_or?; subst; apply life_step_iff; by_decide].

(** C39: the pass life cycle: a state is revocable exactly when the
    transition table lets it move to revoked; nothing ever leaves a terminal
    state, along any sequence of legal transitions; each state is entered only
    from the states listed here, completed and failed from outcome_pending
    only; and nothing runs without an approval: from a draft, the transitions
    that never enter approved lead nowhere but to expired, whatever their
    number. *)
Theorem pass_life_cycle :
  (∀ s, Revocable s ↔ life_step s PassRevoked) ∧
  (∀ s t, isTerminalPassState s → rtc life_step s t → t = s) ∧
  (∀ s, ¬ life_step s PassDraft) ∧
  (∀ s, life_step s PassApproved ↔ s = PassDraft ∨ s = PassLaunching) ∧
  (∀ s, life_step s PassLaunching ↔ s = PassApproved) ∧
  (∀ s, life_step s PassRunning ↔ s = PassLaunching ∨ s = PassAwaitingExpansion) ∧
  (∀ s, life_step s PassAwaitingExpansion ↔ s = PassRunning) ∧
  (∀ s, life_step s PassOutcomePending ↔ s = PassRunning ∨ s = PassAwaitingExpansion) ∧
  (∀ s t, t = PassCompleted ∨ t = PassFailed → life_step s t ↔ s = PassOutcomePending) ∧
  (∀ t, rtc (λ s u, life_step s u ∧ u ≠ PassApproved) PassDraft t → t = PassDraft ∨ t = PassExpired).
Proof.
  split_and!.
  - intros s. rewrite life_step_iff. unfold Revocable, revocableStates, passTransitions. split.
    + intros H. rewrite !elem_of_cons, elem_of_nil in H.
      destruct_or?; subst; try done; by_decide.
    + intros H. repeat case_decide; subst; rewrite ?elem_of_cons, ?elem_of_nil in H;
        destruct_or?; try done; by_decide.
  - apply terminal_stuck.
  - intros s H. by life_cases H.
  - entered_from.
  - entered_from.
  - entered_from.
  - entered_from.
  - entered_from.
  - intros s t [->| ->]; entered_from.
  - intros t H. inversion H as [|? u ? [H1 Hn] Hr]; subst; [by left|right].
    apply (rtc_subrel _ life_step) in Hr; [|by intros ?? []].
    assert (u = PassExpired) as -> by by life_cases H1.
    apply terminal_stuck in Hr; [done|]. by right; right; right.
Qed.

(** ** The approval bytes determine what is approved *)

Definition short (s : string) : Prop := Z.of_nat (String.length s) < 2 ^ 64.
#[export] Instance short_dec s : Decision (short s).
Proof. unfold short. apply _. Defined.

Lemma writeApprovalField_inj f g x y :
  short f → short g → writeApprovalField f +:+ x = writeApprovalField g +:+ y → f = g ∧ x = y.
Proof.
  unfold writeApprovalField, short. intros Hf Hg E. rewrite !app_assoc_s in E.
  apply string_app_inj in E as [E1 E2]; [|by rewrite !length_of_bytes, !length_be_bytes].
  apply (f_equal bytes_of) in E1. rewrite !bytes_of_of_bytes in E1 by apply be_bytes_range.
  apply be_bytes_inj in E1; [|change (256 ^ Z.of_nat 8) with (2 ^ 64); lia..].
  apply string_app_inj in E2; [done|lia].
Qed.

Lemma approval_fields_inj l1 l2 x y :
  length l1 = length l2 → Forall short l1 → Forall short l2 →
  foldr (λ f rest, writeApprovalField f +:+ rest) x l1 =
  foldr (λ f rest, writeApprovalField f +:+ rest) y l2 → l1 = l2.
Proof.
  revert l2. induction l1 as [|f l1 IH]; intros [|g l2] Hl H1 H2 E; try done.
  apply Forall_cons in H1 as [Hf H1]. apply Forall_cons in H2 as [Hg H2].
  cbn [foldr] in E. apply writeApprovalField_inj in E as [-> E]; [|done..].
  f_equal. apply IH; auto.
Qed.

(** C33: the bytes a founder's passkey approves are unambiguous: two records
    have the same canonical approval bytes exactly when they agree on the
    workspace, pass, draft version, proposal id, proposal digest, invocation
    digest, source digest and base SHA (fields shorter than 2^64 bytes, which
    is what the length prefix can carry). *)
Theorem CanonicalApprovalBytes_injective r1 r2 :
  Forall short (approval_fields r1) → Forall short (approval_fields r2) →
  CanonicalApprovalBytes r1 = CanonicalApprovalBytes r2 ↔
  pr_WorkspaceID r1 = pr_WorkspaceID r2 ∧ pr_PassID r1 = pr_PassID r2 ∧
  pr_DraftVersion r1 = pr_DraftVersion r2 ∧ pr_ProposalID r1 = pr_ProposalID r2 ∧
  pr_ProposalDigest r1 = pr_ProposalDigest r2 ∧
  pr_InvocationDigest r1 = pr_InvocationDigest r2 ∧
  pr_SourceDigest r1 = pr_SourceDigest r2 ∧ pr_BaseSHA r1 = pr_BaseSHA r2.
Proof.
  intros H1 H2. split.
  - unfold CanonicalApprovalBytes. intros E. apply app_inj in E.
    apply approval_fields_inj in E; [|done..]. unfold approval_fields in E.
    injection E as ? ? E ? ? ? ? ?. apply itoa_inj in E. by split_and!.
  - intros (?&?&?&?&?&?&?&?). unfold CanonicalApprovalBytes. do 2 f_equal.
    unfold approval_fields. congruence.
Qed.

Lemma CanonicalApprovalBytes_injective_witness :
  let r := MkProposalRecord "ws" "pass-1" 1 1 0 "prop-1" "d1" "" "" "d3" "sha" "" "" "" ["run"]
             "d2" (MkEditableLimits zero_time 1) PassDraft ReconciliationSettled "" "" "" "" "" in
  Forall short (approval_fields r) ∧ pr_PassID r = pr_PassID r.
Proof.
  intros r. assert (Forall short (approval_fields r)) as A by by_decide.
  split; [exact A|]. apply (CanonicalApprovalBytes_injective r r A A). reflexivity.
Defined.

(** ** The template checks *)

Lemma require_res_Ok (P : Prop) `{Decision P} e (r : res unit) :
  (_ ← require_res P e; r) = Ok tt ↔ P ∧ r = Ok tt.
Proof. unfold require_res. case_decide; cbn; naive_solver. Qed.

Lemma require_res_tt (P : Prop) `{Decision P} e : require_res P e = Ok tt ↔ P.
Proof. unfold require_res. case_decide; naive_solver. Qed.

Lemma same_arguments_Ok shaped proposed :
  length proposed = length shaped → same_arguments shaped proposed = Ok tt ↔ proposed = shaped.
Proof.
  revert proposed. induction shaped as [|a shaped IH]; intros [|b proposed] Hl; try done.
  cbn [same_arguments]. rewrite require_res_Ok, IH by (injection Hl; done).
  split; [by intros [-> ->]|by intros [= -> ->]].
Qed.

Lemma ValidateShaped_error d ttl budget e :
  ValidateShaped d ttl budget = Err e → e = ErrTemplateViolation.
Proof. unfold ValidateShaped, require_res. repeat case_decide; cbn; congruence. Qed.

Lemma same_arguments_error a b e : same_arguments a b = Err e → e = ErrProposalMismatch.
Proof.
  revert b. induction a as [|x a IH]; intros [|y b]; cbn [same_arguments];
    try (unfold require_res; case_decide; cbn); try congruence. apply IH.
Qed.

(** The template gate is exact: a shaped draft is accepted exactly when
    its digests are well-formed, the agent kit is the pinned one, the runner
    arguments are non-empty, and its budget and lifetime are positive and
    within both the founder's request and the template maxima (USD 20, two
    hours); a created proposal is accepted exactly when it carries an id,
    well-formed digests, the pinned kit, and the invocation digest and ordered
    runner arguments that shaping fixed.  Every rejection is a template or
    mismatch error. *)
Theorem template_gate draft proposal ttlSeconds budgetMicros :
  (ValidateShaped draft ttlSeconds budgetMicros = Ok tt ↔
     canonicalDigest (md_ProposalDigest draft) ∧ canonicalDigest (md_InvocationDigest draft) ∧
     md_AgentKitID draft = FixedAgentKitID ∧ md_AgentKitVersion draft = FixedAgentKitVersion ∧
     md_RunnerArguments draft ≠ [] ∧ (∀ arg, arg ∈ md_RunnerArguments draft → arg ≠ "") ∧
     0 < md_BudgetMicros draft ≤ Z.min budgetMicros MaxAggregateCostMicros ∧
     0 < md_TTLSeconds draft ≤ Z.min ttlSeconds MaxTTLSeconds ∧
     md_CanonicalDraft draft ≠ "") ∧
  (∀ e, ValidateShaped draft ttlSeconds budgetMicros = Err e → e = ErrTemplateViolation) ∧
  (ValidateProposal draft proposal = Ok tt ↔
     po_ProposalID proposal ≠ "" ∧ canonicalDigest (po_ProposalDigest proposal) ∧
     canonicalDigest (po_InvocationDigest proposal) ∧
     po_InvocationDigest proposal = md_InvocationDigest draft ∧
     po_AgentKitID proposal = FixedAgentKitID ∧
     po_AgentKitVersion proposal = FixedAgentKitVersion ∧
     po_RunnerArguments proposal = md_RunnerArguments draft) ∧
  (∀ e, ValidateProposal draft proposal = Err e → e = ErrProposalMismatch).
Proof.
  split_and!.
  - unfold ValidateShaped. rewrite !require_res_Ok, require_res_tt, Forall_forall.
    split; intros; destruct_and!; split_and!; try done; lia.
  - apply ValidateShaped_error.
  - unfold ValidateProposal. rewrite !require_res_Ok. split.
    + intros (?&?&?&?&Hk&Hl&Ha). apply same_arguments_Ok in Ha; [|done].
      split_and!; try done; apply dec_stable; tauto.
    + intros (?&?&?&?&?&?&Ha). split_and!; try done; [tauto|by rewrite Ha|].
      apply same_arguments_Ok; [by rewrite Ha|done].
  - intros e. unfold ValidateProposal, require_res. repeat case_decide; cbn; try congruence.
    apply same_arguments_error.
Qed.

Lemma all_lower_hex_hex s : all_lower_hex (hex s) = true.
Proof.
  induction s as [|c s IH]; [done|]. cbn [hex all_lower_hex]. rewrite IH.
  by destruct c as [[] [] [] [] [] [] [] []].
Qed.
Lemma substring_whole t : String.substring 0 (String.length t) t = t.
Proof. induction t as [|c t IH]; [done|]. cbn. by rewrite IH. Qed.
Lemma tagged_digest_canonical s : canonicalDigest (tagged_digest s).
Proof.
  assert (∀ t, String.length t = 64%nat → all_lower_hex t = true →
    canonicalDigest ("sha256:" +:+ t)) as Ht.
  { intros t El Eh. split_and!; [by destruct t|change (7 + String.length t = 71)%nat; by rewrite El|].
    change (all_lower_hex (String.substring 0 64 t) = true). by rewrite <- El, substring_whole. }
  apply Ht; [by rewrite length_hex, length_Sum256|apply all_lower_hex_hex].
Qed.
Lemma canonicalDigest_ne s : canonicalDigest s → s ≠ "".
Proof. by intros (_ & Hl & _) ->. Qed.
