(* ===== verification/World.v ===== *)
(** * The process: upstream authority, ceremonies, clock and memory

    The types the services exchange with AuthScope
    (src/internal/coreapi/types.go, identity/attestor.go), the environment
    the process runs in as a class [Env] (clock, randomness, the WebAuthn
    verifier and workload signer, the AuthScope authority, the JSON
    decoders), and the state the services share: the database, the in-memory
    ceremony maps and the log of upstream calls.

    The authority is any function of the calls made so far, so it may answer
    the same request differently each time, fail, or time out. *)

From S2P Require Import Prelude GoTime StoreModel PassModel Trust.

(** ** Upstream types *)

Record DecisionClaims := MkDecisionClaims {
  dc_WorkspaceID : string;
  dc_FounderID : string;
  dc_Audience : string;
  dc_Purpose : string;
  dc_SubjectID : string;
  dc_DecisionDigest : string;
  dc_InvocationDigest : string;
  dc_AuthenticationMethod : string;
  dc_AuthenticationProofDigest : string;
  dc_Nonce : string;
  dc_IssuedAt : time;
  dc_ExpiresAt : time
}.
#[export] Instance eta_DecisionClaims : Eta DecisionClaims := λ r, MkDecisionClaims
    (dc_WorkspaceID r) (dc_FounderID r) (dc_Audience r) (dc_Purpose r) (dc_SubjectID r)
    (dc_DecisionDigest r) (dc_InvocationDigest r) (dc_AuthenticationMethod r)
    (dc_AuthenticationProofDigest r) (dc_Nonce r) (dc_IssuedAt r) (dc_ExpiresAt r).
#[export] Instance DecisionClaims_eq_dec : EqDecision DecisionClaims.
Proof. solve_decision. Defined.

Record SignedDecisionAttestation := MkSignedDecisionAttestation {
  sa_Algorithm : string;
  sa_KeyID : string;
  sa_IdentityDigest : string;
  sa_Claims : DecisionClaims;
  sa_Signature : string
}.
#[export] Instance eta_SignedDecisionAttestation : Eta SignedDecisionAttestation := λ r, MkSignedDecisionAttestation
    (sa_Algorithm r) (sa_KeyID r) (sa_IdentityDigest r) (sa_Claims r) (sa_Signature r).
#[export] Instance SignedDecisionAttestation_eq_dec : EqDecision SignedDecisionAttestation.
Proof. solve_decision. Defined.

Record RequestOptions := MkRequestOptions {
  op_WorkspaceID : string;
  op_ActorID : string;
  op_TraceID : string;
  op_RequestID : string;
  op_IdempotencyKey : string;
  op_MissionVersion : Z;
  op_Timeout : Z
}.
#[export] Instance eta_RequestOptions : Eta RequestOptions := λ r, MkRequestOptions
    (op_WorkspaceID r) (op_ActorID r) (op_TraceID r) (op_RequestID r) (op_IdempotencyKey
    r) (op_MissionVersion r) (op_Timeout r).
#[export] Instance RequestOptions_eq_dec : EqDecision RequestOptions.
Proof. solve_decision. Defined.

Record RepositoryBinding := MkRepositoryBinding {
  rb_BindingID : string;
  rb_WorkspaceID : string;
  rb_InstallationID : string;
  rb_RepositoryID : string;
  rb_Repository : string;
  rb_CreatedAt : Z
}.
#[export] Instance eta_RepositoryBinding : Eta RepositoryBinding := λ r, MkRepositoryBinding
    (rb_BindingID r) (rb_WorkspaceID r) (rb_InstallationID r) (rb_RepositoryID r)
    (rb_Repository r) (rb_CreatedAt r).
#[export] Instance RepositoryBinding_eq_dec : EqDecision RepositoryBinding.
Proof. solve_decision. Defined.

Record GitHubIssueRequest := MkGitHubIssueRequest {
  gi_BindingID : string;
  gi_IssueNumber : Z
}.
#[export] Instance eta_GitHubIssueRequest : Eta GitHubIssueRequest := λ r, MkGitHubIssueRequest
    (gi_BindingID r) (gi_IssueNumber r).
#[export] Instance GitHubIssueRequest_eq_dec : EqDecision GitHubIssueRequest.
Proof. solve_decision. Defined.

Record GitHubIssueSnapshot := MkGitHubIssueSnapshot {
  gs_BindingID : string;
  gs_WorkspaceID : string;
  gs_IssueNumber : Z;
  gs_Title : string;
  gs_Body : string;
  gs_State : string;
  gs_BaseRef : string;
  gs_BaseSHA : string;
  gs_SourceRevision : string;
  gs_CanonicalDigest : string;
  gs_SnapshotAt : Z
}.
#[export] Instance eta_GitHubIssueSnapshot : Eta GitHubIssueSnapshot := λ r, MkGitHubIssueSnapshot
    (gs_BindingID r) (gs_WorkspaceID r) (gs_IssueNumber r) (gs_Title r) (gs_Body r)
    (gs_State r) (gs_BaseRef r) (gs_BaseSHA r) (gs_SourceRevision r) (gs_CanonicalDigest
    r) (gs_SnapshotAt r).
#[export] Instance GitHubIssueSnapshot_eq_dec : EqDecision GitHubIssueSnapshot.
Proof. solve_decision. Defined.

Record WorkflowPostureRequest := MkWorkflowPostureRequest {
  wq_BindingID : string;
  wq_Ref : string
}.
#[export] Instance eta_WorkflowPostureRequest : Eta WorkflowPostureRequest := λ r, MkWorkflowPostureRequest
    (wq_BindingID r) (wq_Ref r).
#[export] Instance WorkflowPostureRequest_eq_dec : EqDecision WorkflowPostureRequest.
Proof. solve_decision. Defined.

Record WorkflowFinding := MkWorkflowFinding {
  wf_Path : string;
  wf_Risk : string
}.
#[export] Instance eta_WorkflowFinding : Eta WorkflowFinding := λ r, MkWorkflowFinding
    (wf_Path r) (wf_Risk r).
#[export] Instance WorkflowFinding_eq_dec : EqDecision WorkflowFinding.
Proof. solve_decision. Defined.

Record WorkflowPosture := MkWorkflowPosture {
  wo_BindingID : string;
  wo_Ref : string;
  wo_WorkflowsInspected : Z;
  wo_Findings : list WorkflowFinding;
  wo_Posture : string
}.
#[export] Instance eta_WorkflowPosture : Eta WorkflowPosture := λ r, MkWorkflowPosture
    (wo_BindingID r) (wo_Ref r) (wo_WorkflowsInspected r) (wo_Findings r) (wo_Posture r).
#[export] Instance WorkflowPosture_eq_dec : EqDecision WorkflowPosture.
Proof. solve_decision. Defined.

Record ShapeMissionRequest := MkShapeMissionRequest {
  sm_Title : string;
  sm_Objective : string;
  sm_Constraints : list string;
  sm_BudgetMicros : Z;
  sm_TTLSeconds : Z;
  sm_RequestedRoles : list string
}.
#[export] Instance eta_ShapeMissionRequest : Eta ShapeMissionRequest := λ r, MkShapeMissionRequest
    (sm_Title r) (sm_Objective r) (sm_Constraints r) (sm_BudgetMicros r) (sm_TTLSeconds
    r) (sm_RequestedRoles r).
#[export] Instance ShapeMissionRequest_eq_dec : EqDecision ShapeMissionRequest.
Proof. solve_decision. Defined.

Record CreateProposalRequest := MkCreateProposalRequest {
  cq_Title : string;
  cq_Objective : string;
  cq_Constraints : list string;
  cq_BudgetMicros : Z;
  cq_TTLSeconds : Z;
  cq_InvocationDigest : string;
  cq_IdempotencyKey : string
}.
#[export] Instance eta_CreateProposalRequest : Eta CreateProposalRequest := λ r, MkCreateProposalRequest
    (cq_Title r) (cq_Objective r) (cq_Constraints r) (cq_BudgetMicros r) (cq_TTLSeconds
    r) (cq_InvocationDigest r) (cq_IdempotencyKey r).
#[export] Instance CreateProposalRequest_eq_dec : EqDecision CreateProposalRequest.
Proof. solve_decision. Defined.

Record ApproveProposalInput := MkApproveProposalInput {
  ap_ProposalDigest : string;
  ap_InvocationDigest : string
}.
#[export] Instance eta_ApproveProposalInput : Eta ApproveProposalInput := λ r, MkApproveProposalInput
    (ap_ProposalDigest r) (ap_InvocationDigest r).
#[export] Instance ApproveProposalInput_eq_dec : EqDecision ApproveProposalInput.
Proof. solve_decision. Defined.

Record Mission := MkMission {
  mi_MissionID : string;
  mi_MissionRef : string;
  mi_WorkspaceID : string;
  mi_State : string;
  mi_Version : Z;
  mi_MissionHash : string;
  mi_ApprovalDecisionRef : string;
  mi_AttestationDigest : string
}.
#[export] Instance eta_Mission : Eta Mission := λ r, MkMission
    (mi_MissionID r) (mi_MissionRef r) (mi_WorkspaceID r) (mi_State r) (mi_Version r)
    (mi_MissionHash r) (mi_ApprovalDecisionRef r) (mi_AttestationDigest r).
#[export] Instance Mission_eq_dec : EqDecision Mission.
Proof. solve_decision. Defined.

Record RevokeRequest := MkRevokeRequest {
  rr_Reason : string
}.
#[export] Instance eta_RevokeRequest : Eta RevokeRequest := λ r, MkRevokeRequest
    (rr_Reason r).
#[export] Instance RevokeRequest_eq_dec : EqDecision RevokeRequest.
Proof. solve_decision. Defined.

Record Revocation := MkRevocation {
  rx_MissionRef : string;
  rx_Revoked : bool;
  rx_RevokedAt : Z;
  rx_WorkspaceID : string;
  rx_Containment : string
}.
#[export] Instance eta_Revocation : Eta Revocation := λ r, MkRevocation
    (rx_MissionRef r) (rx_Revoked r) (rx_RevokedAt r) (rx_WorkspaceID r)
    (rx_Containment r).
#[export] Instance Revocation_eq_dec : EqDecision Revocation.
Proof. solve_decision. Defined.

Record Expansion := MkExpansion {
  xp_ExpansionID : string;
  xp_MissionRef : string;
  xp_Status : string;
  xp_RequestedAt : Z
}.
#[export] Instance eta_Expansion : Eta Expansion := λ r, MkExpansion
    (xp_ExpansionID r) (xp_MissionRef r) (xp_Status r) (xp_RequestedAt r).
#[export] Instance Expansion_eq_dec : EqDecision Expansion.
Proof. solve_decision. Defined.

Record ExpansionDecision := MkExpansionDecision {
  xd_Approve : bool;
  xd_Reason : string
}.
#[export] Instance eta_ExpansionDecision : Eta ExpansionDecision := λ r, MkExpansionDecision
    (xd_Approve r) (xd_Reason r).
#[export] Instance ExpansionDecision_eq_dec : EqDecision ExpansionDecision.
Proof. solve_decision. Defined.

Record ExpansionResult := MkExpansionResult {
  xr_ExpansionID : string;
  xr_Decision : string;
  xr_DecidedAt : Z;
  xr_MissionVersion : Z
}.
#[export] Instance eta_ExpansionResult : Eta ExpansionResult := λ r, MkExpansionResult
    (xr_ExpansionID r) (xr_Decision r) (xr_DecidedAt r) (xr_MissionVersion r).
#[export] Instance ExpansionResult_eq_dec : EqDecision ExpansionResult.
Proof. solve_decision. Defined.

Record MissionEvent := MkMissionEvent {
  ev_EventID : string;
  ev_EventType : string;
  ev_OccurredAt : Z;
  ev_Payload : string
}.
#[export] Instance eta_MissionEvent : Eta MissionEvent := λ r, MkMissionEvent
    (ev_EventID r) (ev_EventType r) (ev_OccurredAt r) (ev_Payload r).
#[export] Instance MissionEvent_eq_dec : EqDecision MissionEvent.
Proof. solve_decision. Defined.

Record EventPage := MkEventPage {
  pg_Events : list MissionEvent;
  pg_NextCursor : string
}.
#[export] Instance eta_EventPage : Eta EventPage := λ r, MkEventPage
    (pg_Events r) (pg_NextCursor r).
#[export] Instance EventPage_eq_dec : EqDecision EventPage.
Proof. solve_decision. Defined.

Record LaunchArtifacts := MkLaunchArtifacts {
  la_RunID : string;
  la_MissionRef : string;
  la_AuthScopeMissionVersion : Z;
  la_RuntimePolicyID : string;
  la_LeaseID : string;
  la_AgentKitID : string;
  la_AgentKitVersion : string;
  la_InvocationDigest : string;
  la_RunnerExecutable : string;
  la_RunnerArguments : list string;
  la_IsolationProfile : string;
  la_EnvelopeKeyID : string;
  la_SealedSignedEnvelope : string;
  la_ExpiresAt : Z
}.
#[export] Instance eta_LaunchArtifacts : Eta LaunchArtifacts := λ r, MkLaunchArtifacts
    (la_RunID r) (la_MissionRef r) (la_AuthScopeMissionVersion r) (la_RuntimePolicyID r)
    (la_LeaseID r) (la_AgentKitID r) (la_AgentKitVersion r) (la_InvocationDigest r)
    (la_RunnerExecutable r) (la_RunnerArguments r) (la_IsolationProfile r)
    (la_EnvelopeKeyID r) (la_SealedSignedEnvelope r) (la_ExpiresAt r).
#[export] Instance LaunchArtifacts_eq_dec : EqDecision LaunchArtifacts.
Proof. solve_decision. Defined.

Record OperationResult := MkOperationResult {
  or_OperationID : string;
  or_IdempotencyKey : string;
  or_Status : string;
  or_WorkspaceID : string;
  or_Artifacts : option LaunchArtifacts
}.
#[export] Instance eta_OperationResult : Eta OperationResult := λ r, MkOperationResult
    (or_OperationID r) (or_IdempotencyKey r) (or_Status r) (or_WorkspaceID r)
    (or_Artifacts r).
#[export] Instance OperationResult_eq_dec : EqDecision OperationResult.
Proof. solve_decision. Defined.

Record SignedReceiptEnvelope := MkSignedReceiptEnvelope {
  re_Algorithm : string;
  re_KeyID : string;
  re_Payload : string;
  re_Signature : string
}.
#[export] Instance eta_SignedReceiptEnvelope : Eta SignedReceiptEnvelope := λ r,
  MkSignedReceiptEnvelope (re_Algorithm r) (re_KeyID r) (re_Payload r) (re_Signature r).

Record SigningKeyRecord := MkSigningKeyRecord {
  si_KeyID : string;
  si_PublicKey : string;
  si_ValidFrom : Z;
  si_ValidUntil : Z;
  si_RotatedFrom : string
}.

Record SigningKeyHistory := MkSigningKeyHistory {
  sh_Keys : list SigningKeyRecord;
  sh_ServedAt : Z
}.

(** The workload identity AuthScope sees behind the transport. *)
Record WorkspaceIdentity := MkWorkspaceIdentity {
  wi_IdentityID : string;
  wi_IdentityDigest : string;
  wi_WorkspaceID : string;
  wi_Roles : list string;
  wi_RegistryVersion : Z
}.
Definition DecisionAttestorRole : string := "decision_attestor".
Definition HasRole (w : WorkspaceIdentity) (role : string) : Prop := role ∈ wi_Roles w.
#[export] Instance HasRole_dec w role : Decision (HasRole w role).
Proof. unfold HasRole. apply _. Defined.

Record ActiveMission := MkActiveMission {
  am_MissionRef : string;
  am_State : string;
  am_WorkspaceID : string
}.
Record WorkspaceContainmentRequest := MkWorkspaceContainmentRequest {
  wx_Founder : string;
  wx_IdempotencyKey : string
}.
Record WorkspaceContainment := MkWorkspaceContainment {
  wn_WorkspaceID : string;
  wn_Contained : bool;
  wn_Generation : Z;
  wn_AttestationDigest : string;
  wn_ContainedAt : Z
}.

Record AgentKit := MkAgentKit {
  ak_KitID : string;
  ak_Name : string;
  ak_Version : string;
  ak_RuntimeRequirements : list string
}.
Record LaunchRequest := MkLaunchRequest {
  lq_KitID : string;
  lq_IdempotencyKey : string;
  lq_EphemeralPublicKey : string
}.
Record MissionStatus := MkMissionStatus {
  mt_MissionRef : string;
  mt_State : string;
  mt_Version : Z;
  mt_WorkspaceID : string
}.

Definition CheckStatusCompleted : string := "completed".
Definition CheckConclusionEmpty : string := "".
Definition CheckConclusionSuccess : string := "success".
Definition CheckConclusionFailure : string := "failure".

Record GitHubCheckRequest := MkGitHubCheckRequest {
  gc_BindingID : string;
  gc_HeadSHA : string;
  gc_Name : string;
  gc_Status : string;
  gc_Conclusion : string;
  gc_IdempotencyKey : string
}.
#[export] Instance GitHubCheckRequest_eq_dec : EqDecision GitHubCheckRequest.
Proof. solve_decision. Defined.

Record GitHubCheckResult := MkGitHubCheckResult {
  gr_CheckRunID : string;
  gr_BindingID : string;
  gr_WorkspaceID : string;
  gr_HeadSHA : string;
  gr_Name : string;
  gr_Status : string;
  gr_Conclusion : string;
  gr_IdempotencyKey : string;
  gr_CreatedAt : Z
}.

(** ** Ceremony types (src/internal/authn) *)

Record Principal := MkPrincipal {
  p_FounderID : string;
  p_WorkspaceID : string;
  p_SessionID : string;
  p_AuthTime : time;
  p_CSRFTokenHash : string
}.

Definition DecisionPassApproval : string := "pass_approval".
Definition DecisionPassRevocation : string := "pass_revocation".
Definition DecisionMissionRevoke : string := "mission_revoke".
Definition DecisionExpansionDecision : string := "expansion_decision".
Definition DecisionCLILaunchAuthorization : string := "cli_launch_authorization".

Record DecisionChallenge := MkDecisionChallenge {
  ch_ChallengeID : string;
  ch_WorkspaceID : string;
  ch_SessionID : string;
  ch_SubjectID : string;
  ch_Purpose : string;
  ch_Digest : string;
  ch_Nonce : string;
  ch_ExpiresAt : time
}.

Record webauthnCeremony := Mk_webauthnCeremony {
  ce_id : string;
  ce_kind : string;
  ce_sessionJSON : string;
  ce_userID : string;
  ce_bootstrapCeremonyID : string;
  ce_sessionID : string;
  ce_founderID : string;
  ce_isRecovery : bool;
  ce_decision : option DecisionChallenge;
  ce_createdAt : time;
  ce_expiresAt : time;
  ce_consumed : bool
}.

#[export] Instance eta_webauthnCeremony : Eta webauthnCeremony := λ c, Mk_webauthnCeremony
  (ce_id c) (ce_kind c) (ce_sessionJSON c) (ce_userID c) (ce_bootstrapCeremonyID c)
  (ce_sessionID c) (ce_founderID c) (ce_isRecovery c) (ce_decision c)
  (ce_createdAt c) (ce_expiresAt c) (ce_consumed c).

Record StoredCredential := MkStoredCredential {
  sc_ID : string;
  sc_PublicKey : string;
  sc_SignCount : Z
}.

Record RegisteredCredential := MkRegisteredCredential {
  rg_ID : string;
  rg_PublicKey : string;
  rg_SignCount : Z;
  rg_Transports : list string;
  rg_UserVerified : bool
}.

(** An enrollment ceremony, kept in memory. *)
Record bootstrapCeremony := Mk_bootstrapCeremony {
  bo_id : string;
  bo_tokenHash : string;
  bo_codeHash : string;
  bo_userHandle : string;
  bo_displayName : string;
  bo_firstCredentialID : string;
  bo_recoveryMethod : string;
  bo_recoveryKeyHash : string;
  bo_recoveryIssued : bool;
  bo_recoveryVerified : bool;
  bo_stagedCredentials : list WebAuthnCredentialRecord;
  bo_createdAt : time;
  bo_expiresAt : time;
  bo_consumed : bool
}.
#[export] Instance eta_bootstrapCeremony : Eta bootstrapCeremony := λ c, Mk_bootstrapCeremony
  (bo_id c) (bo_tokenHash c) (bo_codeHash c) (bo_userHandle c) (bo_displayName c)
  (bo_firstCredentialID c) (bo_recoveryMethod c) (bo_recoveryKeyHash c) (bo_recoveryIssued c)
  (bo_recoveryVerified c) (bo_stagedCredentials c) (bo_createdAt c) (bo_expiresAt c)
  (bo_consumed c).

Record VerifiedAssertion := MkVerifiedAssertion {
  va_CredentialID : string;
  va_NewSignCount : Z;
  va_UserVerified : bool
}.

Record VerifiedDecision := MkVerifiedDecision {
  vd_ChallengeID : string;
  vd_Nonce : string;
  vd_Method : string;
  vd_UserVerified : bool;
  vd_WorkspaceID : string;
  vd_SessionID : string;
  vd_FounderID : string;
  vd_SubjectID : string;
  vd_Purpose : string;
  vd_VerifiedAt : time
}.

(** ** Decisions begun and not yet finished *)

(** missionpass.ApprovalBinding and begunApproval. *)
Record ApprovalBinding := MkApprovalBinding {
  ab_WorkspaceID : string;
  ab_FounderID : string;
  ab_SessionID : string;
  ab_PassID : string;
  ab_DraftVersion : Z;
  ab_ProposalID : string;
  ab_ProposalDigest : string;
  ab_InvocationDigest : string;
  ab_SourceDigest : string;
  ab_BaseSHA : string;
  ab_Purpose : string;
  ab_Audience : string
}.

Record begunApproval := Mk_begunApproval {
  ba_challengeID : string;
  ba_digest : string;
  ba_nonce : string;
  ba_binding : ApprovalBinding;
  ba_purpose : string;
  ba_audience : string;
  ba_expiresAt : time
}.

(** missionpass.RevokeBinding and begunRevocation. *)
Record RevokeBinding := MkRevokeBinding {
  vb_WorkspaceID : string;
  vb_FounderID : string;
  vb_SessionID : string;
  vb_PassID : string;
  vb_MissionRef : string;
  vb_MissionVersion : Z;
  vb_Descendants : bool;
  vb_ReasonCode : string;
  vb_Purpose : string;
  vb_Audience : string;
  vb_Nonce : string
}.

Record begunRevocation := Mk_begunRevocation {
  br_challengeID : string;
  br_digest : string;
  br_binding : RevokeBinding;
  br_canonical : string;
  br_principal : Principal;
  br_expiresAt : time
}.

(** expansion.ExpansionBinding and begunDecision. *)
Record ExpansionBinding := MkExpansionBinding {
  eb_WorkspaceID : string;
  eb_PassID : string;
  eb_MissionRef : string;
  eb_ExpectedAuthScopeVersion : Z;
  eb_ExpansionID : string;
  eb_ExpansionDigest : string;
  eb_Decision : string;
  eb_EffectiveExpiry : time;
  eb_Purpose : string;
  eb_Audience : string
}.

Record begunDecision := Mk_begunDecision {
  bd_challengeID : string;
  bd_principal : Principal;
  bd_binding : ExpansionBinding;
  bd_digest : string;
  bd_begunAt : time
}.

(** A launch attestation waiting for the exchange of its code, and the
    bounded cache of those. *)
Record PendingDecisionAttestation := MkPendingDecisionAttestation {
  pa_AuthorizationID : string;
  pa_Attestation : SignedDecisionAttestation;
  pa_AttestationDigest : string;
  pa_CodeHash : string;
  pa_ExpiresAt : time
}.
Record PendingDecisionAttestations := MkPendingDecisionAttestations {
  pc_items : gmap string PendingDecisionAttestation;
  pc_order : list string
}.
#[export] Instance eta_PendingDecisionAttestations : Eta PendingDecisionAttestations := λ c,
  MkPendingDecisionAttestations (pc_items c) (pc_order c).

(** A prepared run as the launch service keeps it for duplicate delivery. *)
Record ExchangeResult := MkExchangeResult {
  er_RunID : string;
  er_MissionRef : string;
  er_SealedEnvelope : string
}.

(** ** Upstream calls *)

(** The requests the modelled services send, in the order of
    [coreapi.Authority]; the mutations are the first five, the publication of
    a check, the containment of the workspace and the preparation of a
    launch. *)
Inductive call :=
  | ShapeMission (req : ShapeMissionRequest) (opts : RequestOptions)
  | CreateProposal (req : CreateProposalRequest) (opts : RequestOptions)
  | ApproveProposal (proposalID : string) (input : ApproveProposalInput)
      (att : SignedDecisionAttestation) (opts : RequestOptions)
  | RevokeMission (missionRef : string) (req : RevokeRequest)
      (att : SignedDecisionAttestation) (opts : RequestOptions)
  | DecideExpansion (expansionID : string) (decision : ExpansionDecision)
      (att : SignedDecisionAttestation) (opts : RequestOptions)
  | GetRepositoryBinding (bindingID : string) (opts : RequestOptions)
  | ReadGitHubIssue (req : GitHubIssueRequest) (opts : RequestOptions)
  | InspectWorkflowPosture (req : WorkflowPostureRequest) (opts : RequestOptions)
  | ListExpansions (missionRef : string) (opts : RequestOptions)
  | GetExpansion (expansionID : string) (opts : RequestOptions)
  | ReconcileOperation (idempotencyKey operationID : string) (opts : RequestOptions)
  | ReadEvents (missionRef cursor : string) (opts : RequestOptions)
  | GetReceipt (runID : string) (opts : RequestOptions)
  | GetSigningKeys (opts : RequestOptions)
  | PublishGitHubCheck (req : GitHubCheckRequest) (opts : RequestOptions)
  | VerifyWorkspaceIdentity (workspaceID : string)
  | ListActiveMissions (opts : RequestOptions)
  | ContainWorkspace (req : WorkspaceContainmentRequest) (att : SignedDecisionAttestation)
      (opts : RequestOptions)
  | ListAgentKits (opts : RequestOptions)
  | IntrospectMission (missionRef : string) (opts : RequestOptions)
  | PrepareLaunch (missionRef : string) (req : LaunchRequest) (att : SignedDecisionAttestation)
      (opts : RequestOptions).

Definition no_opts : RequestOptions := MkRequestOptions "" "" "" "" "" 0 0.

(** The zero [coreapi.RequestOptions] with the fields the services set. *)
Definition opts_for (workspaceID actorID key : string) : RequestOptions :=
  no_opts <| op_WorkspaceID := workspaceID |> <| op_ActorID := actorID |>
          <| op_IdempotencyKey := key |>.

(** Answers of the authority: any function of the earlier calls (newest
    first) and the request. *)
Class Authority := {
  reply_ShapeMission : list call → ShapeMissionRequest → RequestOptions → res MissionDraft;
  reply_CreateProposal : list call → CreateProposalRequest → RequestOptions → res Proposal;
  reply_ApproveProposal : list call → string → ApproveProposalInput →
    SignedDecisionAttestation → RequestOptions → res Mission;
  reply_RevokeMission : list call → string → RevokeRequest →
    SignedDecisionAttestation → RequestOptions → res Revocation;
  reply_DecideExpansion : list call → string → ExpansionDecision →
    SignedDecisionAttestation → RequestOptions → res ExpansionResult;
  reply_GetRepositoryBinding : list call → string → RequestOptions → res RepositoryBinding;
  reply_ReadGitHubIssue : list call → GitHubIssueRequest → RequestOptions →
    res GitHubIssueSnapshot;
  reply_InspectWorkflowPosture : list call → WorkflowPostureRequest → RequestOptions →
    res WorkflowPosture;
  reply_ListExpansions : list call → string → RequestOptions → res (list Expansion);
  reply_GetExpansion : list call → string → RequestOptions → res string;
  reply_ReconcileOperation : list call → string → string → RequestOptions → res OperationResult;
  reply_ReadEvents : list call → string → string → RequestOptions → res EventPage;
  reply_GetReceipt : list call → string → RequestOptions → res SignedReceiptEnvelope;
  reply_GetSigningKeys : list call → RequestOptions → res SigningKeyHistory;
  reply_PublishGitHubCheck : list call → GitHubCheckRequest → RequestOptions →
    res GitHubCheckResult;
  reply_VerifyWorkspaceIdentity : list call → string → res WorkspaceIdentity;
  reply_ListActiveMissions : list call → RequestOptions → res (list ActiveMission);
  reply_ContainWorkspace : list call → WorkspaceContainmentRequest → SignedDecisionAttestation →
    RequestOptions → res WorkspaceContainment;
  reply_ListAgentKits : list call → RequestOptions → res (list AgentKit);
  reply_IntrospectMission : list call → string → RequestOptions → res MissionStatus;
  reply_PrepareLaunch : list call → string → LaunchRequest → SignedDecisionAttestation →
    RequestOptions → res LaunchArtifacts
}.

(** ** The environment of the process *)

(** What a receipt verification error says after its reason code: the format
    string of the call and its arguments.  [Arg_error input] is an inner error
    that failed on [input], whose text may quote it (encoding/json names the
    unknown field). *)
Inductive format_arg := Arg_str (s : string) | Arg_int (n : Z) | Arg_ints (l : list Z)
  | Arg_strs (l : list string) | Arg_error (input : string).

(** [clock n] is the [n]-th reading of [time.Now()]; [rand n len] the [n]-th
    draw from crypto/rand; [peers n] what the other requests of the process
    commit to the database while a request that has read the clock [n] times
    waits for them.  The WebAuthn verifier is go-webauthn behind
    [authn.Verifier]; the workload signer is behind [identity.Signer].
    [sprintf] is [fmt.Sprintf] as the texts of receipt errors use it; nothing
    is assumed of it. *)
Class Env := {
  clock : nat → time;
  rand : nat → nat → string;
  peers : nat → DB → DB;
  instance_WorkspaceID : string;
  instance_RPID : string;
  instance_Origin : string;
  verifier_BeginRegistration : string → string → string → string → list string →
    res (string * string);
  verifier_FinishRegistration : string → string → string → res RegisteredCredential;
  verifier_BeginAssertion : string → string → string → list string → res (string * string);
  verifier_FinishAssertion : string → list StoredCredential → string → string →
    res VerifiedAssertion;
  signer_Sign : string → res string;
  signer_KeyID : string;
  signer_IdentityDigest : string;
  sprintf : string → list format_arg → string;
  env_ed25519 :: Ed25519;
  env_authority :: Authority
}.

(** ** The state of the process *)

Record World := MkWorld {
  w_db : DB;
  w_ceremonies : gmap string webauthnCeremony;
  w_approvals : gmap string begunApproval;
  w_revocations : gmap string begunRevocation;
  w_decisions : gmap string begunDecision;
  w_keys : KeyStore;
  w_bootstrap : gmap string bootstrapCeremony;
  w_bootstrapByToken : gmap string string;
  w_attestations : PendingDecisionAttestations;
  w_delivery : gmap string ExchangeResult;
  w_delivery_order : list string;
  w_calls : list call;
  w_ticks : nat;
  w_draws : nat;
  w_gate : option string
}.
#[export] Instance eta_World : Eta World := λ w, MkWorld (w_db w) (w_ceremonies w)
  (w_approvals w) (w_revocations w) (w_decisions w) (w_keys w) (w_bootstrap w)
  (w_bootstrapByToken w) (w_attestations w) (w_delivery w) (w_delivery_order w) (w_calls w)
  (w_ticks w) (w_draws w) (w_gate w).

Definition start (db : DB) : World := MkWorld db ∅ ∅ ∅ ∅ (MkKeyStore "" ∅ []) ∅ ∅
  (MkPendingDecisionAttestations ∅ []) ∅ [] [] 0 0 None.

Notation M := (SE World).

(** [store.WithTx] from a service, and the single-statement reads. *)
Definition tx {A} (fn : Tx A) : M A := λ w,
  let '(r, db) := WithTx fn (w_db w) in (r, w <| w_db := db |>).

Section environment.
Context `{Env}.

(** [time.Now()] *)
Definition now : M time := λ w, (Ok (clock (w_ticks w)), w <| w_ticks := S (w_ticks w) |>).

(** [rand.Read] of a [len]-byte buffer *)
Definition randomBytes (len : nat) : M string := λ w,
  (Ok (rand (w_draws w) len), w <| w_draws := S (w_draws w) |>).

(** Waiting on a timer while other requests run. *)
Definition wait : M unit :=
  modify (λ w, w <| w_db := peers (w_ticks w) (w_db w) |>).

Definition upstream {A} (c : call) (reply : list call → res A) : M A := λ w,
  (reply (w_calls w), w <| w_calls := c :: w_calls w |>).

Definition call_ShapeMission req opts : M MissionDraft :=
  upstream (ShapeMission req opts) (λ h, reply_ShapeMission h req opts).
Definition call_CreateProposal req opts : M Proposal :=
  upstream (CreateProposal req opts) (λ h, reply_CreateProposal h req opts).
Definition call_ApproveProposal id input att opts : M Mission :=
  upstream (ApproveProposal id input att opts) (λ h, reply_ApproveProposal h id input att opts).
Definition call_RevokeMission ref req att opts : M Revocation :=
  upstream (RevokeMission ref req att opts) (λ h, reply_RevokeMission h ref req att opts).
Definition call_DecideExpansion id decision att opts : M ExpansionResult :=
  upstream (DecideExpansion id decision att opts)
    (λ h, reply_DecideExpansion h id decision att opts).
Definition call_GetRepositoryBinding id opts : M RepositoryBinding :=
  upstream (GetRepositoryBinding id opts) (λ h, reply_GetRepositoryBinding h id opts).
Definition call_ReadGitHubIssue req opts : M GitHubIssueSnapshot :=
  upstream (ReadGitHubIssue req opts) (λ h, reply_ReadGitHubIssue h req opts).
Definition call_InspectWorkflowPosture req opts : M WorkflowPosture :=
  upstream (InspectWorkflowPosture req opts) (λ h, reply_InspectWorkflowPosture h req opts).
Definition call_ListExpansions ref opts : M (list Expansion) :=
  upstream (ListExpansions ref opts) (λ h, reply_ListExpansions h ref opts).
Definition call_GetExpansion id opts : M string :=
  upstream (GetExpansion id opts) (λ h, reply_GetExpansion h id opts).
Definition call_ReconcileOperation key id opts : M OperationResult :=
  upstream (ReconcileOperation key id opts) (λ h, reply_ReconcileOperation h key id opts).
Definition call_ReadEvents ref cursor opts : M EventPage :=
  upstream (ReadEvents ref cursor opts) (λ h, reply_ReadEvents h ref cursor opts).
Definition call_GetReceipt runID opts : M SignedReceiptEnvelope :=
  upstream (GetReceipt runID opts) (λ h, reply_GetReceipt h runID opts).
Definition call_GetSigningKeys opts : M SigningKeyHistory :=
  upstream (GetSigningKeys opts) (λ h, reply_GetSigningKeys h opts).
Definition call_PublishGitHubCheck req opts : M GitHubCheckResult :=
  upstream (PublishGitHubCheck req opts) (λ h, reply_PublishGitHubCheck h req opts).
Definition call_VerifyWorkspaceIdentity ws : M WorkspaceIdentity :=
  upstream (VerifyWorkspaceIdentity ws) (λ h, reply_VerifyWorkspaceIdentity h ws).
Definition call_ListActiveMissions opts : M (list ActiveMission) :=
  upstream (ListActiveMissions opts) (λ h, reply_ListActiveMissions h opts).
Definition call_ContainWorkspace req att opts : M WorkspaceContainment :=
  upstream (ContainWorkspace req att opts) (λ h, reply_ContainWorkspace h req att opts).
Definition call_ListAgentKits opts : M (list AgentKit) :=
  upstream (ListAgentKits opts) (λ h, reply_ListAgentKits h opts).
Definition call_IntrospectMission ref opts : M MissionStatus :=
  upstream (IntrospectMission ref opts) (λ h, reply_IntrospectMission h ref opts).
Definition call_PrepareLaunch ref req att opts : M LaunchArtifacts :=
  upstream (PrepareLaunch ref req att opts) (λ h, reply_PrepareLaunch h ref req att opts).
End environment.

(** A context that ends while the process waits. *)
Definition ErrCancelled : err := ErrOther "context canceled".

(** A timeout or a retryable status leaves the outcome of a mutation
    unknown (missionpass/proposal.go and expansion/service.go). *)
Definition isAmbiguousUpstream (e : err) : Prop :=
  e = ErrUpstreamTimeout ∨ e = ErrUpstreamStatus 429 ∨ e = ErrUpstreamStatus 503 ∨
  e = ErrUpstreamStatus 504.
#[export] Instance isAmbiguousUpstream_dec e : Decision (isAmbiguousUpstream e).
Proof. unfold isAmbiguousUpstream. apply _. Defined.

(** ** Mutations in a log *)

Definition is_mutation (c : call) : Prop :=
  match c with
  | ShapeMission _ _ | CreateProposal _ _ | ApproveProposal _ _ _ _ | RevokeMission _ _ _ _
  | DecideExpansion _ _ _ _ | PublishGitHubCheck _ _ | ContainWorkspace _ _ _
  | PrepareLaunch _ _ _ _ => True
  | _ => False
  end.
#[export] Instance is_mutation_dec c : Decision (is_mutation c).
Proof. destruct c; cbn; apply _. Defined.

Lemma upstream_run {A} c (reply : list call → res A) w :
  upstream c reply w = (reply (w_calls w), w <| w_calls := c :: w_calls w |>).
Proof. done. Qed.

Lemma bind_upstream {A B} c (reply : list call → res A) (f : A → M B) w :
  (upstream c reply ≫= f) w =
  match reply (w_calls w) with
  | Ok a => f a (w <| w_calls := c :: w_calls w |>)
  | Err e => (Err e, w <| w_calls := c :: w_calls w |>)
  end.
Proof. unfold mbind, se_bind, upstream. by destruct (reply _). Qed.

Lemma now_then `{Env} {A} (f : time → M A) w :
  (now ≫= f) w = f (clock (w_ticks w)) (w <| w_ticks := S (w_ticks w) |>).
Proof. done. Qed.

Lemma random_then `{Env} {A} n (f : string → M A) w :
  (randomBytes n ≫= f) w = f (rand (w_draws w) n) (w <| w_draws := S (w_draws w) |>).
Proof. done. Qed.

Lemma tx_Ok {A} (fn : Tx A) w a w' :
  tx fn w = (Ok a, w') ↔ ∃ db, fn (w_db w) = (Ok a, db) ∧ w' = w <| w_db := db |>.
Proof.
  unfold tx, WithTx. destruct (fn (w_db w)) as [[b|e] db] eqn:E.
  - split; [intros [= <- <-]; by exists db|intros (db' & [= <- <-] & ->); done].
  - split; [done|by intros (db' & ? & _)].
Qed.

Lemma tx_Err {A} (fn : Tx A) w e w' :
  tx fn w = (Err e, w') ↔ (∃ db, fn (w_db w) = (Err e, db)) ∧ w' = w.
Proof.
  unfold tx, WithTx. destruct (fn (w_db w)) as [[b|e0] db] eqn:E.
  - split; [done|by intros [[db' ?] _]].
  - assert (w <| w_db := w_db w |> = w) as -> by by destruct w.
    split; [intros [= <- <-]; split; [by exists db|done]|intros [[db' [= <- <-]] ->]; done].
Qed.

Lemma tx_run {A} (fn : Tx A) w a db :
  fn (w_db w) = (Ok a, db) → tx fn w = (Ok a, w <| w_db := db |>).
Proof. intros E. apply tx_Ok. by exists db. Qed.

Lemma tx_fail {A} (fn : Tx A) w e db :
  fn (w_db w) = (Err e, db) → tx fn w = (Err e, w).
Proof. intros E. apply tx_Err. split; [by exists db|done]. Qed.

Lemma tx_read {A} (fn : Tx A) w r : fn (w_db w) = (r, w_db w) → tx fn w = (r, w).
Proof.
  intros E. unfold tx, WithTx. rewrite E.
  assert (w <| w_db := w_db w |> = w) as Ew by by destruct w. destruct r; by rewrite Ew.
Qed.
