(* ===== verification/Bench.v ===== *)
(** * A concrete environment

    An instance of [World.Env] on which the handlers run: a clock that
    advances one second per reading, numbered random draws, a verifier that
    accepts, a signer of fixed signatures, and an authority that answers
    every request sensibly unless [fault] makes a call fail.  The witnesses
    of the service theorems evaluate on it. *)

From S2P Require Import Prelude GoTime Sha256 Base64 Json StoreModel PassModel Trust World.

Definition bench_time : time := Unix 1700000000.
Definition bench_digest : string := tagged_digest "bench".

Definition bench_draft (req : ShapeMissionRequest) : MissionDraft :=
  MkMissionDraft bench_digest (tagged_digest "invocation") FixedAgentKitID FixedAgentKitVersion
    ["run"; "--fast"] "" (sm_BudgetMicros req) (sm_TTLSeconds req) "{}" 0 "ws".

Definition bench_proposal (req : CreateProposalRequest) : Proposal :=
  MkProposal "prop-1" (tagged_digest "proposal") (cq_InvocationDigest req) FixedAgentKitID
    FixedAgentKitVersion ["run"; "--fast"] "" "ws" "" 0.

(** Signatures are 64 bytes that depend on the key and the message. *)
Definition bench_key : string := of_bytes (replicate 32 1).
Definition bench_sign (pub msg : string) : string :=
  let d := Sum256 (pub +:+ msg) in d +:+ d.

(** A receipt as AuthScope would sign it. *)
Definition bench_payload : string := render true (JObj [
  ("acceptance_evidence", JArr []); ("aggregate_cost_micros", JInt 1200); ("branch", JStr "authscope/p");
  ("budget_micros", JInt 5000000); ("budget_note", JStr "");
  ("checks", JArr [JObj [("kind", JStr "tests"); ("outcome", JStr "success")]]);
  ("exception_summaries", JArr []); ("expansion_decision_refs", JArr []);
  ("finished_at", JInt 1700000200); ("grant_id", JStr "run-1"); ("head_sha", JStr "abc");
  ("historical_enforcement", JArr [JObj [("level", JStr "enforced"); ("scope", JStr "tool")]]);
  ("issue_number", JInt 5); ("key_id", JStr "key-1"); ("mission_ref", JStr "mission-1");
  ("mission_versions", JArr [JInt 1]); ("outcome", JStr "success");
  ("pull_request_number", JInt 9); ("receipt_id", JStr "receipt-1"); ("repository_id", JInt 42);
  ("settlement_digest", JStr (tagged_digest "settlement")); ("signed_at", JInt 1700000001);
  ("started_at", JInt 1700000000); ("test_summaries", JArr []); ("workspace_id", JStr "ws")]).

(** A sealed envelope as it looks from outside. *)
Definition bench_sealed : string := render true (JObj [
  ("format", JStr "authscope-sealed-envelope/v1"); ("algorithm", JStr "X25519-ChaCha20-Poly1305");
  ("key_id", JStr "key-1"); ("ephemeral_public_key", JStr "epk"); ("nonce", JStr "nonce");
  ("ciphertext", JStr "opaque")]).

Definition answer {A} (fault : list call → call → option err) (h : list call) (c : call) (a : A)
    : res A :=
  match fault h c with Some e => Err e | None => Ok a end.

Definition bench_authority (fault : list call → call → option err)
    (detail : string → string) (status : string) : Authority := {|
  reply_ShapeMission h req opts := answer fault h (ShapeMission req opts) (bench_draft req);
  reply_CreateProposal h req opts := answer fault h (CreateProposal req opts) (bench_proposal req);
  reply_ApproveProposal h id input att opts :=
    answer fault h (ApproveProposal id input att opts)
      (MkMission "m" "mission-1" "ws" "active" 1 "" "" "");
  reply_RevokeMission h ref req att opts :=
    answer fault h (RevokeMission ref req att opts)
      (MkRevocation ref true 0 "ws" "acknowledged");
  reply_DecideExpansion h id d att opts :=
    answer fault h (DecideExpansion id d att opts) (MkExpansionResult id "approve_once" 0 2);
  reply_GetRepositoryBinding h id opts :=
    answer fault h (GetRepositoryBinding id opts) (MkRepositoryBinding id "ws" "7" "42" "o/r" 0);
  reply_ReadGitHubIssue h req opts :=
    answer fault h (ReadGitHubIssue req opts)
      (MkGitHubIssueSnapshot (gi_BindingID req) "ws" (gi_IssueNumber req) "Fix it" "- [ ] works"
         "open" "main" (hex (of_bytes (replicate 20 171))) "rev-1" bench_digest 1700000000);
  reply_InspectWorkflowPosture h req opts :=
    answer fault h (InspectWorkflowPosture req opts)
      (MkWorkflowPosture (wq_BindingID req) (wq_Ref req) 1 [] "clean");
  reply_ListExpansions h ref opts :=
    answer fault h (ListExpansions ref opts) [MkExpansion "exp-1" ref "pending" 0];
  reply_GetExpansion h id opts := answer fault h (GetExpansion id opts) (detail id);
  reply_ReconcileOperation h key id opts :=
    answer fault h (ReconcileOperation key id opts) (MkOperationResult "op" key status "ws" None);
  reply_ReadEvents h ref cursor opts :=
    answer fault h (ReadEvents ref cursor opts) (MkEventPage [] cursor);
  reply_GetReceipt h runID opts :=
    answer fault h (GetReceipt runID opts)
      (MkSignedReceiptEnvelope "Ed25519" "key-1" bench_payload
         (RawURLEncode (bench_sign bench_key bench_payload)));
  reply_GetSigningKeys h opts :=
    answer fault h (GetSigningKeys opts)
      (MkSigningKeyHistory [MkSigningKeyRecord "key-1" (RawURLEncode bench_key) 0 0 ""] 1700000000);
  reply_PublishGitHubCheck h req opts :=
    answer fault h (PublishGitHubCheck req opts)
      (MkGitHubCheckResult "check-1" (gc_BindingID req) "ws" (gc_HeadSHA req) (gc_Name req)
         (gc_Status req) (gc_Conclusion req) (gc_IdempotencyKey req) 0);
  reply_VerifyWorkspaceIdentity h ws :=
    answer fault h (VerifyWorkspaceIdentity ws)
      (MkWorkspaceIdentity "identity" bench_digest ws [DecisionAttestorRole] 1);
  reply_ListActiveMissions h opts := answer fault h (ListActiveMissions opts) [];
  reply_ContainWorkspace h req att opts :=
    answer fault h (ContainWorkspace req att opts) (MkWorkspaceContainment "ws" true 1 "" 0);
  reply_ListAgentKits h opts :=
    answer fault h (ListAgentKits opts) [MkAgentKit FixedAgentKitID "" FixedAgentKitVersion []];
  reply_IntrospectMission h ref opts :=
    answer fault h (IntrospectMission ref opts) (MkMissionStatus ref "active" 1 "ws");
  reply_PrepareLaunch h ref req att opts :=
    answer fault h (PrepareLaunch ref req att opts)
      (MkLaunchArtifacts "run-1" ref 1 "policy" "lease" (lq_KitID req) FixedAgentKitVersion
         (tagged_digest "invocation") "runner" ["run"; "--fast"] "enforced" "key-1" bench_sealed 0)
|}.

Definition no_fault (h : list call) (c : call) : option err := None.

Definition bench_env_with (authority : Authority) : Env := {|
  clock n := bench_time + Z.of_nat n * Second;
  rand n len := of_bytes (replicate len (1 + Z.of_nat n mod 255));
  peers n db := db;
  instance_WorkspaceID := "ws";
  instance_RPID := "localhost";
  instance_Origin := "http://localhost";
  verifier_BeginRegistration user name rp origin exclude := Ok ("options", "session");
  verifier_FinishRegistration user session response :=
    if decide (response = "") then Err ErrVerificationFailed
    else Ok (MkRegisteredCredential response "pk" 0 [] true);
  verifier_BeginAssertion user rp origin allowed := Ok ("options", "session");
  verifier_FinishAssertion user creds session response :=
    if decide (response = "good") then Ok (MkVerifiedAssertion "cred" 0 true)
    else Err ErrVerificationFailed;
  signer_Sign m := Ok (of_bytes (replicate 64 9));
  signer_KeyID := "key-1";
  signer_IdentityDigest := bench_digest;
  sprintf format args := format;
  env_ed25519 pub msg sig := bool_decide (sig = bench_sign pub msg);
  env_authority := authority
|}.

Definition bench_env : Env := bench_env_with (bench_authority no_fault (λ _, "") "completed").

Definition bench_principal : Principal :=
  MkPrincipal "founder" "ws" "session-1" bench_time "".

(** One founder passkey, one connection. *)
Definition bench_DB : DB :=
  empty_DB
    <| db_webauthn_credentials := {[ ("ws", "Y3JlZA") :=
         MkWebAuthnCredentialRecord "ws" "Y3JlZA" "founder" "pk" 0 "" bench_time ]} |>
    <| db_github_connections := {[ ("ws", "conn") :=
         zero_ConnectionRecord <| co_WorkspaceID := "ws" |> <| co_ConnectionID := "conn" |>
           <| co_RepositoryBindingRef := "binding-1" |> <| co_InstallationID := 7 |>
           <| co_RepositoryID := 42 |> <| co_RepositoryName := "o/r" |> ]} |>.

Definition bench_pass : MissionPassRecord :=
  zero_MissionPassRecord <| mp_WorkspaceID := "ws" |> <| mp_PassID := "pass-1" |>
    <| mp_StoreRevision := 1 |> <| mp_DraftVersion := 1 |> <| mp_ConnectionID := "conn" |>
    <| mp_IssueNumber := 5 |> <| mp_ProposalID := "prop-1" |>
    <| mp_ProposalDigest := tagged_digest "proposal" |>
    <| mp_InvocationDigest := tagged_digest "invocation" |>
    <| mp_SourceDigest := bench_digest |> <| mp_SourceRevision := "rev-1" |>
    <| mp_BaseSHA := hex (of_bytes (replicate 20 171)) |>
    <| mp_ExpiresAt := bench_time + Hour |> <| mp_MaxAggregateCostMicros := 5000000 |>
    <| mp_State := PassDraft |> <| mp_Reconciliation := ReconciliationSettled |>.

(** A database holding one pass. *)
Definition bench_DB_with (p : MissionPassRecord) : DB :=
  bench_DB <| db_mission_passes := {[ (mp_WorkspaceID p, mp_PassID p) := p ]} |>.

(** An enrolled workspace with its offline recovery key. *)
Definition bench_instance : InstanceRecord :=
  MkInstanceRecord "instance" "ws" "localhost" "http://localhost" "localhost" "cookie" bench_digest
    bench_time.
Definition bench_recovery_key : OfflineRecoveryKeyRecord :=
  MkOfflineRecoveryKeyRecord "ws" "founder" (hex (Sum256 "offline-key")) bench_time.
Definition bench_enrolled_DB : DB :=
  bench_DB <| db_instance := Some bench_instance |>
    <| db_founders := {[ ("ws", "founder") := MkFounderRecord "ws" "founder" "Founder" bench_time ]} |>
    <| db_offline_recovery_keys := {[ ("ws", "founder") := bench_recovery_key ]} |>.

Lemma bench_rand_length n len : String.length (rand (Env := bench_env) n len) = len.
Proof.
  cbn. unfold of_bytes. induction len as [|len IH]; [done|]. cbn. by rewrite <- IH at 2.
Qed.

(** The first 255 draws differ. *)
Lemma bench_rand_distinct n m : (n < m < 255)%nat →
  rand (Env := bench_env) n 16 ≠ rand (Env := bench_env) m 16.
Proof.
  intros Hnm E.
  assert (∀ k, ∃ s, rand (Env := bench_env) k 16 = String (byte_of (1 + Z.of_nat k mod 255)) s) as Hr
    by (intros k; eexists; reflexivity).
  destruct (Hr n) as [s1 E1], (Hr m) as [s2 E2]. rewrite E1, E2 in E. injection E as E _.
  apply (f_equal byte_val) in E. rewrite !Z.mod_small in E by lia. rewrite !byte_val_of in E by lia. lia.
Qed.
