(* ===== verification/Attestor.v ===== *)
(** * Signed decision attestations (src/internal/identity/attestor.go)

    The claim rules of each decision purpose, the canonical claims document
    and the domain-separated message the workload signer signs. *)

From S2P Require Import Prelude GoTime Sha256 Base64 Json JsonParse PassModel World Bench.

Definition AttestationDomain : string := "authscope-ope/decision-attestation/v1".
Definition AlgorithmTag : string := "Ed25519".

Definition PurposePassApproval : string := "pass_approval".
Definition PurposeCLILaunchAuthorization : string := "cli_launch_authorization".
Definition PurposeMissionRevoke : string := "mission_revoke".
Definition PurposeExpansionDecision : string := "expansion_decision".
Definition PurposeOfflineRecoveryContain : string := "offline_recovery_contain".

Definition AudienceProposalApproval : string := "authscope:proposal-approval".
Definition AudiencePrepareLaunch : string := "authscope:prepare-launch".
Definition AudienceMissionRevoke : string := "authscope:mission-revoke".
Definition AudienceExpansionDecision : string := "authscope:expansion-decision".
Definition AudienceWorkspaceContain : string := "authscope:workspace-containment".

Definition AuthMethodWebAuthnUV : string := "webauthn_uv".
Definition AuthMethodOfflineRecovery : string := "offline_recovery_key".

Definition maxAttestationTTL : Z := 15 * Minute.
Definition maxClockSkew : Z := 60 * Second.

Inductive invocation_mode := invocationRequired | invocationOptional | invocationForbidden.

Record purposeBinding := Mk_purposeBinding {
  pb_audience : string;
  pb_subjectKind : string;
  pb_method : string;
  pb_invocationMode : invocation_mode
}.

Definition purposeBindings (purpose : string) : option purposeBinding :=
  if decide (purpose = PurposePassApproval) then
    Some (Mk_purposeBinding AudienceProposalApproval "mission_proposal" AuthMethodWebAuthnUV
            invocationRequired)
  else if decide (purpose = PurposeCLILaunchAuthorization) then
    Some (Mk_purposeBinding AudiencePrepareLaunch "launch" AuthMethodWebAuthnUV
            invocationRequired)
  else if decide (purpose = PurposeMissionRevoke) then
    Some (Mk_purposeBinding AudienceMissionRevoke "mission" AuthMethodWebAuthnUV
            invocationOptional)
  else if decide (purpose = PurposeExpansionDecision) then
    Some (Mk_purposeBinding AudienceExpansionDecision "expansion_request" AuthMethodWebAuthnUV
            invocationRequired)
  else if decide (purpose = PurposeOfflineRecoveryContain) then
    Some (Mk_purposeBinding AudienceWorkspaceContain "workspace" AuthMethodOfflineRecovery
            invocationForbidden)
  else None.

Definition ErrInvalidClaims : err := ErrOther "identity: invalid decision claims".

Definition invocation_ok (m : invocation_mode) (digest : string) : Prop :=
  match m with
  | invocationRequired => canonicalDigest digest
  | invocationForbidden => digest = ""
  | invocationOptional => ¬ (digest ≠ "" ∧ ¬ canonicalDigest digest)
  end.
#[export] Instance invocation_ok_dec m d : Decision (invocation_ok m d).
Proof. destruct m; cbn; apply _. Defined.

(** [zero] is the zero [[32]byte]. *)
Definition zero_nonce : string := of_bytes (replicate 32 0).

Definition validateClaims (c : DecisionClaims) (now : time) : res purposeBinding :=
  binding ← opt_res ErrInvalidClaims (purposeBindings (dc_Purpose c));
  _ ← require_res (dc_Audience c = pb_audience binding) ErrInvalidClaims;
  _ ← require_res (dc_AuthenticationMethod c = pb_method binding) ErrInvalidClaims;
  _ ← require_res (dc_WorkspaceID c ≠ "") ErrInvalidClaims;
  _ ← require_res (dc_FounderID c ≠ "") ErrInvalidClaims;
  _ ← require_res (dc_SubjectID c ≠ "") ErrInvalidClaims;
  _ ← require_res (canonicalDigest (dc_DecisionDigest c)) ErrInvalidClaims;
  _ ← require_res (invocation_ok (pb_invocationMode binding) (dc_InvocationDigest c))
        ErrInvalidClaims;
  _ ← require_res (canonicalDigest (dc_AuthenticationProofDigest c)) ErrInvalidClaims;
  _ ← require_res (dc_Nonce c ≠ zero_nonce) ErrInvalidClaims;
  _ ← require_res (¬ IsZero (dc_IssuedAt c)) ErrInvalidClaims;
  _ ← require_res (After (dc_ExpiresAt c) (dc_IssuedAt c)) ErrInvalidClaims;
  _ ← require_res (dc_ExpiresAt c - dc_IssuedAt c ≤ maxAttestationTTL) ErrInvalidClaims;
  _ ← require_res (¬ After (dc_IssuedAt c) (now + maxClockSkew)) ErrInvalidClaims;
  Ok binding.


(** [toWireClaims] as the JSON object [wireClaims] marshals to; the empty
    invocation digest is omitted. *)
Definition toWireClaims (c : DecisionClaims) (binding : purposeBinding)
    (keyID identityDigest : string) : json :=
  JObj ([("version", JInt 1); ("algorithm", JStr AlgorithmTag); ("key_id", JStr keyID);
         ("identity_digest", JStr identityDigest); ("workspace_id", JStr (dc_WorkspaceID c));
         ("founder", JStr (dc_FounderID c)); ("audience", JStr (dc_Audience c));
         ("purpose", JStr (dc_Purpose c));
         ("subject", JObj [("kind", JStr (pb_subjectKind binding)); ("id", JStr (dc_SubjectID c))]);
         ("decision_digest", JStr (dc_DecisionDigest c))] ++
        (if decide (dc_InvocationDigest c = "") then []
         else [("invocation_digest", JStr (dc_InvocationDigest c))]) ++
        [("authentication_method", JStr (dc_AuthenticationMethod c));
         ("authentication_proof_digest", JStr (dc_AuthenticationProofDigest c));
         ("authenticated_at", JInt (UnixSec (dc_IssuedAt c)));
         ("issued_at", JInt (UnixSec (dc_IssuedAt c)));
         ("expires_at", JInt (UnixSec (dc_ExpiresAt c)));
         ("nonce", JStr (RawURLEncode (dc_Nonce c)))])%list.

(** [canonicalJSON]: no HTML escaping. *)
Definition canonicalJSON (v : json) : string := render false v.

Definition CanonicalClaimsJSON (c : DecisionClaims) (keyID identityDigest : string)
    (now : time) : res string :=
  binding ← validateClaims c now;
  Ok (canonicalJSON (toWireClaims c binding keyID identityDigest)).

Definition signedMessage (canonical : string) : string :=
  AttestationDomain +:+ String Ascii.zero canonical.

(** [json.Marshal] of the attestation struct itself, as intents store it. *)
Definition attestation_json (att : SignedDecisionAttestation) : json :=
  let c := sa_Claims att in
  JObj [("Algorithm", JStr (sa_Algorithm att)); ("KeyID", JStr (sa_KeyID att));
        ("IdentityDigest", JStr (sa_IdentityDigest att));
        ("Claims", JObj [
          ("WorkspaceID", JStr (dc_WorkspaceID c)); ("FounderID", JStr (dc_FounderID c));
          ("Audience", JStr (dc_Audience c)); ("Purpose", JStr (dc_Purpose c));
          ("SubjectID", JStr (dc_SubjectID c)); ("DecisionDigest", JStr (dc_DecisionDigest c));
          ("InvocationDigest", JStr (dc_InvocationDigest c));
          ("AuthenticationMethod", JStr (dc_AuthenticationMethod c));
          ("AuthenticationProofDigest", JStr (dc_AuthenticationProofDigest c));
          ("Nonce", JArr (JInt <$> bytes_of (dc_Nonce c)));
          ("IssuedAt", JStr (formatTime (dc_IssuedAt c)));
          ("ExpiresAt", JStr (formatTime (dc_ExpiresAt c)))]);
        ("Signature", JStr (StdEncode (sa_Signature att)))].

Definition attestationDigest (att : SignedDecisionAttestation) : string :=
  tagged_digest (render true (attestation_json att)).

(** [json.Unmarshal] into the attestation struct. *)
Definition as_bytes (v : value) : option string :=
  match v with VStr s => StdDecode s | _ => None end.

(** A [[32]byte]: missing elements are zero, surplus ones are skipped. *)
Definition as_byte (v : value) : option Z :=
  n ← or_zero 0 as_int v; if decide (0 ≤ n < 256) then Some n else None.
Definition as_array32 (v : value) : option string :=
  match v with
  | VArr l => bs ← mapM as_byte (take 32 l); Some (of_bytes (take 32 (bs ++ replicate 32 0)%list))
  | _ => None
  end.

Definition as_claims (v : value) : option DecisionClaims :=
  match v with
  | VObj o =>
      ws ← str_field "WorkspaceID" o; f ← str_field "FounderID" o;
      a ← str_field "Audience" o; p ← str_field "Purpose" o;
      s ← str_field "SubjectID" o; d ← str_field "DecisionDigest" o;
      i ← str_field "InvocationDigest" o; m ← str_field "AuthenticationMethod" o;
      pd ← str_field "AuthenticationProofDigest" o;
      n ← field as_array32 zero_nonce "Nonce" o;
      t1 ← time_field "IssuedAt" o; t2 ← time_field "ExpiresAt" o;
      Some (MkDecisionClaims ws f a p s d i m pd n t1 t2)
  | _ => None
  end.

Definition zero_claims : DecisionClaims :=
  MkDecisionClaims "" "" "" "" "" "" "" "" "" zero_nonce zero_time zero_time.
Definition zero_attestation : SignedDecisionAttestation :=
  MkSignedDecisionAttestation "" "" "" zero_claims "".

Definition decode_attestation (text : string) : option SignedDecisionAttestation :=
  v ← parse text;
  match v with
  | VObj o =>
      a ← str_field "Algorithm" o; k ← str_field "KeyID" o; i ← str_field "IdentityDigest" o;
      c ← field as_claims zero_claims "Claims" o; s ← field as_bytes "" "Signature" o;
      Some (MkSignedDecisionAttestation a k i c s)
  | VNull => Some zero_attestation
  | _ => None
  end.

Section attest.
Context `{Env}.

Definition Attest (claims : DecisionClaims) : M SignedDecisionAttestation :=
  t ← now;
  binding ← lift (validateClaims claims t);
  _ ← require (signer_KeyID ≠ "" ∧ signer_IdentityDigest ≠ "") ErrInvalidClaims;
  _ ← require (canonicalDigest signer_IdentityDigest) ErrInvalidClaims;
  let canonical := canonicalJSON (toWireClaims claims binding signer_KeyID
                                    signer_IdentityDigest) in
  sig ← lift (signer_Sign (signedMessage canonical));
  _ ← require (String.length sig = 64%nat)
        (ErrOther "identity: signer returned a signature of the wrong size");
  mret (MkSignedDecisionAttestation AlgorithmTag signer_KeyID signer_IdentityDigest claims sig).
End attest.

(** ** What an attestation guarantees *)

Lemma require_res_bind {A} (P : Prop) `{Decision P} e (r : res A) a :
  (_ ← require_res P e; r) = Ok a ↔ P ∧ r = Ok a.
Proof. unfold require_res. case_decide; cbn; naive_solver. Qed.

Definition claims_valid (c : DecisionClaims) (now : time) (b : purposeBinding) : Prop :=
  purposeBindings (dc_Purpose c) = Some b ∧ dc_Audience c = pb_audience b ∧
  dc_AuthenticationMethod c = pb_method b ∧
  dc_WorkspaceID c ≠ "" ∧ dc_FounderID c ≠ "" ∧ dc_SubjectID c ≠ "" ∧
  canonicalDigest (dc_DecisionDigest c) ∧
  invocation_ok (pb_invocationMode b) (dc_InvocationDigest c) ∧
  canonicalDigest (dc_AuthenticationProofDigest c) ∧ dc_Nonce c ≠ zero_nonce ∧
  ¬ IsZero (dc_IssuedAt c) ∧ dc_IssuedAt c < dc_ExpiresAt c ∧
  dc_ExpiresAt c - dc_IssuedAt c ≤ maxAttestationTTL ∧ dc_IssuedAt c ≤ now + maxClockSkew.

Lemma validateClaims_Ok c now b : validateClaims c now = Ok b ↔ claims_valid c now b.
Proof.
  unfold validateClaims, claims_valid. destruct (purposeBindings (dc_Purpose c)) as [b'|].
  - change (opt_res ErrInvalidClaims (Some b')) with (Ok b').
    change (Ok b' ≫= ?f) with (f b'). cbv beta.
    rewrite !require_res_bind. unfold After.
    split; [intros (?&?&?&?&?&?&?&?&?&?&?&?&?&Hb); injection Hb as <-|
            intros (Hb&?&?&?&?&?&?&?&?&?&?&?&?&?); injection Hb as <-]; split_and!; try done; lia.
  - split; [done|by intros [? _]].
Qed.

(** The empty optional field leaves the other fields where they are. *)
Lemma toWireClaims_inj c1 b1 k1 d1 c2 b2 k2 d2 :
  toWireClaims c1 b1 k1 d1 = toWireClaims c2 b2 k2 d2 →
  k1 = k2 ∧ d1 = d2 ∧ dc_WorkspaceID c1 = dc_WorkspaceID c2 ∧
  dc_FounderID c1 = dc_FounderID c2 ∧ dc_Audience c1 = dc_Audience c2 ∧
  dc_Purpose c1 = dc_Purpose c2 ∧ dc_SubjectID c1 = dc_SubjectID c2 ∧
  dc_DecisionDigest c1 = dc_DecisionDigest c2 ∧
  dc_InvocationDigest c1 = dc_InvocationDigest c2 ∧
  dc_AuthenticationMethod c1 = dc_AuthenticationMethod c2 ∧
  dc_AuthenticationProofDigest c1 = dc_AuthenticationProofDigest c2 ∧
  UnixSec (dc_IssuedAt c1) = UnixSec (dc_IssuedAt c2) ∧
  UnixSec (dc_ExpiresAt c1) = UnixSec (dc_ExpiresAt c2) ∧ dc_Nonce c1 = dc_Nonce c2.
Proof.
  unfold toWireClaims. intros E. injection E as E.
  destruct (decide (dc_InvocationDigest c1 = "")) as [I1|I1],
    (decide (dc_InvocationDigest c2 = "")) as [I2|I2]; cbn in E; simplify_eq;
    match goal with H : RawURLEncode _ = RawURLEncode _ |- _ => apply RawURLEncode_inj in H end;
    split_and!; congruence.
Qed.

(** The strings of a claims document are ASCII. *)
Definition claims_ascii (c : DecisionClaims) (b : purposeBinding) (keyID identityDigest : string)
    : Prop := json_ascii (toWireClaims c b keyID identityDigest) = true.

Lemma signedMessage_inj m1 m2 : signedMessage m1 = signedMessage m2 → m1 = m2.
Proof. unfold signedMessage. intros E. apply app_inj in E. by injection E. Qed.

(** C32: an attestation is signed only over claims that obey the rules of
    their purpose (audience, subject, authentication method, digests, a
    non-zero nonce and a lifetime of at most 15 minutes), it carries exactly
    the claims it was asked to sign with the signer's identity, the signature
    is the signer's over the domain-separated canonical claims, and signing
    neither touches the database nor calls AuthScope. *)
Theorem Attest_sound `{Env} claims w att w' :
  Attest claims w = (Ok att, w') →
  ∃ b, claims_valid claims (clock (w_ticks w)) b ∧
    att = MkSignedDecisionAttestation AlgorithmTag signer_KeyID signer_IdentityDigest claims
            (sa_Signature att) ∧
    signer_Sign (signedMessage (canonicalJSON
       (toWireClaims claims b signer_KeyID signer_IdentityDigest))) = Ok (sa_Signature att) ∧
    String.length (sa_Signature att) = 64%nat ∧
    w_db w' = w_db w ∧ w_calls w' = w_calls w.
Proof.
  intros A. unfold Attest in A. apply bind_Ok in A as (t & w1 & Ht & A).
  unfold now in Ht. injection Ht as <- <-.
  apply bind_Ok in A as (b & w2 & Hb & A). unfold lift in Hb. injection Hb as Hb <-.
  apply validateClaims_Ok in Hb. run_inv. exists b. by split_and!.
Qed.

(** A signature covers every claim: two claim sets, with their signer
    identities, whose signed messages are the same byte string agree on every
    claim (the times to the second, as the wire format carries them). *)
Theorem signed_message_binds_claims c1 b1 k1 d1 c2 b2 k2 d2 :
  claims_ascii c1 b1 k1 d1 → claims_ascii c2 b2 k2 d2 →
  signedMessage (canonicalJSON (toWireClaims c1 b1 k1 d1)) =
  signedMessage (canonicalJSON (toWireClaims c2 b2 k2 d2)) →
  k1 = k2 ∧ d1 = d2 ∧ dc_WorkspaceID c1 = dc_WorkspaceID c2 ∧
  dc_FounderID c1 = dc_FounderID c2 ∧ dc_Audience c1 = dc_Audience c2 ∧
  dc_Purpose c1 = dc_Purpose c2 ∧ dc_SubjectID c1 = dc_SubjectID c2 ∧
  dc_DecisionDigest c1 = dc_DecisionDigest c2 ∧
  dc_InvocationDigest c1 = dc_InvocationDigest c2 ∧
  dc_AuthenticationMethod c1 = dc_AuthenticationMethod c2 ∧
  dc_AuthenticationProofDigest c1 = dc_AuthenticationProofDigest c2 ∧
  UnixSec (dc_IssuedAt c1) = UnixSec (dc_IssuedAt c2) ∧
  UnixSec (dc_ExpiresAt c1) = UnixSec (dc_ExpiresAt c2) ∧ dc_Nonce c1 = dc_Nonce c2.
Proof.
  intros H1 H2 E. apply signedMessage_inj, render_inj in E; [|done..].
  by apply toWireClaims_inj in E.
Qed.

(** ** On the bench *)

Definition bench_claims : DecisionClaims :=
  MkDecisionClaims "ws" "founder" AudienceMissionRevoke PurposeMissionRevoke "mission-1" bench_digest
    "" AuthMethodWebAuthnUV bench_digest (of_bytes (replicate 32 5)) bench_time
    (bench_time + 5 * Minute).
Definition bench_world : World := start bench_DB.
Definition bench_attestation : SignedDecisionAttestation :=
  MkSignedDecisionAttestation AlgorithmTag "key-1" bench_digest bench_claims
    (of_bytes (replicate 64 9)).

Lemma Attest_sound_witness : ∃ att w',
  @Attest bench_env bench_claims bench_world = (Ok att, w') ∧ w_db w' = w_db bench_world.
Proof.
  exists bench_attestation, (bench_world <| w_ticks := 1%nat |>).
  assert (@Attest bench_env bench_claims bench_world =
    (Ok bench_attestation, bench_world <| w_ticks := 1%nat |>)) as E by (vm_compute; reflexivity).
  split; [exact E|]. apply (Attest_sound (H := bench_env)) in E as (b & _ & _ & _ & _ & Hdb & _).
  exact Hdb.
Defined.

Lemma signed_message_binds_claims_witness :
  let b := Mk_purposeBinding AudienceMissionRevoke "mission" AuthMethodWebAuthnUV
             invocationOptional in
  claims_ascii bench_claims b "key-1" bench_digest ∧
  dc_WorkspaceID bench_claims = dc_WorkspaceID bench_claims.
Proof.
  intros b.
  assert (claims_ascii bench_claims b "key-1" bench_digest) as A by (vm_compute; reflexivity).
  split; [exact A|].
  apply (signed_message_binds_claims bench_claims b "key-1" bench_digest
           bench_claims b "key-1" bench_digest A A eq_refl).
Defined.
