(* ===== verification/Ceremony.v ===== *)
(** * One-use decision ceremonies (src/internal/authn/passkey.go)

    [BeginDecision] and [FinishDecision]: the challenge a high-impact
    decision is bound to, its single use, its freshness, and the verified
    record it yields.  The WebAuthn cryptography is the environment's
    verifier. *)

From S2P Require Import Prelude GoTime Sha256 Base64 StoreModel StoreAuth PassModel World Attestor Bench.

Definition decisionChallengeTTL : Z := 2 * Minute.
Definition decisionAuthFreshness : Z := 5 * Minute.

Definition ceremonyRegistration : string := "registration".
Definition ceremonyLogin : string := "login".
Definition ceremonyDecision : string := "decision".

Definition validDecisionPurpose (p : string) : Prop :=
  p = DecisionPassApproval ∨ p = DecisionPassRevocation ∨ p = DecisionMissionRevoke ∨
  p = DecisionExpansionDecision ∨ p = DecisionCLILaunchAuthorization.
#[export] Instance validDecisionPurpose_dec p : Decision (validDecisionPurpose p).
Proof. unfold validDecisionPurpose. apply _. Defined.

Section ceremony.
Context `{Env}.

(** [newCeremonyID]: 128 random bits in hex. *)
Definition newCeremonyID : M string := b ← randomBytes 16; mret (hex b).

(** [founderCredentials]: the founder's passkeys with decoded IDs. *)
Definition founderCredentials (founderID : string) : M (list StoredCredential) :=
  recs ← tx (listWebAuthnCredentials instance_WorkspaceID founderID);
  lift (opt_res (ErrOther "authn: decode credential ID")
    (mapM (λ r, id ← RawURLDecode (wc_CredentialID r);
                Some (MkStoredCredential id (wc_PublicKey r) (wc_SignCount r))) recs)).

Definition BeginDecision (p : Principal) (purpose subjectID canonicalClaims : string)
    : M (DecisionChallenge * string) :=
  _ ← require (validDecisionPurpose purpose) ErrInvalidPurpose;
  _ ← require (subjectID ≠ "") ErrInvalidPurpose;
  _ ← require (canonicalClaims ≠ "") ErrDecisionBinding;
  _ ← require (p_WorkspaceID p = instance_WorkspaceID) ErrDecisionBinding;
  creds ← founderCredentials (p_FounderID p);
  _ ← require (creds ≠ []) ErrNotEnrolled;
  options ← match verifier_BeginAssertion (p_FounderID p) instance_RPID instance_Origin
                    (sc_ID <$> creds) with
            | Ok o => mret o
            | Err _ => fail ErrVerificationFailed
            end;
  nonce ← randomBytes 32;
  t ← now;
  id ← newCeremonyID;
  let challenge := MkDecisionChallenge id (p_WorkspaceID p) (p_SessionID p) subjectID purpose
                     (Sum256 canonicalClaims) nonce (t + decisionChallengeTTL) in
  _ ← modify (λ w, w <| w_ceremonies :=
        <[id := Mk_webauthnCeremony id ceremonyDecision options.2 (p_FounderID p) "" "" (p_FounderID p)
                  false (Some challenge) t (ch_ExpiresAt challenge) false]> (w_ceremonies w) |>);
  mret (challenge, options.1).

(** [consumeCeremony]: taken at most once; an expired one is dropped. *)
Definition consumeCeremony (id kind : string) : M webauthnCeremony :=
  ceremonies ← gets w_ceremonies;
  match ceremonies !! id with
  | None => fail ErrCeremonyNotFound
  | Some c =>
      _ ← require (ce_consumed c = false) ErrCeremonyConsumed;
      t ← now;
      if decide (After (ce_expiresAt c) t) then
        _ ← require (ce_kind c = kind) ErrCeremonyNotFound;
        _ ← modify (λ w, w <| w_ceremonies := delete id (w_ceremonies w) |>);
        mret (c <| ce_consumed := true |>)
      else
        _ ← modify (λ w, w <| w_ceremonies := delete id (w_ceremonies w) |>);
        fail ErrCeremonyExpired
  end.

(** [verifyAssertion]: the verifier's answer, with user verification. *)
Definition verifyAssertion (c : webauthnCeremony) (responseBody : string) : M VerifiedAssertion :=
  creds ← founderCredentials (ce_founderID c);
  verified ← match verifier_FinishAssertion (ce_userID c) creds (ce_sessionJSON c) responseBody with
             | Ok v => mret v
             | Err _ => fail ErrVerificationFailed
             end;
  _ ← require (va_UserVerified verified = true) ErrUserVerification;
  mret verified.

Definition FinishDecision (p : Principal)
    (challengeID purpose subjectID canonicalClaims assertion : string) : M VerifiedDecision :=
  _ ← require (validDecisionPurpose purpose) ErrInvalidPurpose;
  ceremony ← consumeCeremony challengeID ceremonyDecision;
  d ← lift (opt_res ErrDecisionBinding (ce_decision ceremony));
  _ ← require (¬ (ch_WorkspaceID d ≠ p_WorkspaceID p ∨
                  ch_WorkspaceID d ≠ instance_WorkspaceID ∨
                  ch_SessionID d ≠ p_SessionID p ∨ ch_SubjectID d ≠ subjectID ∨
                  ch_Purpose d ≠ purpose ∨ ch_Digest d ≠ Sum256 canonicalClaims))
        ErrDecisionBinding;
  t ← now;
  _ ← require (¬ decisionAuthFreshness < t - p_AuthTime p) ErrStaleAssertion;
  verified ← verifyAssertion ceremony assertion;
  _ ← if decide (0 < va_NewSignCount verified) then
        tx (updateWebAuthnCredentialSignCount instance_WorkspaceID
              (RawURLEncode (va_CredentialID verified)) (va_NewSignCount verified))
      else mret tt;
  t2 ← now;
  mret (MkVerifiedDecision challengeID (ch_Nonce d) AuthMethodWebAuthnUV
          (va_UserVerified verified) (ch_WorkspaceID d) (ch_SessionID d)
          (ce_founderID ceremony) (ch_SubjectID d) (ch_Purpose d) t2).
End ceremony.

(** ** What a ceremony may change *)

(** Everything but the ceremony map, the sign counts and the clock. *)
Definition ceremony_frame (w w' : World) : Prop :=
  w_calls w' = w_calls w ∧ w_approvals w' = w_approvals w ∧
  w_revocations w' = w_revocations w ∧ w_decisions w' = w_decisions w ∧
  w_gate w' = w_gate w ∧
  w_db w' = (w_db w) <| db_webauthn_credentials := db_webauthn_credentials (w_db w') |>.

#[export] Instance ceremony_frame_preorder : PreOrder ceremony_frame.
Proof.
  split.
  - intros w. unfold ceremony_frame. split_and!; try done. by destruct (w_db w).
  - intros w1 w2 w3 (A1&A2&A3&A4&A5&A6) (B1&B2&B3&B4&B5&B6). unfold ceremony_frame.
    split_and!; try congruence. rewrite B6 at 1. rewrite A6. done.
Qed.

Lemma within_ceremony_db {A} (fn : Tx A) :
  (∀ db r db', fn db = (r, db') →
     db' = db <| db_webauthn_credentials := db_webauthn_credentials db' |>) →
  within ceremony_frame (tx fn).
Proof.
  intros Hf w r w' H. destruct r as [a|e].
  - apply tx_Ok in H as (db & H & ->). unfold ceremony_frame. split_and!; try done.
    cbn. by apply Hf in H.
  - apply tx_Err in H as [_ ->]. reflexivity.
Qed.

Lemma ceremony_frame_maps w f :
  w_db (f w) = w_db w → w_calls (f w) = w_calls w → w_approvals (f w) = w_approvals w →
  w_revocations (f w) = w_revocations w → w_decisions (f w) = w_decisions w →
  w_gate (f w) = w_gate w → ceremony_frame w (f w).
Proof. intros E ? ? ? ? ?. unfold ceremony_frame. rewrite E. split_and!; try done. by destruct (w_db w). Qed.

Section frames.
Context `{Env}.

Lemma within_now : within ceremony_frame now.
Proof. intros w r w' E. injection E as <- <-. by apply (ceremony_frame_maps w (λ w, w <| w_ticks := S (w_ticks w) |>)). Qed.

Lemma within_randomBytes n : within ceremony_frame (randomBytes n).
Proof. intros w r w' E. injection E as <- <-. by apply (ceremony_frame_maps w (λ w, w <| w_draws := S (w_draws w) |>)). Qed.

Lemma within_ceremonies f :
  within ceremony_frame (modify (λ w, w <| w_ceremonies := f w |>)).
Proof. apply within_modify. intros w. by apply (ceremony_frame_maps w (λ w, w <| w_ceremonies := f w |>)). Qed.

Lemma within_updateSignCount ws id n :
  within ceremony_frame (tx (updateWebAuthnCredentialSignCount ws id n)).
Proof.
  apply within_ceremony_db. intros db r db' E. unfold updateWebAuthnCredentialSignCount in E.
  op_inv E; first [by destruct db|by destruct db'].
Qed.

Lemma within_founderCredentials id : within ceremony_frame (founderCredentials id).
Proof.
  unfold founderCredentials. apply within_bind; [apply _| |intros recs; apply within_lift; apply _].
  apply within_ceremony_db. intros db r db' E. injection E as <- <-. by destruct db.
Qed.
End frames.
#[export] Hint Resolve within_now within_randomBytes within_ceremonies within_updateSignCount
  within_founderCredentials : within.

Lemma within_BeginDecision `{Env} p purpose subj claims :
  within ceremony_frame (BeginDecision p purpose subj claims).
Proof. unfold BeginDecision, newCeremonyID. within_auto. Qed.

Lemma within_consumeCeremony `{Env} id kind :
  within ceremony_frame (consumeCeremony id kind).
Proof. unfold consumeCeremony. within_auto. Qed.
#[export] Hint Resolve within_BeginDecision within_consumeCeremony : within.

Lemma within_FinishDecision `{Env} p id purpose subj claims assertion :
  within ceremony_frame (FinishDecision p id purpose subj claims assertion).
Proof. unfold FinishDecision, verifyAssertion. within_auto. Qed.
#[export] Hint Resolve within_FinishDecision : within.

(** ** Single use and binding *)

Section theorems.
Context `{Env}.

Lemma consumeCeremony_run id kind w c :
  w_ceremonies w !! id = Some c → ce_consumed c = false → ce_kind c = kind →
  ∃ r w', consumeCeremony id kind w = (r, w') ∧ w_ceremonies w' = delete id (w_ceremonies w) ∧
    (r = Ok (c <| ce_consumed := true |>) ∧ clock (w_ticks w) < ce_expiresAt c ∨
     r = Err ErrCeremonyExpired ∧ ce_expiresAt c ≤ clock (w_ticks w)).
Proof.
  intros Hc Hn Hk. unfold consumeCeremony. rewrite gets_then, Hc. cbv beta iota. rewrite require_then by done.
  rewrite (bind_run _ _ _ (clock (w_ticks w)) (w <| w_ticks := S (w_ticks w) |>)) by done.
  case_decide as D; unfold After in D.
  - rewrite require_then, modify_then by done. eexists _, _. split_and!; [done|done|]. by left.
  - rewrite modify_then. eexists _, _. split_and!; [done|done|]. right. split; [done|lia].
Qed.

Lemma consumeCeremony_Ok id kind w c' w' :
  consumeCeremony id kind w = (Ok c', w') →
  ∃ c, w_ceremonies w !! id = Some c ∧ c' = c <| ce_consumed := true |> ∧ ce_kind c = kind ∧
    ce_consumed c = false ∧ clock (w_ticks w) < ce_expiresAt c ∧
    w_ceremonies w' = delete id (w_ceremonies w).
Proof.
  unfold consumeCeremony. rewrite gets_then.
  destruct (w_ceremonies w !! id) as [c|] eqn:E; [|done]. intros A.
  apply bind_Ok in A as (u & w1 & A1 & A). apply require_Ok in A1 as [Hn ->].
  apply bind_Ok in A as (t & w1 & A1 & A). unfold now in A1. injection A1 as <- <-.
  case_decide as D; unfold After in D.
  - apply bind_Ok in A as (u' & w1 & A1 & A). apply require_Ok in A1 as [Hk ->].
    rewrite modify_then in A. injection A as <- <-. exists c. by split_and!.
  - rewrite modify_then in A. discriminate A.
Qed.

Lemma FinishDecision_unknown p id purpose subj claims assertion w :
  validDecisionPurpose purpose → w_ceremonies w !! id = None →
  FinishDecision p id purpose subj claims assertion w = (Err ErrCeremonyNotFound, w).
Proof.
  intros Hp Hn. unfold FinishDecision. rewrite require_then by done.
  apply bind_fail. unfold consumeCeremony. by rewrite gets_then, Hn.
Qed.

(** Later steps of a finish only remove ceremonies. *)
Lemma FinishDecision_consumes p id purpose subj claims assertion w r w' :
  validDecisionPurpose purpose →
  FinishDecision p id purpose subj claims assertion w = (r, w') →
  (∀ c, w_ceremonies w !! id = Some c → ce_consumed c = false ∧ ce_kind c = ceremonyDecision) →
  w_ceremonies w' !! id = None.
Proof.
  intros Hp E Hw. destruct (w_ceremonies w !! id) as [c|] eqn:Ec.
  - destruct (Hw c eq_refl) as [Hc Hk]. unfold FinishDecision in E.
    rewrite require_then in E by done.
    destruct (consumeCeremony_run id ceremonyDecision w c Ec Hc Hk) as (rc & w1 & E1 & Hd & Hr).
    assert (w_ceremonies w1 !! id = None) as H1 by (by rewrite Hd, lookup_delete_eq).
    destruct rc as [c1|e]; [|rewrite (bind_fail _ _ _ _ _ E1) in E; injection E as <- <-; done].
    rewrite (bind_run _ _ _ _ _ E1) in E. revert E.
    match goal with |- ?m _ = _ → _ =>
      assert (within (λ w w', w_ceremonies w' = w_ceremonies w) m) as Hm end.
    { assert (PreOrder (λ w w', w_ceremonies w' = w_ceremonies w)) by (split; congruence || done).
      assert (∀ A (fn : Tx A), within (λ w w', w_ceremonies w' = w_ceremonies w) (tx fn)) as Htx.
      { intros A fn v rv v' E. destruct rv; [by apply tx_Ok in E as (? & _ & ->)|
          by apply tx_Err in E as [_ ->]]. }
      assert (within (λ w w', w_ceremonies w' = w_ceremonies w) now) as Hnow
        by (intros v rv v' E; by injection E as <- <-).
      unfold verifyAssertion, founderCredentials.
      repeat (first [apply Htx|apply Hnow|solve [auto with within typeclass_instances]|within_step]). }
    intros E. by rewrite (Hm _ _ _ E).
  - rewrite FinishDecision_unknown in E by done. injection E as <- <-. done.
Qed.

(** The subject a finish was begun for, and what a begin records. *)
Lemma FinishDecision_subject p id purpose subj claims assertion w v w1 :
  FinishDecision p id purpose subj claims assertion w = (Ok v, w1) →
  ∃ c d, w_ceremonies w !! id = Some c ∧ ce_decision c = Some d ∧ ch_SubjectID d = subj.
Proof.
  intros E. unfold FinishDecision in E. op_inv_step E; [|discriminate E].
  call_inv E Ec; [|discriminate E]. apply consumeCeremony_Ok in Ec as (c & Hc & -> & _).
  change (ce_decision (c <| ce_consumed := true |>)) with (ce_decision c) in E.
  destruct (ce_decision c) as [d|] eqn:Ed; [|discriminate E]. cbn [opt_res] in E.
  rewrite lift_Ok_then in E. op_inv_step E; [|discriminate E].
  exists c, d. split_and!; [done..|]. apply dec_stable. tauto.
Qed.

Lemma BeginDecision_Ok p purpose subj claims w ch options w1 :
  BeginDecision p purpose subj claims w = (Ok (ch, options), w1) →
  ch_SubjectID ch = subj ∧ p_WorkspaceID p = instance_WorkspaceID ∧
  ∃ c, w_ceremonies w1 = <[ch_ChallengeID ch := c]> (w_ceremonies w) ∧ ce_decision c = Some ch.
Proof.
  intros E. unfold BeginDecision, founderCredentials in E.
  do 4 (op_inv_step E; [|discriminate E]).
  call_inv E Ec; [|discriminate E]. op_inv_step E; [|discriminate E].
  call_inv E Eo; [|discriminate E].
  assert (w_ceremonies w0 = w_ceremonies w) as Hw0.
  { call_inv Ec Et; [|discriminate Ec]. apply tx_Ok in Et as (db & _ & ->).
    by injection Ec as _ <-. }
  assert (w2 = w0) as -> by (destruct (verifier_BeginAssertion _ _ _ _); by injection Eo).
  rewrite random_then, now_then in E. call_inv E En; [|discriminate E].
  unfold newCeremonyID in En. rewrite random_then in En. injection En as <- <-.
  cbv zeta in E. rewrite modify_then in E. injection E as <- _ <-.
  cbn. split_and!; [done..|]. eexists. split; [by rewrite Hw0|done].
Qed.

(** What a finish that verified had before it. *)
Definition decision_verified (p : Principal) (id purpose subj claims assertion : string)
    (v : VerifiedDecision) (w : World) : Prop :=
  ∃ c d creds va, w_ceremonies w !! id = Some c ∧ ce_decision c = Some d ∧
    ch_WorkspaceID d = p_WorkspaceID p ∧ ch_WorkspaceID d = instance_WorkspaceID ∧
    ch_SessionID d = p_SessionID p ∧ ch_SubjectID d = subj ∧ ch_Purpose d = purpose ∧
    ch_Digest d = Sum256 claims ∧ clock (w_ticks w) < ce_expiresAt c ∧
    clock (S (w_ticks w)) - p_AuthTime p ≤ decisionAuthFreshness ∧
    verifier_FinishAssertion (ce_userID c) creds (ce_sessionJSON c) assertion = Ok va ∧
    va_UserVerified va = true ∧ vd_Nonce v = ch_Nonce d ∧ vd_Method v = AuthMethodWebAuthnUV ∧
    vd_FounderID v = ce_founderID c ∧ ce_consumed c = false ∧ ce_kind c = ceremonyDecision ∧
    ∃ w0, w_db w0 = w_db w ∧ founderCredentials (ce_founderID c) w0 = (Ok creds, w0).

Lemma consume_db id kind w r w' : consumeCeremony id kind w = (r, w') → w_db w' = w_db w.
Proof.
  unfold consumeCeremony. intros E. rewrite gets_then in E.
  destruct (w_ceremonies w !! id) as [c|]; [|by injection E as _ <-].
  op_inv_step E; [|by injection E as _ <-]. rewrite now_then in E. op_inv E; done.
Qed.

Lemma founderCredentials_reads id w creds w' :
  founderCredentials id w = (Ok creds, w') → w' = w.
Proof.
  unfold founderCredentials. intros E. call_inv E El; [|discriminate E]. apply lift_inv in E as [_ ->].
  apply tx_Ok in El as (db & El & ->). unfold listWebAuthnCredentials in El.
  rewrite gets_then in El. injection El as _ <-. by destruct w.
Qed.

Lemma FinishDecision_verified p id purpose subj claims assertion w v w1 :
  FinishDecision p id purpose subj claims assertion w = (Ok v, w1) →
  decision_verified p id purpose subj claims assertion v w.
Proof.
  unfold FinishDecision. intros E. op_inv_step E; [|discriminate E].
  apply bind_Ok in E as (c1 & w2 & E1 & E). pose proof E1 as Edb%consume_db.
  pose proof E1 as Et. apply consumeCeremony_Ok in E1 as (c & Hc & -> & Hk & Hn & Hx & Hd).
  apply bind_Ok in E as (d & w3 & E1 & E). unfold lift in E1. injection E1 as E1 <-.
  change (ce_decision (c <| ce_consumed := true |>)) with (ce_decision c) in E1.
  destruct (ce_decision c) as [d'|] eqn:Ed; [|done]. injection E1 as ->.
  apply bind_Ok in E as (u & w3 & E1 & E). apply require_Ok in E1 as [Hb ->].
  apply bind_Ok in E as (t & w3 & E1 & E). unfold now in E1. injection E1 as <- <-.
  apply bind_Ok in E as (u' & w3 & E1 & E). apply require_Ok in E1 as [Hf ->].
  apply bind_Ok in E as (va & w3 & E1 & E).
  unfold verifyAssertion in E1. apply bind_Ok in E1 as (creds & w4 & Ecr & E1).
  pose proof Ecr as ->%founderCredentials_reads.
  apply bind_Ok in E1 as (va' & w5 & E2 & E1).
  destruct (verifier_FinishAssertion _ creds _ assertion) as [va0|] eqn:Eva; [|done].
  apply bind_Ok in E as (u2 & w6 & _ & E). apply bind_Ok in E as (t2 & w7 & _ & E).
  run_inv. exists c, d, creds, va.
  assert (w_ticks w2 = S (w_ticks w)) as Htick.
  { unfold consumeCeremony in Et. rewrite gets_then, Hc in Et. cbv beta iota in Et.
    rewrite require_then in Et by done.
    apply bind_Ok in Et as (t & w8 & E1 & Et). unfold now in E1. injection E1 as <- <-.
    case_decide; by run_inv. }
  rewrite Htick in Hf.
  split_and!; try done; try (apply dec_stable; tauto); try lia.
  by exists (w2 <| w_ticks := S (w_ticks w2) |>).
Qed.

(** A finish may leave the counters of passkeys higher, and its own ceremony
    removed. *)
Definition row_counts (r r' : option WebAuthnCredentialRecord) : Prop :=
  match r, r' with
  | Some r, Some r' => ∃ n, wc_SignCount r ≤ n ∧ r' = r <| wc_SignCount := n |>
  | None, None => True
  | _, _ => False
  end.
Definition counts_up (db db' : DB) : Prop :=
  db' = db <| db_webauthn_credentials := db_webauthn_credentials db' |> ∧
  ∀ k, row_counts (db_webauthn_credentials db !! k) (db_webauthn_credentials db' !! k).
Definition finish_frame (id : string) (w w' : World) : Prop :=
  counts_up (w_db w) (w_db w') ∧ w_calls w' = w_calls w ∧
  ∀ id', id' ≠ id → w_ceremonies w' !! id' = w_ceremonies w !! id'.

Lemma row_counts_refl r : row_counts r r.
Proof. destruct r as [r|]; [|done]. exists (wc_SignCount r). split; [lia|by destruct r]. Qed.

#[export] Instance counts_up_preorder : PreOrder counts_up.
Proof.
  split.
  - intros db. split; [by destruct db|]. intros k. apply row_counts_refl.
  - intros a b c [E1 H1] [E2 H2]. split; [rewrite E2 at 1; by rewrite E1|]. intros k.
    specialize (H1 k). specialize (H2 k). unfold row_counts in *.
    destruct (db_webauthn_credentials a !! k), (db_webauthn_credentials b !! k),
      (db_webauthn_credentials c !! k); try done.
    destruct H1 as (n & Hn & ->), H2 as (m & Hm & ->). exists m. cbn in *. split; [lia|done].
Qed.
#[export] Instance finish_frame_preorder id : PreOrder (finish_frame id).
Proof.
  split; [intros w; by split|]. intros a b c (A1 & A2 & A3) (B1 & B2 & B3).
  split_and!; [by etrans|congruence|]. intros id' Hne. by rewrite B3, A3.
Qed.

Lemma finish_frame_tx {A} id (fn : Tx A) : within counts_up fn → within (finish_frame id) (tx fn).
Proof.
  intros Hf w [a|e] w' E; [apply tx_Ok in E as (db & E & ->)|by apply tx_Err in E as [_ ->]].
  split_and!; [|done|done]. by eapply Hf.
Qed.

Lemma counts_up_sign ws id n : within counts_up (updateWebAuthnCredentialSignCount ws id n).
Proof.
  intros db r db' E. unfold updateWebAuthnCredentialSignCount in E. rewrite gets_then in E.
  destruct (db_webauthn_credentials db !! _) as [old|] eqn:Eo; [|by injection E as <- <-].
  op_inv_step E; [|by injection E as <- <-]. injection E as <- <-. split; [done|]. intros k. cbn.
  destruct (decide (k = (ws, id))) as [->|Hne].
  - rewrite lookup_insert_eq, Eo. cbn. exists n. split; [lia|done].
  - rewrite lookup_insert_ne by done. apply row_counts_refl.
Qed.

Lemma finish_frames p id purpose subj claims assertion :
  within (finish_frame id) (FinishDecision p id purpose subj claims assertion).
Proof.
  assert (within (finish_frame id) now) as Hnow by (intros v rv v' E; by injection E as <- <-).
  assert (within (finish_frame id) (modify (λ w, w <| w_ceremonies := delete id (w_ceremonies w) |>))) as Hdel.
  { intros v rv v' E. injection E as <- <-. split_and!; [done|done|]. intros id' Hne. cbn.
    by rewrite lookup_delete_ne. }
  unfold FinishDecision, consumeCeremony, verifyAssertion, founderCredentials.
  repeat (first [apply Hnow|apply Hdel|apply finish_frame_tx, counts_up_sign
    |apply finish_frame_tx; intros ??? E; by injection E as <- <-
    |solve [auto with within typeclass_instances]|within_step]).
Qed.

(** C28: a decision challenge authorises exactly what it was begun for, once.
    A finish succeeds only for a stored decision ceremony that is live, not
    consumed, and of the same workspace, session, subject and purpose, whose
    digest is that of the presented claims, with a passkey authentication at
    most five minutes old and an assertion the verifier accepted, with user
    verification, against the founder's stored passkeys.  An attempt with a
    valid purpose on such a ceremony, whatever its outcome, removes it, and
    without the ceremony every attempt reports the challenge unknown and
    changes nothing.  No attempt calls AuthScope or touches another ceremony,
    and the database changes in nothing but the signature counters of
    passkeys, which only go up. *)
Theorem FinishDecision_single_use p id purpose subj claims assertion w r w1 :
  FinishDecision p id purpose subj claims assertion w = (r, w1) →
  (∀ v, r = Ok v → validDecisionPurpose purpose ∧ w_ceremonies w1 !! id = None ∧
     ∃ c d creds va w0, w_ceremonies w !! id = Some c ∧ ce_decision c = Some d ∧
       ce_consumed c = false ∧ ce_kind c = ceremonyDecision ∧
       ch_WorkspaceID d = p_WorkspaceID p ∧ ch_WorkspaceID d = instance_WorkspaceID ∧
       ch_SessionID d = p_SessionID p ∧ ch_SubjectID d = subj ∧ ch_Purpose d = purpose ∧
       ch_Digest d = Sum256 claims ∧ clock (w_ticks w) < ce_expiresAt c ∧
       clock (S (w_ticks w)) - p_AuthTime p ≤ decisionAuthFreshness ∧
       w_db w0 = w_db w ∧ founderCredentials (ce_founderID c) w0 = (Ok creds, w0) ∧
       verifier_FinishAssertion (ce_userID c) creds (ce_sessionJSON c) assertion = Ok va ∧
       va_UserVerified va = true ∧ vd_Nonce v = ch_Nonce d ∧ vd_Method v = AuthMethodWebAuthnUV ∧
       vd_FounderID v = ce_founderID c) ∧
  (∀ c, validDecisionPurpose purpose → w_ceremonies w !! id = Some c → ce_consumed c = false →
     ce_kind c = ceremonyDecision → w_ceremonies w1 !! id = None) ∧
  (∀ p' purpose' subj' claims' assertion' w2, validDecisionPurpose purpose' →
     w_ceremonies w2 !! id = None →
     FinishDecision p' id purpose' subj' claims' assertion' w2 = (Err ErrCeremonyNotFound, w2)) ∧
  finish_frame id w w1.
Proof.
  intros E.
  assert (∀ c, validDecisionPurpose purpose → w_ceremonies w !! id = Some c → ce_consumed c = false →
     ce_kind c = ceremonyDecision → w_ceremonies w1 !! id = None) as Hcons.
  { intros c Hp Hc Hn Hk. eapply FinishDecision_consumes; [exact Hp|exact E|]. intros c2 Hc2.
    rewrite Hc in Hc2. by injection Hc2 as <-. }
  split_and!; [|exact Hcons| |by eapply finish_frames].
  - intros v ->. assert (validDecisionPurpose purpose) as Hp.
    { apply dec_stable. intros N. unfold FinishDecision in E. by rewrite require_else in E. }
    apply FinishDecision_verified in E
      as (c & d & creds & va & Hc & ? & ? & ? & ? & ? & ? & ? & ? & ? & ? & ? & ? & ? & ? & Hn & Hk & w0 & ? & ?).
    split; [done|]. split; [by eapply Hcons|]. exists c, d, creds, va, w0. by split_and!.
  - intros p' purpose' subj' claims' assertion' w2 Hp' Hno. by apply FinishDecision_unknown.
Qed.
End theorems.

Lemma FinishDecision_single_use_witness :
  let w0 := start bench_DB in
  let w := (@BeginDecision bench_env bench_principal DecisionPassApproval "pass-1" "claims" w0).2 in
  let id := hex (of_bytes (replicate 16 2)) in
  let w1 := (@FinishDecision bench_env bench_principal id DecisionPassApproval "pass-1" "claims"
               "good" w).2 in
  is_ok (@FinishDecision bench_env bench_principal id DecisionPassApproval "pass-1" "claims"
           "good" w).1 = true ∧
  @FinishDecision bench_env bench_principal id DecisionPassApproval "pass-1" "claims" "good" w1 =
    (Err ErrCeremonyNotFound, w1).
Proof.
  intros w0 w id w1. split; [vm_compute; reflexivity|].
  destruct (FinishDecision_single_use (H := bench_env) bench_principal id DecisionPassApproval "pass-1"
    "claims" "good" w
    (@FinishDecision bench_env bench_principal id DecisionPassApproval "pass-1" "claims" "good" w).1
    w1 (surjective_pairing _)) as (Hok & _ & Hno & _).
  destruct (@FinishDecision bench_env bench_principal id DecisionPassApproval "pass-1" "claims" "good" w).1
    as [v|e] eqn:Er; [|vm_compute in Er; discriminate Er].
  apply Hno; [left; reflexivity|]. apply (Hok v eq_refl).
Defined.
