(* ===== verification/Source.v ===== *)
(** * Trusted sources (src/internal/github/source.go)

    [ReadIssue] and [CheckPosture]: what OPE accepts from AuthScope about
    the issue a pass is made for and the repository's workflow posture, with
    the helpers of handoff.go they use. *)

From S2P Require Import Prelude GoTime Sha256 StoreModel StoreAuth StoreGithub PassModel World Bench.

(** ** Text *)

(** The UTF-8 encodings of the characters [unicode.IsSpace] accepts. *)
Definition space_runes : list (list Z) :=
  ((λ b, [b]) <$> [9; 10; 11; 12; 13; 32]) ++ [[194; 133]; [194; 160]; [225; 154; 128]] ++
  ((λ b, [226; 128; b]) <$> [128; 129; 130; 131; 132; 133; 134; 135; 136; 137; 138; 168; 169; 175])
  ++ [[226; 129; 159]; [227; 128; 128]].

Fixpoint strip (p l : list Z) : option (list Z) :=
  match p, l with
  | [], _ => Some l
  | a :: p', b :: l' => if decide (a = b) then strip p' l' else None
  | _ :: _, [] => None
  end.

(** The rest of [l] after one leading element of [runes]. *)
Definition strip_any (runes : list (list Z)) (l : list Z) : option (list Z) :=
  foldr (λ p acc, match strip p l with Some r => Some r | None => acc end) None runes.

Fixpoint trim_with (runes : list (list Z)) (fuel : nat) (l : list Z) : list Z :=
  match fuel with
  | O => l
  | S n => match strip_any runes l with Some r => trim_with runes n r | None => l end
  end.

Definition trim_bytes (l : list Z) : list Z :=
  let left := trim_with space_runes (length l) l in
  rev (trim_with ((λ r, rev r) <$> space_runes) (length left) (rev left)).

(** [strings.TrimSpace] *)
Definition TrimSpace (s : string) : string := of_bytes (trim_bytes (bytes_of s)).

(** [strings.Fields]: the maximal runs without white space. *)
Fixpoint fields_go (fuel : nat) (word : list Z) (l : list Z) : list (list Z) :=
  let flush := if decide (word = []) then [] else [rev word] in
  match fuel with
  | O => flush
  | S n =>
      match l with
      | [] => flush
      | b :: l' =>
          match strip_any space_runes l with
          | Some r => (flush ++ fields_go n [] r)%list
          | None => fields_go n (b :: word) l'
          end
      end
  end.
Definition Fields (s : string) : list string :=
  let l := bytes_of s in of_bytes <$> fields_go (S (length l)) [] l.

(** [strings.Split(s, "\n")] *)
Fixpoint split_lines (word : list Z) (l : list Z) : list (list Z) :=
  match l with
  | [] => [rev word]
  | b :: l' => if decide (b = 10) then rev word :: split_lines [] l' else split_lines (b :: word) l'
  end.

Definition check_prefixes : list string :=
  ["- [ ]"; "- [x]"; "- [X]"; "* [ ]"; "* [x]"; "* [X]"].

(** The text of a task-list item, or the empty string. *)
Definition task_item (line : list Z) : list Z :=
  match strip_any (bytes_of <$> check_prefixes) (trim_bytes line) with
  | Some rest => trim_bytes rest
  | None => []
  end.

Fixpoint collect_criteria (criteria : list (list Z)) (lines : list (list Z)) : list (list Z) :=
  match lines with
  | [] => criteria
  | line :: lines' =>
      let item := task_item line in
      if decide (item = [] ∨ 50 ≤ length criteria)%nat then collect_criteria criteria lines' else
      let item := take 500 item in
      if decide (item ∈ criteria) then collect_criteria criteria lines'
      else collect_criteria (criteria ++ [item])%list lines'
  end.

Definition normalizeIssueContent (title body : string) : string * list string :=
  (String.concat " " (Fields title),
   of_bytes <$> collect_criteria [] (split_lines [] (bytes_of body))).

(** ** Identifiers *)


Fixpoint parse_digits (n : Z) (l : list Z) : res Z :=
  match l with
  | [] => Ok n
  | c :: l' =>
      if decide (c < 48 ∨ 57 < c) then Err ErrSourceInput else
      let n := int64 (n * 10 + (c - 48)) in
      if decide (n < 0) then Err ErrSourceInput else parse_digits n l'
  end.

Definition parseGitHubID (s : string) : res Z :=
  let s := trim_bytes (bytes_of s) in
  _ ← require_res (s ≠ []) ErrSourceInput;
  n ← parse_digits 0 s;
  _ ← require_res (¬ n ≤ 0) ErrSourceInput;
  Ok n.

Definition sortedUnique (l : list string) : list string := merge_sort str_le (remove_dups l).

(** [shaPattern] on the lower-cased text. *)
Definition shaPattern (s : string) : Prop :=
  (String.length s = 40%nat ∨ String.length s = 64%nat) ∧ all_lower_hex s = true.
#[export] Instance shaPattern_dec s : Decision (shaPattern s).
Proof. unfold shaPattern. apply _. Defined.

(** ** Snapshots and posture *)

Record IssueSnapshot := MkIssueSnapshot {
  is_WorkspaceID : string;
  is_RepositoryBinding : string;
  is_InstallationID : Z;
  is_RepositoryID : Z;
  is_RepositoryFullName : string;
  is_IssueNumber : Z;
  is_SourceRevision : string;
  is_SourceDigest : string;
  is_DefaultBranch : string;
  is_BaseSHA : string;
  is_Objective : string;
  is_AcceptanceCriteria : list string
}.

Definition checkIssueSnapshot (workspaceID bindingID : string) (issueNumber : Z)
    (snap : GitHubIssueSnapshot) (now : time) : res unit :=
  _ ← require_res (gs_WorkspaceID snap = workspaceID) ErrSourceInput;
  _ ← require_res (gs_BindingID snap = bindingID) ErrSourceInput;
  _ ← require_res (gs_IssueNumber snap = issueNumber) ErrSourceInput;
  _ ← require_res (gs_State snap = "open") ErrIssueUnavailable;
  _ ← require_res (TrimSpace (gs_Title snap) ≠ "") ErrSourceInput;
  _ ← require_res (TrimSpace (gs_BaseRef snap) ≠ "") ErrSourceInput;
  _ ← require_res (shaPattern (ToLower (gs_BaseSHA snap))) ErrSourceInput;
  _ ← require_res (TrimSpace (gs_SourceRevision snap) ≠ "") ErrSourceInput;
  _ ← require_res (canonicalDigest (gs_CanonicalDigest snap)) ErrSourceInput;
  _ ← require_res (¬ gs_SnapshotAt snap ≤ 0) ErrSourceInput;
  require_res (¬ After (Unix (gs_SnapshotAt snap)) (now + 5 * Minute)) ErrSourceInput.

Definition WorkflowPostureClean : string := "clean".
Definition WorkflowPostureRisky : string := "risky".
Definition known_risk (r : string) : Prop :=
  r = "secret_access" ∨ r = "write_token" ∨ r = "deployment_target".
#[export] Instance known_risk_dec r : Decision (known_risk r).
Proof. unfold known_risk. apply _. Defined.

Definition checkWorkflowPosture (p : WorkflowPosture) : res unit :=
  _ ← require_res (wo_Posture p = WorkflowPostureClean ∨ wo_Posture p = WorkflowPostureRisky)
        ErrSourceInput;
  _ ← require_res (Forall (λ f, TrimSpace (wf_Path f) ≠ "" ∧ known_risk (wf_Risk f))
                     (wo_Findings p)) ErrSourceInput;
  _ ← require_res (¬ (wo_Posture p = WorkflowPostureClean ∧ wo_Findings p ≠ [])) ErrSourceInput;
  require_res (¬ (wo_Posture p = WorkflowPostureRisky ∧ wo_Findings p = [])) ErrSourceInput.

(** [byPath]: the last finding of a path wins. *)
Definition risk_of (path : string) (fs : list WorkflowFinding) : string :=
  foldl (λ acc f, if decide (wf_Path f = path) then wf_Risk f else acc) "" fs.

Definition nl : string := String (byte_of 10) "".

Definition postureDigest (p : WorkflowPosture) : string :=
  tagged_digest (wo_BindingID p +:+ nl +:+ wo_Ref p +:+ nl +:+
    itoa (wo_WorkflowsInspected p) +:+ nl +:+
    foldr (λ path rest, path +:+ nl +:+ risk_of path (wo_Findings p) +:+ nl +:+ rest) ""
      (sortedUnique (wf_Path <$> wo_Findings p)) +:+ wo_Posture p).

Definition postureTTL : Z := Hour.

(** ** The source service *)

Section source.
Context `{Env}.

Definition source_opts (workspaceID : string) : RequestOptions := opts_for workspaceID "" "".

Definition verifiedBinding (workspaceID : string) (conn : ConnectionRecord)
    : M RepositoryBinding :=
  r ← try (call_GetRepositoryBinding (co_RepositoryBindingRef conn) (source_opts workspaceID));
  binding ← match r with
            | Ok b => mret b
            | Err e => if decide (e = ErrUpstreamStatus 404) then fail ErrBindingRevoked else fail e
            end;
  _ ← require (rb_WorkspaceID binding = workspaceID) ErrWorkspaceMismatch;
  repositoryID ← lift (parseGitHubID (rb_RepositoryID binding));
  _ ← require (repositoryID = co_RepositoryID conn) ErrRepositoryChanged;
  mret binding.

Definition ReadIssue (workspaceID : string) (conn : ConnectionRecord) (issueNumber : Z)
    (expectedSourceRevision expectedBaseSHA : string) : M IssueSnapshot :=
  _ ← require (workspaceID ≠ "" ∧ co_ConnectionID conn ≠ "" ∧ co_RepositoryBindingRef conn ≠ "")
        ErrSourceInput;
  _ ← require (co_WorkspaceID conn = workspaceID) ErrWorkspaceMismatch;
  _ ← require (0 < issueNumber) ErrSourceInput;
  binding ← verifiedBinding workspaceID conn;
  r ← try (call_ReadGitHubIssue (MkGitHubIssueRequest (co_RepositoryBindingRef conn) issueNumber)
             (source_opts workspaceID));
  snap ← match r with
         | Ok s => mret s
         | Err e => if decide (e = ErrUpstreamStatus 404) then fail ErrIssueUnavailable else fail e
         end;
  t ← now;
  _ ← lift (checkIssueSnapshot workspaceID (co_RepositoryBindingRef conn) issueNumber snap t);
  _ ← require (¬ (expectedSourceRevision ≠ "" ∧ gs_SourceRevision snap ≠ expectedSourceRevision))
        ErrStaleSourceRevision;
  _ ← require (¬ (expectedBaseSHA ≠ "" ∧ gs_BaseSHA snap ≠ expectedBaseSHA)) ErrStaleBaseSHA;
  installationID ← lift (parseGitHubID (rb_InstallationID binding));
  let content := normalizeIssueContent (gs_Title snap) (gs_Body snap) in
  mret (MkIssueSnapshot workspaceID (co_RepositoryBindingRef conn) installationID
          (co_RepositoryID conn) (rb_Repository binding) issueNumber (gs_SourceRevision snap)
          (gs_CanonicalDigest snap) (gs_BaseRef snap) (gs_BaseSHA snap) content.1 content.2).

Definition CheckPosture (workspaceID : string) (conn : ConnectionRecord) (ref headSHA : string)
    : M WorkflowPostureRecord :=
  _ ← require (workspaceID ≠ "" ∧ co_ConnectionID conn ≠ "" ∧ co_RepositoryBindingRef conn ≠ "")
        ErrSourceInput;
  _ ← require (co_WorkspaceID conn = workspaceID) ErrWorkspaceMismatch;
  _ ← require (ref ≠ "" ∧ (String.length ref ≤ 256)%nat) ErrSourceInput;
  _ ← require (shaPattern (ToLower headSHA)) ErrSourceInput;
  _ ← verifiedBinding workspaceID conn;
  posture ← call_InspectWorkflowPosture
              (MkWorkflowPostureRequest (co_RepositoryBindingRef conn) ref)
              (source_opts workspaceID);
  _ ← require (wo_BindingID posture = co_RepositoryBindingRef conn) ErrSourceInput;
  _ ← require (wo_Ref posture = ref) ErrSourceInput;
  _ ← lift (checkWorkflowPosture posture);
  t ← now;
  let rec := MkWorkflowPostureRecord workspaceID (co_ConnectionID conn) ref
               (postureDigest posture) (ToLower headSHA) (wo_Posture posture)
               (sortedUnique (wf_Risk <$> wo_Findings posture)) (t + postureTTL) t in
  _ ← tx (putWorkflowPosture rec);
  mret rec.
End source.

(** ** Identifiers parse exactly inside the machine range *)

Definition digits_value (l : list Z) : Z := foldl (λ n c, n * 10 + (c - 48)) 0 l.

Lemma foldl_digits_ge l n : 0 ≤ n → Forall (λ c, 48 ≤ c ≤ 57) l →
  n ≤ foldl (λ n c, n * 10 + (c - 48)) n l.
Proof.
  intros Hn Hl. revert n Hn. induction Hl as [|c l Hc _ IH]; intros n Hn; [done|]. cbn.
  transitivity (n * 10 + (c - 48)); [lia|]. apply IH. lia.
Qed.

Lemma parse_digits_exact l n : 0 ≤ n → Forall (λ c, 48 ≤ c ≤ 57) l →
  foldl (λ n c, n * 10 + (c - 48)) n l < 2 ^ 63 →
  parse_digits n l = Ok (foldl (λ n c, n * 10 + (c - 48)) n l).
Proof.
  intros Hn Hl. revert n Hn. induction Hl as [|c l Hc Hl IH]; intros n Hn Hv; [done|].
  cbn [parse_digits foldl] in *. rewrite decide_False by lia.
  pose proof (foldl_digits_ge l (n * 10 + (c - 48)) ltac:(lia) Hl).
  rewrite int64_small by lia. rewrite decide_False by lia. apply IH; [lia|done].
Qed.

(** An ID past the machine range is not rejected but wraps around: the
    decimal 2^64 + 1 is accepted as repository 1. *)
Theorem parseGitHubID_wraps : parseGitHubID "18446744073709551617" = Ok 1.
Proof. vm_compute. reflexivity. Qed.

(** Numeric GitHub identifiers are parsed exactly inside the machine
    range: a decimal without surrounding space whose value is between 1 and
    2^63 - 1 parses to that value, and anything that is not all digits, or
    is zero, is rejected as invalid input. *)
Theorem parseGitHubID_exact s l :
  bytes_of s = l → trim_bytes l = l → l ≠ [] →
  (Forall (λ c, 48 ≤ c ≤ 57) l → 1 ≤ digits_value l < 2 ^ 63 →
     parseGitHubID s = Ok (digits_value l)) ∧
  (¬ Forall (λ c, 48 ≤ c ≤ 57) l → parseGitHubID s = Err ErrSourceInput) ∧
  (Forall (λ c, c = 48) l → parseGitHubID s = Err ErrSourceInput).
Proof.
  intros <- Ht Hne.
  assert (parseGitHubID s = n ← parse_digits 0 (bytes_of s);
            _ ← require_res (¬ n ≤ 0) ErrSourceInput; Ok n) as ->.
  { unfold parseGitHubID. rewrite Ht. cbv zeta. by rewrite require_res_then. }
  split_and!.
  - intros Hd Hv. unfold digits_value in *. rewrite parse_digits_exact by (done || lia).
    etransitivity; [apply require_res_then; lia|done].
  - intros Hn. assert (∀ n, parse_digits n (bytes_of s) = Err ErrSourceInput) as Hp; [|by rewrite Hp].
    clear Ht Hne. induction (bytes_of s) as [|c l IH]; intros n; [by destruct Hn|].
    cbn. destruct (decide (c < 48 ∨ 57 < c)) as [|D]; [done|].
    destruct (decide _); [done|]. apply IH. intros Hl. apply Hn. constructor; [lia|done].
  - intros Hz. assert (parse_digits 0 (bytes_of s) = Ok 0) as ->; [|done].
    clear Ht Hne. induction Hz as [|c l -> _ IH]; [done|]. cbn. exact IH.
Qed.

Lemma parseGitHubID_exact_witness : parseGitHubID "9007199254740993" = Ok 9007199254740993.
Proof.
  apply (parseGitHubID_exact "9007199254740993" (bytes_of "9007199254740993")).
  - reflexivity.
  - vm_compute. reflexivity.
  - discriminate.
  - vm_compute. repeat constructor; discriminate.
  - vm_compute. split; [discriminate|reflexivity].
Defined.

(** ** Trusted reads *)

Definition only_reads (w w' : World) : Prop :=
  ∃ l, w_calls w' = (l ++ w_calls w)%list ∧ Forall (λ c, ¬ is_mutation c) l.

#[export] Instance only_reads_preorder : PreOrder only_reads.
Proof.
  split.
  - intros w. by exists [].
  - intros w1 w2 w3 (l1 & E1 & F1) (l2 & E2 & F2). exists (l2 ++ l1)%list.
    rewrite E2, E1, app_assoc. split; [done|]. by apply Forall_app.
Qed.

(** Everything the trusted reads leave alone. *)
Definition source_frame (w w' : World) : Prop :=
  only_reads w w' ∧ w_approvals w' = w_approvals w ∧ w_revocations w' = w_revocations w ∧
  w_decisions w' = w_decisions w ∧ w_ceremonies w' = w_ceremonies w ∧ w_gate w' = w_gate w ∧
  w_db w' = (w_db w) <| db_github_posture_checks := db_github_posture_checks (w_db w') |>.

#[export] Instance source_frame_preorder : PreOrder source_frame.
Proof.
  split.
  - intros w. split_and!; try done. by destruct (w_db w).
  - intros w1 w2 w3 (A0&A1&A2&A3&A4&A5&A6) (B0&B1&B2&B3&B4&B5&B6).
    split_and!; try congruence; [by etransitivity|]. rewrite B6 at 1. by rewrite A6.
Qed.

Section frames.
Context `{Env}.

Lemma source_upstream {A} c (reply : list call → res A) :
  ¬ is_mutation c → within source_frame (upstream c reply).
Proof.
  intros Hc w r w' E. injection E as <- <-. unfold source_frame. split_and!; try done.
  - exists [c]. split; [done|]. by repeat constructor.
  - cbn. by destruct (w_db w).
Qed.

Lemma source_now : within source_frame now.
Proof.
  intros w r w' E. injection E as <- <-. unfold source_frame.
  split_and!; try done; [by exists []|cbn; by destruct (w_db w)].
Qed.

Lemma source_tx_posture rec : within source_frame (tx (putWorkflowPosture rec)).
Proof.
  intros w r w' E. destruct r as [a|e]; [|apply tx_Err in E as [_ ->]; reflexivity].
  apply tx_Ok in E as (db & E & ->). unfold source_frame. split_and!; try done; [by exists []|cbn].
  unfold putWorkflowPosture in E. op_inv E; by destruct (w_db w).
Qed.
End frames.
#[export] Hint Resolve source_now source_tx_posture : within.
#[export] Hint Extern 1 (within source_frame (upstream _ _)) =>
  apply source_upstream; cbn; tauto : within.
#[export] Hint Unfold call_GetRepositoryBinding call_ReadGitHubIssue call_InspectWorkflowPosture
  : within.

Lemma within_verifiedBinding `{Env} ws conn : within source_frame (verifiedBinding ws conn).
Proof. unfold verifiedBinding, call_GetRepositoryBinding. within_auto. Qed.
#[export] Hint Resolve within_verifiedBinding : within.

Lemma within_ReadIssue `{Env} ws conn n rev sha :
  within source_frame (ReadIssue ws conn n rev sha).
Proof. unfold ReadIssue, call_ReadGitHubIssue. within_auto. Qed.

Lemma within_CheckPosture `{Env} ws conn ref sha :
  within source_frame (CheckPosture ws conn ref sha).
Proof. unfold CheckPosture, call_InspectWorkflowPosture. within_auto. Qed.
#[export] Hint Resolve within_ReadIssue within_CheckPosture : within.

(** ** What a trusted read establishes *)

Lemma verifiedBinding_Ok `{Env} ws conn w b w' :
  verifiedBinding ws conn w = (Ok b, w') →
  let ref := co_RepositoryBindingRef conn in
  reply_GetRepositoryBinding (w_calls w) ref (source_opts ws) = Ok b ∧
  w' = w <| w_calls := GetRepositoryBinding ref (source_opts ws) :: w_calls w |> ∧
  rb_WorkspaceID b = ws ∧ parseGitHubID (rb_RepositoryID b) = Ok (co_RepositoryID conn).
Proof.
  intros E ref. unfold verifiedBinding, call_GetRepositoryBinding in E. try_inv E E1.
  rewrite upstream_run in E1. injection E1 as Er <-.
  match type of E with (match ?r with _ => _ end ≫= _) _ = _ => destruct r as [b0|e] end; cbv beta iota in E.
  - do 2 op_inv_step E; [|discriminate E]. op_inv E; split_and!; try done; congruence.
  - case_decide; discriminate E.
Qed.

(** The caller's pins hold of a snapshot it receives. *)
Lemma ReadIssue_pinned `{Env} ws conn n rev sha w s w' :
  ReadIssue ws conn n rev sha w = (Ok s, w') →
  (rev ≠ "" → is_SourceRevision s = rev) ∧ (sha ≠ "" → is_BaseSHA s = sha).
Proof.
  intros E. unfold ReadIssue in E. do 3 (op_inv_step E; [|discriminate E]).
  call_inv E E1; [|discriminate E]. try_inv E E2. call_inv E E3; [|discriminate E].
  rewrite now_then in E. do 4 (op_inv_step E; [|discriminate E]). injection E as <- <-.
  split; intros ?; apply dec_stable; cbn; tauto.
Qed.

(** An issue snapshot OPE builds a pass on is exactly the pinned issue.
    When [ReadIssue] succeeds, the binding AuthScope returned is of the
    workspace and of the numeric repository the connection pins; the issue
    snapshot is of that workspace, binding and number, open, with a full
    lower-case-able base SHA and a canonical digest, taken not more than five
    minutes in the future; it has the expected revision and base SHA where
    the caller gave them; and the result carries its revision, digest and base
    SHA unchanged.  The calls made are exactly those two reads, and the
    database does not change. *)
Theorem ReadIssue_sound `{Env} ws conn n rev sha w s w' :
  ReadIssue ws conn n rev sha w = (Ok s, w') →
  let ref := co_RepositoryBindingRef conn in
  let c1 := GetRepositoryBinding ref (source_opts ws) in
  let c2 := ReadGitHubIssue (MkGitHubIssueRequest ref n) (source_opts ws) in
  ∃ b g t,
    reply_GetRepositoryBinding (w_calls w) ref (source_opts ws) = Ok b ∧
    reply_ReadGitHubIssue (c1 :: w_calls w) (MkGitHubIssueRequest ref n) (source_opts ws) = Ok g ∧
    rb_WorkspaceID b = ws ∧ co_WorkspaceID conn = ws ∧
    parseGitHubID (rb_RepositoryID b) = Ok (co_RepositoryID conn) ∧
    gs_WorkspaceID g = ws ∧ gs_BindingID g = ref ∧ gs_IssueNumber g = n ∧ 0 < n ∧
    gs_State g = "open" ∧ shaPattern (ToLower (gs_BaseSHA g)) ∧
    canonicalDigest (gs_CanonicalDigest g) ∧ Unix (gs_SnapshotAt g) ≤ t + 5 * Minute ∧
    (rev ≠ "" → gs_SourceRevision g = rev) ∧ (sha ≠ "" → gs_BaseSHA g = sha) ∧
    is_WorkspaceID s = ws ∧ is_RepositoryID s = co_RepositoryID conn ∧ is_IssueNumber s = n ∧
    is_SourceRevision s = gs_SourceRevision g ∧ is_SourceDigest s = gs_CanonicalDigest g ∧
    is_BaseSHA s = gs_BaseSHA g ∧
    w_calls w' = c2 :: c1 :: w_calls w ∧ w_db w' = w_db w.
Proof.
  intros E ref c1 c2. unfold ReadIssue in E. op_inv_step E; [|discriminate E].
  op_inv_step E; [|discriminate E]. op_inv_step E; [|discriminate E].
  call_inv E E1; [|discriminate E].
  match type of E1 with _ = (Ok ?x, _) => rename x into b end. apply verifiedBinding_Ok in E1 as (Hb & -> & Hws & Hid).
  unfold call_ReadGitHubIssue in E. try_inv E E1. rewrite upstream_run in E1.
  injection E1 as Er <-.
  match type of E with (match ?r with _ => _ end ≫= _) _ = _ => destruct r as [g|e] end;
    cbv beta iota in E; [|case_decide; discriminate E].
  op_inv_step E. rewrite now_then in E. op_inv_step E; [|discriminate E]. rename E0 into E1.
  unfold checkIssueSnapshot in E1.
  repeat (apply res_bind_Ok in E1 as ([] & ?%require_res_inv & E1)). apply require_res_inv in E1.
  op_inv_step E; [|discriminate E]. op_inv_step E; [|discriminate E].
  op_inv_step E; [|discriminate E]. injection E as <- <-. exists b, g, (clock (w_ticks w)). unfold After in *.
  split_and!; try done; try lia; try (by apply Z.nlt_ge); try (intros ?; apply dec_stable; tauto).
Qed.

Lemma ReadIssue_sound_witness :
  let conn := default zero_ConnectionRecord (db_github_connections bench_DB !! ("ws", "conn")) in
  ∃ s w', @ReadIssue bench_env "ws" conn 5 "rev-1" "" (start bench_DB) = (Ok s, w') ∧
    w_db w' = bench_DB.
Proof.
  intros conn. destruct (@ReadIssue bench_env "ws" conn 5 "rev-1" "" (start bench_DB)) as [[s|e] w'] eqn:E.
  - destruct (ReadIssue_sound (H := bench_env) "ws" conn 5 "rev-1" "" (start bench_DB) s w' E)
      as (b & g & t & P). exists s, w'. split; [reflexivity|]. apply P.
  - exfalso. assert (is_ok (@ReadIssue bench_env "ws" conn 5 "rev-1" "" (start bench_DB)).1 = true) as F
      by (vm_compute; reflexivity). rewrite E in F. discriminate F.
Defined.
