(* ===== verification/Proposal.v ===== *)
(** * Mission proposals (src/internal/missionpass/proposal.go)

    Opening a draft for an issue and the two founder edits on it: the
    request-key claim, the trusted reads, shaping, the one proposal mutation
    with its reconciliation, and the compare-and-swap write of the revision. *)

From S2P Require Import Prelude GoTime Sha256 StoreModel StorePass.
From S2P Require Import StoreAuth StoreGithub PassModel World Bench Source.

(** ** The persisted pass *)

Record persistedPass := Mk_persistedPass {
  pp_ProposalRecord : ProposalRecord;
  pp_ConnectionID : string;
  pp_IssueNumber : Z;
  pp_RepositoryName : string;
  pp_Objective : string;
  pp_AcceptanceCriteria : list string;
  pp_ShapedDraftJSON : string
}.
#[export] Instance eta_persistedPass : Eta persistedPass := λ r, Mk_persistedPass
  (pp_ProposalRecord r) (pp_ConnectionID r) (pp_IssueNumber r) (pp_RepositoryName r)
  (pp_Objective r) (pp_AcceptanceCriteria r) (pp_ShapedDraftJSON r).

Definition zero_ProposalRecord : ProposalRecord :=
  MkProposalRecord "" "" 0 0 0 "" "" "" "" "" "" "" "" "" [] "" (MkEditableLimits zero_time 0)
    "" "" "" "" "" "" "".

(** The columns the service does not carry stay at their zero value. *)
Definition toStoreRecord (rec : persistedPass) : MissionPassRecord :=
  let r := pp_ProposalRecord rec in
  MkMissionPassRecord (pr_WorkspaceID r) (pr_PassID r) (pr_StoreRevision r) (pr_DraftVersion r)
    (pr_AuthScopeMissionVersion r) (pp_ConnectionID rec) (pp_IssueNumber rec)
    (pp_RepositoryName rec) (pr_ProposalID r) (pr_ProposalDigest r) (pr_ApprovedProposalDigest r)
    (pr_SourceRevision r) (pr_SourceDigest r) (pr_BaseSHA r) (pr_MissionBranch r)
    (pr_AgentKitID r) (pr_AgentKitVersion r) (pr_RunnerArguments r) (pr_InvocationDigest r)
    (li_ExpiresAt (pr_Limits r)) (li_MaxAggregateCostMicros (pr_Limits r)) (pp_Objective rec)
    (pp_AcceptanceCriteria rec) (pp_ShapedDraftJSON rec) (pr_State r) (pr_Reconciliation r)
    (pr_MissionRef r) (pr_MissionHash r) (pr_ApprovalDecisionRef r) (pr_AttestationDigest r)
    (pr_RunID r) "" zero_time zero_time zero_time.

Definition fromStoreRecord (stored : MissionPassRecord) : persistedPass :=
  Mk_persistedPass
    (MkProposalRecord (mp_WorkspaceID stored) (mp_PassID stored) (mp_StoreRevision stored)
       (mp_DraftVersion stored) (mp_AuthScopeMissionVersion stored) (mp_ProposalID stored)
       (mp_ProposalDigest stored) (mp_ApprovedProposalDigest stored) (mp_SourceRevision stored)
       (mp_SourceDigest stored) (mp_BaseSHA stored) (mp_MissionBranch stored)
       (mp_AgentKitID stored) (mp_AgentKitVersion stored) (mp_RunnerArguments stored)
       (mp_InvocationDigest stored)
       (MkEditableLimits (mp_ExpiresAt stored) (mp_MaxAggregateCostMicros stored))
       (mp_State stored) (mp_Reconciliation stored) (mp_MissionRef stored)
       (mp_MissionHash stored) (mp_ApprovalDecisionRef stored) (mp_AttestationDigest stored)
       (mp_RunID stored))
    (mp_ConnectionID stored) (mp_IssueNumber stored) (mp_RepositoryName stored)
    (mp_Objective stored) (mp_AcceptanceCriteria stored) (mp_ShapedDraftJSON stored).

(** ** Inputs *)

Record CreateProposalInput := MkCreateProposalInput {
  ci_ConnectionID : string;
  ci_IssueNumber : Z;
  ci_ExpiresAt : time;
  ci_MaxAggregateCostMicros : Z;
  ci_IdempotencyKey : string
}.

Record ReviseProposalInput := MkReviseProposalInput {
  ri_PassID : string;
  ri_ExpectedStoreRevision : Z;
  ri_ExpectedDraftVersion : Z;
  ri_ExpiresAt : time;
  ri_MaxAggregateCostMicros : Z
}.

Definition checkCreateInput (workspaceID actorID : string) (i : CreateProposalInput)
    (now : time) : res unit :=
  _ ← require_res (workspaceID ≠ "" ∧ actorID ≠ "" ∧ ci_ConnectionID i ≠ "") ErrInvalidInput;
  _ ← require_res (¬ ci_IssueNumber i ≤ 0) ErrInvalidInput;
  _ ← require_res (¬ (IsZero (ci_ExpiresAt i) ∨ ¬ After (ci_ExpiresAt i) now)) ErrInvalidInput;
  _ ← require_res (¬ After (ci_ExpiresAt i) (now + MaxTTL)) ErrInvalidInput;
  require_res (¬ (ci_MaxAggregateCostMicros i ≤ 0 ∨
                  MaxAggregateCostMicros < ci_MaxAggregateCostMicros i)) ErrInvalidInput.

Definition mapSourceError (e : err) : err :=
  if decide (e = ErrStaleSourceRevision ∨ e = ErrStaleBaseSHA) then ErrStaleSource else e.

Definition requestKeyDanglingAfter : Z := 10 * Minute.

Inductive reconcileOutcome := reconcileAbsent | reconcileCompleted | reconcileInflight.

(** [int64(expiry.Sub(now) / time.Second)] *)
Definition ttl_seconds (expiry now : time) : Z := Z.quot (expiry - now) Second.

Lemma ttl_seconds_pos expiry now : ¬ ttl_seconds expiry now ≤ 0 → now + Second ≤ expiry.
Proof. unfold ttl_seconds, Second. intros H. Z.to_euclidean_division_equations. lia. Qed.

Definition issue_title (snap : IssueSnapshot) : string :=
  "Issue #" +:+ itoa (is_IssueNumber snap) +:+ " (" +:+ is_RepositoryFullName snap +:+ ")".

Section service.
Context `{Env}.

Definition newPassID : M string := b ← randomBytes 16; mret (hex b).

(** ** Reads and the write *)

Definition LoadProposal (workspaceID passID : string) : M ProposalRecord :=
  stored ← tx (getMissionPass workspaceID passID);
  mret (pp_ProposalRecord (fromStoreRecord stored)).

Definition persist (rec : persistedPass) (expectedStoreRevision : Z) : M unit :=
  t ← now;
  tx (putMissionPass t (toStoreRecord rec) expectedStoreRevision).

(** Two looks at the row, with the timeout between them. *)
Definition awaitPassRow (workspaceID passID : string) : M ProposalRecord :=
  r ← try (LoadProposal workspaceID passID);
  match r with
  | Ok rec => mret rec
  | Err _ =>
      _ ← wait;
      r ← try (LoadProposal workspaceID passID);
      match r with
      | Ok rec => mret rec
      | Err _ => fail (ErrOther "missionpass: pass not yet visible")
      end
  end.

(** ** Claiming the request key *)

(** The tail of [claimRequestKey]: a fresh pass ID, the atomic claim, and
    the wait for the winner when the claim was lost. *)
Definition claimFresh (workspaceID key : string) : M (string * bool) :=
  passID ← newPassID;
  t ← now;
  winner ← tx (ClaimMissionPassRequestKey t workspaceID key passID);
  if decide (winner = passID) then mret (passID, false) else
  r ← try (awaitPassRow workspaceID winner);
  match r with
  | Ok _ => mret (winner, true)
  | Err _ => fail ErrDuplicateRequestInFlight
  end.

Definition claimRequestKey (workspaceID key : string) : M (string * bool) :=
  if decide (key = "") then (passID ← newPassID; mret (passID, false)) else
  existing ← tx (GetMissionPassIDByRequestKey workspaceID key);
  if decide (existing = "") then claimFresh workspaceID key else
  r ← try (LoadProposal workspaceID existing);
  match r with
  | Ok _ => mret (existing, true)
  | Err _ =>
      r ← try (awaitPassRow workspaceID existing);
      match r with
      | Ok _ => mret (existing, true)
      | Err _ =>
          claimedAt ← tx (GetMissionPassRequestKeyClaimedAt workspaceID key);
          t ← now;
          let age := Z.max 0 (t - claimedAt) in
          if decide (age < requestKeyDanglingAfter) then fail ErrDuplicateRequestInFlight else
          _ ← tx (DeleteMissionPassRequestKey workspaceID key);
          claimFresh workspaceID key
      end
  end.

(** ** Upstream *)

Definition shapeUpstream (workspaceID actorID : string) (snap : IssueSnapshot)
    (limits : EditableLimits) (ttlSeconds : Z) (idempotencyKey : string) : M MissionDraft :=
  shaped ← call_ShapeMission
    (MkShapeMissionRequest (issue_title snap) (is_Objective snap) (is_AcceptanceCriteria snap)
       (li_MaxAggregateCostMicros limits) ttlSeconds [])
    (opts_for workspaceID actorID idempotencyKey);
  _ ← lift (ValidateShaped shaped ttlSeconds (li_MaxAggregateCostMicros limits));
  mret shaped.

Definition reconcileOperation (workspaceID idempotencyKey : string) : M reconcileOutcome :=
  r ← try (call_ReconcileOperation idempotencyKey "" (opts_for workspaceID "" ""));
  match r with
  | Err e =>
      if decide (e = ErrUpstreamStatus 404) then mret reconcileAbsent
      else fail ErrPendingReconciliation
  | Ok op =>
      if decide (or_OperationID op = "" ∧ or_IdempotencyKey op = "") then mret reconcileAbsent
      else if decide (ToLower (or_Status op) = "completed") then mret reconcileCompleted
      else mret reconcileInflight
  end.

(** The request [createUpstream] sends, the first time and on a replay. *)
Definition proposal_request (snap : IssueSnapshot) (shaped : MissionDraft)
    (limits : EditableLimits) (ttlSeconds : Z) (key : string) : CreateProposalRequest :=
  MkCreateProposalRequest (issue_title snap) (is_Objective snap) (is_AcceptanceCriteria snap)
    (li_MaxAggregateCostMicros limits) ttlSeconds (md_InvocationDigest shaped) key.

Definition as_pending (p : persistedPass) : persistedPass :=
  p <| pp_ProposalRecord := (pp_ProposalRecord p) <| pr_Reconciliation := ReconciliationPending |> |>.

Definition createUpstream (workspaceID actorID : string) (snap : IssueSnapshot)
    (shaped : MissionDraft) (limits : EditableLimits) (ttlSeconds : Z) (idempotencyKey : string)
    (intent : persistedPass) (intentExpected : Z)
    : M (Proposal * ReconciliationState * Z) :=
  let req := proposal_request snap shaped limits ttlSeconds idempotencyKey in
  let opts := opts_for workspaceID actorID idempotencyKey in
  r ← try (call_CreateProposal req opts);
  match r with
  | Ok proposal =>
      _ ← lift (ValidateProposal shaped proposal);
      mret (proposal, ReconciliationSettled, intentExpected)
  | Err e =>
      if decide (isAmbiguousUpstream e) then
        _ ← persist (as_pending intent) intentExpected;
        outcome ← reconcileOperation workspaceID idempotencyKey;
        match outcome with
        | reconcileCompleted =>
            r ← try (call_CreateProposal req opts);
            match r with
            | Err _ => fail ErrPendingReconciliation
            | Ok replayed =>
                _ ← lift (ValidateProposal shaped replayed);
                mret (replayed, ReconciliationSettled, intentExpected + 1)
            end
        | reconcileInflight => fail ErrOperationInFlight
        | reconcileAbsent => fail ErrPendingReconciliation
        end
      else fail e
  end.

(** ** Opening a draft *)

Definition clean_posture (workspaceID : string) (conn : ConnectionRecord) (snap : IssueSnapshot)
    : M unit :=
  posture ← CheckPosture workspaceID conn (is_DefaultBranch snap) (is_BaseSHA snap);
  require (wp_Outcome posture = "clean") ErrUnsafePosture.

Definition shape_key (workspaceID passID : string) : string :=
  "missionpass-shape-" +:+ workspaceID +:+ "-" +:+ passID.
Definition proposal_key (workspaceID passID : string) (draftVersion : Z) : string :=
  "missionpass-proposal-" +:+ workspaceID +:+ "-" +:+ passID +:+ "-r" +:+ itoa draftVersion.

Definition create_intent (workspaceID passID : string) (i : CreateProposalInput)
    (snap : IssueSnapshot) (shaped : MissionDraft) (limits : EditableLimits) : persistedPass :=
  Mk_persistedPass
    (zero_ProposalRecord <| pr_WorkspaceID := workspaceID |> <| pr_PassID := passID |>
       <| pr_StoreRevision := 1 |> <| pr_DraftVersion := 1 |>
       <| pr_SourceRevision := is_SourceRevision snap |>
       <| pr_SourceDigest := is_SourceDigest snap |> <| pr_BaseSHA := is_BaseSHA snap |>
       <| pr_MissionBranch := MissionBranch passID (ci_IssueNumber i) |>
       <| pr_Limits := limits |> <| pr_State := PassDraft |>
       <| pr_Reconciliation := ReconciliationPending |>)
    (ci_ConnectionID i) (ci_IssueNumber i) (is_RepositoryFullName snap) (is_Objective snap)
    (is_AcceptanceCriteria snap) (md_CanonicalDraft shaped).

Definition created_record (workspaceID passID : string) (i : CreateProposalInput)
    (snap : IssueSnapshot) (limits : EditableLimits) (proposal : Proposal)
    (settled : ReconciliationState) (persistExpected : Z) : ProposalRecord :=
  zero_ProposalRecord <| pr_WorkspaceID := workspaceID |> <| pr_PassID := passID |>
    <| pr_StoreRevision := persistExpected + 1 |> <| pr_DraftVersion := 1 |>
    <| pr_ProposalID := po_ProposalID proposal |>
    <| pr_ProposalDigest := po_ProposalDigest proposal |>
    <| pr_SourceRevision := is_SourceRevision snap |>
    <| pr_SourceDigest := is_SourceDigest snap |> <| pr_BaseSHA := is_BaseSHA snap |>
    <| pr_MissionBranch := MissionBranch passID (ci_IssueNumber i) |>
    <| pr_AgentKitID := po_AgentKitID proposal |>
    <| pr_AgentKitVersion := po_AgentKitVersion proposal |>
    <| pr_RunnerArguments := po_RunnerArguments proposal |>
    <| pr_InvocationDigest := po_InvocationDigest proposal |>
    <| pr_Limits := limits |> <| pr_State := PassDraft |> <| pr_Reconciliation := settled |>.

(** [CreateProposal] after the claim, up to its deferred release: the record
    and the error it returns. *)
Definition openDraft (workspaceID actorID passID : string) (i : CreateProposalInput) (t0 : time)
    : M (ProposalRecord * option err) :=
  conn ← tx (getConnection workspaceID (ci_ConnectionID i));
  snap ← ReadIssue workspaceID conn (ci_IssueNumber i) "" "";
  _ ← clean_posture workspaceID conn snap;
  let ttlSeconds := ttl_seconds (ci_ExpiresAt i) t0 in
  _ ← require (¬ ttlSeconds ≤ 0) ErrInvalidInput;
  let limits := MkEditableLimits (ci_ExpiresAt i) (ci_MaxAggregateCostMicros i) in
  shaped ← shapeUpstream workspaceID actorID snap limits ttlSeconds
             (shape_key workspaceID passID);
  let intent := create_intent workspaceID passID i snap shaped limits in
  r ← try (createUpstream workspaceID actorID snap shaped limits ttlSeconds
             (proposal_key workspaceID passID 1) intent 0);
  match r with
  | Err e => mret (pp_ProposalRecord intent, Some e)
  | Ok (proposal, settled, persistExpected) =>
      let rec := created_record workspaceID passID i snap limits proposal settled
                   persistExpected in
      _ ← persist (intent <| pp_ProposalRecord := rec |>) persistExpected;
      mret (rec, None)
  end.

(** The deferred release of a claim whose pass row never appeared. *)
Definition releaseRequestKey (workspaceID passID key : string) : M unit :=
  if decide (key = "") then mret tt else
  r ← try (LoadProposal workspaceID passID);
  if decide (r = Err ErrNotFound) then
    _ ← try (tx (DeleteMissionPassRequestKey workspaceID key)); mret tt
  else mret tt.

(** The three results of the Go function: record, replayed, error. *)
Definition CreateProposal (workspaceID actorID : string) (i : CreateProposalInput)
    : M (ProposalRecord * bool * option err) :=
  t0 ← now;
  match checkCreateInput workspaceID actorID i t0 with
  | Err e => mret (zero_ProposalRecord, false, Some e)
  | Ok _ =>
      r ← try (claimRequestKey workspaceID (ci_IdempotencyKey i));
      match r with
      | Err e => mret (zero_ProposalRecord, false, Some e)
      | Ok (passID, true) =>
          r ← try (LoadProposal workspaceID passID);
          match r with
          | Err e => mret (zero_ProposalRecord, false, Some e)
          | Ok rec => mret (rec, true, None)
          end
      | Ok (passID, false) =>
          r ← try (openDraft workspaceID actorID passID i t0);
          _ ← releaseRequestKey workspaceID passID (ci_IdempotencyKey i);
          match r with
          | Err e => mret (zero_ProposalRecord, false, Some e)
          | Ok (rec, e) => mret (rec, false, e)
          end
      end
  end.

(** ** Founder edits *)

Definition revised_pass (current : persistedPass) (snap : IssueSnapshot) (shaped : MissionDraft)
    (limits : EditableLimits) (proposal : Proposal) (settled : ReconciliationState)
    (persistExpected newDraftVersion : Z) : persistedPass :=
  current
    <| pp_ProposalRecord := (pp_ProposalRecord current)
         <| pr_StoreRevision := persistExpected + 1 |>
         <| pr_DraftVersion := newDraftVersion |>
         <| pr_ProposalID := po_ProposalID proposal |>
         <| pr_ProposalDigest := po_ProposalDigest proposal |>
         <| pr_ApprovedProposalDigest := "" |>
         <| pr_AgentKitID := po_AgentKitID proposal |>
         <| pr_AgentKitVersion := po_AgentKitVersion proposal |>
         <| pr_RunnerArguments := po_RunnerArguments proposal |>
         <| pr_InvocationDigest := po_InvocationDigest proposal |>
         <| pr_SourceRevision := is_SourceRevision snap |>
         <| pr_SourceDigest := is_SourceDigest snap |> <| pr_BaseSHA := is_BaseSHA snap |>
         <| pr_Limits := limits |> <| pr_State := PassDraft |>
         <| pr_Reconciliation := settled |> |>
    <| pp_Objective := is_Objective snap |>
    <| pp_AcceptanceCriteria := is_AcceptanceCriteria snap |>
    <| pp_ShapedDraftJSON := md_CanonicalDraft shaped |>.

Definition ReviseProposal (workspaceID actorID : string) (i : ReviseProposalInput)
    : M ProposalRecord :=
  t0 ← now;
  _ ← require (workspaceID ≠ "" ∧ actorID ≠ "" ∧ ri_PassID i ≠ "") ErrInvalidInput;
  _ ← require (¬ (IsZero (ri_ExpiresAt i) ∨ ri_MaxAggregateCostMicros i ≤ 0)) ErrInvalidInput;
  _ ← require (¬ After (ri_ExpiresAt i) (t0 + MaxTTL)) ErrInvalidInput;
  _ ← require (¬ MaxAggregateCostMicros < ri_MaxAggregateCostMicros i) ErrInvalidInput;
  stored ← tx (getMissionPass workspaceID (ri_PassID i));
  let current := fromStoreRecord stored in
  let cur := pp_ProposalRecord current in
  _ ← require (pr_State cur = PassDraft) ErrNotDraft;
  _ ← require (mp_StoreRevision stored = ri_ExpectedStoreRevision i ∧
               mp_DraftVersion stored = ri_ExpectedDraftVersion i) ErrConflict;
  let expiry := ri_ExpiresAt i in
  _ ← require (¬ After expiry (li_ExpiresAt (pr_Limits cur))) ErrInvalidInput;
  _ ← require (¬ li_MaxAggregateCostMicros (pr_Limits cur) < ri_MaxAggregateCostMicros i)
        ErrInvalidInput;
  _ ← require (¬ (¬ Before expiry (li_ExpiresAt (pr_Limits cur)) ∧
                  li_MaxAggregateCostMicros (pr_Limits cur) ≤ ri_MaxAggregateCostMicros i))
        ErrInvalidInput;
  conn ← tx (getConnection workspaceID (pp_ConnectionID current));
  r ← try (ReadIssue workspaceID conn (pp_IssueNumber current) (pr_SourceRevision cur)
             (pr_BaseSHA cur));
  snap ← match r with Ok s => mret s | Err e => fail (mapSourceError e) end;
  _ ← clean_posture workspaceID conn snap;
  let ttlSeconds := ttl_seconds expiry t0 in
  _ ← require (¬ ttlSeconds ≤ 0) ErrInvalidInput;
  let limits := MkEditableLimits expiry (ri_MaxAggregateCostMicros i) in
  let newDraftVersion := pr_DraftVersion cur + 1 in
  shaped ← shapeUpstream workspaceID actorID snap limits ttlSeconds
             (shape_key workspaceID (pr_PassID cur) +:+ "-r" +:+ itoa newDraftVersion);
  created ← createUpstream workspaceID actorID snap shaped limits ttlSeconds
              (proposal_key workspaceID (pr_PassID cur) newDraftVersion)
              (as_pending current) (mp_StoreRevision stored);
  let '(proposal, settled, persistExpected) := created in
  let revised := revised_pass current snap shaped limits proposal settled persistExpected
                   newDraftVersion in
  _ ← persist revised persistExpected;
  mret (pp_ProposalRecord revised).
End service.

(** ** The stored form *)

(** What the service writes it reads back: a pass survives the trip
    through its stored form unchanged, and a stored row taken through the
    service's form changes in exactly the four columns that form does not
    carry: containment, the pending-receipt time and the two timestamps
    (which the write sets itself, keeping the creation time of the row it
    replaces). *)
Theorem store_record_round_trip :
  (∀ p, fromStoreRecord (toStoreRecord p) = p) ∧
  (∀ s, toStoreRecord (fromStoreRecord s) =
     s <| mp_Containment := "" |> <| mp_ReceiptPendingAt := zero_time |>
       <| mp_CreatedAt := zero_time |> <| mp_UpdatedAt := zero_time |>).
Proof. split; intros []; [|done]. by destruct pp_ProposalRecord0 as [????????????????[]]. Qed.

Lemma toStoreRecord_key p :
  pass_key (toStoreRecord p) =
  (pr_WorkspaceID (pp_ProposalRecord p), pr_PassID (pp_ProposalRecord p)).
Proof. done. Qed.

Section theorems.
Context `{Env}.

Lemma persist_run p rev w :
  ∃ w', w' = w <| w_ticks := S (w_ticks w) |> ∧
    persist p rev w = tx (putMissionPass (clock (w_ticks w)) (toStoreRecord p) rev) w'.
Proof. by eexists. Qed.

Lemma persist_Ok p rev w u w' :
  persist p rev w = (Ok u, w') →
  ∃ t db, putMissionPass t (toStoreRecord p) rev (w_db w) = (Ok u, db) ∧
    w' = w <| w_ticks := S (w_ticks w) |> <| w_db := db |>.
Proof.
  intros E. destruct (persist_run p rev w) as (w1 & -> & E1). rewrite E1 in E.
  apply tx_Ok in E as (db & E & ->). by eexists _, _.
Qed.

Lemma persist_Err p rev w e w' :
  persist p rev w = (Err e, w') → w' = w <| w_ticks := S (w_ticks w) |>.
Proof.
  intros E. destruct (persist_run p rev w) as (w1 & -> & E1). rewrite E1 in E.
  by apply tx_Err in E as [_ ->].
Qed.

(** ** One proposal mutation *)

(** The authority says the operation under the key has completed. *)
Definition reported_completed (r : res OperationResult) : Prop :=
  ∃ op, r = Ok op ∧ (or_OperationID op ≠ "" ∨ or_IdempotencyKey op ≠ "") ∧
    ToLower (or_Status op) = "completed".

Lemma reconcileOperation_run ws key w :
  let opts := opts_for ws "" "" in
  let r := reply_ReconcileOperation (w_calls w) key "" opts in
  let w' := w <| w_calls := ReconcileOperation key "" opts :: w_calls w |> in
  (reconcileOperation ws key w = (Ok reconcileCompleted, w') ∧ reported_completed r) ∨
  (∃ o, reconcileOperation ws key w = (Ok o, w') ∧ o ≠ reconcileCompleted) ∨
  reconcileOperation ws key w = (Err ErrPendingReconciliation, w').
Proof.
  intros opts r w'. unfold reconcileOperation.
  rewrite (try_then _ _ w r w') by done. destruct r as [op|e] eqn:Er.
  - case_decide as D1; [right; left; by eexists|]. case_decide as D2.
    + left. split; [done|]. exists op. split_and!; [done| |done].
      destruct (decide (or_OperationID op = "")); [right|left]; tauto.
    + right; left. by eexists.
  - case_decide; [right; left; by eexists|by right; right].
Qed.

(** The proposal mutation is never issued twice as a new operation.  One
    [createUpstream] sends its request once; if the answer is definite, or the
    pending intent cannot be stored, nothing follows and the database is
    unchanged.  After an ambiguous answer the intent is stored as pending
    before anything else happens, one reconcile query is sent, and only if it
    reports completion the very same request is repeated, under the same
    idempotency key.  It succeeds only with a proposal that passed
    [ValidateProposal] and that the last request returned. *)
Theorem createUpstream_one_mutation ws actor snap shaped limits ttl key intent rev w :
  let '(r, w') :=
    createUpstream ws actor snap shaped limits ttl key intent rev w in
  let req := proposal_request snap shaped limits ttl key in
  let opts := opts_for ws actor key in
  let create := World.CreateProposal req opts in
  let query := ReconcileOperation key "" (opts_for ws "" "") in
  cq_IdempotencyKey req = key ∧ op_IdempotencyKey opts = key ∧
  ((w_calls w' = create :: w_calls w ∧ w_db w' = w_db w ∧
    ∀ p s n, r = Ok (p, s, n) → n = rev ∧ s = ReconciliationSettled ∧
      reply_CreateProposal (w_calls w) req opts = Ok p ∧ ValidateProposal shaped p = Ok tt) ∨
   (∃ e t, reply_CreateProposal (w_calls w) req opts = Err e ∧ isAmbiguousUpstream e ∧
      putMissionPass t (toStoreRecord (as_pending intent)) rev (w_db w) = (Ok tt, w_db w') ∧
      ((w_calls w' = query :: create :: w_calls w ∧ is_ok r = false) ∨
       (w_calls w' = create :: query :: create :: w_calls w ∧
        reported_completed
          (reply_ReconcileOperation (create :: w_calls w) key "" (opts_for ws "" "")) ∧
        ∀ p s n, r = Ok (p, s, n) → n = rev + 1 ∧ s = ReconciliationSettled ∧
          reply_CreateProposal (query :: create :: w_calls w) req opts = Ok p ∧
          ValidateProposal shaped p = Ok tt)))).
Proof.
  destruct (createUpstream _ _ _ _ _ _ _ _ _ _) as [r w'] eqn:E. cbv zeta.
  split_and!; [done..|]. unfold createUpstream in E. cbv zeta in E.
  set (req := proposal_request snap shaped limits ttl key) in *.
  set (opts := opts_for ws actor key) in *.
  erewrite try_then in E by reflexivity.
  destruct (reply_CreateProposal (w_calls w) req opts) as [p0|e] eqn:E0.
  { left. destruct (ValidateProposal shaped p0) as [[]|ve] eqn:Ev.
    - injection E as <- <-. split_and!; [done..|]. by intros p s n [= <- <- <-].
    - injection E as <- <-. by split_and!. }
  destruct (decide (isAmbiguousUpstream e)) as [D|D];
    [|left; injection E as <- <-; by split_and!].
  call_inv E Ep; [apply persist_Ok in Ep as (t & db & Ep & ->)|
    left; apply persist_Err in Ep as ->; injection E as <- <-; by split_and!].
  destruct a. right. exists e, t. split_and!; [done..| |].
  all: match type of E with _ ?w1 = _ =>
    destruct (reconcileOperation_run ws key w1) as [[Er Hc]|[(o & Er & Ho)|Er]] end.
  all: try rewrite (bind_run _ _ _ _ _ Er) in E; try rewrite (bind_fail _ _ _ _ _ Er) in E.
  all: try (destruct o; [| done |]); try (injection E as <- <-; by (done || left; done)).
  all: erewrite try_then in E by reflexivity; cbn [w_calls] in E.
  all: match type of E with (match ?x with _ => _ end) _ = _ => destruct x as [p1|e1] eqn:E1 end.
  all: try (destruct (ValidateProposal shaped p1) as [[]|ve] eqn:Ev).
  all: injection E as <- <-; try done; right; split_and!; try done.
  intros p s n [= <- <- <-]. by split_and!.
Qed.

(** ** Frames of the upstream half *)

(** No pass row, claim or connection moves: trusted reads and shaping. *)
Definition passes_frame (w w' : World) : Prop :=
  db_mission_passes (w_db w') = db_mission_passes (w_db w) ∧
  db_mission_pass_request_keys (w_db w') = db_mission_pass_request_keys (w_db w).

#[export] Instance passes_frame_preorder : PreOrder passes_frame.
Proof. split; unfold passes_frame; [done|]. intros ??? [-> ->] [-> ->]. done. Qed.

Lemma source_passes_frame w w' : source_frame w w' → passes_frame w w'.
Proof. intros (_&_&_&_&_&_&E). unfold passes_frame. by rewrite E. Qed.

Lemma createUpstream_Ok ws actor snap shaped limits ttl key intent rev w p s n w' :
  createUpstream ws actor snap shaped limits ttl key intent rev w = (Ok (p, s, n), w') →
  s = ReconciliationSettled ∧ ValidateProposal shaped p = Ok tt ∧
  db_mission_pass_request_keys (w_db w') = db_mission_pass_request_keys (w_db w) ∧
  db_github_connections (w_db w') = db_github_connections (w_db w).
Proof.
  intros E. unfold createUpstream in E. cbv zeta in E.
  erewrite try_then in E by reflexivity.
  destruct (reply_CreateProposal _ _ _) as [p0|e] eqn:E0.
  { op_inv E. destruct a; subst; by split_and!. }
  case_decide; [|done]. call_inv E Ep; [|done].
  apply persist_Ok in Ep as (t & db & Ep & ->).
  apply putMissionPass_Ok in Ep as (_ & _ & _ & ->).
  match type of E with _ ?w1 = _ =>
    destruct (reconcileOperation_run ws key w1) as [[Er Hc]|[(o & Er & Ho)|Er]] end.
  - rewrite (bind_run _ _ _ _ _ Er) in E. erewrite try_then in E by reflexivity.
    match type of E with (match ?x with _ => _ end) _ = _ =>
      destruct x as [p1|e1] eqn:E1 end; [|discriminate E].
    op_inv E. destruct a0; subst; by split_and!.
  - rewrite (bind_run _ _ _ _ _ Er) in E. by destruct o.
  - by rewrite (bind_fail _ _ _ _ _ Er) in E.
Qed.

Lemma within_clean_posture ws conn snap : within source_frame (clean_posture ws conn snap).
Proof. unfold clean_posture. within_auto. Qed.

Lemma shapeUpstream_Ok ws actor snap limits ttl key w d w' :
  shapeUpstream ws actor snap limits ttl key w = (Ok d, w') →
  w_db w' = w_db w ∧ ValidateShaped d ttl (li_MaxAggregateCostMicros limits) = Ok tt.
Proof.
  intros E. unfold shapeUpstream in E. call_inv E E1; [|done]. injection E1 as E1 <-.
  op_inv E. by destruct a0.
Qed.

Lemma LoadProposal_run ws id w row :
  db_mission_passes (w_db w) !! (ws, id) = Some row →
  LoadProposal ws id w = (Ok (pp_ProposalRecord (fromStoreRecord row)), w).
Proof.
  intros E. unfold LoadProposal. erewrite bind_run; [done|]. apply tx_read. by apply select_run.
Qed.

Lemma LoadProposal_none ws id w :
  db_mission_passes (w_db w) !! (ws, id) = None → LoadProposal ws id w = (Err ErrNotFound, w).
Proof.
  intros E. unfold LoadProposal. apply bind_fail, tx_read. by apply select_none.
Qed.

(** A persisted record is what is loaded next. *)
Lemma persist_LoadProposal p rev w u w' :
  persist p rev w = (Ok u, w') →
  let r := pp_ProposalRecord p in
  LoadProposal (pr_WorkspaceID r) (pr_PassID r) w' =
    (Ok (r <| pr_StoreRevision := rev + 1 |>), w') ∧
  pr_WorkspaceID r ≠ "" ∧ pr_PassID r ≠ "" ∧
  db_mission_pass_request_keys (w_db w') = db_mission_pass_request_keys (w_db w).
Proof.
  intros E r. apply persist_Ok in E as (t & db & E & ->).
  apply putMissionPass_Ok in E as ([Hw Hp] & _ & _ & ->). split_and!; [|done..].
  erewrite LoadProposal_run by (cbn; by rewrite lookup_insert_eq). f_equal. f_equal. cbn.
  unfold r. by destruct p as [[????????????????[]]].
Qed.

(** ** Founder edits only narrow *)

(** C30: a founder edit can only narrow a draft.  When [ReviseProposal]
    succeeds, the pass was a draft at exactly the store revision and draft
    version the caller expected; the new expiry and budget are at most the
    stored ones, at least one is strictly less, and both are inside the
    template; the draft version goes up by one while the workspace, pass,
    branch and AuthScope mission version stay, no approval survives, and the
    source and base pinned by the draft are unchanged; and the row now stored
    is the returned record. *)
Theorem ReviseProposal_narrows ws actor i w rec w' :
  passes_wf (w_db w) →
  ReviseProposal ws actor i w = (Ok rec, w') →
  ∃ stored, db_mission_passes (w_db w) !! (ws, ri_PassID i) = Some stored ∧
    mp_State stored = PassDraft ∧ mp_StoreRevision stored = ri_ExpectedStoreRevision i ∧
    mp_DraftVersion stored = ri_ExpectedDraftVersion i ∧
    pr_Limits rec = MkEditableLimits (ri_ExpiresAt i) (ri_MaxAggregateCostMicros i) ∧
    ri_ExpiresAt i ≤ mp_ExpiresAt stored ∧ 
    0 < ri_MaxAggregateCostMicros i ≤ mp_MaxAggregateCostMicros stored ∧
    (ri_ExpiresAt i < mp_ExpiresAt stored ∨
     ri_MaxAggregateCostMicros i < mp_MaxAggregateCostMicros stored) ∧
    clock (w_ticks w) + Second ≤ ri_ExpiresAt i ≤ clock (w_ticks w) + MaxTTL ∧
    ri_MaxAggregateCostMicros i ≤ MaxAggregateCostMicros ∧
    pr_DraftVersion rec = mp_DraftVersion stored + 1 ∧ pr_State rec = PassDraft ∧
    pr_WorkspaceID rec = ws ∧ pr_PassID rec = ri_PassID i ∧
    pr_MissionBranch rec = mp_MissionBranch stored ∧
    pr_AuthScopeMissionVersion rec = mp_AuthScopeMissionVersion stored ∧
    pr_ApprovedProposalDigest rec = "" ∧ pr_Reconciliation rec = ReconciliationSettled ∧
    (mp_SourceRevision stored ≠ "" → pr_SourceRevision rec = mp_SourceRevision stored) ∧
    (mp_BaseSHA stored ≠ "" → pr_BaseSHA rec = mp_BaseSHA stored) ∧
    LoadProposal ws (ri_PassID i) w' = (Ok rec, w').
Proof.
  intros Hwf E. unfold ReviseProposal in E. rewrite now_then in E.
  do 4 (op_inv_step E; [|discriminate E]).
  call_inv E Es; [|discriminate E]. apply tx_Ok in Es as (db & Es & ->).
  apply select_Ok in Es as [Es ->]. cbn in Es.
  destruct (Hwf _ _ Es) as [[= Hws Hid] _]. exists a. split; [done|].
  do 5 (op_inv_step E; [|discriminate E]).
  call_inv E Ec; [|discriminate E]. try_inv E Er.
  match type of E with (match ?r with _ => _ end ≫= _) _ = _ => destruct r as [snap|e] end;
    [|discriminate E].
  apply ReadIssue_pinned in Er. op_inv_step E. call_inv E Ep; [|discriminate E].
  op_inv_step E; [|discriminate E]. call_inv E Eh; [|discriminate E].
  call_inv E Eu; [|discriminate E]. destruct a3 as [[p s] n].
  apply createUpstream_Ok in Eu as (-> & _ & _ & _).
  call_inv E Et; [|discriminate E]. injection E as <- <-.
  apply persist_LoadProposal in Et as [El _].
  unfold After, Before, revised_pass in *. cbn in *.
  rename select (¬ ttl_seconds _ _ ≤ 0) into Ht. apply ttl_seconds_pos in Ht.
  rewrite Hws, Hid in *. split_and!; try done; try tauto; lia.
Qed.

(** ** A draft-open request is answered once *)

Lemma openDraft_Ok ws actor id i t w rec w' :
  openDraft ws actor id i t w = (Ok (rec, None), w') →
  LoadProposal ws id w' = (Ok rec, w') ∧ ws ≠ "" ∧ id ≠ "" ∧
  db_mission_pass_request_keys (w_db w') = db_mission_pass_request_keys (w_db w) ∧
  pr_WorkspaceID rec = ws ∧ pr_PassID rec = id ∧ pr_State rec = PassDraft ∧
  pr_Reconciliation rec = ReconciliationSettled ∧ pr_ApprovedProposalDigest rec = "" ∧
  pr_AuthScopeMissionVersion rec = 0 ∧
  pr_Limits rec = MkEditableLimits (ci_ExpiresAt i) (ci_MaxAggregateCostMicros i) ∧
  t + Second ≤ ci_ExpiresAt i.
Proof.
  intros E. unfold openDraft in E. call_inv E Ec; [|discriminate E].
  apply tx_Ok in Ec as (db & Ec & ->). apply select_Ok in Ec as [_ ->].
  call_inv E Er; [|discriminate E]. apply within_ReadIssue, source_passes_frame in Er as [_ Ek].
  call_inv E Ep; [|discriminate E].
  apply within_clean_posture, source_passes_frame in Ep as [_ Ek2].
  op_inv_step E; [|discriminate E]. rename D into Ht. apply ttl_seconds_pos in Ht.
  call_inv E Eh; [|discriminate E]. apply shapeUpstream_Ok in Eh as [Ek3 _].
  try_inv E Eu. match type of E with (match ?r with _ => _ end) _ = _ =>
    destruct r as [[[p s] n]|e] end; [|discriminate E].
  apply createUpstream_Ok in Eu as (-> & _ & Ek4 & _).
  call_inv E Et; [|discriminate E]. injection E as <- <-.
  apply persist_LoadProposal in Et as (El & Hw & Hi & Ek5). cbn in *.
  split_and!; try done. congruence.
Qed.

Lemma claimFresh_Ok ws key w id b w' :
  key ≠ "" → claimFresh ws key w = (Ok (id, b), w') → b = false →
  rk_pass_id <$> db_mission_pass_request_keys (w_db w') !! (ws, key) = Some id.
Proof.
  intros Hk E ->. unfold claimFresh in E. call_inv E E1; [|discriminate E].
  rewrite now_then in E. call_inv E E2; [|discriminate E].
  apply tx_Ok in E2 as (db & E2 & ->). unfold ClaimMissionPassRequestKey in E2.
  case_decide as D; cbn in D.
  - injection E as <- <-. op_inv E2; cbn in *; first [by rewrite lookup_insert_eq|by rewrite E, <- D].
  - try_inv E E3. destruct r; discriminate E.
Qed.

Lemma claimRequestKey_Ok ws key w id w' :
  key ≠ "" → claimRequestKey ws key w = (Ok (id, false), w') →
  rk_pass_id <$> db_mission_pass_request_keys (w_db w') !! (ws, key) = Some id.
Proof.
  intros Hk E. unfold claimRequestKey in E. rewrite decide_False in E by done.
  call_inv E E1; [|discriminate E]. case_decide; [by eapply claimFresh_Ok|].
  try_inv E E2. destruct r; [discriminate E|]. try_inv E E3. destruct r; [discriminate E|].
  call_inv E E4; [|discriminate E]. rewrite now_then in E. cbv zeta in E.
  case_decide; [discriminate E|]. call_inv E E5; [|discriminate E]. by eapply claimFresh_Ok.
Qed.

(** A request whose key maps to a visible pass is answered from the row. *)
Lemma CreateProposal_replays ws actor i id rec w :
  ci_IdempotencyKey i ≠ "" → id ≠ "" →
  checkCreateInput ws actor i (clock (w_ticks w)) = Ok tt →
  rk_pass_id <$> db_mission_pass_request_keys (w_db w) !! (ws, ci_IdempotencyKey i) = Some id →
  (∀ w0, w_db w0 = w_db w → LoadProposal ws id w0 = (Ok rec, w0)) →
  ∃ w', CreateProposal ws actor i w = (Ok (rec, true, None), w') ∧
    w_calls w' = w_calls w ∧ w_db w' = w_db w.
Proof.
  intros Hk Hid Hi Hr Hl. unfold CreateProposal. rewrite now_then, Hi.
  set (w1 := w <| w_ticks := S (w_ticks w) |>). exists w1. split_and!; [|done..].
  assert (claimRequestKey ws (ci_IdempotencyKey i) w1 = (Ok (id, true), w1)) as Ec.
  { unfold claimRequestKey. rewrite decide_False by done. erewrite bind_run.
    2:{ apply tx_read. unfold GetMissionPassIDByRequestKey. rewrite gets_then. cbn. by rewrite Hr. }
    cbn. rewrite decide_False by done. by rewrite (try_then _ _ _ _ _ (Hl w1 eq_refl)). }
  rewrite (try_then _ _ _ _ _ Ec). by rewrite (try_then _ _ _ _ _ (Hl w1 eq_refl)).
Qed.

Lemma LoadProposal_db ws id w r w0 :
  LoadProposal ws id w = (Ok r, w) → w_db w0 = w_db w → LoadProposal ws id w0 = (Ok r, w0).
Proof.
  intros E Ew. destruct (db_mission_passes (w_db w) !! (ws, id)) as [row|] eqn:Er.
  - rewrite (LoadProposal_run _ _ _ _ Er) in E. injection E as <-.
    apply LoadProposal_run. by rewrite Ew.
  - by rewrite (LoadProposal_none _ _ _ Er) in E.
Qed.

Lemma releaseRequestKey_visible ws id key w rec :
  LoadProposal ws id w = (Ok rec, w) → releaseRequestKey ws id key w = (Ok tt, w).
Proof.
  intros E. unfold releaseRequestKey. case_decide; [done|].
  rewrite (try_then _ _ _ _ _ E). by case_decide.
Qed.

(** C29: opening a draft is idempotent under its request key.  When a request
    opens a pass, the pass is stored as a settled draft with the requested
    limits and no approval, under its request key.  From then on, in any state
    that stores the pass and maps the key to it, whatever happened to the pass
    since, a request of the workspace with the same key that is valid when it
    arrives, whatever its other fields, opens nothing: it returns the stored
    record of that pass as a replay, which is the record of the first answer
    until something edits the pass, without calling AuthScope and without
    changing the database. *)
Theorem CreateProposal_idempotent ws actor i w rec w' :
  ci_IdempotencyKey i ≠ "" →
  CreateProposal ws actor i w = (Ok (rec, false, None), w') →
  (pr_WorkspaceID rec = ws ∧ pr_State rec = PassDraft ∧
   pr_Reconciliation rec = ReconciliationSettled ∧ pr_ApprovedProposalDigest rec = "" ∧
   pr_AuthScopeMissionVersion rec = 0 ∧
   pr_Limits rec = MkEditableLimits (ci_ExpiresAt i) (ci_MaxAggregateCostMicros i)) ∧
  rk_pass_id <$> db_mission_pass_request_keys (w_db w') !! (ws, ci_IdempotencyKey i) = Some (pr_PassID rec) ∧
  (∃ row, db_mission_passes (w_db w') !! (ws, pr_PassID rec) = Some row ∧
     pp_ProposalRecord (fromStoreRecord row) = rec) ∧
  ∀ actor' i' w1 row, ci_IdempotencyKey i' = ci_IdempotencyKey i →
    checkCreateInput ws actor' i' (clock (w_ticks w1)) = Ok tt →
    rk_pass_id <$> db_mission_pass_request_keys (w_db w1) !! (ws, ci_IdempotencyKey i) = Some (pr_PassID rec) →
    db_mission_passes (w_db w1) !! (ws, pr_PassID rec) = Some row →
    ∃ w2, CreateProposal ws actor' i' w1 = (Ok (pp_ProposalRecord (fromStoreRecord row), true, None), w2) ∧
      w_calls w2 = w_calls w1 ∧ w_db w2 = w_db w1.
Proof.
  intros Hk E. unfold CreateProposal in E. rewrite now_then in E.
  destruct (checkCreateInput _ _ _ _) as [[]|e]; [|discriminate E]. try_inv E Ec.
  destruct r as [[id [|]]|e]; [| |discriminate E].
  { try_inv E El. destruct r; discriminate E. }
  apply claimRequestKey_Ok in Ec; [|done]. try_inv E Eo.
  destruct r as [[rec0 e0]|e]; [|call_inv E El; discriminate E].
  assert (e0 = None ∧ rec0 = rec) as [-> ->].
  { call_inv E El; [|discriminate E]. by injection E as -> -> _. }
  apply openDraft_Ok in Eo as (Hl & Hws & Hid & Ek & Hw & Hp & Hst & Hrc & Hap & Hv & Hlim & _).
  rewrite (bind_run _ _ _ _ _ (releaseRequestKey_visible _ _ _ _ _ Hl)) in E.
  injection E as <-. rewrite Hp. split; [by split_and!|]. split; [by rewrite Ek|]. split.
  { destruct (db_mission_passes (w_db w1) !! (ws, id)) as [row|] eqn:Er.
    - exists row. split; [done|]. rewrite (LoadProposal_run _ _ _ _ Er) in Hl. by injection Hl.
    - by rewrite (LoadProposal_none _ _ _ Er) in Hl. }
  intros actor' i' w3 row Ei Hi Ek3 Er3. apply (CreateProposal_replays _ _ _ id); [congruence|done..| |].
  - by rewrite Ei.
  - intros w4 E4. apply LoadProposal_run. by rewrite E4.
Qed.
End theorems.

Definition bench_input : CreateProposalInput :=
  MkCreateProposalInput "conn" 5 (bench_time + Hour) 1000000 "key-1".

Lemma bench_pass_wf : passes_wf (bench_DB_with bench_pass).
Proof.
  intros k r E. cbn in E. apply lookup_singleton_Some in E as [<- <-]. split; [done|].
  vm_compute. discriminate.
Qed.

Lemma ReviseProposal_narrows_witness :
  let i := MkReviseProposalInput "pass-1" 1 1 (bench_time + 30 * Minute) 1000000 in
  let run := @ReviseProposal bench_env "ws" "founder" i (start (bench_DB_with bench_pass)) in
  ∃ rec, run.1 = Ok rec ∧ pr_DraftVersion rec = 2.
Proof.
  intros i run. assert (is_ok run.1 = true) as F by (vm_compute; reflexivity).
  destruct run as [[rec|e] w'] eqn:E; [|discriminate F].
  destruct (ReviseProposal_narrows (H := bench_env) "ws" "founder" i
    (start (bench_DB_with bench_pass)) rec w' bench_pass_wf E) as (s & P).
  exists rec. split; [reflexivity|]. destruct P as (Es & _ & _ & Ed & _ & _ & _ & _ & _ & _ & P & _).
  rewrite P, Ed. reflexivity.
Defined.

Lemma CreateProposal_idempotent_witness :
  let run := @CreateProposal bench_env "ws" "founder" bench_input (start bench_DB) in
  ∃ rec w2, run.1 = Ok (rec, false, None) ∧
    @CreateProposal bench_env "ws" "founder" bench_input run.2 = (Ok (rec, true, None), w2) ∧
    w_calls w2 = w_calls run.2.
Proof.
  intros run.
  assert (match run.1 with Ok (_, false, None) => true | _ => false end = true) as F
    by (vm_compute; reflexivity).
  assert (checkCreateInput "ws" "founder" bench_input (clock (Env := bench_env) (w_ticks run.2))
    = Ok tt) as I by (vm_compute; reflexivity).
  destruct run as [[[[rec []] [e|]]|e] w'] eqn:E; try discriminate F.
  destruct (CreateProposal_idempotent (H := bench_env) "ws" "founder" bench_input
    (start bench_DB) rec w' ltac:(discriminate) E) as (_ & Ek & (row & Er & Erec) & P).
  destruct (P "founder" bench_input w' row eq_refl I Ek Er) as (w2 & E2 & Ec & _).
  rewrite Erec in E2. exists rec, w2. split; [reflexivity|]. split; [exact E2|exact Ec].
Defined.
