(* ===== verification/Settle.v ===== *)
(** * What the services share

    Frames for single fields of the process state, and the begin/complete
    protocol of an idempotent operation as the services run it: begin the
    key, store the intent, call AuthScope, settle in one transaction. *)

From S2P Require Import Prelude GoTime Sha256 StoreModel StorePass PassModel World Attestor.

(** ** One field kept *)

Definition keeps {A} (f : World → A) (w w' : World) : Prop := f w' = f w.

#[export] Instance keeps_preorder {A} (f : World → A) : PreOrder (keeps f).
Proof. split; unfold keeps; [done|congruence]. Qed.

Lemma keeps_now `{Env} {A} (f : World → A) :
  (∀ w n, f (w <| w_ticks := n |>) = f w) → within (keeps f) now.
Proof. intros Hf w r w' E. injection E as <- <-. apply Hf. Qed.
Lemma keeps_random `{Env} {A} (f : World → A) n :
  (∀ w n, f (w <| w_draws := n |>) = f w) → within (keeps f) (randomBytes n).
Proof. intros Hf w r w' E. injection E as <- <-. apply Hf. Qed.
Lemma keeps_tx {A B} (f : World → A) (fn : Tx B) :
  (∀ w db, f (w <| w_db := db |>) = f w) → within (keeps f) (tx fn).
Proof.
  intros Hf w [a|e] w' E; [apply tx_Ok in E as (db & _ & ->); apply Hf|].
  by apply tx_Err in E as [_ ->].
Qed.
Lemma keeps_upstream {A B} (f : World → A) c (reply : list call → res B) :
  (∀ w l, f (w <| w_calls := l |>) = f w) → within (keeps f) (upstream c reply).
Proof. intros Hf w r w' E. injection E as <- <-. apply Hf. Qed.

#[export] Hint Extern 2 (within (keeps _) now) => apply keeps_now; reflexivity : within.
#[export] Hint Extern 2 (within (keeps _) (randomBytes _)) =>
  apply keeps_random; reflexivity : within.
#[export] Hint Extern 2 (within (keeps _) (tx _)) => apply keeps_tx; reflexivity : within.
#[export] Hint Extern 2 (within (keeps _) (upstream _ _)) =>
  apply keeps_upstream; reflexivity : within.
#[export] Hint Extern 1 (keeps _ _ _) => reflexivity : within.
Ltac keeps_auto :=
  repeat (first [solve [auto with within typeclass_instances]|solve [reflexivity]|within_step]).

Lemma keeps_db_frame {A B} (f : World → A) (g : DB → B) w w' :
  keeps w_db w w' → g (w_db w') = g (w_db w).
Proof. unfold keeps. congruence. Qed.

(** ** Attestation in a handler *)

Lemma Attest_Ok `{Env} claims w att w' :
  Attest claims w = (Ok att, w') →
  sa_Claims att = claims ∧ claims_valid claims (clock (w_ticks w))
    (default (Mk_purposeBinding "" "" "" invocationForbidden) (purposeBindings (dc_Purpose claims))) ∧
  w' = w <| w_ticks := S (w_ticks w) |>.
Proof.
  intros E. unfold Attest in E. rewrite now_then in E. op_inv_step E; [|discriminate E].
  do 2 (op_inv_step E; [|discriminate E]). cbv zeta in E. op_inv_step E; [|discriminate E].
  op_inv_step E; [|discriminate E]. injection E as <- <-.
  apply validateClaims_Ok in E0. split_and!; [done| |done]. pose proof E0 as [-> _]. done.
Qed.

Lemma keeps_Attest `{Env} {A} (f : World → A) claims :
  (∀ w n, f (w <| w_ticks := n |>) = f w) → within (keeps f) (Attest claims).
Proof.
  intros Hf. unfold Attest. repeat (first [by apply keeps_now|solve [auto with within typeclass_instances]|within_step]).
Qed.

(** ** Beginning a key *)

Definition idem_row (w : World) (ws key : string) : option idempotency_row :=
  db_idempotency_records (w_db w) !! (ws, key).

Lemma begin_Ok ws key digest w r w' :
  tx (beginIdempotency (MkIdempotencyRecord ws key digest)) w = (Ok r, w') →
  (ir_Completed r = true ∧ w' = w ∧ ∃ row, idem_row w ws key = Some row ∧
     iw_status row = "completed" ∧ iw_canonical_digest row = digest ∧
     ir_Result r = iw_result row) ∨
  (ir_Completed r = false ∧ ∃ rows,
     w' = w <| w_db := (w_db w) <| db_idempotency_records := rows |> |> ∧
     ∃ row, rows !! (ws, key) = Some row ∧ iw_canonical_digest row = digest ∧
       iw_status row ≠ "completed").
Proof.
  intros E. apply tx_Ok in E as (db & E & ->).
  destruct (decide (ws ≠ "" ∧ key ≠ "" ∧ digest ≠ "")) as [(?&?&?)|N].
  2:{ unfold beginIdempotency in E. rewrite require_else in E by done. discriminate E. }
  rewrite beginIdempotency_run in E by done. cbn in E.
  destruct (db_idempotency_records (w_db w) !! (ws, key)) as [row|] eqn:Er.
  - case_decide as D; [|discriminate E]. injection E as <- <-. cbn.
    destruct (decide (iw_status row = "completed")) as [S|S].
    + left. rewrite bool_decide_true by done. split_and!; [done|by destruct w|].
      exists row. by split_and!.
    + right. rewrite bool_decide_false by done. split; [done|].
      exists (db_idempotency_records (w_db w)). split; [by destruct w as [[]]|]. eauto.
  - injection E as <- <-. right. split; [done|]. eexists. split; [done|].
    eexists. by rewrite lookup_insert_eq.
Qed.

Lemma begin_completed ws key digest w row :
  ws ≠ "" → key ≠ "" → digest ≠ "" → idem_row w ws key = Some row →
  iw_canonical_digest row = digest → iw_status row = "completed" →
  tx (beginIdempotency (MkIdempotencyRecord ws key digest)) w =
    (Ok (MkIdempotencyResult true true (iw_result row)), w).
Proof.
  intros Hw Hk Hd Hr Ed Es. apply tx_read. rewrite beginIdempotency_run by done. cbn.
  unfold idem_row in Hr. rewrite Hr, decide_True by done. by rewrite bool_decide_true.
Qed.

Lemma tagged_digest_ne s : tagged_digest s ≠ "".
Proof. done. Qed.

(** ** What a handler sends *)

(** The log grows by calls that satisfy [Q]. *)
Definition sends (Q : call → Prop) (w w' : World) : Prop :=
  ∃ l, w_calls w' = (l ++ w_calls w)%list ∧ Forall Q l.

#[export] Instance sends_preorder Q : PreOrder (sends Q).
Proof.
  split.
  - intros w. by exists [].
  - intros w1 w2 w3 (l1 & E1 & F1) (l2 & E2 & F2). exists (l2 ++ l1)%list.
    rewrite E2, E1, app_assoc. split; [done|]. by apply Forall_app.
Qed.

Lemma sends_keeps Q w w' : keeps w_calls w w' → sends Q w w'.
Proof. intros E. by exists []. Qed.

Lemma sends_now `{Env} Q : within (sends Q) now.
Proof. intros w r w' E. injection E as <- <-. by exists []. Qed.
Lemma sends_tx {A} Q (fn : Tx A) : within (sends Q) (tx fn).
Proof. intros w r w' E. apply sends_keeps. by eapply keeps_tx in E. Qed.
Lemma sends_upstream {A} (Q : call → Prop) c (reply : list call → res A) :
  Q c → within (sends Q) (upstream c reply).
Proof. intros Hc w r w' E. injection E as <- <-. exists [c]. by repeat constructor. Qed.
#[export] Hint Resolve sends_now sends_tx : within.
#[export] Hint Extern 2 (within (sends _) (upstream _ _)) =>
  apply sends_upstream; cbn; tauto : within.
#[export] Hint Extern 2 (sends _ _ _) => apply sends_keeps; reflexivity : within.
