(* ===== verification/Once.v ===== *)
(** * A mutation behind a durable intent is sent at most once

    The argument the revocation and the expansion services share: the calls of
    one kind in the log, the database fact that makes such a call durable, and
    the histories in which at most one such call appears. *)

From S2P Require Import Prelude GoTime StoreModel StorePass World Settle.

Section once.
Variable (sent : call → Prop).
Context `{!∀ c, Decision (sent c)}.
Variable (durable : DB → Prop).

Definition sent_calls (w : World) : list call := filter sent (w_calls w).

(** Nothing of the kind is sent, the durable fact is kept. *)
Definition none_sent (w w' : World) : Prop :=
  sent_calls w' = sent_calls w ∧ (durable (w_db w) → durable (w_db w')).

#[export] Instance none_sent_preorder : PreOrder none_sent.
Proof. split; unfold none_sent; [naive_solver|intros ??? [-> ?] [-> ?]; naive_solver]. Qed.

(** At most one was sent, and then the fact holds. *)
Definition sent_once (w : World) : Prop :=
  sent_calls w = [] ∨ length (sent_calls w) = 1%nat ∧ durable (w_db w).

Lemma none_sent_once w w' : none_sent w w' → sent_once w → sent_once w'.
Proof. intros [E Hd] [H1|[H1 H2]]; [left; congruence|right; rewrite E; auto]. Qed.

Lemma none_sent_now `{Env} : within none_sent now.
Proof. intros w r w' E. by injection E as <- <-. Qed.
Lemma none_sent_random `{Env} n : within none_sent (randomBytes n).
Proof. intros w r w' E. by injection E as <- <-. Qed.
Lemma none_sent_upstream {A} c (reply : list call → res A) :
  ¬ sent c → within none_sent (upstream c reply).
Proof.
  intros Hc w r w' E. injection E as <- <-. split; [|done]. unfold sent_calls.
  cbn [w_calls upd]. by rewrite filter_cons, decide_False.
Qed.
Lemma none_sent_tx {A} (fn : Tx A) :
  (∀ db a db', fn db = (Ok a, db') → durable db → durable db') → within none_sent (tx fn).
Proof.
  intros Hf w [a|e] w' E.
  - apply tx_Ok in E as (db & E & ->). split; [done|]. intros Hi. cbn. by eapply Hf.
  - by apply tx_Err in E as [_ ->].
Qed.
Lemma none_sent_read {K V} `{Countable K} (table : DB → gmap K V) k :
  within none_sent (tx (select table k)).
Proof. apply none_sent_tx. intros db a db' [_ ->]%select_Ok. done. Qed.

(** A call behind the durable fact, whatever quiet code follows it. *)
Lemma issue_then {A B} (c : call) (reply : list call → res A) (f : res A → M B) w r w' :
  durable (w_db w) → (∀ x, within none_sent (f x)) →
  (try (upstream c reply) ≫= f) w = (r, w') →
  (length (sent_calls w') ≤ S (length (sent_calls w)))%nat ∧ durable (w_db w').
Proof.
  intros Hd Hf E. erewrite try_then in E by apply upstream_run. apply Hf in E as [El Hk].
  rewrite El. split; [|by apply Hk]. unfold sent_calls. cbn [w_calls upd].
  rewrite filter_cons. case_decide; cbn [length]; lia.
Qed.

(** An issue that starts where nothing was sent. *)
Lemma issued_once w w' :
  (length (sent_calls w') ≤ S (length (sent_calls w)))%nat ∧ durable (w_db w') →
  sent_calls w = [] → sent_once w'.
Proof.
  intros [Hl Hd] E. rewrite E in Hl. unfold sent_once.
  destruct (sent_calls w') as [|c [|c' l]]; [by left|by right|cbn in Hl; lia].
Qed.

Lemma history_once (step : relation World) w w' :
  (∀ w1 w2, step w1 w2 → sent_once w1 → sent_once w2) →
  sent_calls w = [] → rtc step w w' →
  (length (sent_calls w') ≤ 1)%nat ∧ (sent_calls w' ≠ [] → durable (w_db w')).
Proof.
  intros Hstep H0 Hs. assert (sent_once w) as Hr by by left. clear H0.
  assert (sent_once w') as [->|[-> Hi]].
  { induction Hs as [|w1 w2 w3 H1 _ IH]; [done|]. apply IH. by eapply Hstep. }
  - split; [cbn; lia|done].
  - split; [lia|done].
Qed.
End once.
#[export] Hint Resolve none_sent_now none_sent_random none_sent_read : within.
