(* ===== verification/Approval.v ===== *)
(** * Approving a proposal (src/internal/missionpass/approval.go)

    The passkey ceremony over the canonical proposal bytes, the signed
    decision attestation, the one upstream approval under its idempotency
    key, and the reconciliation of an ambiguous outcome. *)

From S2P Require Import Prelude GoTime Sha256 Json JsonParse StoreModel StorePass StoreIntents StoreAuth.
From S2P Require Import StoreGithub PassModel World Attestor Bench Ceremony Source Proposal Settle.

Definition approvalAttestationTTL : Z := 2 * Minute.
Definition approvalAudience : string := AudienceProposalApproval.

Record ApprovalResult := MkApprovalResult {
  ar_MissionRef : string;
  ar_MissionHash : string;
  ar_AuthScopeMissionVersion : Z;
  ar_ApprovalDecisionRef : string
}.

(** [json.Marshal] and [json.Unmarshal] of the result. *)
Definition approval_result_json (r : ApprovalResult) : json :=
  JObj [("mission_ref", JStr (ar_MissionRef r)); ("mission_hash", JStr (ar_MissionHash r));
        ("authscope_mission_version", JInt (ar_AuthScopeMissionVersion r));
        ("approval_decision_ref", JStr (ar_ApprovalDecisionRef r))].

Definition decode_approval_result (text : string) : option ApprovalResult :=
  v ← parse text;
  match v with
  | VObj o =>
      m ← str_field "mission_ref" o; h ← str_field "mission_hash" o;
      n ← int_field "authscope_mission_version" o; d ← str_field "approval_decision_ref" o;
      Some (MkApprovalResult m h n d)
  | VNull => Some (MkApprovalResult "" "" 0 "")
  | _ => None
  end.

Definition approvalKey (workspaceID passID : string) (draftVersion : Z) : string :=
  "approve:" +:+ workspaceID +:+ ":" +:+ passID +:+ ":" +:+ itoa draftVersion.

Definition checkApprovalDigests (r : ProposalRecord) : res unit :=
  _ ← require_res (Forall canonicalDigest
        [pr_ProposalDigest r; pr_InvocationDigest r; pr_SourceDigest r]) ErrApprovalDigest;
  require_res (pr_ProposalID r ≠ "") ErrApprovalDigest.

Definition bindingFor (p : Principal) (r : ProposalRecord) : ApprovalBinding :=
  MkApprovalBinding (pr_WorkspaceID r) (p_FounderID p) (p_SessionID p) (pr_PassID r)
    (pr_DraftVersion r) (pr_ProposalID r) (pr_ProposalDigest r) (pr_InvocationDigest r)
    (pr_SourceDigest r) (pr_BaseSHA r) DecisionPassApproval approvalAudience.

(** The verified ceremony record, in its fixed JSON field order. *)
Definition ceremonyProof (v : VerifiedDecision) : json :=
  JObj [("method", JStr (vd_Method v)); ("challenge_id", JStr (vd_ChallengeID v));
        ("nonce", JStr (hex (vd_Nonce v))); ("workspace_id", JStr (vd_WorkspaceID v));
        ("session_id", JStr (vd_SessionID v)); ("founder_id", JStr (vd_FounderID v));
        ("subject_id", JStr (vd_SubjectID v)); ("purpose", JStr (vd_Purpose v));
        ("user_verified", JBool (vd_UserVerified v))].

Definition ceremonyProofDigest (v : VerifiedDecision) : string :=
  tagged_digest (render true (ceremonyProof v)).

Definition derivedMissionHash (r : ProposalRecord) : string :=
  tagged_digest (CanonicalApprovalBytes r).

Definition approvalDecisionRef (b : ApprovalBinding) : string :=
  "approval-decision:" +:+ ab_WorkspaceID b +:+ ":" +:+ ab_PassID b +:+ ":" +:+
    itoa (ab_DraftVersion b).

Definition approval_input (r : ProposalRecord) : ApproveProposalInput :=
  MkApproveProposalInput (pr_ProposalDigest r) (pr_InvocationDigest r).

(** The claims [Finish] has signed for a verified ceremony. *)
Definition approval_claims (b : ApprovalBinding) (r : ProposalRecord) (v : VerifiedDecision)
    (issuedAt : time) : DecisionClaims :=
  MkDecisionClaims (ab_WorkspaceID b) (ab_FounderID b) approvalAudience PurposePassApproval
    (ab_ProposalID b) (tagged_digest (CanonicalApprovalBytes r)) (ab_InvocationDigest b)
    (vd_Method v) (ceremonyProofDigest v) (vd_Nonce v) issuedAt
    (issuedAt + approvalAttestationTTL).

(** The pass [settleApproval] writes. *)
Definition approved_pass (full : persistedPass) (b : ApprovalBinding) (attDigest missionHash : string)
    (m : Mission) : persistedPass :=
  let r := pp_ProposalRecord full in
  full <| pp_ProposalRecord := r <| pr_State := PassApproved |>
    <| pr_Reconciliation := ReconciliationSettled |>
    <| pr_ApprovedProposalDigest := pr_ProposalDigest r |>
    <| pr_AuthScopeMissionVersion := mi_Version m |> <| pr_MissionRef := mi_MissionRef m |>
    <| pr_MissionHash := missionHash |> <| pr_ApprovalDecisionRef := approvalDecisionRef b |>
    <| pr_AttestationDigest := attDigest |> <| pr_RunID := "" |> |>.

Definition mission_hash (r : ProposalRecord) (m : Mission) : string :=
  if decide (canonicalDigest (mi_MissionHash m)) then mi_MissionHash m else derivedMissionHash r.

Section approval.
Context `{Env}.

Definition loadForApproval (workspaceID passID : string) : M persistedPass :=
  stored ← tx (getMissionPass workspaceID passID);
  let full := fromStoreRecord stored in
  _ ← require (pr_State (pp_ProposalRecord full) = PassDraft) ErrNotDraft;
  _ ← require (pr_Reconciliation (pp_ProposalRecord full) = ReconciliationSettled)
        ErrApprovalReconcilePending;
  mret full.

Definition refreshApprovalSource (full : persistedPass) : M unit :=
  let r := pp_ProposalRecord full in
  conn ← tx (getConnection (pr_WorkspaceID r) (pp_ConnectionID full));
  s ← try (ReadIssue (pr_WorkspaceID r) conn (pp_IssueNumber full) (pr_SourceRevision r)
             (pr_BaseSHA r));
  snap ← match s with Ok s => mret s | Err e => fail (mapSourceError e) end;
  clean_posture (pr_WorkspaceID r) conn snap.

(** [Begin]: the challenge and its options. *)
Definition BeginApproval (p : Principal) (passID : string) : M (string * string) :=
  full ← loadForApproval (p_WorkspaceID p) passID;
  let r := pp_ProposalRecord full in
  _ ← refreshApprovalSource full;
  _ ← lift (checkApprovalDigests r);
  let binding := bindingFor p r in
  begun ← BeginDecision p DecisionPassApproval (pr_PassID r) (CanonicalApprovalBytes r);
  let '(challenge, options) := begun in
  _ ← modify (λ w, w <| w_approvals :=
        <[ch_ChallengeID challenge := Mk_begunApproval (ch_ChallengeID challenge)
            (ch_Digest challenge) (ch_Nonce challenge) binding DecisionPassApproval
            approvalAudience (ch_ExpiresAt challenge)]> (w_approvals w) |>);
  mret (ch_ChallengeID challenge, options).

Definition dropBegun (challengeID : string) : M unit :=
  modify (λ w, w <| w_approvals := delete challengeID (w_approvals w) |>).

Definition settleApproval (full : persistedPass) (b : ApprovalBinding) (key attDigest : string)
    (m : Mission) : M ApprovalResult :=
  let r := pp_ProposalRecord full in
  _ ← require (mi_MissionRef m ≠ "")
        (ErrOther "missionpass: upstream approval returned no mission ref");
  let missionHash := mission_hash r m in
  let result := MkApprovalResult (mi_MissionRef m) missionHash (mi_Version m)
                  (approvalDecisionRef b) in
  _ ← require (mi_Version m ≠ 0)
        (ErrOther "missionpass: upstream approval returned no mission version");
  t1 ← now; t2 ← now;
  _ ← tx (_ ← putMissionPass t1 (toStoreRecord (approved_pass full b attDigest missionHash m))
                (pr_StoreRevision r);
          _ ← completeIdempotency (ab_WorkspaceID b) key
                (render true (approval_result_json result));
          completeApprovalIntent t2 (ab_WorkspaceID b) (ab_PassID b) (mi_MissionRef m));
  mret result.

Definition markApprovalPending (full : persistedPass) : M unit :=
  t ← now;
  tx (putMissionPass t
        (toStoreRecord (full <| pp_ProposalRecord := (pp_ProposalRecord full)
           <| pr_State := PassDraft |> <| pr_Reconciliation := ReconciliationPending |> |>))
        (pr_StoreRevision (pp_ProposalRecord full))).

Definition approveOnce (full : persistedPass) (b : ApprovalBinding)
    (att : SignedDecisionAttestation) (attDigest : string) : M ApprovalResult :=
  let r := pp_ProposalRecord full in
  let key := approvalKey (ab_WorkspaceID b) (ab_PassID b) (ab_DraftVersion b) in
  begun ← tx (beginIdempotency (MkIdempotencyRecord (ab_WorkspaceID b) key
                (tagged_digest (CanonicalApprovalBytes r))));
  if decide (ir_Completed begun = true) then
    lift (opt_res (ErrOther "missionpass: decode completed approval")
            (decode_approval_result (ir_Result begun)))
  else
  t ← now;
  _ ← tx (putApprovalIntent t
        (zero_ApprovalIntentRecord <| ai_WorkspaceID := ab_WorkspaceID b |>
           <| ai_PassID := ab_PassID b |> <| ai_IdempotencyKey := key |>
           <| ai_State := ApprovalIntentInFlight |> <| ai_AttestationDigest := attDigest |>
           <| ai_AttestationJSON := render true (attestation_json att) |>));
  m ← try (call_ApproveProposal (ab_ProposalID b)
             (MkApproveProposalInput (ab_ProposalDigest b) (ab_InvocationDigest b)) att
             (opts_for (ab_WorkspaceID b) ("founder:" +:+ ab_FounderID b) key));
  match m with
  | Err e =>
      if decide (isAmbiguousUpstream e) then
        _ ← try (markApprovalPending full);
        fail ErrPendingReconciliation
      else fail e
  | Ok m => settleApproval full b key attDigest m
  end.

(** [Finish] *)
Definition FinishApproval (p : Principal) (passID challengeID assertion : string)
    : M ApprovalResult :=
  approvals ← gets w_approvals;
  match approvals !! challengeID with
  | None => fail ErrCeremonyNotFound
  | Some begun =>
      loaded ← try (loadForApproval (p_WorkspaceID p) passID);
      match loaded with
      | Err e => _ ← dropBegun challengeID; fail e
      | Ok full =>
          let r := pp_ProposalRecord full in
          let b := bindingFor p r in
          if decide (Sum256 (CanonicalApprovalBytes r) = ba_digest begun) then
            verified ← try (FinishDecision p challengeID DecisionPassApproval (pr_PassID r)
                              (CanonicalApprovalBytes r) assertion);
            _ ← dropBegun challengeID;
            v ← lift verified;
            issuedAt ← now;
            att ← Attest (approval_claims b r v issuedAt);
            approveOnce full b att (attestationDigest att)
          else
            _ ← dropBegun challengeID; fail ErrApprovalBindingChanged
      end
  end.

(** [replayAttestation] *)
Definition replayAttestation (intent : ApprovalIntentRecord) : res SignedDecisionAttestation :=
  if decide (ai_AttestationJSON intent = "") then
    Err (ErrOther "missionpass: approval intent has no attestation")
  else opt_res (ErrOther "missionpass: decode approval attestation")
         (decode_attestation (ai_AttestationJSON intent)).

Definition reconcile_binding (r : ProposalRecord) : ApprovalBinding :=
  MkApprovalBinding (pr_WorkspaceID r) "" "" (pr_PassID r) (pr_DraftVersion r) (pr_ProposalID r)
    (pr_ProposalDigest r) (pr_InvocationDigest r) (pr_SourceDigest r) (pr_BaseSHA r) "" "".

(** [None] is Go's nil result with a nil error. *)
Definition ReconcileApproval (workspaceID passID : string) : M (option ApprovalResult) :=
  stored ← tx (getMissionPass workspaceID passID);
  let full := fromStoreRecord stored in
  let r := pp_ProposalRecord full in
  if decide (pr_State r = PassApproved ∧ pr_Reconciliation r = ReconciliationSettled) then
    mret (Some (MkApprovalResult (pr_MissionRef r) (pr_MissionHash r)
                  (pr_AuthScopeMissionVersion r) (pr_ApprovalDecisionRef r)))
  else if decide (pr_Reconciliation r ≠ ReconciliationPending) then mret None
  else
  found ← try (tx (getApprovalIntent workspaceID passID));
  match found with
  | Err e => if decide (e = ErrNotFound) then mret None else fail e
  | Ok intent =>
      if decide (ai_State intent = ApprovalIntentCompleted) then mret None else
      outcome ← call_ReconcileOperation (ai_IdempotencyKey intent) (ai_OperationRef intent)
                  (opts_for workspaceID "founder:reconcile" "");
      if decide (or_Status outcome ≠ "completed") then mret None else
      att ← lift (replayAttestation intent);
      m ← try (call_ApproveProposal (pr_ProposalID r) (approval_input r) att
                 (opts_for workspaceID "founder:reconcile" (ai_IdempotencyKey intent)));
      match m with
      | Err e => if decide (isAmbiguousUpstream e) then mret None else fail e
      | Ok m =>
          result ← settleApproval full (reconcile_binding r) (ai_IdempotencyKey intent)
                     (ai_AttestationDigest intent) m;
          mret (Some result)
      end
  end.
End approval.

(** ** Settling *)

Lemma completeApprovalIntent_Ok t ws id ref db u db' :
  completeApprovalIntent t ws id ref db = (Ok u, db') →
  ∃ old, db_approval_intents db !! (ws, id) = Some old ∧ ai_State old = "in_flight" ∧
  db' = db <| db_approval_intents :=
     <[(ws, id) := old <| ai_State := "completed" |> <| ai_OperationRef := ref |>
                       <| ai_UpdatedAt := t |>]> (db_approval_intents db) |>.
Proof. intros E. unfold completeApprovalIntent in E. op_inv E. eauto. Qed.

Lemma completeIdempotency_Ok ws key result db u db' :
  completeIdempotency ws key result db = (Ok u, db') →
  ∃ row, db_idempotency_records db !! (ws, key) = Some row ∧
    db' = db <| db_idempotency_records :=
      <[(ws, key) := row <| iw_status := "completed" |> <| iw_result := result |>]>
        (db_idempotency_records db) |>.
Proof.
  rewrite completeIdempotency_run. intros E.
  destruct (db_idempotency_records db !! _) as [row|]; [|discriminate E].
  case_decide; [|discriminate E]. injection E as <- <-. eauto.
Qed.

(** Storing an intent touches nothing else. *)
Lemma putApprovalIntent_Ok t rec db u db' :
  putApprovalIntent t rec db = (Ok u, db') →
  db' = db <| db_approval_intents := db_approval_intents db' |>.
Proof. intros E. unfold putApprovalIntent in E. op_inv E; by destruct db. Qed.

(** The settling transaction, for any row, key and result text. *)
Lemma settle_tx_Ok t1 t2 rec rev ws key text id ref w u w' :
  tx (_ ← putMissionPass t1 rec rev; _ ← completeIdempotency ws key text;
      completeApprovalIntent t2 ws id ref) w = (Ok u, w') →
  (∃ created, db_mission_passes (w_db w') =
     <[pass_key rec := stamped t1 (rev + 1) created rec]> (db_mission_passes (w_db w))) ∧
  (∃ row row', idem_row w ws key = Some row ∧ idem_row w' ws key = Some row' ∧
     iw_status row' = "completed" ∧ iw_result row' = text ∧
     iw_canonical_digest row' = iw_canonical_digest row) ∧
  (∃ i, db_approval_intents (w_db w') !! (ws, id) = Some i ∧
     ai_State i = ApprovalIntentCompleted).
Proof.
  intros Et. apply tx_Ok in Et as (db & Et & ->).
  call_inv Et Ep; [|discriminate Et]. apply putMissionPass_Ok in Ep as (_ & _ & _ & ->).
  call_inv Et Ei; [|discriminate Et]. apply completeIdempotency_Ok in Ei as (row & Er & ->).
  apply completeApprovalIntent_Ok in Et as (old & Eo & _ & ->).
  split_and!.
  - by eexists.
  - unfold idem_row in *. cbn. rewrite lookup_insert_eq. exists row. eexists.
    split_and!; [exact Er|done..].
  - cbn. rewrite lookup_insert_eq. eexists. by split_and!.
Qed.

Section theorems.
Context `{Env}.

(** What a settled approval leaves behind. *)
Definition settled_approval (full : persistedPass) (b : ApprovalBinding) (key attDigest : string)
    (m : Mission) (result : ApprovalResult) (w' : World) : Prop :=
  let r := pp_ProposalRecord full in
  let hash := mission_hash r m in
  mi_MissionRef m ≠ "" ∧ mi_Version m ≠ 0 ∧
  result = MkApprovalResult (mi_MissionRef m) hash (mi_Version m) (approvalDecisionRef b) ∧
  LoadProposal (pr_WorkspaceID r) (pr_PassID r) w' =
    (Ok ((pp_ProposalRecord (approved_pass full b attDigest hash m))
           <| pr_StoreRevision := pr_StoreRevision r + 1 |>), w') ∧
  (∃ row, idem_row w' (ab_WorkspaceID b) key = Some row ∧ iw_status row = "completed" ∧
     iw_result row = render true (approval_result_json result)) ∧
  (∃ i, db_approval_intents (w_db w') !! (ab_WorkspaceID b, ab_PassID b) = Some i ∧
     ai_State i = ApprovalIntentCompleted).

Lemma settleApproval_Ok full b key d m w result w' :
  settleApproval full b key d m w = (Ok result, w') →
  settled_approval full b key d m result w' ∧ w_calls w' = w_calls w.
Proof.
  intros E. unfold settleApproval in E. op_inv_step E; [|discriminate E].
  cbv zeta in E. op_inv_step E; [|discriminate E]. rewrite !now_then in E.
  call_inv E Et; [|discriminate E]. injection E as <- <-.
  pose proof (keeps_tx w_calls _ (λ _ _, eq_refl) _ _ _ Et) as Hc.
  apply settle_tx_Ok in Et as ((created & Ep) & (row & row' & _ & Er & Es & Et & _) & Hi).
  split; [|done]. unfold settled_approval. split_and!; try done.
  - erewrite LoadProposal_run by (rewrite Ep; apply lookup_insert_eq).
    do 2 f_equal. unfold approved_pass. cbn. by destruct full as [[????????????????[]]].
  - exists row'. split_and!; [exact Er|exact Es|exact Et].
Qed.

Lemma settleApproval_calls full b key d m :
  within (keeps w_calls) (settleApproval full b key d m).
Proof. unfold settleApproval. keeps_auto. Qed.
Lemma markApprovalPending_calls full : within (keeps w_calls) (markApprovalPending full).
Proof. unfold markApprovalPending. keeps_auto. Qed.

(** The call an approval attempt makes. *)
Definition approval_call (b : ApprovalBinding) (att : SignedDecisionAttestation) : call :=
  ApproveProposal (ab_ProposalID b)
    (MkApproveProposalInput (ab_ProposalDigest b) (ab_InvocationDigest b)) att
    (opts_for (ab_WorkspaceID b) ("founder:" +:+ ab_FounderID b)
       (approvalKey (ab_WorkspaceID b) (ab_PassID b) (ab_DraftVersion b))).

Lemma approveOnce_Ok full b att d w result w' :
  approveOnce full b att d w = (Ok result, w') →
  let r := pp_ProposalRecord full in
  let key := approvalKey (ab_WorkspaceID b) (ab_PassID b) (ab_DraftVersion b) in
  (∃ row, idem_row w (ab_WorkspaceID b) key = Some row ∧ iw_status row = "completed" ∧
     iw_canonical_digest row = tagged_digest (CanonicalApprovalBytes r) ∧
     decode_approval_result (iw_result row) = Some result ∧ w' = w) ∨
  (∃ m, reply_ApproveProposal (w_calls w) (ab_ProposalID b)
          (MkApproveProposalInput (ab_ProposalDigest b) (ab_InvocationDigest b)) att
          (opts_for (ab_WorkspaceID b) ("founder:" +:+ ab_FounderID b) key) = Ok m ∧
     w_calls w' = approval_call b att :: w_calls w ∧
     settled_approval full b key d m result w').
Proof.
  intros E r key. unfold approveOnce in E. cbv zeta in E. fold key r in E.
  call_inv E Eb; [|discriminate E].
  apply begin_Ok in Eb as [(Hc & -> & row & Er & Es & Ed & Eres)|(Hc & rows & -> & row & Er & Ed & Es)].
  - rewrite decide_True in E by done. left. exists row.
    destruct (decode_approval_result _) as [res0|] eqn:Edec in E; [|discriminate E].
    injection E as <- <-. rewrite <- Eres. by split_and!.
  - right. rewrite decide_False in E by congruence. rewrite now_then in E.
    call_inv E Ep; [|discriminate E]. apply tx_Ok in Ep as (db & Ep & ->).
    erewrite try_then in E by reflexivity.
    match type of E with (match ?x with _ => _ end) _ = _ => destruct x as [m|e] eqn:Em end.
    + exists m. apply settleApproval_Ok in E as [Hs Hc2]. by split_and!.
    + case_decide; [call_inv E Ex|]; discriminate E.
Qed.

(** C26: a finished approval approves exactly what the founder's passkey
    signed, once.  When [Finish] succeeds, the stored pass was a settled draft
    whose canonical bytes hash to the digest of the begun challenge, the
    passkey ceremony verified those same bytes, and the challenge is gone.
    Then either an earlier attempt had completed and its recorded result is
    returned with no call at all, or exactly one [ApproveProposal] was sent,
    for the stored proposal, proposal digest and invocation digest, under the
    key of this workspace, pass and draft version, carrying an attestation
    whose claims are those of the verified ceremony; and the pass is now
    approved with that digest and mission, its idempotency record and intent
    completed, in one transaction. *)
Theorem FinishApproval_exact p passID challengeID assertion w result w' :
  FinishApproval p passID challengeID assertion w = (Ok result, w') →
  ∃ stored begun v wv,
    db_mission_passes (w_db w) !! (p_WorkspaceID p, passID) = Some stored ∧
    mp_State stored = PassDraft ∧ mp_Reconciliation stored = ReconciliationSettled ∧
    w_approvals w !! challengeID = Some begun ∧ w_approvals w' !! challengeID = None ∧
    let full := fromStoreRecord stored in
    let r := pp_ProposalRecord full in
    let b := bindingFor p r in
    let bytes := CanonicalApprovalBytes r in
    let key := approvalKey (pr_WorkspaceID r) (pr_PassID r) (pr_DraftVersion r) in
    ba_digest begun = Sum256 bytes ∧
    FinishDecision p challengeID DecisionPassApproval (pr_PassID r) bytes assertion w = (Ok v, wv) ∧
    ((∃ row, idem_row w (pr_WorkspaceID r) key = Some row ∧ iw_status row = "completed" ∧
        decode_approval_result (iw_result row) = Some result ∧ w_calls w' = w_calls w) ∨
     (∃ att m t, sa_Claims att = approval_claims b r v t ∧
        w_calls w' = approval_call b att :: w_calls w ∧
        settled_approval full b key (attestationDigest att) m result w')).
Proof.
  intros E. unfold FinishApproval in E. rewrite gets_then in E.
  destruct (w_approvals w !! challengeID) as [begun|] eqn:Eb; [|discriminate E].
  try_inv E El. match type of E with (match ?x with _ => _ end) _ = _ =>
    destruct x as [full|e] end; [|discriminate E].
  unfold loadForApproval in El. call_inv El Es; [|discriminate El].
  apply tx_Ok in Es as (db & Es & ->). apply select_Ok in Es as [Es ->].
  do 2 (op_inv_step El; [|discriminate El]). injection El as <- <-.
  assert (w <| w_db := w_db w |> = w) as Ew by by destruct w. rewrite Ew in E.
  case_decide as Dd; [|discriminate E]. try_inv E Ef. unfold dropBegun in E. rewrite modify_then in E.
  destruct r as [v|e]; [|discriminate E]. rewrite lift_Ok_then, now_then in E.
  call_inv E Ea; [|discriminate E]. apply Attest_Ok in Ea as (Ec & _ & ->).
  exists a, begun, v, w0. split_and!; try done.
  - assert (within (keeps w_approvals) (approveOnce (fromStoreRecord a)
      (bindingFor p (pp_ProposalRecord (fromStoreRecord a))) a0 (attestationDigest a0))) as Hk.
    { unfold approveOnce, settleApproval, markApprovalPending, call_ApproveProposal. keeps_auto. }
    rewrite (Hk _ _ _ E). cbn. by rewrite lookup_delete_eq.
  - cbv zeta. split_and!; [done..|].
    pose proof Ef as (Hcalls & _ & _ & _ & _ & Hdb)%within_FinishDecision.
    apply approveOnce_Ok in E as [(row & Er & Est & _ & Edec & ->)|(m & _ & Em & Hs)].
    + left. exists row. split_and!; [|done..]. unfold idem_row in *. cbn in Er.
      by rewrite Hdb in Er.
    + right. exists a0, m. eexists. split_and!; [done| |done]. rewrite Em. cbn. by rewrite Hcalls.
Qed.

(** ** Replays *)


Lemma decode_approval_result_json r :
  json_ascii (approval_result_json r) = true → int64_range (ar_AuthScopeMissionVersion r) →
  decode_approval_result (render true (approval_result_json r)) = Some r.
Proof.
  intros Ha Hn. unfold decode_approval_result. rewrite parse_render by done.
  destruct (itoa_number (ar_AuthScopeMissionVersion r)) as (_ & Hi & _).
  specialize (Hi Hn). unfold approval_result_json. cbn [of_json fmap list_fmap mbind option_bind fst snd].
  revert Hi. generalize (bytes_of (itoa (ar_AuthScopeMissionVersion r))). intros t Ht.
  read_fields. rewrite Ht. by destruct r.
Qed.

(** The record a successful attempt leaves, whose result reads back. *)
Lemma approveOnce_record full b att d w result w' :
  json_ascii (approval_result_json result) = true →
  int64_range (ar_AuthScopeMissionVersion result) →
  approveOnce full b att d w = (Ok result, w') →
  ∃ row, idem_row w' (ab_WorkspaceID b)
      (approvalKey (ab_WorkspaceID b) (ab_PassID b) (ab_DraftVersion b)) = Some row ∧
    iw_status row = "completed" ∧
    iw_canonical_digest row = tagged_digest (CanonicalApprovalBytes (pp_ProposalRecord full)) ∧
    decode_approval_result (iw_result row) = Some result.
Proof.
  intros Ha Hn E. unfold approveOnce in E. cbv zeta in E. call_inv E Eb; [|discriminate E].
  apply begin_Ok in Eb as [(Hc & -> & row & Er & Es & Ed & Eres)|
    (Hc & rows & -> & row & Er & Ed & Es)].
  - rewrite decide_True in E by done. exists row.
    destruct (decode_approval_result _) as [res0|] eqn:Edec in E; [|discriminate E].
    injection E as <- <-. rewrite <- Eres. by split_and!.
  - rewrite decide_False in E by congruence. rewrite now_then in E.
    call_inv E Ep'; [|discriminate E]. apply tx_Ok in Ep' as (db & Ep' & ->).
    erewrite try_then in E by reflexivity.
    match type of E with (match ?x with _ => _ end) _ = _ => destruct x as [m|e] end;
      [|case_decide; [call_inv E Ex|]; discriminate E].
    assert (db_idempotency_records db = rows) as Edb'.
    { apply putApprovalIntent_Ok in Ep'. by rewrite Ep'. }
    unfold settleApproval in E. op_inv_step E; [|discriminate E].
    cbv zeta in E. op_inv_step E; [|discriminate E].
    set (res := MkApprovalResult _ _ _ _) in E. rewrite !now_then in E.
    call_inv E Et; [|discriminate E]. injection E as <- <-.
    apply settle_tx_Ok in Et as (_ & (row1 & row' & Er' & E' & Es' & Et' & Ed') & _).
    assert (Some row1 = Some row) as [= ->] by (rewrite <- Er', <- Er, <- Edb'; reflexivity).
    exists row'. split_and!; [exact E'|exact Es'|by rewrite Ed', Ed|rewrite Et'].
    clearbody res. by apply decode_approval_result_json.
Qed.

(** An approval that returned once returns the same result ever after.
    Once [approveOnce] has succeeded with a result (ASCII text and a 64-bit
    version, so that its JSON reads back), any later attempt on a database
    with the same idempotency record, for the same canonical bytes under the
    same workspace, pass and draft version, returns that result from the
    record, sends nothing to AuthScope and changes nothing, whatever the
    founder, session and attestation of the later attempt. *)
Theorem approveOnce_replays full b att d w result w' :
  ab_WorkspaceID b ≠ "" →
  json_ascii (approval_result_json result) = true →
  int64_range (ar_AuthScopeMissionVersion result) →
  approveOnce full b att d w = (Ok result, w') →
  ∀ full2 b2 att2 d2 w2,
    CanonicalApprovalBytes (pp_ProposalRecord full2) =
      CanonicalApprovalBytes (pp_ProposalRecord full) →
    ab_WorkspaceID b2 = ab_WorkspaceID b → ab_PassID b2 = ab_PassID b →
    ab_DraftVersion b2 = ab_DraftVersion b →
    db_idempotency_records (w_db w2) = db_idempotency_records (w_db w') →
    approveOnce full2 b2 att2 d2 w2 = (Ok result, w2).
Proof.
  intros Hws Ha Hn E full2 b2 att2 d2 w2 Ef Ew Ep Ev Edb.
  destruct (approveOnce_record _ _ _ _ _ _ _ Ha Hn E) as (row & Er & Es & Ed & Edec).
  unfold approveOnce. rewrite Ew, Ep, Ev, Ef. cbv zeta.
  rewrite (bind_run _ _ w2 (MkIdempotencyResult true true (iw_result row)) w2).
  - rewrite decide_True by done. cbn. by rewrite Edec.
  - apply begin_completed; [done|done|apply tagged_digest_ne| |done|done].
    unfold idem_row in *. by rewrite Edb.
Qed.

(** ** Reconciliation *)

(** Reconciling an approval never issues a new one.  A run of
    [ReconcileApproval] sends nothing unless the pass is pending with an
    unfinished intent; it then asks AuthScope about the intent's own key, and
    only if the answer is that the operation completed does it repeat the
    approval, of the stored proposal under that same key with the attestation
    stored in the intent.  Any result it returns is the one already on the
    approved pass or the settlement of that repeated call. *)
Theorem ReconcileApproval_replays_only ws passID w :
  let '(r, w') := ReconcileApproval ws passID w in
  (w_calls w' = w_calls w ∧ ∀ result, r = Ok (Some result) →
     ∃ s, db_mission_passes (w_db w) !! (ws, passID) = Some s ∧ mp_State s = PassApproved ∧
       result = MkApprovalResult (mp_MissionRef s) (mp_MissionHash s)
                  (mp_AuthScopeMissionVersion s) (mp_ApprovalDecisionRef s)) ∨
  ∃ s i,
    db_mission_passes (w_db w) !! (ws, passID) = Some s ∧
    mp_Reconciliation s = ReconciliationPending ∧
    db_approval_intents (w_db w) !! (ws, passID) = Some i ∧
    ai_State i ≠ ApprovalIntentCompleted ∧
    let full := fromStoreRecord s in
    let r0 := pp_ProposalRecord full in
    let opts := opts_for ws "founder:reconcile" "" in
    let query := ReconcileOperation (ai_IdempotencyKey i) (ai_OperationRef i) opts in
    ((w_calls w' = query :: w_calls w ∧ ∀ result, r ≠ Ok (Some result)) ∨
     ∃ op att, reply_ReconcileOperation (w_calls w) (ai_IdempotencyKey i) (ai_OperationRef i) opts
         = Ok op ∧ or_Status op = "completed" ∧ replayAttestation i = Ok att ∧
       w_calls w' = ApproveProposal (pr_ProposalID r0) (approval_input r0) att
         (opts_for ws "founder:reconcile" (ai_IdempotencyKey i)) :: query :: w_calls w ∧
       ∀ result, r = Ok (Some result) →
         ∃ m, settled_approval full (reconcile_binding r0) (ai_IdempotencyKey i)
           (ai_AttestationDigest i) m result w').
Proof.
  destruct (ReconcileApproval ws passID w) as [r w'] eqn:E. unfold ReconcileApproval in E.
  call_inv E Es.
  2:{ apply tx_Err in Es as [_ ->]. injection E as <- <-. by left. }
  apply tx_Ok in Es as (db & Es & ->). apply select_Ok in Es as [Es ->].
  assert (w <| w_db := w_db w |> = w) as Ew by by destruct w. rewrite Ew in E.
  cbv zeta in E. case_decide as D1.
  { injection E as <- <-. left. split; [done|]. intros result [= <-]. exists a.
    by destruct D1. }
  case_decide as D2; [injection E as <- <-; by left|].
  try_inv E Ei.
  destruct r0 as [i|e].
  2:{ apply tx_Err in Ei as [_ ->]. case_decide; injection E as <- <-; by left. }
  apply tx_Ok in Ei as (db & Ei & ->). apply select_Ok in Ei as [Ei ->]. rewrite Ew in E.
  case_decide as D3; [injection E as <- <-; by left|].
  right. exists a, i. split_and!; [done..|]. cbv zeta.
  unfold call_ReconcileOperation in E. call_inv E Eop; rewrite upstream_run in Eop; injection Eop as Eop <-.
  2:{ injection E as <- <-. by left. }
  case_decide as D4; [injection E as <- <-; by left|].
  destruct (replayAttestation i) as [att|e] eqn:Ea.
  2:{ injection E as <- <-. by left. }
  right. exists a0, att. split_and!; [done..| |]; rewrite lift_Ok_then in E;
    erewrite try_then in E by reflexivity;
    match type of E with (match ?x with _ => _ end) _ = _ => destruct x as [m|e] end.
  - call_inv E Et; [injection E as <- <-|injection E as <- <-];
      by rewrite (settleApproval_calls _ _ _ _ _ _ _ _ Et).
  - case_decide; by injection E as <- <-.
  - call_inv E Et; injection E as <- <-; [|done]. intros result [= <-].
    exists m. by apply settleApproval_Ok in Et as [Hs _].
  - case_decide; by injection E as <- <-.
Qed.
End theorems.

(** A begun approval on the bench. *)
Definition bench_begun : World :=
  (@BeginApproval bench_env bench_principal "pass-1" (start (bench_DB_with bench_pass))).2.
Definition bench_challenge : string := hex (of_bytes (replicate 16 2)).

Lemma FinishApproval_exact_witness :
  ∃ result w', @FinishApproval bench_env bench_principal "pass-1" bench_challenge "good" bench_begun
    = (Ok result, w') ∧ w_approvals w' !! bench_challenge = None.
Proof.
  destruct (@FinishApproval bench_env bench_principal "pass-1" bench_challenge "good" bench_begun)
    as [[result|e] w'] eqn:E.
  - destruct (FinishApproval_exact (H := bench_env) bench_principal "pass-1" bench_challenge "good"
      bench_begun result w' E) as (s & bg & v & wv & _ & _ & _ & _ & P & _).
    exists result, w'. split; [reflexivity|exact P].
  - exfalso. assert (is_ok (@FinishApproval bench_env bench_principal "pass-1" bench_challenge "good"
      bench_begun).1 = true) as F by (vm_compute; reflexivity).
    rewrite E in F. discriminate F.
Defined.

Definition bench_full : persistedPass := fromStoreRecord bench_pass.
Definition bench_binding : ApprovalBinding :=
  bindingFor bench_principal (pp_ProposalRecord bench_full).

Lemma approveOnce_replays_witness :
  let run := @approveOnce bench_env bench_full bench_binding zero_attestation "d"
               (start (bench_DB_with bench_pass)) in
  ∃ result, run.1 = Ok result ∧
    @approveOnce bench_env bench_full bench_binding zero_attestation "other" run.2 =
      (Ok result, run.2).
Proof.
  intros run.
  assert (match run.1 with
          | Ok r => json_ascii (approval_result_json r) &&
                    bool_decide (int64_range (ar_AuthScopeMissionVersion r))
          | Err _ => false end = true) as F by (vm_compute; reflexivity).
  destruct run as [[result|e] w'] eqn:E; [|discriminate F].
  apply andb_true_iff in F as [Fa Fn]. apply bool_decide_eq_true in Fn.
  exists result. split; [reflexivity|].
  exact (approveOnce_replays (H := bench_env) bench_full bench_binding zero_attestation "d"
    (start (bench_DB_with bench_pass)) result w' ltac:(discriminate) Fa Fn E
    bench_full bench_binding zero_attestation "other" w' eq_refl eq_refl eq_refl eq_refl eq_refl).
Defined.
