(* ===== verification/CLIAuth.v ===== *)
(** * Authorizing a launch from the command line (src/internal/authn/pkce.go)

    A CLI opens a pending authorization over the exact binding of an approved
    pass; the founder reviews that binding in the browser and answers a
    passkey ceremony over it; one code and one signed attestation come out.
    The attestation only lives in a bounded cache in memory. *)

From S2P Require Import Prelude GoTime Sha256 Base64 Json JsonParse StoreModel StorePass StoreAuth.
From S2P Require Import Rfc3339 PassModel World Attestor Bench Ceremony Source Settle.

Definition ErrInvalidRedirectURI : err := ErrOther "authn: invalid redirect URI".
Definition ErrInvalidEphemeralKey : err := ErrOther "authn: invalid ephemeral public key".
Definition ErrPassNotApproved : err := ErrOther "authn: pass is not approved for launch".
Definition ErrCLIAuthorizationNotFound : err := ErrOther "authn: CLI authorization not found".
Definition ErrCLIAuthorizationConflict : err := ErrOther "authn: CLI authorization conflict".
Definition ErrCLIAuthorizationExpired : err := ErrOther "authn: CLI authorization expired".
Definition ErrCLIBindingChanged : err := ErrOther "authn: approved launch binding changed".
Definition ErrCLIRecordTampered : err :=
  ErrOther "authn: CLI authorization record failed integrity check".

Definition approvedPassState : string := "approved".
Definition pkceCodeLength : nat := 32.
Definition cliAuthorizationTTL : Z := 2 * Minute.
Definition cliAttestationTTL : Z := 2 * Minute.

(** ** PKCE *)

Definition CodeChallengeS256 (verifier : string) : string := RawURLEncode (Sum256 verifier).

Definition raw32 (text : string) : Prop :=
  (String.length <$> RawURLDecode text) = Some pkceCodeLength.
#[export] Instance raw32_dec text : Decision (raw32 text).
Proof. unfold raw32. apply _. Defined.

Definition VerifyCodeChallenge (challenge verifier : string) : Prop :=
  raw32 verifier ∧ CodeChallengeS256 verifier = challenge.
#[export] Instance VerifyCodeChallenge_dec c v : Decision (VerifyCodeChallenge c v).
Proof. unfold VerifyCodeChallenge. apply _. Defined.

(** ** The loopback callback

    What [url.Parse] makes of the accepted form: a fragment mark or a query
    mark at the end leaves no fragment and no query, the scheme is read in
    either case, and [strconv.Atoi] reads the port with leading zeros.
    Bracketed, encoded and userinfo hosts never have this host name. *)

Definition chop_end (c : Z) (l : list Z) : list Z :=
  match rev l with x :: l' => if decide (x = c) then rev l' else l | [] => [] end.

Definition loopback_port (rawURI : string) : option Z :=
  let u := chop_end 63 (chop_end 35 (bytes_of rawURI)) in
  let scheme := of_bytes (take 7 u) in
  let host := of_bytes (take 10 (drop 7 u)) in
  let '(digits, path) := span is_digit (drop 17 u) in
  let port := digits_val digits in
  if decide (ToLower scheme = "http://" ∧ host = "127.0.0.1:" ∧ digits ≠ [] ∧
             1024 ≤ port ≤ 65535 ∧ of_bytes path = "/callback")
  then Some port else None.

Definition callback_uri (port : Z) : string := "http://127.0.0.1:" +:+ itoa port +:+ "/callback".

Definition ValidateLoopbackRedirectURI (rawURI : string) : res string :=
  port ← opt_res ErrInvalidRedirectURI (loopback_port rawURI);
  Ok (callback_uri port).

Example loopback_plain : loopback_port "http://127.0.0.1:8080/callback" = Some 8080.
Proof. vm_compute. reflexivity. Qed.
Example loopback_marks : loopback_port "HTTP://127.0.0.1:008080/callback?#" = Some 8080.
Proof. vm_compute. reflexivity. Qed.
Example loopback_refused :
  (λ u, loopback_port u) <$> ["https://127.0.0.1:8080/callback"; "http://localhost:8080/callback";
    "http://127.0.0.1:80/callback"; "http://127.0.0.1:8080/callback/"; "http://127.0.0.1/callback";
    "http://127.0.0.1:8080/callback?x=1"; "http://u@127.0.0.1:8080/callback";
    "http://[127.0.0.1]:8080/callback"; "http://127.0.0.1:8080/callback#?"]
  = replicate 9 None.
Proof. vm_compute. reflexivity. Qed.

(** [url.QueryEscape] *)
Definition query_plain (b : Z) : bool :=
  in_range 65 90 b || in_range 97 122 b || in_range 48 57 b ||
  bool_decide (b ∈ [45; 95; 46; 126]).
Definition upper_hex (b : Z) : string :=
  String (nth (Z.to_nat (b / 16)) (String.list_ascii_of_string "0123456789ABCDEF") Ascii.zero)
    (String (nth (Z.to_nat (b mod 16)) (String.list_ascii_of_string "0123456789ABCDEF") Ascii.zero) "").
Definition escape_byte (b : Z) : string :=
  if query_plain b then of_bytes [b]
  else if decide (b = 32) then "+" else "%" +:+ upper_hex b.
Definition QueryEscape (s : string) : string := String.concat "" (escape_byte <$> bytes_of s).

Example query_escape_ex : QueryEscape "a b-_~/&=é" = "a+b-_~%2F%26%3D%C3%A9".
Proof. vm_compute. reflexivity. Qed.

(** ** The launch binding *)

Record launchBinding := Mk_launchBinding {
  lb_PassID : string;
  lb_MissionRef : string;
  lb_MissionVersion : Z;
  lb_ProposalDigest : string;
  lb_InvocationDigest : string;
  lb_AgentKitID : string;
  lb_AgentKitVersion : string;
  lb_RunnerArguments : list string;
  lb_RepositoryName : string;
  lb_IssueNumber : Z
}.

Record CLIAuthorizationRequest := MkCLIAuthorizationRequest {
  cl_PassID : string;
  cl_RedirectURI : string;
  cl_State : string;
  cl_CodeChallenge : string;
  cl_CodeChallengeMethod : string;
  cl_EphemeralPublicKey : string
}.

Record CLIAuthorizationStart := MkCLIAuthorizationStart {
  cs_ID : string;
  cs_BrowserURL : string;
  cs_ProposalDigest : string;
  cs_AgentKitID : string;
  cs_AgentKitVersion : string;
  cs_RunnerArguments : list string;
  cs_InvocationDigest : string
}.

Record BegunCLIAuthorization := MkBegunCLIAuthorization {
  bg_ChallengeID : string;
  bg_OptionsJSON : string;
  bg_Binding : launchBinding
}.

Definition InvocationDigestForLaunch (agentKitID agentKitVersion : string) (runnerArgs : list string)
    : string :=
  tagged_digest (render true (JObj [
    ("domain", JStr "authscope-ope/cli-launch/v1"); ("agent_kit_id", JStr agentKitID);
    ("agent_kit_version", JStr agentKitVersion); ("runner_arguments", JArr (JStr <$> runnerArgs))])).

Definition canonicalRequest (passID redirectURI state codeChallenge ephemeralPublicKey : string)
    (b : launchBinding) : json :=
  JObj [("domain", JStr "authscope-ope/cli-authorization-request/v1");
        ("pass_id", JStr passID); ("redirect_uri", JStr redirectURI); ("state", JStr state);
        ("code_challenge", JStr codeChallenge); ("ephemeral_public_key", JStr ephemeralPublicKey);
        ("proposal_digest", JStr (lb_ProposalDigest b));
        ("invocation_digest", JStr (lb_InvocationDigest b));
        ("agent_kit_id", JStr (lb_AgentKitID b)); ("agent_kit_version", JStr (lb_AgentKitVersion b));
        ("runner_arguments", JArr (JStr <$> lb_RunnerArguments b));
        ("mission_ref", JStr (lb_MissionRef b)); ("mission_version", JInt (lb_MissionVersion b))].

Definition canonicalRequestDigest (passID redirectURI state codeChallenge ephemeralPublicKey : string)
    (b : launchBinding) : string :=
  Sum256 (render true (canonicalRequest passID redirectURI state codeChallenge ephemeralPublicKey b)).

Definition request_digest (req : CLIAuthorizationRequest) (u : string) (b : launchBinding) : string :=
  canonicalRequestDigest (cl_PassID req) u (cl_State req) (cl_CodeChallenge req)
    (cl_EphemeralPublicKey req) b.

(** The binding a stored authorization pins. *)
Definition pinned_binding (rec : CLIAuthorization) : launchBinding :=
  Mk_launchBinding (ca_PassID rec) (ca_MissionRef rec) (ca_MissionVersion rec)
    (ca_ProposalDigest rec) (ca_InvocationDigest rec) (ca_AgentKitID rec) (ca_AgentKitVersion rec)
    (ca_RunnerArguments rec) "" 0.

Definition VerifyRecordIntegrity (rec : CLIAuthorization) : res unit :=
  require_res (canonicalRequestDigest (ca_PassID rec) (ca_RedirectURI rec) (ca_State rec)
                 (ca_CodeChallenge rec) (ca_EphemeralPublicKey rec) (pinned_binding rec)
               = ca_CanonicalRequestDigest rec) ErrCLIRecordTampered.

Definition bindingMatchesRecord (rec : CLIAuthorization) (b : launchBinding) : Prop :=
  ca_ProposalDigest rec = lb_ProposalDigest b ∧ ca_InvocationDigest rec = lb_InvocationDigest b ∧
  ca_AgentKitID rec = lb_AgentKitID b ∧ ca_AgentKitVersion rec = lb_AgentKitVersion b ∧
  ca_MissionRef rec = lb_MissionRef b ∧ ca_MissionVersion rec = lb_MissionVersion b ∧
  ca_RunnerArguments rec = lb_RunnerArguments b.
#[export] Instance bindingMatchesRecord_dec rec b : Decision (bindingMatchesRecord rec b).
Proof. unfold bindingMatchesRecord. apply _. Defined.

Definition canonicalBeginBytes (rec : CLIAuthorization) (b : launchBinding) : string :=
  render true (JObj [
    ("domain", JStr "authscope-ope/cli-launch-decision/v1");
    ("authorization_id", JStr (ca_AuthorizationID rec)); ("pass_id", JStr (lb_PassID b));
    ("mission_ref", JStr (lb_MissionRef b)); ("mission_version", JInt (lb_MissionVersion b));
    ("proposal_digest", JStr (lb_ProposalDigest b));
    ("invocation_digest", JStr (lb_InvocationDigest b));
    ("agent_kit_id", JStr (lb_AgentKitID b)); ("agent_kit_version", JStr (lb_AgentKitVersion b));
    ("runner_arguments", JArr (JStr <$> lb_RunnerArguments b));
    ("redirect_uri", JStr (ca_RedirectURI rec)); ("code_challenge", JStr (ca_CodeChallenge rec));
    ("ephemeral_public_key", JStr (ca_EphemeralPublicKey rec))]).

Definition validateCreateRequest (req : CLIAuthorizationRequest) : res string :=
  _ ← require_res (cl_CodeChallengeMethod req = "S256") ErrInvalidPKCE;
  _ ← require_res (raw32 (cl_State req)) ErrInvalidPKCE;
  _ ← require_res (raw32 (cl_CodeChallenge req)) ErrInvalidPKCE;
  _ ← require_res (raw32 (cl_EphemeralPublicKey req)) ErrInvalidEphemeralKey;
  ValidateLoopbackRedirectURI (cl_RedirectURI req).

Definition cliCeremonyProofDigest (v : VerifiedDecision) : string :=
  tagged_digest (render true (JObj [
    ("method", JStr (vd_Method v)); ("challenge_id", JStr (vd_ChallengeID v));
    ("nonce", JStr (hex (vd_Nonce v))); ("workspace_id", JStr (vd_WorkspaceID v));
    ("session_id", JStr (vd_SessionID v)); ("founder_id", JStr (vd_FounderID v));
    ("subject_id", JStr (vd_SubjectID v)); ("purpose", JStr (vd_Purpose v));
    ("user_verified", JBool (vd_UserVerified v))])).

(** ** The attestation cache *)

Definition maxPendingAttestations : nat := 64.

(** The eviction loop of [Put]. *)
Fixpoint evict_oldest (order : list string) (items : gmap string PendingDecisionAttestation)
    : PendingDecisionAttestations :=
  match order with
  | oldest :: rest =>
      if decide (maxPendingAttestations < length order)%nat
      then evict_oldest rest (delete oldest items)
      else MkPendingDecisionAttestations items order
  | [] => MkPendingDecisionAttestations items order
  end.

Definition Put (a : PendingDecisionAttestation) (c : PendingDecisionAttestations)
    : PendingDecisionAttestations :=
  let id := pa_AuthorizationID a in
  let order := if decide (pc_items c !! id = None) then (pc_order c ++ [id])%list else pc_order c in
  evict_oldest order (<[id := a]> (pc_items c)).

Fixpoint remove_first (id : string) (l : list string) : list string :=
  match l with
  | [] => []
  | x :: l' => if decide (x = id) then l' else x :: remove_first id l'
  end.

Definition evict_key (t : time) (c : PendingDecisionAttestations) (key : string)
    : PendingDecisionAttestations :=
  match pc_items c !! key with
  | Some a =>
      if decide (After t (pa_ExpiresAt a)) then c <| pc_items := delete key (pc_items c) |>
      else c <| pc_order := (pc_order c ++ [key])%list |>
  | None => c <| pc_order := (pc_order c ++ [key])%list |>
  end.
Definition EvictExpired (t : time) (c : PendingDecisionAttestations) : PendingDecisionAttestations :=
  foldl (evict_key t) (c <| pc_order := [] |>) (pc_order c).

Definition Len (c : PendingDecisionAttestations) : nat := size (pc_items c).

Section cli_authorization.
Context `{Env}.
Context (baseURL : string).

(** Taken at most once; an expired one is dropped. *)
Definition Take (id : string) : M (option PendingDecisionAttestation) :=
  c ← gets w_attestations;
  match pc_items c !! id with
  | None => mret None
  | Some a =>
      _ ← modify (λ w, w <| w_attestations :=
            MkPendingDecisionAttestations (delete id (pc_items c)) (remove_first id (pc_order c)) |>);
      t ← now;
      mret (if decide (After t (pa_ExpiresAt a)) then None else Some a)
  end.

Definition NewPKCEVerifier : M string := b ← randomBytes pkceCodeLength; mret (RawURLEncode b).

Definition binding_of (rec : MissionPassRecord) : launchBinding :=
  Mk_launchBinding (mp_PassID rec) (mp_MissionRef rec) (mp_AuthScopeMissionVersion rec)
    (mp_ApprovedProposalDigest rec) (mp_InvocationDigest rec) (mp_AgentKitID rec)
    (mp_AgentKitVersion rec) (mp_RunnerArguments rec) (mp_RepositoryName rec) (mp_IssueNumber rec).

Definition binding_complete (b : launchBinding) : Prop :=
  lb_ProposalDigest b ≠ "" ∧ lb_MissionRef b ≠ "" ∧ 0 < lb_MissionVersion b ∧
  lb_InvocationDigest b ≠ "" ∧ lb_AgentKitID b ≠ "" ∧ lb_AgentKitVersion b ≠ "" ∧
  lb_RunnerArguments b ≠ [].
#[export] Instance binding_complete_dec b : Decision (binding_complete b).
Proof. unfold binding_complete. apply _. Defined.

(** An unexpired approved pass with a complete binding. *)
Definition loadLaunchBinding (passID : string) : M launchBinding :=
  _ ← require (passID ≠ "") ErrCLIAuthorizationNotFound;
  r ← try (tx (getMissionPass instance_WorkspaceID passID));
  match r with
  | Err e => fail (if decide (e = ErrNotFound) then ErrCLIAuthorizationNotFound else e)
  | Ok rec =>
      _ ← require (mp_State rec = approvedPassState) ErrPassNotApproved;
      t ← now;
      _ ← require (Before t (mp_ExpiresAt rec)) ErrPassNotApproved;
      _ ← require (binding_complete (binding_of rec)) ErrPassNotApproved;
      mret (binding_of rec)
  end.

Definition startFor (rec : CLIAuthorization) : CLIAuthorizationStart :=
  MkCLIAuthorizationStart (ca_AuthorizationID rec)
    (baseURL +:+ "/authorize/cli/" +:+ ca_AuthorizationID rec) (ca_ProposalDigest rec)
    (ca_AgentKitID rec) (ca_AgentKitVersion rec) (ca_RunnerArguments rec) (ca_InvocationDigest rec).

Definition replayCreate (existing : CLIAuthorization) (wantDigest : string) (t : time)
    : res (CLIAuthorizationStart * bool) :=
  _ ← require_res (¬ After t (ca_ExpiresAt existing)) ErrCLIAuthorizationExpired;
  _ ← require_res (ca_CanonicalRequestDigest existing = wantDigest) ErrCLIAuthorizationConflict;
  Ok (startFor existing, true).

Definition new_authorization (req : CLIAuthorizationRequest) (redirectURI id : string)
    (b : launchBinding) (digest : string) (t : time) : CLIAuthorization :=
  MkCLIAuthorization instance_WorkspaceID ("cliauth-" +:+ id) (cl_PassID req) (cl_State req)
    (cl_CodeChallenge req) redirectURI (cl_EphemeralPublicKey req) (lb_ProposalDigest b)
    (lb_InvocationDigest b) (lb_AgentKitID b) (lb_AgentKitVersion b) (lb_RunnerArguments b)
    (lb_MissionRef b) (lb_MissionVersion b) digest "" "" None None (t + cliAuthorizationTTL) t.

(** The flag tells a replay from a new authorization. *)
Definition Create (req : CLIAuthorizationRequest) : M (CLIAuthorizationStart * bool) :=
  redirectURI ← lift (validateCreateRequest req);
  b ← loadLaunchBinding (cl_PassID req);
  t ← now;
  let wantDigest := request_digest req redirectURI b in
  let by_state := tx (getCLIAuthorizationByState instance_WorkspaceID (cl_PassID req) (cl_State req)) in
  found ← try by_state;
  match found with
  | Ok existing => lift (replayCreate existing wantDigest t)
  | Err e =>
      _ ← require (e = ErrNotFound) e;
      id ← newCeremonyID;
      let rec := new_authorization req redirectURI id b wantDigest t in
      r ← try (tx (putCLIAuthorization rec));
      match r with
      | Ok _ => mret (startFor rec, false)
      | Err e =>
          _ ← require (e = ErrConflict) e;
          again ← try by_state;
          match again with
          | Ok existing => lift (replayCreate existing wantDigest t)
          | Err _ => fail ErrCLIAuthorizationConflict
          end
      end
  end.

Definition beginBinding (workspaceID authorizationID : string)
    : M (CLIAuthorization * launchBinding) :=
  r ← try (tx (getCLIAuthorization instance_WorkspaceID authorizationID));
  match r with
  | Err e => fail (if decide (e = ErrNotFound) then ErrCLIAuthorizationNotFound else e)
  | Ok rec =>
      _ ← require (workspaceID = instance_WorkspaceID) ErrDecisionBinding;
      t ← now;
      _ ← require (¬ After t (ca_ExpiresAt rec)) ErrCLIAuthorizationExpired;
      _ ← require (ca_ApprovedAt rec = None) ErrCLIAuthorizationConflict;
      b ← loadLaunchBinding (ca_PassID rec);
      _ ← require (bindingMatchesRecord rec b) ErrCLIBindingChanged;
      mret (rec, b)
  end.

Definition BeginBrowserDecision (p : Principal) (authorizationID : string)
    : M BegunCLIAuthorization :=
  '(rec, b) ← beginBinding (p_WorkspaceID p) authorizationID;
  begun ← BeginDecision p DecisionCLILaunchAuthorization (ca_AuthorizationID rec)
            (canonicalBeginBytes rec b);
  mret (MkBegunCLIAuthorization (ch_ChallengeID begun.1) begun.2 b).

Definition launch_claims (rec : CLIAuthorization) (b : launchBinding) (v : VerifiedDecision)
    (issuedAt : time) : DecisionClaims :=
  MkDecisionClaims instance_WorkspaceID (vd_FounderID v) AudiencePrepareLaunch
    PurposeCLILaunchAuthorization (ca_AuthorizationID rec) (lb_ProposalDigest b)
    (lb_InvocationDigest b) (vd_Method v) (cliCeremonyProofDigest v) (vd_Nonce v) issuedAt
    (issuedAt + cliAttestationTTL).

Definition redirect_to (rec : CLIAuthorization) (codeRaw : string) : string :=
  ca_RedirectURI rec +:+ "?code=" +:+ RawURLEncode codeRaw +:+ "&state=" +:+ QueryEscape (ca_State rec).

Definition FinishBrowserDecision (p : Principal) (authorizationID challengeID assertion : string)
    : M string :=
  '(rec, b) ← beginBinding (p_WorkspaceID p) authorizationID;
  let canonical := canonicalBeginBytes rec b in
  r ← try (FinishDecision p challengeID DecisionCLILaunchAuthorization (ca_AuthorizationID rec)
             canonical assertion);
  verified ← match r with
             | Ok v => mret v
             | Err e => fail (if decide (e = ErrDecisionBinding) then ErrCLIBindingChanged else e)
             end;
  current ← loadLaunchBinding (ca_PassID rec);
  _ ← require (canonicalBeginBytes rec current = canonical) ErrCLIBindingChanged;
  issuedAt ← now;
  att ← Attest (launch_claims rec b verified issuedAt);
  let attDigest := attestationDigest att in
  codeRaw ← randomBytes pkceCodeLength;
  approvedAt ← now;
  a ← try (tx (approveCLIAuthorization instance_WorkspaceID (ca_AuthorizationID rec) challengeID
                 attDigest (Sum256 codeRaw) approvedAt));
  _ ← match a with
      | Ok _ => mret tt
      | Err e => fail (if decide (e = ErrConflict) then ErrCLIAuthorizationConflict else e)
      end;
  _ ← modify (λ w, w <| w_attestations :=
        Put (MkPendingDecisionAttestation (ca_AuthorizationID rec) att attDigest (Sum256 codeRaw)
               (ca_ExpiresAt rec)) (w_attestations w) |>);
  mret (redirect_to rec codeRaw).
End cli_authorization.

(** ** The callback *)

Lemma itoa_digits n : 0 ≤ n →
  forallb is_digit (bytes_of (itoa n)) = true ∧ digits_val (bytes_of (itoa n)) = n ∧
  bytes_of (itoa n) ≠ [].
Proof.
  intros Hn. destruct (nat_digits (Z.to_N n)) as (c & d & E & _ & Hf & Hv).
  assert (bytes_of (itoa n) = c :: d) as -> by (rewrite <- E; destruct n; [done|done|lia]).
  rewrite Z2N.id in Hv by lia. by split_and!.
Qed.

Lemma chop_end_other c l x : x ≠ c → chop_end c (l ++ [x]) = (l ++ [x])%list.
Proof. intros Hx. unfold chop_end. rewrite rev_app_distr. cbn. by rewrite decide_False. Qed.

Lemma loopback_port_callback port : 1024 ≤ port ≤ 65535 → loopback_port (callback_uri port) = Some port.
Proof.
  intros Hp. destruct (itoa_digits port ltac:(lia)) as (Hd & Hv & Hne).
  assert (bytes_of (callback_uri port) = ((bytes_of "http://127.0.0.1:" ++ bytes_of (itoa port) ++
    bytes_of "/callbac") ++ [107])%list) as E.
  { unfold callback_uri. rewrite !bytes_of_app, <- !app_assoc. reflexivity. }
  unfold loopback_port. rewrite E, !chop_end_other by done. rewrite <- app_assoc.
  change (take 7 (bytes_of "http://127.0.0.1:" ++ ?r)) with (take 7 (bytes_of "http://127.0.0.1:")).
  change (take 10 (drop 7 (bytes_of "http://127.0.0.1:" ++ ?r)))
    with (take 10 (drop 7 (bytes_of "http://127.0.0.1:"))).
  change (drop 17 (bytes_of "http://127.0.0.1:" ++ ?r)) with r.
  rewrite <- app_assoc, span_app by done. rewrite Hv.
  rewrite decide_True; [done|]. split; [vm_compute; reflexivity|]. split; [vm_compute; reflexivity|].
  split; [done|]. split; [done|vm_compute; reflexivity].
Qed.

(** A redirect URI that is accepted is rewritten to the one callback form:
    plain http to 127.0.0.1 with an unprivileged port and nothing after
    /callback; that form is accepted as it is. *)
Theorem redirect_normalized rawURI u :
  ValidateLoopbackRedirectURI rawURI = Ok u →
  (∃ port, 1024 ≤ port ≤ 65535 ∧ u = callback_uri port) ∧ ValidateLoopbackRedirectURI u = Ok u.
Proof.
  unfold ValidateLoopbackRedirectURI. intros E. apply res_bind_Ok in E as (port & E & Eu).
  apply opt_res_Ok in E. injection Eu as <-. unfold loopback_port in E.
  destruct (span _ _) as [digits path]. case_decide as D; [|discriminate E]. injection E as <-.
  destruct D as (_ & _ & _ & Hp & _). split; [by eexists|]. by rewrite loopback_port_callback.
Qed.

(** ** The cache *)

Record cache_ok (c : PendingDecisionAttestations) : Prop := {
  co_bound : (length (pc_order c) ≤ maxPendingAttestations)%nat;
  co_nodup : NoDup (pc_order c);
  co_order : ∀ id, id ∈ pc_order c ↔ is_Some (pc_items c !! id);
  co_keyed : ∀ id a, pc_items c !! id = Some a → pa_AuthorizationID a = id
}.

Lemma evict_oldest_small order items :
  (length order ≤ maxPendingAttestations)%nat →
  evict_oldest order items = MkPendingDecisionAttestations items order.
Proof. destruct order as [|x l]; [done|]. intros Hl. cbn [evict_oldest]. by rewrite decide_False by lia. Qed.

Lemma Put_ok a c : cache_ok c → cache_ok (Put a c).
Proof.
  intros [Hb Hn Ho Hk]. unfold Put. set (id := pa_AuthorizationID a). set (items := <[id:=a]> _).
  assert (∀ id' a', items !! id' = Some a' → pa_AuthorizationID a' = id') as Hk'.
  { intros id' a'. unfold items. rewrite lookup_insert_Some. intros [[<- <-]|[_ ?]]; [done|by apply Hk]. }
  case_decide as D.
  - assert (id ∉ pc_order c) as Hni by (rewrite Ho, D; by intros [? ?]).
    assert (∀ i, i ∈ (pc_order c ++ [id])%list ↔ is_Some (items !! i)) as Ho'.
    { intros i. unfold items. rewrite elem_of_app, list_elem_of_singleton, Ho.
      destruct (decide (i = id)) as [->|Hi]; [rewrite lookup_insert_eq; naive_solver|].
      rewrite lookup_insert_ne by done. naive_solver. }
    assert (NoDup (pc_order c ++ [id])) as Hn'.
    { apply NoDup_app. split_and!; [done| |apply NoDup_singleton].
      intros x Hx ->%list_elem_of_singleton. done. }
    assert (length (pc_order c ++ [id]) ≤ S maxPendingAttestations)%nat as Hl
      by (rewrite length_app; cbn; lia).
    destruct (decide (length (pc_order c ++ [id]) ≤ maxPendingAttestations)%nat) as [Hs|Hs].
    { rewrite evict_oldest_small by done. by constructor. }
    destruct (pc_order c ++ [id])%list as [|oldest rest] eqn:E; [cbn in Hs; lia|].
    cbn [evict_oldest]. rewrite decide_True by lia. cbn in Hl. rewrite evict_oldest_small by lia.
    apply NoDup_cons in Hn' as [Hno Hnr]. constructor; cbn; [lia|done| |].
    + intros i. destruct (decide (i = oldest)) as [->|Hi].
      * rewrite lookup_delete_eq. split; [done|by intros [? ?]].
      * rewrite lookup_delete_ne by done. rewrite <- Ho', elem_of_cons. naive_solver.
    + intros i a'. rewrite lookup_delete_Some. intros [_ ?]. by apply Hk'.
  - rewrite evict_oldest_small by done. constructor; [done|done| |done].
    intros i. cbn. unfold items. rewrite Ho. destruct (decide (i = id)) as [->|Hi].
    + rewrite lookup_insert_eq. split; [done|]. intros _. by apply not_eq_None_Some.
    + by rewrite lookup_insert_ne.
Qed.

Lemma remove_first_spec id l : NoDup l →
  NoDup (remove_first id l) ∧ (length (remove_first id l) ≤ length l)%nat ∧
  ∀ x, x ∈ remove_first id l ↔ x ∈ l ∧ x ≠ id.
Proof.
  induction l as [|y l IH]; intros Hn; [cbn; split_and!; [done|lia|set_solver]|].
  apply NoDup_cons in Hn as [Hy Hn]. destruct (IH Hn) as (H1 & H2 & H3). cbn.
  case_decide as D; [subst|].
  - split_and!; [done|cbn; lia|set_solver].
  - split_and!; [apply NoDup_cons; set_solver|cbn; lia|set_solver].
Qed.

Definition cache_take (id : string) (c : PendingDecisionAttestations) : PendingDecisionAttestations :=
  MkPendingDecisionAttestations (delete id (pc_items c)) (remove_first id (pc_order c)).

Lemma cache_take_ok id c : cache_ok c → cache_ok (cache_take id c).
Proof.
  intros [Hb Hn Ho Hk]. destruct (remove_first_spec id _ Hn) as (H1 & H2 & H3).
  constructor; cbn; [lia|done| |].
  - intros i. rewrite H3, Ho. destruct (decide (i = id)) as [->|Hi].
    + rewrite lookup_delete_eq. split; [by intros [_ ?]|by intros [? ?]].
    + rewrite lookup_delete_ne by done. naive_solver.
  - intros i a. rewrite lookup_delete_Some. intros [_ ?]. by apply Hk.
Qed.

(** The loop of [EvictExpired] over what is left of the old order. *)
Lemma evict_fold_ok t order c :
  (length (pc_order c ++ order) ≤ maxPendingAttestations)%nat → NoDup (pc_order c ++ order) →
  (∀ id, id ∈ (pc_order c ++ order)%list ↔ is_Some (pc_items c !! id)) →
  (∀ id a, pc_items c !! id = Some a → pa_AuthorizationID a = id) →
  cache_ok (foldl (evict_key t) c order).
Proof.
  revert c. induction order as [|key order IH]; intros c Hb Hn Ho Hk.
  - rewrite app_nil_r in *. by constructor.
  - cbn [foldl]. assert (((pc_order c ++ [key]) ++ order)%list = (pc_order c ++ key :: order)%list) as Ea
      by by rewrite <- app_assoc.
    unfold evict_key. destruct (pc_items c !! key) as [a|] eqn:Ek; [case_decide as D|].
    + assert (key ∉ (pc_order c ++ order)%list) as Hni.
      { rewrite <- Permutation_middle in Hn. by apply NoDup_cons in Hn as [? _]. }
      apply IH; cbn.
      * rewrite length_app in *. cbn in Hb. lia.
      * rewrite <- Permutation_middle in Hn. by apply NoDup_cons in Hn as [_ ?].
      * intros i. specialize (Ho i). destruct (decide (i = key)) as [->|Hi].
        -- rewrite lookup_delete_eq. split; [done|by intros [? ?]].
        -- rewrite lookup_delete_ne by done. rewrite <- Ho. rewrite !elem_of_app, elem_of_cons. naive_solver.
      * intros i b. rewrite lookup_delete_Some. intros [_ ?]. by apply Hk.
    + apply IH; cbn; rewrite ?Ea; done.
    + apply IH; cbn; rewrite ?Ea; done.
Qed.

Lemma EvictExpired_ok t c : cache_ok c → cache_ok (EvictExpired t c).
Proof. intros [Hb Hn Ho Hk]. by apply evict_fold_ok. Qed.

Lemma evict_fold_items t order c id a :
  pc_items (foldl (evict_key t) c order) !! id = Some a → pc_items c !! id = Some a.
Proof.
  revert c. induction order as [|key order IH]; intros c; [done|]. cbn [foldl]. intros E%IH.
  unfold evict_key in E. destruct (pc_items c !! key); [case_decide|]; cbn in E; [|done..].
  by apply lookup_delete_Some in E as [_ ?].
Qed.

Lemma Put_items a c id b : pc_items (Put a c) !! id = Some b →
  (id = pa_AuthorizationID a ∧ b = a) ∨ pc_items c !! id = Some b.
Proof.
  unfold Put. intros E. assert (<[pa_AuthorizationID a := a]> (pc_items c) !! id = Some b) as Ei.
  { revert E. generalize (<[pa_AuthorizationID a := a]> (pc_items c)) as items.
    generalize (if decide (pc_items c !! pa_AuthorizationID a = None)
                then (pc_order c ++ [pa_AuthorizationID a])%list else pc_order c) as order.
    induction order as [|x l IH]; intros items; cbn; [done|].
    case_decide; [|done]. intros E%IH. by apply lookup_delete_Some in E as [_ ?]. }
  apply lookup_insert_Some in Ei as [[<- <-]|[_ ?]]; auto.
Qed.

(** ** What the operations do *)

(** Only the clock and the random source move. *)
Definition idle (w w' : World) : Prop :=
  w' = w <| w_ticks := w_ticks w' |> <| w_draws := w_draws w' |>.

#[export] Instance idle_preorder : PreOrder idle.
Proof.
  split; [by intros []|]. intros w1 w2 w3 E1 E2. unfold idle in *. rewrite E2, E1. done.
Qed.
Lemma idle_now `{Env} : within idle now.
Proof. intros w r w' E. injection E as _ <-. by destruct w. Qed.
Lemma idle_random `{Env} n : within idle (randomBytes n).
Proof. intros w r w' E. injection E as _ <-. by destruct w. Qed.
Lemma idle_read {A} (fn : Tx A) : within eq fn → within idle (tx fn).
Proof.
  intros Hf w [a|e] w' E; [apply tx_Ok in E as (db & E & ->)|by apply tx_Err in E as [_ ->]].
  apply Hf in E as <-. by destruct w.
Qed.
Lemma by_state_reads ws p st : within eq (getCLIAuthorizationByState ws p st).
Proof.
  intros db r db' E. unfold getCLIAuthorizationByState in E. rewrite gets_then in E.
  destruct (table_rows _ _); by injection E as _ <-.
Qed.
Lemma by_code_reads ws h : within eq (getCLIAuthorizationByCodeHash ws h).
Proof.
  intros db r db' E. unfold getCLIAuthorizationByCodeHash in E. rewrite gets_then in E.
  destruct (table_rows _ _); by injection E as _ <-.
Qed.
#[export] Hint Resolve idle_now idle_random : within.
#[export] Hint Extern 2 (within idle (tx _)) =>
  apply idle_read; first [apply within_select|apply by_state_reads|apply by_code_reads] : within.
Lemma idle_fields w w' : idle w w' →
  w_db w' = w_db w ∧ w_calls w' = w_calls w ∧ w_attestations w' = w_attestations w ∧
  w_delivery w' = w_delivery w ∧ w_delivery_order w' = w_delivery_order w ∧ w_keys w' = w_keys w.
Proof. unfold idle. intros ->. done. Qed.

Lemma by_state_Ok ws p st db r db' :
  getCLIAuthorizationByState ws p st db = (Ok r, db') →
  ca_WorkspaceID r = ws ∧ ca_PassID r = p ∧ ca_State r = st ∧
  ∃ k, db_cli_authorizations db !! k = Some r.
Proof.
  unfold getCLIAuthorizationByState. rewrite gets_then.
  destruct (table_rows _ _) as [|r0 l] eqn:E; [done|]. intros [= <- <-].
  assert (r0 ∈ r0 :: l) as Hin by constructor. rewrite <- E in Hin.
  apply elem_of_table_rows in Hin as [(? & ? & ?) ?]. by split_and!.
Qed.

Lemma by_code_Ok ws h db r db' :
  getCLIAuthorizationByCodeHash ws h db = (Ok r, db') →
  db' = db ∧ ca_WorkspaceID r = ws ∧ ca_CodeHash r = Some h ∧
  ∃ k, db_cli_authorizations db !! k = Some r.
Proof.
  unfold getCLIAuthorizationByCodeHash. rewrite gets_then.
  destruct (table_rows _ _) as [|r0 l] eqn:E; [done|]. intros [= <- <-].
  assert (r0 ∈ r0 :: l) as Hin by constructor. rewrite <- E in Hin.
  apply elem_of_table_rows in Hin as [(? & ?) ?]. by split_and!.
Qed.

Definition no_state (ws p st : string) (db : DB) : Prop :=
  ∀ k r, db_cli_authorizations db !! k = Some r →
    ¬ (ca_WorkspaceID r = ws ∧ ca_PassID r = p ∧ ca_State r = st).

Lemma putCLIAuthorization_Ok rec db u db' :
  putCLIAuthorization rec db = (Ok u, db') →
  let k := (ca_WorkspaceID rec, ca_AuthorizationID rec) in
  db_cli_authorizations db !! k = None ∧
  no_state (ca_WorkspaceID rec) (ca_PassID rec) (ca_State rec) db ∧
  db' = db <| db_cli_authorizations :=
    <[k := rec <| ca_DecisionChallengeID := "" |> <| ca_DecisionAttestationDigest := "" |>
               <| ca_CodeHash := None |> <| ca_ApprovedAt := None |>]> (db_cli_authorizations db) |>.
Proof.
  unfold putCLIAuthorization. intros E. op_inv E. destruct D3 as [Hn Hs].
  split_and!; [done| |done]. intros k r Hk Hr.
  assert (r ∈ table_rows (λ r0, ca_WorkspaceID r0 = ca_WorkspaceID rec ∧
    ca_PassID r0 = ca_PassID rec ∧ ca_State r0 = ca_State rec) (db_cli_authorizations db)) as Hin
    by (apply elem_of_table_rows; eauto).
  rewrite Hs in Hin. by apply not_elem_of_nil in Hin.
Qed.

Lemma approveCLIAuthorization_Ok ws id ch ad h t db u db' :
  approveCLIAuthorization ws id ch ad h t db = (Ok u, db') →
  ∃ old, db_cli_authorizations db !! (ws, id) = Some old ∧ ca_ApprovedAt old = None ∧
    ch ≠ "" ∧ ad ≠ "" ∧ h ≠ zero32 ∧
    db' = db <| db_cli_authorizations := <[(ws, id) :=
      old <| ca_DecisionChallengeID := ch |> <| ca_DecisionAttestationDigest := ad |>
          <| ca_CodeHash := Some h |> <| ca_ApprovedAt := Some t |>]> (db_cli_authorizations db) |>.
Proof.
  unfold approveCLIAuthorization. intros E. op_inv E. destruct D. eauto 10.
Qed.

Section effect.
Context `{Env}.
Context (baseURL : string).
Notation ws := instance_WorkspaceID.

(** The launch binding of a pass that may be launched at a time. *)
Definition launchable (passID : string) (b : launchBinding) (t : time) (db : DB) : Prop :=
  passID ≠ "" ∧ ∃ pass, db_mission_passes db !! (ws, passID) = Some pass ∧ mp_State pass = approvedPassState ∧
    t < mp_ExpiresAt pass ∧ binding_complete b ∧ b = binding_of pass.

Lemma idle_loadLaunchBinding passID : within idle (loadLaunchBinding passID).
Proof. unfold loadLaunchBinding, getMissionPass. within_auto. Qed.
#[local] Hint Resolve idle_loadLaunchBinding : within.

Lemma loadLaunchBinding_run passID w r w' :
  loadLaunchBinding passID w = (r, w') →
  match r with
  | Ok b => launchable passID b (clock (w_ticks w)) (w_db w) ∧ w' = w <| w_ticks := S (w_ticks w) |>
  | Err _ => idle w w'
  end.
Proof.
  intros E. destruct r as [b|e]; [|by apply idle_loadLaunchBinding in E].
  unfold loadLaunchBinding in E. op_inv_step E; [|discriminate E].
  try_inv E Er. destruct r as [pass|e]; [|discriminate E].
  apply tx_Ok in Er as (db & Er & ->). apply select_Ok in Er as [Hp ->].
  op_inv_step E; [|discriminate E]. rewrite now_then in E.
  op_inv_step E; [|discriminate E]. op_inv_step E; [|discriminate E]. injection E as <- <-.
  split; [|by destruct w]. split; [done|]. exists pass. by split_and!.
Qed.

Lemma launchable_loads passID b w : launchable passID b (clock (w_ticks w)) (w_db w) →
  loadLaunchBinding passID w = (Ok b, w <| w_ticks := S (w_ticks w) |>).
Proof.
  intros (Hp & pass & Hk & Hs & Ht & Hc & ->). unfold loadLaunchBinding. rewrite require_then by done.
  erewrite try_then by (apply tx_read; by apply select_run). cbv beta iota.
  rewrite require_then, now_then, require_then by done. by rewrite require_then.
Qed.

(** What [validateCreateRequest] lets through. *)
Definition request_ok (req : CLIAuthorizationRequest) (u : string) : Prop :=
  cl_CodeChallengeMethod req = "S256" ∧ raw32 (cl_State req) ∧ raw32 (cl_CodeChallenge req) ∧
  raw32 (cl_EphemeralPublicKey req) ∧ ValidateLoopbackRedirectURI (cl_RedirectURI req) = Ok u.

Lemma validateCreateRequest_Ok req u : validateCreateRequest req = Ok u ↔ request_ok req u.
Proof.
  unfold validateCreateRequest, request_ok. split.
  - intros E. repeat (apply require_res_bind_Ok in E as [? E]). by split_and!.
  - intros (? & ? & ? & ? & E). by rewrite !require_res_then.
Qed.

Lemma replayCreate_Ok ex d t x : replayCreate baseURL ex d t = Ok x →
  t ≤ ca_ExpiresAt ex ∧ ca_CanonicalRequestDigest ex = d ∧ x = (startFor baseURL ex, true).
Proof.
  unfold replayCreate. intros E. apply require_res_bind_Ok in E as [Ht E].
  apply require_res_bind_Ok in E as [Hd E]. injection E as <-. unfold After in Ht. split_and!; [lia|done..].
Qed.

Lemma replayCreate_run ex d t : replayCreate baseURL ex d t =
  if decide (ca_ExpiresAt ex < t) then Err ErrCLIAuthorizationExpired
  else if decide (ca_CanonicalRequestDigest ex = d) then Ok (startFor baseURL ex, true)
  else Err ErrCLIAuthorizationConflict.
Proof.
  unfold replayCreate, require_res, After.
  destruct (decide (ca_ExpiresAt ex < t)) as [D|D]; case_decide; (done || (cbn; by case_decide)).
Qed.

(** The outcome of [Create]: nothing stored, a replay of a stored row, or a
    new one. *)
Inductive created (req : CLIAuthorizationRequest) (w : World) :
    res (CLIAuthorizationStart * bool) → DB → Prop :=
  | cr_refused e : created req w (Err e) (w_db w)
  | cr_replay u b rec t : request_ok req u →
      launchable (cl_PassID req) b (clock (w_ticks w)) (w_db w) →
      getCLIAuthorizationByState ws (cl_PassID req) (cl_State req) (w_db w) = (Ok rec, w_db w) →
      t = clock (S (w_ticks w)) → t ≤ ca_ExpiresAt rec →
      ca_CanonicalRequestDigest rec = request_digest req u b →
      created req w (Ok (startFor baseURL rec, true)) (w_db w)
  | cr_new u b id t rec : request_ok req u →
      launchable (cl_PassID req) b (clock (w_ticks w)) (w_db w) →
      t = clock (S (w_ticks w)) → rec = new_authorization req u id b (request_digest req u b) t →
      db_cli_authorizations (w_db w) !! (ws, ca_AuthorizationID rec) = None →
      no_state ws (cl_PassID req) (cl_State req) (w_db w) →
      created req w (Ok (startFor baseURL rec, false))
        ((w_db w) <| db_cli_authorizations :=
           <[(ws, ca_AuthorizationID rec) := rec]> (db_cli_authorizations (w_db w)) |>).

Lemma by_state_run p st w r w' :
  tx (getCLIAuthorizationByState ws p st) w = (r, w') → w' = w ∧
  (∀ e, r = Err e → e = ErrNotFound).
Proof.
  intros E. assert (∃ r0, getCLIAuthorizationByState ws p st (w_db w) = (r0, w_db w) ∧
    (∀ e, r0 = Err e → e = ErrNotFound)) as (r0 & E0 & He).
  { unfold getCLIAuthorizationByState. rewrite gets_then.
    destruct (table_rows _ _); eexists; (split; [reflexivity|]); by intros e [= <-]. }
  erewrite tx_read in E by exact E0. injection E as <- <-. done.
Qed.

Lemma by_state_found p st w ex w' : tx (getCLIAuthorizationByState ws p st) w = (Ok ex, w') →
  getCLIAuthorizationByState ws p st (w_db w) = (Ok ex, w_db w).
Proof.
  intros Es. apply tx_Ok in Es as (db & Es & _). by pose proof (by_state_reads _ _ _ _ _ _ Es) as <-.
Qed.

Lemma Create_created req w r w' :
  Create baseURL req w = (r, w') → created req w r (w_db w') ∧ w_calls w' = w_calls w ∧
    w_attestations w' = w_attestations w.
Proof.
  unfold Create. intros E. call_inv E Ev; apply lift_inv in Ev as [Ev ->].
  2: { injection E as <- <-. split; [apply cr_refused|done]. }
  apply validateCreateRequest_Ok in Ev. call_inv E El; apply loadLaunchBinding_run in El.
  2: { injection E as <- <-. apply idle_fields in El as (El & Ec & Ea & _). rewrite El, Ec, Ea.
       split; [apply cr_refused|done]. }
  destruct El as [Hl ->]. rewrite now_then in E. cbv zeta in E. try_inv E Es.
  pose proof Es as [-> Hnf]%by_state_run. cbn [w_ticks upd] in E. destruct r0 as [ex|e].
  - apply lift_inv in E as [E ->]. destruct r as [x|e]; [|split; [exact (cr_refused req w e)|done]].
    apply replayCreate_Ok in E as (Ht & Hd & ->). split; [|done].
    apply by_state_found in Es. exact (cr_replay req w a a0 ex _ Ev Hl Es eq_refl Ht Hd).
  - rewrite require_then in E by by apply Hnf. call_inv E En; [|discriminate En].
    unfold newCeremonyID in En. rewrite random_then in En. injection En as <- <-.
    try_inv E Ep. destruct r0 as [u|e'].
    + injection E as <- <-. apply tx_Ok in Ep as (db & Ep & ->).
      apply putCLIAuthorization_Ok in Ep as (Hk & Hs & ->). split; [|done].
      exact (cr_new req w a a0 _ _ _ Ev Hl eq_refl eq_refl Hk Hs).
    + apply tx_Err in Ep as [_ ->]. op_inv_step E.
      2: { injection E as <- <-. split; [exact (cr_refused req w e')|done]. }
      try_inv E E2. pose proof E2 as [-> _]%by_state_run. destruct r0 as [ex|e2].
      * apply lift_inv in E as [E ->]. destruct r as [x|e2]; [|split; [exact (cr_refused req w e2)|done]].
        apply replayCreate_Ok in E as (Ht & Hd & ->). split; [|done].
        apply by_state_found in E2. exact (cr_replay req w a a0 ex _ Ev Hl E2 eq_refl Ht Hd).
      * injection E as <- <-. split; [exact (cr_refused req w ErrCLIAuthorizationConflict)|done].
Qed.

Lemma by_state_new (rec : CLIAuthorization) k db : db_cli_authorizations db !! k = Some rec → ca_WorkspaceID rec = ws →
  (∀ k' r, db_cli_authorizations db !! k' = Some r → ca_WorkspaceID r = ws → ca_PassID r = ca_PassID rec →
     ca_State r = ca_State rec → r = rec) →
  getCLIAuthorizationByState ws (ca_PassID rec) (ca_State rec) db = (Ok rec, db).
Proof.
  intros Hk Hw Hu. destruct (getCLIAuthorizationByState ws (ca_PassID rec) (ca_State rec) db)
    as [[r|e] db'] eqn:E.
  - pose proof (by_state_reads _ _ _ _ _ _ E) as <-. apply by_state_Ok in E as (W & P & S & k' & K).
    by rewrite (Hu _ _ K W P S).
  - unfold getCLIAuthorizationByState in E. rewrite gets_then in E.
    destruct (table_rows _ _) as [|r l] eqn:El; [|discriminate E].
    assert (rec ∈ table_rows (λ r, ca_WorkspaceID r = ws ∧ ca_PassID r = ca_PassID rec ∧
      ca_State r = ca_State rec) (db_cli_authorizations db)) as Hin
      by (apply elem_of_table_rows; split; [by split_and!|by exists k]).
    rewrite El in Hin. by apply not_elem_of_nil in Hin.
Qed.

(** ** The browser decision *)

Lemma idle_beginBinding wid id : within idle (beginBinding wid id).
Proof. unfold beginBinding, getCLIAuthorization. within_auto. Qed.

Lemma beginBinding_Ok wid id w rec b w' :
  beginBinding wid id w = (Ok (rec, b), w') →
  db_cli_authorizations (w_db w) !! (ws, id) = Some rec ∧ wid = ws ∧
  clock (w_ticks w) ≤ ca_ExpiresAt rec ∧ ca_ApprovedAt rec = None ∧
  launchable (ca_PassID rec) b (clock (S (w_ticks w))) (w_db w) ∧ bindingMatchesRecord rec b ∧
  w' = w <| w_ticks := S (S (w_ticks w)) |>.
Proof.
  unfold beginBinding. intros E. try_inv E Er. destruct r as [r|e]; [|discriminate E].
  apply tx_Ok in Er as (db & Er & ->). apply select_Ok in Er as [Hr ->].
  op_inv_step E; [|discriminate E]. rewrite now_then in E.
  do 2 (op_inv_step E; [|discriminate E]). call_inv E El; [|discriminate E].
  op_inv_step E; [|discriminate E]. injection E as <- <- <-.
  apply loadLaunchBinding_run in El as [Hl ->]. unfold After in *.
  split_and!; try done. by destruct w; cbn in *; lia.
Qed.

Lemma keeps_BeginDecision p purpose subj claims :
  within (keeps w_attestations) (BeginDecision p purpose subj claims).
Proof. unfold BeginDecision, founderCredentials, newCeremonyID. keeps_auto. Qed.
Lemma keeps_FinishDecision p id purpose subj claims assertion :
  within (keeps w_attestations) (FinishDecision p id purpose subj claims assertion).
Proof. unfold FinishDecision, consumeCeremony, verifyAssertion, founderCredentials. keeps_auto. Qed.

(** Authorizations, attestations and calls are left alone. *)
Definition cli_kept (w w' : World) : Prop :=
  db_cli_authorizations (w_db w') = db_cli_authorizations (w_db w) ∧
  w_attestations w' = w_attestations w ∧ w_calls w' = w_calls w.

#[export] Instance cli_kept_preorder : PreOrder cli_kept.
Proof. split; unfold cli_kept; [done|]. intros w1 w2 w3 (->&->&->) (->&->&->). done. Qed.

Lemma idle_cli_kept w w' : idle w w' → cli_kept w w'.
Proof. intros (Ed & Ec & Ea & _)%idle_fields. unfold cli_kept. by rewrite Ed, Ec, Ea. Qed.

Lemma cli_kept_BeginDecision p purpose subj claims :
  within cli_kept (BeginDecision p purpose subj claims).
Proof.
  intros w r w' E. pose proof E as Ek%keeps_BeginDecision.
  apply within_BeginDecision in E as (Ec & _ & _ & _ & _ & Ed). split_and!; [by rewrite Ed|done..].
Qed.
Lemma cli_kept_FinishDecision p id purpose subj claims assertion :
  within cli_kept (FinishDecision p id purpose subj claims assertion).
Proof.
  intros w r w' E. pose proof E as Ek%keeps_FinishDecision.
  apply within_FinishDecision in E as (Ec & _ & _ & _ & _ & Ed). split_and!; [by rewrite Ed|done..].
Qed.
Lemma cli_kept_Attest claims : within cli_kept (Attest claims).
Proof.
  intros w r w' E. split_and!; [|by eapply keeps_Attest in E..].
  eapply (keeps_Attest w_db) in E; [|done]. by rewrite E.
Qed.

Lemma cli_kept_Begin p id : within cli_kept (BeginBrowserDecision p id).
Proof.
  unfold BeginBrowserDecision. intros w r w' E. call_inv E Eb.
  2: { injection E as <- <-. by apply idle_cli_kept, (idle_beginBinding _ _ _ _ _ Eb). }
  apply idle_beginBinding, idle_cli_kept in Eb. destruct a as [rec b]. call_inv E Ed.
  - injection E as <- <-. etrans; [exact Eb|]. by apply cli_kept_BeginDecision in Ed.
  - injection E as <- <-. etrans; [exact Eb|]. by apply cli_kept_BeginDecision in Ed.
Qed.

Definition approved_authorization (rec : CLIAuthorization) (challengeID attDigest codeRaw : string) (t : time)
    : CLIAuthorization :=
  rec <| ca_DecisionChallengeID := challengeID |> <| ca_DecisionAttestationDigest := attDigest |>
      <| ca_CodeHash := Some (Sum256 codeRaw) |> <| ca_ApprovedAt := Some t |>.

(** Why a redirect with a code was handed out, and what it left behind. *)
Record redirected (p : Principal) (id challengeID assertion redirect : string) (w w' : World)
    (rec : CLIAuthorization) (b : launchBinding) (v : VerifiedDecision) (att : SignedDecisionAttestation)
    (codeRaw : string) : Prop := {
  rd_row : db_cli_authorizations (w_db w) !! (ws, id) = Some rec;
  rd_workspace : p_WorkspaceID p = ws;
  rd_live : clock (w_ticks w) ≤ ca_ExpiresAt rec ∧ ca_ApprovedAt rec = None;
  rd_binding : launchable (ca_PassID rec) b (clock (S (w_ticks w))) (w_db w) ∧ bindingMatchesRecord rec b;
  rd_verified : decision_verified p challengeID DecisionCLILaunchAuthorization (ca_AuthorizationID rec)
    (canonicalBeginBytes rec b) assertion v (w <| w_ticks := S (S (w_ticks w)) |>);
  rd_claims : ∃ t, sa_Claims att = launch_claims rec b v t;
  rd_code : ∃ n, codeRaw = rand n 32 ∧ redirect = redirect_to rec codeRaw;
  rd_stored : ∃ old t, db_cli_authorizations (w_db w) !! (ws, ca_AuthorizationID rec) = Some old ∧
    ca_ApprovedAt old = None ∧
    db_cli_authorizations (w_db w') = <[(ws, ca_AuthorizationID rec) :=
      approved_authorization old challengeID (attestationDigest att) codeRaw t]>
        (db_cli_authorizations (w_db w));
  rd_cached : w_attestations w' = Put (MkPendingDecisionAttestation (ca_AuthorizationID rec) att
    (attestationDigest att) (Sum256 codeRaw) (ca_ExpiresAt rec)) (w_attestations w);
  rd_calls : w_calls w' = w_calls w
}.

Lemma FinishBrowserDecision_run p id ch assertion w r w' :
  FinishBrowserDecision p id ch assertion w = (r, w') →
  match r with
  | Err _ => cli_kept w w'
  | Ok redirect => ∃ rec b v att codeRaw, redirected p id ch assertion redirect w w' rec b v att codeRaw
  end.
Proof.
  unfold FinishBrowserDecision. intros E. call_inv E Eb.
  2: { injection E as <- <-. by apply idle_cli_kept, (idle_beginBinding _ _ _ _ _ Eb). }
  destruct a as [rec b]. apply beginBinding_Ok in Eb as (Hr & Hp & Ht & Ha & Hl & Hm & ->).
  cbv zeta in E. try_inv E Ef. pose proof Ef as Kf%cli_kept_FinishDecision. destruct r0 as [v|e].
  2: { injection E as <- <-. exact Kf. }
  cbv beta iota in E. op_inv_step E. apply FinishDecision_verified in Ef.
  call_inv E El.
  2: { injection E as <- <-. etrans; [exact Kf|]. by apply idle_cli_kept, (idle_loadLaunchBinding _ _ _ _ El). }
  apply idle_loadLaunchBinding, idle_cli_kept in El. op_inv_step E.
  2: { injection E as <- <-. by etrans. }
  rewrite now_then in E. call_inv E Et; pose proof Et as Kt%cli_kept_Attest.
  2: { injection E as <- <-. etrans; [exact Kf|]. etrans; [exact El|]. exact Kt. }
  assert (cli_kept (w <| w_ticks := S (S (w_ticks w)) |>) w2) as K
    by (etrans; [exact Kf|]; etrans; [exact El|]; exact Kt). clear Kf El Kt.
  apply Attest_Ok in Et as (Hc & _ & _). rewrite random_then, now_then in E. try_inv E Ea.
  destruct r0 as [u|e].
  2: { apply tx_Err in Ea as [_ ->]. injection E as <- <-. exact K. }
  cbv beta iota in E. op_inv_step E. rewrite modify_then in E. injection E as <- <-.
  apply tx_Ok in Ea as (db & Ea & ->). destruct K as (K1 & K2 & K3). cbn in K1, K2, K3.
  apply approveCLIAuthorization_Ok in Ea as (old & Ho & Han & _ & _ & _ & ->). cbn in Ho. rewrite K1 in Ho.
  exists rec, b, v, a0, (rand (w_draws w2) 32). split; try done.
  - by eexists.
  - by eexists.
  - exists old. eexists. split; [done|]. split; [done|]. cbn. rewrite K1. reflexivity.
  - cbn. by rewrite K2.
Qed.

(** ** The invariant of authorizations and attestations *)

Record authorizations_ok (db : DB) : Prop := {
  ao_keyed : ∀ k r, db_cli_authorizations db !! k = Some r →
    k = (ca_WorkspaceID r, ca_AuthorizationID r);
  ao_state : ∀ k1 k2 r1 r2, db_cli_authorizations db !! k1 = Some r1 →
    db_cli_authorizations db !! k2 = Some r2 → ca_WorkspaceID r1 = ca_WorkspaceID r2 →
    ca_PassID r1 = ca_PassID r2 → ca_State r1 = ca_State r2 → k1 = k2;
  ao_intact : ∀ k r, db_cli_authorizations db !! k = Some r → VerifyRecordIntegrity r = Ok tt;
  ao_pending : ∀ k r, db_cli_authorizations db !! k = Some r → ca_ApprovedAt r = None →
    ca_CodeHash r = None
}.

(** The attestation of a launch decision over what the row pins. *)
Definition launch_attestation (rec : CLIAuthorization) (att : SignedDecisionAttestation) : Prop :=
  let c := sa_Claims att in
  dc_WorkspaceID c = ws ∧ dc_Audience c = AudiencePrepareLaunch ∧
  dc_Purpose c = PurposeCLILaunchAuthorization ∧ dc_SubjectID c = ca_AuthorizationID rec ∧
  dc_DecisionDigest c = ca_ProposalDigest rec ∧ dc_InvocationDigest c = ca_InvocationDigest rec ∧
  dc_AuthenticationMethod c = AuthMethodWebAuthnUV.

Definition attested (a : PendingDecisionAttestation) (db : DB) : Prop :=
  ∃ r, db_cli_authorizations db !! (ws, pa_AuthorizationID a) = Some r ∧
    is_Some (ca_ApprovedAt r) ∧ ca_CodeHash r = Some (pa_CodeHash a) ∧
    ca_DecisionAttestationDigest r = pa_AttestationDigest a ∧
    pa_AttestationDigest a = attestationDigest (pa_Attestation a) ∧
    launch_attestation r (pa_Attestation a).

Record cli_ok (w : World) : Prop := {
  ck_authorizations : authorizations_ok (w_db w);
  ck_cache : cache_ok (w_attestations w);
  ck_attested : ∀ id a, pc_items (w_attestations w) !! id = Some a → attested a (w_db w)
}.

Lemma authorizations_ok_same db db' :
  db_cli_authorizations db' = db_cli_authorizations db → authorizations_ok db → authorizations_ok db'.
Proof. intros E []. by constructor; rewrite E. Qed.

Lemma cli_ok_kept w w' : cli_kept w w' → cli_ok w → cli_ok w'.
Proof.
  intros (Ed & Ea & _) [H1 H2 H3]. constructor.
  - by eapply authorizations_ok_same.
  - by rewrite Ea.
  - intros id a. rewrite Ea. unfold attested. rewrite Ed. apply H3.
Qed.

Lemma new_authorization_intact req u id b t :
  VerifyRecordIntegrity (new_authorization req u id b (request_digest req u b) t) = Ok tt.
Proof. unfold VerifyRecordIntegrity. by apply require_res_inv. Qed.

Lemma Create_passes req w r w' : Create baseURL req w = (r, w') →
  db_mission_passes (w_db w') = db_mission_passes (w_db w).
Proof. intros E. apply Create_created in E as [C _]. by destruct C. Qed.

(** Rows may only be added or approved under the attestations. *)
Lemma cli_ok_rows w w' :
  w_attestations w' = w_attestations w → authorizations_ok (w_db w') →
  (∀ k r, db_cli_authorizations (w_db w) !! k = Some r → db_cli_authorizations (w_db w') !! k = Some r) →
  cli_ok w → cli_ok w'.
Proof.
  intros Ea Hau Hk [_ H2 H3]. constructor; [done|by rewrite Ea|].
  intros id a. rewrite Ea. intros (r & Hr & Hrest)%H3. exists r. split; [by apply Hk|done].
Qed.

Lemma create_authorization_ok req w r w' : Create baseURL req w = (r, w') → cli_ok w → cli_ok w'.
Proof.
  intros E. apply Create_created in E as (C & Ec & Ea). intros Hok. pose proof Hok as [[A1 A2 A3 A4] _ _].
  remember (w_db w') as db' eqn:Edb. destruct C as [e|u b rec t|u b id t rec Hr Hl -> -> Hn Hs].
  - eapply cli_ok_kept; [|exact Hok]. unfold cli_kept. by rewrite <- Edb.
  - eapply cli_ok_kept; [|exact Hok]. unfold cli_kept. by rewrite <- Edb.
  - set (rec := new_authorization _ _ _ _ _ _) in *.
    assert (∀ k r, db_cli_authorizations (w_db w') !! k = Some r →
      (k = (ws, ca_AuthorizationID rec) ∧ r = rec) ∨ db_cli_authorizations (w_db w) !! k = Some r) as Hrows.
    { intros k r. rewrite <- Edb. cbn [db_cli_authorizations upd]. rewrite lookup_insert_Some. naive_solver. }
    apply (cli_ok_rows w); [done| |intros k r Hk; rewrite <- Edb; cbn [db_cli_authorizations upd];
      rewrite lookup_insert_ne; congruence|done].
    constructor.
    + intros k r [[-> ->]|Hk]%Hrows; [done|by apply A1].
    + intros k1 k2 r1 r2 [[-> ->]|Hk1]%Hrows [[-> ->]|Hk2]%Hrows W P S; [done| | |by eapply A2].
      * destruct (Hs _ _ Hk2). by split_and!.
      * destruct (Hs _ _ Hk1). by split_and!.
    + intros k r [[-> ->]|Hk]%Hrows; [apply new_authorization_intact|by eapply A3].
    + intros k r [[-> ->]|Hk]%Hrows; [done|by eapply A4].
Qed.

Lemma redirected_row p id ch assertion redirect w w' rec b v att codeRaw :
  redirected p id ch assertion redirect w w' rec b v att codeRaw → authorizations_ok (w_db w) →
  ca_AuthorizationID rec = id ∧ VerifyRecordIntegrity rec = Ok tt ∧ launch_attestation rec att ∧
  ∃ t, db_cli_authorizations (w_db w') = <[(ws, id) :=
    approved_authorization rec ch (attestationDigest att) codeRaw t]> (db_cli_authorizations (w_db w)).
Proof.
  intros [Hr Hp _ [(_ & pass & _ & _ & _ & _ & ->) Hm] Hv (ti & Hc) _ (old & t & Ho & _ & Es) _ _] [A1 _ A3 _].
  pose proof (A1 _ _ Hr) as Ek. injection Ek as Ew Ei. rewrite <- Ei in Ho, Es.
  assert (old = rec) as -> by congruence. split_and!; [done|by eapply A3| |by exists t].
  destruct Hm as (M1 & M2 & _). unfold launch_attestation. rewrite Hc. cbn in *.
  destruct Hv as (c & d & creds & va & _ & _ & _ & _ & _ & _ & _ & _ & _ & _ & _ & _ & _ & Hv & _).
  by split_and!.
Qed.

Lemma approve_authorization_ok p id ch assertion redirect w w' rec b v att codeRaw :
  redirected p id ch assertion redirect w w' rec b v att codeRaw → cli_ok w → cli_ok w'.
Proof.
  intros Hrd [Hau H2 H3]. pose proof Hrd as (Ei & _ & Hla & t & Es)%redirected_row; [|done].
  destruct Hau as [A1 A2 A3 A4]. pose proof (rd_row _ _ _ _ _ _ _ _ _ _ _ _ Hrd) as Hr.
  set (rec' := approved_authorization _ _ _ _ _) in Es.
  assert (∀ k r, db_cli_authorizations (w_db w') !! k = Some r →
    (k = (ws, id) ∧ r = rec') ∨ (k ≠ (ws, id) ∧ db_cli_authorizations (w_db w) !! k = Some r)) as Hrows.
  { intros k r. rewrite Es, lookup_insert_Some. naive_solver. }
  constructor; [constructor| |].
  - intros k r [[-> ->]|[_ Hk]]%Hrows; [exact (A1 _ _ Hr)|by apply A1].
  - intros k1 k2 r1 r2 [[-> ->]|[_ Hk1]]%Hrows [[-> ->]|[_ Hk2]]%Hrows W P S.
    + done.
    + exact (A2 _ _ _ _ Hr Hk2 W P S).
    + exact (A2 _ _ _ _ Hk1 Hr W P S).
    + exact (A2 _ _ _ _ Hk1 Hk2 W P S).
  - intros k r [[-> ->]|[_ Hk]]%Hrows; [exact (A3 _ _ Hr)|by eapply A3].
  - intros k r [[-> ->]|[_ Hk]]%Hrows; [discriminate 1|by eapply A4].
  - rewrite (rd_cached _ _ _ _ _ _ _ _ _ _ _ _ Hrd). by apply Put_ok.
  - intros id' a. rewrite (rd_cached _ _ _ _ _ _ _ _ _ _ _ _ Hrd). intros [[-> ->]|Ha]%Put_items.
    + exists rec'. cbn. rewrite Es, Ei. split; [apply lookup_insert_eq|]. by split_and!.
    + pose proof (H3 _ _ Ha) as (r & Hk & Hap & Hrest). exists r. split; [|done].
      rewrite Es, lookup_insert_ne; [done|]. intros Ek. injection Ek as Ek.
      rewrite <- Ek, Hr in Hk. injection Hk as <-. destruct (rd_live _ _ _ _ _ _ _ _ _ _ _ _ Hrd) as [_ Hn].
      rewrite Hn in Hap. by destruct Hap.
Qed.

Lemma take_ok id w r w' : Take id w = (r, w') → cli_ok w →
  cli_ok w' ∧ db_cli_authorizations (w_db w') = db_cli_authorizations (w_db w) ∧ w_calls w' = w_calls w ∧
  ∀ a, r = Ok (Some a) → pa_AuthorizationID a = id ∧ attested a (w_db w).
Proof.
  unfold Take. rewrite gets_then. intros E Hok. pose proof Hok as [H1 H2 H3].
  destruct (pc_items (w_attestations w) !! id) as [a|] eqn:Ea; [|injection E as <- <-; by split_and!].
  rewrite modify_then, now_then in E. injection E as <- <-. split_and!; [|done|done|].
  - constructor; cbn; [done|by apply cache_take_ok|]. intros id' a'.
    rewrite lookup_delete_Some. intros [_ ?]. by eapply H3.
  - intros a' Er. case_decide; [discriminate Er|]. injection Er as <-. split; [|by eapply H3].
    destruct H2 as [_ _ _ Hk]. by eapply Hk.
Qed.

(** An approved authorization is not decided again. *)
Lemma FinishBrowserDecision_approved p id ch assertion rec w r w' :
  db_cli_authorizations (w_db w) !! (ws, id) = Some rec → is_Some (ca_ApprovedAt rec) →
  FinishBrowserDecision p id ch assertion w = (r, w') → (∃ e, r = Err e) ∧ idle w w'.
Proof.
  intros Hr [t Ha] E. unfold FinishBrowserDecision in E. call_inv E Eb.
  - destruct a as [rec' b]. apply beginBinding_Ok in Eb as (Hr' & _ & _ & Hn & _). congruence.
  - injection E as <- <-. split; [by eexists|]. by apply idle_beginBinding in Eb.
Qed.

(** ** Opening again *)

(** The same authorization, before or after its approval. *)
Definition same_authorization (rec rec2 : CLIAuthorization) : Prop :=
  rec2 = rec <| ca_DecisionChallengeID := ca_DecisionChallengeID rec2 |>
             <| ca_DecisionAttestationDigest := ca_DecisionAttestationDigest rec2 |>
             <| ca_CodeHash := ca_CodeHash rec2 |> <| ca_ApprovedAt := ca_ApprovedAt rec2 |>.

(** The row a successful [Create] answers from. *)
Lemma created_row req w s fl db' : created req w (Ok (s, fl)) db' → authorizations_ok (w_db w) →
  ∃ u b rec, request_ok req u ∧ launchable (cl_PassID req) b (clock (w_ticks w)) (w_db w) ∧
    s = startFor baseURL rec ∧ ca_CanonicalRequestDigest rec = request_digest req u b ∧
    ca_WorkspaceID rec = ws ∧ ca_PassID rec = cl_PassID req ∧ ca_State rec = cl_State req ∧
    clock (S (w_ticks w)) ≤ ca_ExpiresAt rec ∧
    db_cli_authorizations db' !! (ws, ca_AuthorizationID rec) = Some rec.
Proof.
  intros C [A1 _ _ _]. inversion C as [|u b rec t Hr Hl Hs -> Ht Hd|u b id t rec Hr Hl -> -> Hn Hns]; subst.
  - pose proof (by_state_Ok _ _ _ _ _ _ Hs) as (Hw & Hp & Hst & k & Hk).
    pose proof (A1 _ _ Hk) as ->. rewrite Hw in Hk. exists u, b, rec. by split_and!.
  - exists u, b. eexists. split; [exact Hr|]. split; [exact Hl|]. do 5 (split; [done|]).
    split; [cbn; change cliAuthorizationTTL with 120000000000; lia|]. apply lookup_insert_eq.
Qed.

(** A request whose state is taken is answered from the stored row. *)
Lemma Create_again req rec w r w' : authorizations_ok (w_db w) →
  db_cli_authorizations (w_db w) !! (ws, ca_AuthorizationID rec) = Some rec → ca_WorkspaceID rec = ws →
  ca_PassID rec = cl_PassID req → ca_State rec = cl_State req → Create baseURL req w = (r, w') →
  idle w w' ∧ (∀ s fl, r = Ok (s, fl) → s = startFor baseURL rec ∧ fl = true) ∧
  ∀ u b, request_ok req u → launchable (cl_PassID req) b (clock (w_ticks w)) (w_db w) →
    r = if decide (ca_ExpiresAt rec < clock (S (w_ticks w))) then Err ErrCLIAuthorizationExpired
        else if decide (ca_CanonicalRequestDigest rec = request_digest req u b)
             then Ok (startFor baseURL rec, true) else Err ErrCLIAuthorizationConflict.
Proof.
  intros [_ A2 _ _] Hk Hw Hp Hs E.
  assert (getCLIAuthorizationByState ws (cl_PassID req) (cl_State req) (w_db w) = (Ok rec, w_db w)) as Hby.
  { rewrite <- Hp, <- Hs. eapply (by_state_new rec); [exact Hk|exact Hw|].
    intros k' r' Hk' W P S. assert (k' = (ws, ca_AuthorizationID rec)) as -> by (eapply A2; eauto; congruence).
    rewrite Hk in Hk'. by injection Hk'. }
  unfold Create in E. call_inv E Ev; apply lift_inv in Ev as [Ev ->].
  2: { injection E as <- <-. split; [reflexivity|]. split; [done|]. intros u b Hr%validateCreateRequest_Ok. congruence. }
  pose proof Ev as Hr%validateCreateRequest_Ok. call_inv E El; apply loadLaunchBinding_run in El as Hl.
  2: { injection E as <- <-. split; [by eapply idle_loadLaunchBinding|]. split; [done|]. intros u b _ Hlb.
       rewrite (launchable_loads _ _ _ Hlb) in El. discriminate El. }
  destruct Hl as [Hl ->]. rewrite now_then in E. cbv zeta in E.
  erewrite try_then in E by (apply tx_read; exact Hby). cbv beta iota in E.
  apply lift_inv in E as [E ->]. rewrite replayCreate_run in E. split; [by destruct w|]. split.
  - intros s fl ->. repeat case_decide; try discriminate E. by injection E as <- <-.
  - intros u b Hr2 Hl2. rewrite <- E. apply validateCreateRequest_Ok in Hr2.
    assert (u = a) as -> by congruence. rewrite (launchable_loads _ _ _ Hl2) in El.
    injection El as <-. done.
Qed.

(** C5: Opening an authorization is idempotent in the pass and the state.  After
    one succeeded, in any state in which the authorizations are in order and
    the authorization is still stored, approved or not, a request with the
    same pass and state stores nothing, and is answered with that same
    authorization or refused.  If the request is well-formed and the pass
    still launchable, it is answered exactly when its canonical request
    (which includes the binding of the pass) is the same and the
    authorization has not expired, refused as a conflict if the request
    differs, and as expired once the authorization is. *)
Theorem Create_idempotent req s fl w w1 :
  authorizations_ok (w_db w) → Create baseURL req w = (Ok (s, fl), w1) →
  ∃ u b rec, request_ok req u ∧ launchable (cl_PassID req) b (clock (w_ticks w)) (w_db w) ∧
    s = startFor baseURL rec ∧ clock (S (w_ticks w)) ≤ ca_ExpiresAt rec ∧
    db_cli_authorizations (w_db w1) !! (ws, ca_AuthorizationID rec) = Some rec ∧
    ∀ req2 rec2 w2 r w3, cl_PassID req2 = cl_PassID req → cl_State req2 = cl_State req →
      authorizations_ok (w_db w2) →
      db_cli_authorizations (w_db w2) !! (ws, ca_AuthorizationID rec) = Some rec2 →
      same_authorization rec rec2 → Create baseURL req2 w2 = (r, w3) →
      idle w2 w3 ∧ (∀ s2 fl2, r = Ok (s2, fl2) → s2 = s ∧ fl2 = true) ∧
      ∀ u2 b2, request_ok req2 u2 → launchable (cl_PassID req2) b2 (clock (w_ticks w2)) (w_db w2) →
        r = if decide (ca_ExpiresAt rec < clock (S (w_ticks w2))) then Err ErrCLIAuthorizationExpired
            else if decide (request_digest req u b = request_digest req2 u2 b2) then Ok (s, true)
            else Err ErrCLIAuthorizationConflict.
Proof.
  intros Hau E. apply Create_created in E as [C _].
  apply created_row in C as (u & b & rec & Hr & Hl & -> & Hd & Hw & Hp & Hs & Ht & Hrow); [|done].
  exists u, b, rec. do 5 (split; [done|]).
  intros req2 rec2 w2 r w3 Ep Es Hau2 Hk Hsame E.
  assert (startFor baseURL rec2 = startFor baseURL rec ∧ ca_AuthorizationID rec2 = ca_AuthorizationID rec ∧
    ca_WorkspaceID rec2 = ca_WorkspaceID rec ∧ ca_PassID rec2 = ca_PassID rec ∧
    ca_State rec2 = ca_State rec ∧ ca_ExpiresAt rec2 = ca_ExpiresAt rec ∧
    ca_CanonicalRequestDigest rec2 = ca_CanonicalRequestDigest rec)
    as (Q1 & Q2 & Q3 & Q4 & Q5 & Q6 & Q7) by (rewrite Hsame; by split_and!).
  rewrite <- Q2 in Hk. apply (Create_again req2 rec2) in E; [|done|done|congruence..].
  by rewrite Q1, Q6, Q7, Hd in E.
Qed.
End effect.

Lemma empty_cache_ok : cache_ok (MkPendingDecisionAttestations ∅ []).
Proof.
  constructor; [cbn; lia|constructor| |done]. intros id. cbn.
  split; [by intros ?%not_elem_of_nil|by intros [? ?]].
Qed.

(** ** On the bench *)

Definition bench_text32 (n : Z) : string := RawURLEncode (of_bytes (replicate 32 n)).
Definition bench_verifier : string := bench_text32 7.
Definition bench_cli_request : CLIAuthorizationRequest :=
  MkCLIAuthorizationRequest "pass-1" "http://127.0.0.1:8080/callback" (bench_text32 3)
    (CodeChallengeS256 bench_verifier) "S256" (bench_text32 4).
Definition bench_launch_pass : MissionPassRecord :=
  bench_pass <| mp_State := PassApproved |> <| mp_MissionRef := "mission-1" |>
    <| mp_AuthScopeMissionVersion := 1 |> <| mp_ApprovedProposalDigest := tagged_digest "proposal" |>
    <| mp_AgentKitID := FixedAgentKitID |> <| mp_AgentKitVersion := FixedAgentKitVersion |>
    <| mp_RunnerArguments := ["run"; "--fast"] |>.
Definition bench_cli_world : World := start (bench_DB_with bench_launch_pass).
Definition bench_created := @Create bench_env "https://ope" bench_cli_request bench_cli_world.
Definition bench_start : CLIAuthorizationStart :=
  match bench_created.1 with Ok (s, _) => s | Err _ => MkCLIAuthorizationStart "" "" "" "" "" [] "" end.
Definition bench_decision := @BeginBrowserDecision bench_env bench_principal (cs_ID bench_start) bench_created.2.
Definition bench_decision_id : string :=
  match bench_decision.1 with Ok b => bg_ChallengeID b | Err _ => "" end.
Definition bench_redirected := @FinishBrowserDecision bench_env bench_principal (cs_ID bench_start)
  bench_decision_id "good" bench_decision.2.
Definition bench_redirect : string := match bench_redirected.1 with Ok u => u | Err _ => "" end.

Lemma bench_created_run : @Create bench_env "https://ope" bench_cli_request bench_cli_world =
  (Ok (bench_start, false), bench_created.2).
Proof.
  change (bench_created = (Ok (bench_start, false), bench_created.2)).
  assert (bench_created.1 = Ok (bench_start, false)) as E by (vm_compute; reflexivity).
  rewrite <- E. apply surjective_pairing.
Qed.

Lemma bench_redirected_run : @FinishBrowserDecision bench_env bench_principal (cs_ID bench_start)
  bench_decision_id "good" bench_decision.2 = (Ok bench_redirect, bench_redirected.2).
Proof.
  change (bench_redirected = (Ok bench_redirect, bench_redirected.2)).
  assert (bench_redirected.1 = Ok bench_redirect) as E by (vm_compute; reflexivity).
  rewrite <- E. apply surjective_pairing.
Qed.

Lemma bench_cli_ok : @cli_ok bench_env bench_decision.2.
Proof.
  eapply cli_ok_kept; [apply (@cli_kept_Begin bench_env _ _ _ _ _ (surjective_pairing bench_decision))|].
  eapply create_authorization_ok; [apply bench_created_run|].
  constructor; [by constructor| |done]. apply empty_cache_ok.
Qed.

Lemma redirect_normalized_witness :
  ValidateLoopbackRedirectURI (callback_uri 8080) = Ok (callback_uri 8080).
Proof.
  apply (redirect_normalized "HTTP://127.0.0.1:008080/callback?#"). vm_compute. reflexivity.
Defined.

Example bench_replayed :
  (@Create bench_env "https://ope" bench_cli_request bench_created.2).1 = Ok (bench_start, true).
Proof. vm_compute. reflexivity. Qed.

Lemma Create_idempotent_witness : ∃ w3, idle bench_created.2 w3 ∧
  @Create bench_env "https://ope" bench_cli_request bench_created.2 = (Ok (bench_start, true), w3).
Proof.
  destruct (@Create_idempotent bench_env "https://ope" bench_cli_request bench_start false bench_cli_world
    bench_created.2 ltac:(by constructor) bench_created_run)
    as (u & b & rec & _ & _ & _ & _ & Hrow & Hrep).
  assert (authorizations_ok (w_db bench_created.2)) as Hau.
  { eapply ck_authorizations, create_authorization_ok; [exact bench_created_run|].
    constructor; [by constructor| |done]. apply empty_cache_ok. }
  destruct (Hrep bench_cli_request rec bench_created.2 _ _ eq_refl eq_refl Hau Hrow
    ltac:(by destruct rec) (surjective_pairing _)) as (Hi & Hok & _).
  pose proof bench_replayed as Ef.
  exists (@Create bench_env "https://ope" bench_cli_request bench_created.2).2.
  split; [exact Hi|]. rewrite <- Ef. apply surjective_pairing.
Defined.
