(* ===== verification/Launch.v ===== *)
(** * Exchanging a code for a prepared run (src/internal/launch/service.go)

    The CLI presents the code of its redirect and its PKCE verifier.  A
    durable intent keyed by the hash of the code is claimed before AuthScope
    is asked to prepare the run; whoever finds the intent follows it and never
    prepares again.  Sealed envelopes are kept in a bounded delivery cache. *)

From S2P Require Import Prelude GoTime Sha256 Base64 Json JsonParse StoreModel StorePass StoreAuth.
From S2P Require Import StoreGithub Trust PassModel World Attestor Bench Settle Once CLIAuth.

Definition ErrInvalidExchange : err := ErrOther "launch: invalid exchange request".
Definition ErrExchangeNotFound : err := ErrOther "launch: authorization code not found".
Definition ErrCodeExpired : err := ErrOther "launch: authorization code expired".
Definition ErrExchangeConflict : err :=
  ErrOther "launch: exchange conflicts with the approved canonical exchange".
Definition ErrAttestationMissing : err := ErrOther "launch: decision attestation is unavailable".
Definition ErrBindingChanged : err := ErrOther "launch: approved launch binding changed".
Definition ErrStaleMissionVersion : err := ErrOther "launch: mission version is stale".
Definition ErrUnsupportedKit : err := ErrOther "launch: agent kit is not supported by AuthScope".
Definition ErrIsolationNotEnforced : err := ErrOther "launch: upstream isolation is not enforced".
Definition ErrExchangeStale : err := ErrOther "launch: exchange reservation went stale".
Definition ErrExchangeFailed : err := ErrOther "launch: exchange failed".
Definition ErrExchangeResultGone : err :=
  ErrOther "launch: sealed launch result is no longer available".
Definition ErrAmbiguousExchange : err := ErrOther "launch: exchange outcome is ambiguous".

Definition launchExchangeStaleAfter : Z := 10 * Minute.

(** ** The sealed envelope as seen from outside (envelope.go) *)

Definition IsolationEnforced : string := "enforced".
Definition SealedEnvelopeFormat : string := "authscope-sealed-envelope/v1".
Definition SealAlgorithm : string := "X25519-ChaCha20-Poly1305".

Record sealedEnvelope := Mk_sealedEnvelope {
  sv_Format : string;
  sv_Algorithm : string;
  sv_KeyID : string;
  sv_EphemeralPublicKey : string;
  sv_Nonce : string;
  sv_Ciphertext : string
}.

Definition sealedEnvelope_names : list string :=
  ["format"; "algorithm"; "key_id"; "ephemeral_public_key"; "nonce"; "ciphertext"].
Definition decode_sealedEnvelope (o : list (string * value)) : option sealedEnvelope :=
  f1 ← str_field "format" o; f2 ← str_field "algorithm" o; f3 ← str_field "key_id" o;
  f4 ← str_field "ephemeral_public_key" o; f5 ← str_field "nonce" o; f6 ← str_field "ciphertext" o;
  Some (Mk_sealedEnvelope f1 f2 f3 f4 f5 f6).

(** Format, algorithm and signing key of the envelope. *)
Definition ParseSealedEnvelopeHead (sealed : string) : option (string * string * string) :=
  env ← strict_document sealedEnvelope_names decode_sealedEnvelope sealed;
  Some (sv_Format env, sv_Algorithm env, sv_KeyID env).

Definition checkSealedEnvelope (keys : KeyStore) (sealed : string) : res unit :=
  '(format, algorithm, keyID) ← opt_res ErrBindingChanged (ParseSealedEnvelopeHead sealed);
  _ ← require_res (format = SealedEnvelopeFormat) ErrBindingChanged;
  _ ← require_res (algorithm = SealAlgorithm) ErrBindingChanged;
  _ ← require_res (keyID ≠ "") ErrBindingChanged;
  require_res (keyID ∈ ks_keyIDs keys) ErrBindingChanged.

(** ** What an exchange checks *)

Record ExchangeRequest := MkExchangeRequest { xq_Code : string; xq_Verifier : string }.

(** The pass still carries every value the authorization pins. *)
Definition checkPassBinding (pass : MissionPassRecord) (rec : CLIAuthorization) (t : time) : res unit :=
  _ ← require_res (mp_State pass = "approved") ErrBindingChanged;
  _ ← require_res (Before t (mp_ExpiresAt pass)) ErrBindingChanged;
  _ ← require_res (mp_ApprovedProposalDigest pass ≠ "" ∧
                   mp_ApprovedProposalDigest pass = ca_ProposalDigest rec) ErrBindingChanged;
  _ ← require_res (mp_InvocationDigest pass = ca_InvocationDigest rec) ErrBindingChanged;
  _ ← require_res (mp_AgentKitID pass = ca_AgentKitID rec ∧
                   mp_AgentKitVersion pass = ca_AgentKitVersion rec) ErrBindingChanged;
  _ ← require_res (mp_RunnerArguments pass = ca_RunnerArguments rec) ErrBindingChanged;
  _ ← require_res (mp_MissionRef pass = ca_MissionRef rec ∧
                   mp_AuthScopeMissionVersion pass = ca_MissionVersion rec) ErrBindingChanged;
  require_res (mp_SourceRevision pass ≠ "" ∧ mp_SourceDigest pass ≠ "" ∧ mp_BaseSHA pass ≠ "")
    ErrBindingChanged.

(** [equalFoldConstTime] *)
Definition equalFold (a b : string) : Prop := ToLower a = ToLower b.
#[export] Instance equalFold_dec a b : Decision (equalFold a b).
Proof. unfold equalFold. apply _. Defined.

Definition kitSupported (kits : list AgentKit) (kitID version : string) : bool :=
  existsb (λ k, bool_decide (ak_KitID k = kitID ∧ ak_Version k = version)) kits.

(** A definite denial. *)
Definition denied (e : err) : Prop :=
  match e with ErrUpstreamStatus n => 400 ≤ n < 500 | _ => False end.
#[export] Instance denied_dec e : Decision (denied e).
Proof. destruct e; cbn; apply _. Defined.

Definition launch_key_of (codeHashHex : string) : string := "ope-launch-" +:+ codeHashHex.

(** The pass of a prepared run. *)
Definition launching_pass (current : MissionPassRecord) (artifacts : LaunchArtifacts) : MissionPassRecord :=
  current <| mp_State := PassLaunching |> <| mp_RunID := la_RunID artifacts |>
          <| mp_AuthScopeMissionVersion := la_AuthScopeMissionVersion artifacts |>.

Definition exchange_result (artifacts : LaunchArtifacts) : ExchangeResult :=
  MkExchangeResult (la_RunID artifacts) (la_MissionRef artifacts) (la_SealedSignedEnvelope artifacts).

Section launch.
Context `{Env}.
Context (deliveryCap : nat).
Notation ws := instance_WorkspaceID.

Definition launch_opts : RequestOptions := no_opts <| op_WorkspaceID := ws |>.

(** Other requests commit while AuthScope answers. *)
Definition asked {A} (m : M A) : M (res A) := r ← try m; _ ← wait; mret r.

Definition rememberDelivery (codeHashHex : string) (r : ExchangeResult) : M unit :=
  modify (λ w,
    let order := if decide (w_delivery w !! codeHashHex = None)
                 then (w_delivery_order w ++ [codeHashHex])%list else w_delivery_order w in
    let excess := (length order - deliveryCap)%nat in
    w <| w_delivery := foldr delete (<[codeHashHex := r]> (w_delivery w)) (take excess order) |>
      <| w_delivery_order := drop excess order |>).

(** With its context done, no transaction starts, and the error is dropped. *)
Definition settleInTx (canceled : bool) (codeHashHex status failure : string) : M unit :=
  t ← now;
  if canceled then mret tt
  else _ ← try (tx (settleLaunchExchangeIntent ws codeHashHex status "" "" failure t)); mret tt.

Definition checkPosture (pass : MissionPassRecord) (t : time) : M unit :=
  r ← try (tx (latestWorkflowPosture ws (mp_ConnectionID pass)));
  posture ← lift (not_found_as ErrBindingChanged r);
  _ ← require (wp_Outcome posture = "clean") ErrBindingChanged;
  _ ← require (Before t (wp_ExpiresAt posture)) ErrBindingChanged;
  require (equalFold (wp_HeadSHA posture) (mp_BaseSHA pass)) ErrBindingChanged.

Definition validateForExchange (codeHash verifier : string) (t : time)
    : M (CLIAuthorization * MissionPassRecord) :=
  r ← try (tx (getCLIAuthorizationByCodeHash ws codeHash));
  rec ← lift (not_found_as ErrExchangeNotFound r);
  _ ← require (ca_CodeHash rec = Some codeHash) ErrExchangeNotFound;
  _ ← require (VerifyRecordIntegrity rec = Ok tt) ErrBindingChanged;
  _ ← require (Before t (ca_ExpiresAt rec)) ErrCodeExpired;
  _ ← require (ca_DecisionAttestationDigest rec ≠ "") ErrBindingChanged;
  _ ← require (VerifyCodeChallenge (ca_CodeChallenge rec) verifier) ErrExchangeConflict;
  p ← try (tx (getMissionPass ws (ca_PassID rec)));
  pass ← lift (not_found_as ErrBindingChanged p);
  _ ← lift (checkPassBinding pass rec t);
  _ ← checkPosture pass t;
  m ← asked (call_IntrospectMission (ca_MissionRef rec) launch_opts);
  mission ← lift m;
  _ ← require (mt_Version mission = mp_AuthScopeMissionVersion pass) ErrStaleMissionVersion;
  k ← asked (call_ListAgentKits launch_opts);
  kits ← lift k;
  _ ← require (kitSupported kits (ca_AgentKitID rec) (ca_AgentKitVersion rec) = true)
        ErrUnsupportedKit;
  mret (rec, pass).

(** The transaction of [adoptArtifacts]. *)
Definition adopt_tx (artifacts : LaunchArtifacts) (codeHashHex : string) (rec : CLIAuthorization)
    (pass : MissionPassRecord) (t tput : time) : Tx unit :=
  current ← getMissionPass ws (ca_PassID rec);
  _ ← lift (checkPassBinding current rec t);
  _ ← require (mp_StoreRevision current = mp_StoreRevision pass) ErrConflict;
  _ ← putMissionPass tput (launching_pass current artifacts) (mp_StoreRevision current);
  settleLaunchExchangeIntent ws codeHashHex LaunchExchangeCompleted (la_RunID artifacts)
    (tagged_digest (la_SealedSignedEnvelope artifacts)) "" t.

Definition fail_exchange {A} (canceled : bool) (codeHashHex failure : string) (e : err) : M A :=
  _ ← settleInTx canceled codeHashHex LaunchExchangeFailed failure; fail e.

Definition adoptArtifacts (canceled : bool) (artifacts : LaunchArtifacts) (codeHashHex : string)
    (rec : CLIAuthorization) (pass : MissionPassRecord) : M ExchangeResult :=
  if decide (la_IsolationProfile artifacts ≠ IsolationEnforced) then
    fail_exchange canceled codeHashHex "isolation not enforced" ErrIsolationNotEnforced
  else if decide (la_RunID artifacts = "" ∨ la_SealedSignedEnvelope artifacts = "") then
    fail_exchange canceled codeHashHex "upstream artifacts incomplete" ErrExchangeFailed
  else if decide (la_MissionRef artifacts ≠ ca_MissionRef rec) then
    fail_exchange canceled codeHashHex "mission ref mismatch" ErrBindingChanged
  else
  keys ← gets w_keys;
  match checkSealedEnvelope keys (la_SealedSignedEnvelope artifacts) with
  | Err e => fail_exchange canceled codeHashHex "sealed envelope key not trusted" e
  | Ok _ =>
      t ← now;
      tput ← now;
      r ← (if canceled then mret (Err ErrCancelled)
           else try (tx (adopt_tx artifacts codeHashHex rec pass t tput)));
      match r with
      | Err e => fail_exchange canceled codeHashHex "launch settlement failed" e
      | Ok _ =>
          _ ← rememberDelivery codeHashHex (exchange_result artifacts);
          mret (exchange_result artifacts)
      end
  end.

Definition handlePrepareError (canceled : bool) (prepareErr : err) (codeHashHex : string)
    (rec : CLIAuthorization) (pass : MissionPassRecord) : M ExchangeResult :=
  if decide (denied prepareErr) then
    fail_exchange canceled codeHashHex "upstream denied the launch" prepareErr
  else if canceled then
    fail_exchange canceled codeHashHex "exchange canceled" prepareErr
  else
  r ← asked (call_ReconcileOperation (launch_key_of codeHashHex) "" launch_opts);
  match r with
  | Err e => fail_exchange canceled codeHashHex "upstream outcome unknown" e
  | Ok res =>
      match or_Artifacts res with
      | Some artifacts =>
          if decide (or_Status res = "completed") then adoptArtifacts canceled artifacts codeHashHex rec pass
          else fail_exchange canceled codeHashHex "upstream operation did not complete"
                 (ErrOther "launch: prepare launch")
      | None => fail_exchange canceled codeHashHex "upstream operation did not complete"
                  (ErrOther "launch: prepare launch")
      end
  end.

Definition ownExchange (canceled : bool) (rec : CLIAuthorization) (pass : MissionPassRecord)
    (codeHash codeHashHex : string) : M ExchangeResult :=
  taken ← Take (ca_AuthorizationID rec);
  match taken with
  | None => fail_exchange false codeHashHex "decision attestation unavailable" ErrAttestationMissing
  | Some att =>
      if decide (pa_CodeHash att ≠ codeHash ∨ pa_AttestationDigest att ≠ ca_DecisionAttestationDigest rec) then
        fail_exchange false codeHashHex "decision attestation mismatch" ErrAttestationMissing
      else
      r ← asked (call_PrepareLaunch (ca_MissionRef rec)
                   (MkLaunchRequest (ca_AgentKitID rec) (launch_key_of codeHashHex)
                      (ca_EphemeralPublicKey rec)) (pa_Attestation att) launch_opts);
      match r with
      | Err e => handlePrepareError canceled e codeHashHex rec pass
      | Ok artifacts => adoptArtifacts canceled artifacts codeHashHex rec pass
      end
  end.

Definition reconcileCompleted (codeHashHex : string) : M ExchangeResult :=
  r ← asked (call_ReconcileOperation (launch_key_of codeHashHex) "" launch_opts);
  match r with
  | Err _ => fail ErrExchangeResultGone
  | Ok res =>
      match or_Artifacts res with
      | Some artifacts =>
          _ ← require (or_Status res = "completed" ∧ la_SealedSignedEnvelope artifacts ≠ "")
                ErrExchangeResultGone;
          _ ← rememberDelivery codeHashHex (exchange_result artifacts);
          mret (exchange_result artifacts)
      | None => fail ErrExchangeResultGone
      end
  end.

Definition replayCompleted (codeHash verifier codeHashHex : string) (row : LaunchExchangeIntent) (t : time)
    : M ExchangeResult :=
  _ ← require (¬ launchExchangeStaleAfter < t - le_UpdatedAt row) ErrExchangeStale;
  rec ← tx (getCLIAuthorizationByCodeHash ws codeHash);
  _ ← require (VerifyCodeChallenge (ca_CodeChallenge rec) verifier) ErrExchangeConflict;
  delivery ← gets w_delivery;
  match delivery !! codeHashHex with
  | Some r => mret r
  | None => reconcileCompleted codeHashHex
  end.

Definition reconcileOrphan (canceled : bool) (codeHash codeHashHex : string) (row : LaunchExchangeIntent)
    (t : time) : M ExchangeResult :=
  if decide (launchExchangeStaleAfter < t - le_UpdatedAt row) then
    _ ← settleInTx false codeHashHex LaunchExchangeExpired "exchange reservation went stale";
    fail ErrExchangeStale
  else
  r ← asked (call_ReconcileOperation (launch_key_of codeHashHex) "" launch_opts);
  match r with
  | Ok (MkOperationResult _ _ status _ (Some artifacts)) =>
      if decide (status = "completed" ∧ la_SealedSignedEnvelope artifacts ≠ "") then
        _ ← require (canceled = false) ErrCancelled;
        rec ← tx (getCLIAuthorizationByCodeHash ws codeHash);
        pass ← tx (getMissionPass ws (ca_PassID rec));
        adoptArtifacts canceled artifacts codeHashHex rec pass
      else fail ErrAmbiguousExchange
  | _ => fail ErrAmbiguousExchange
  end.

(** An intent is followed by its status; nothing is prepared again. *)
Definition settleRow (canceled : bool) (codeHash verifier codeHashHex : string)
    (row : LaunchExchangeIntent) (t : time) : M ExchangeResult :=
  if decide (le_Status row = LaunchExchangeCompleted) then
    replayCompleted codeHash verifier codeHashHex row t
  else if decide (le_Status row = LaunchExchangeFailed) then fail ErrExchangeFailed
  else if decide (le_Status row = LaunchExchangeExpired) then fail ErrExchangeStale
  else reconcileOrphan canceled codeHash codeHashHex row t.

Definition getIntent (codeHashHex : string) : M (option LaunchExchangeIntent) :=
  r ← try (tx (getLaunchExchangeIntent ws codeHashHex));
  match r with
  | Ok row => mret (Some row)
  | Err e => _ ← require (e = ErrNotFound) e; mret None
  end.

Definition new_intent (rec : CLIAuthorization) (codeHashHex : string) : LaunchExchangeIntent :=
  zero_LaunchExchangeIntent <| le_WorkspaceID := ws |> <| le_CodeHash := codeHashHex |>
    <| le_AuthorizationID := ca_AuthorizationID rec |> <| le_PassID := ca_PassID rec |>
    <| le_AttestationDigest := ca_DecisionAttestationDigest rec |>.

(** [canceled]: the request's context is done by the time AuthScope answered
    the preparation, or the reconciliation of an orphaned one. *)
Definition ExchangeAndPrepare (canceled : bool) (req : ExchangeRequest) : M ExchangeResult :=
  codeRaw ← lift (opt_res ErrExchangeNotFound (RawURLDecode (xq_Code req)));
  _ ← require (String.length codeRaw = 32%nat) ErrExchangeNotFound;
  _ ← lift (opt_res ErrInvalidExchange (RawURLDecode (xq_Verifier req)));
  let codeHash := Sum256 codeRaw in
  let codeHashHex := hex codeHash in
  t ← now;
  found ← getIntent codeHashHex;
  match found with
  | Some row => settleRow canceled codeHash (xq_Verifier req) codeHashHex row t
  | None =>
      '(rec, pass) ← validateForExchange codeHash (xq_Verifier req) t;
      claimed ← tx (claimLaunchExchangeIntent (new_intent rec codeHashHex) t);
      if (claimed : bool) then ownExchange canceled rec pass codeHash codeHashHex
      else
        again ← getIntent codeHashHex;
        match again with
        | None => fail ErrExchangeConflict
        | Some row => settleRow canceled codeHash (xq_Verifier req) codeHashHex row t
        end
  end.
End launch.

(** ** One preparation per code *)

Section once_per_code.
Context `{Env}.
Context (deliveryCap : nat) (h : string).
Notation ws := instance_WorkspaceID.

Definition prepares (c : call) : Prop :=
  match c with PrepareLaunch _ req _ _ => lq_IdempotencyKey req = launch_key_of h | _ => False end.
#[export] Instance prepares_dec c : Decision (prepares c).
Proof. destruct c; cbn; apply _. Defined.

Definition has_launch_intent (db : DB) : Prop :=
  is_Some (db_launch_exchange_intents db !! (ws, ToLower h)).

Notation preparations := (sent_calls prepares).
Notation quiet := (none_sent prepares has_launch_intent).
Notation prepared_once := (sent_once prepares has_launch_intent).

Context (peers_keep : ∀ n db, has_launch_intent db → has_launch_intent (peers n db)).

Lemma quiet_wait : within quiet wait.
Proof. intros w r w' E. injection E as <- <-. split; [done|]. cbn. apply peers_keep. Qed.
Lemma quiet_modify f : (∀ w, w_calls (f w) = w_calls w) → (∀ w, w_db (f w) = w_db w) →
  within quiet (modify f).
Proof.
  intros Hc Hd w r w' E. injection E as <- <-. split; [unfold sent_calls; by rewrite Hc|]. by rewrite Hd.
Qed.
Lemma quiet_reads {A} (fn : Tx A) : within eq fn → within quiet (tx fn).
Proof.
  intros Hf. apply none_sent_tx. intros db a db' E. by apply Hf in E as <-.
Qed.
#[local] Hint Resolve quiet_wait : within.
#[local] Hint Extern 2 (within quiet (modify _)) => apply quiet_modify; reflexivity : within.
#[local] Hint Extern 2 (within quiet (upstream _ _)) => apply none_sent_upstream; intros [] : within.
#[local] Hint Extern 2 (within quiet (tx (select _ _))) => apply none_sent_read : within.
#[local] Hint Extern 2 (within quiet (tx (getCLIAuthorizationByCodeHash _ _))) =>
  apply quiet_reads, by_code_reads : within.

Lemma latest_posture_reads a b : within eq (latestWorkflowPosture a b).
Proof.
  intros db r db' E. unfold latestWorkflowPosture in E. rewrite gets_then in E.
  destruct (rev _); by injection E as _ <-.
Qed.
#[local] Hint Extern 2 (within quiet (tx (latestWorkflowPosture _ _))) =>
  apply quiet_reads, latest_posture_reads : within.

Lemma settle_launch_keeps hash st run env f t db u db' :
  settleLaunchExchangeIntent ws hash st run env f t db = (Ok u, db') → has_launch_intent db → has_launch_intent db'.
Proof.
  unfold settleLaunchExchangeIntent, has_launch_intent. intros E. op_inv E. cbn.
  intros Hi. destruct (decide ((ws, ToLower hash) = (ws, ToLower h))) as [->|N].
  - rewrite lookup_insert_eq. by eexists.
  - by rewrite lookup_insert_ne.
Qed.
Lemma quiet_settle c hash st f : within quiet (settleInTx c hash st f).
Proof.
  unfold settleInTx. destruct c; within_auto. apply none_sent_tx. intros db u db'. apply settle_launch_keeps.
Qed.
#[local] Hint Resolve quiet_settle : within.

Lemma adopt_tx_keeps art hash rec pass t tp db u db' :
  adopt_tx art hash rec pass t tp db = (Ok u, db') → has_launch_intent db → has_launch_intent db'.
Proof.
  unfold adopt_tx. intros E Hi. call_inv E Eg; [|discriminate E]. apply select_Ok in Eg as [_ ->].
  op_inv_step E; [|discriminate E]. op_inv_step E; [|discriminate E].
  call_inv E Ep; [|discriminate E]. apply putMissionPass_Ok in Ep as (_ & _ & _ & ->).
  by apply settle_launch_keeps in E.
Qed.
Lemma quiet_adopt c art hash rec pass : within quiet (adoptArtifacts deliveryCap c art hash rec pass).
Proof.
  unfold adoptArtifacts, fail_exchange, rememberDelivery. destruct c; within_auto.
  all: apply none_sent_tx; intros db u db'; apply adopt_tx_keeps.
Qed.
#[local] Hint Resolve quiet_adopt : within.

Lemma quiet_prepare_error c e hash rec pass :
  within quiet (handlePrepareError deliveryCap c e hash rec pass).
Proof. unfold handlePrepareError, fail_exchange, asked, call_ReconcileOperation. destruct c; within_auto. Qed.
#[local] Hint Resolve quiet_prepare_error : within.

Lemma quiet_settleRow c ch v hash row t : within quiet (settleRow deliveryCap c ch v hash row t).
Proof.
  unfold settleRow, replayCompleted, reconcileCompleted, reconcileOrphan, asked, call_ReconcileOperation,
    rememberDelivery, getMissionPass. within_auto.
Qed.
#[local] Hint Resolve quiet_settleRow : within.

Lemma quiet_validate ch v t : within quiet (validateForExchange ch v t).
Proof.
  unfold validateForExchange, checkPosture, asked, call_IntrospectMission, call_ListAgentKits, getMissionPass.
  within_auto.
Qed.
Lemma quiet_getIntent hash : within quiet (getIntent hash).
Proof. unfold getIntent, getLaunchExchangeIntent. within_auto. Qed.
#[local] Hint Resolve quiet_validate quiet_getIntent : within.

Lemma claim_launch_Ok i t db b db' : claimLaunchExchangeIntent i t db = (Ok b, db') →
  le_WorkspaceID i = ws → le_CodeHash i = h →
  (b = true → ¬ has_launch_intent db ∧ has_launch_intent db') ∧ (b = false → db' = db).
Proof.
  intros E Ew Eh. unfold claimLaunchExchangeIntent, has_launch_intent in *. rewrite <- Ew, <- Eh in *.
  op_inv E; (split; [|done]); [done|]. intros _. split; [by intros [? ?]; simplify_eq|].
  cbn. rewrite lookup_insert_eq. by eexists.
Qed.
Lemma claim_launch_keeps i t db b db' : claimLaunchExchangeIntent i t db = (Ok b, db') →
  has_launch_intent db → has_launch_intent db'.
Proof.
  unfold claimLaunchExchangeIntent, has_launch_intent. intros E Hi. op_inv E; [done|]. cbn.
  destruct (decide ((le_WorkspaceID i, ToLower (le_CodeHash i)) = (ws, ToLower h))) as [->|N].
  - rewrite lookup_insert_eq. by eexists.
  - by rewrite lookup_insert_ne.
Qed.

Lemma asked_then {A B} (m : M A) (f : res A → M B) w :
  (asked m ≫= f) w = (try m ≫= λ r, wait ≫= λ _, f r) w.
Proof. unfold asked, try, mbind, se_bind. by destruct (m w) as [r w1]. Qed.

Lemma quiet_Take id : within quiet (Take id).
Proof.
  unfold Take. apply within_bind; [apply _|apply within_gets; apply _|]. intros c.
  destruct (pc_items c !! id); within_auto.
Qed.

(** The owner of a claim sends one preparation, under the key of its code. *)
Lemma own_once c rec pass ch hash w r w' :
  has_launch_intent (w_db w) → ownExchange deliveryCap c rec pass ch hash w = (r, w') →
  (length (preparations w') ≤ S (length (preparations w)))%nat ∧ has_launch_intent (w_db w').
Proof.
  intros Hi E. unfold ownExchange in E. call_inv E Et.
  2: { injection E as <- <-. apply quiet_Take in Et as [-> Hk]. split; [lia|auto]. }
  apply quiet_Take in Et as [El Hk]. rewrite <- El. apply Hk in Hi. clear El Hk.
  assert (∀ m : M World.ExchangeResult, within quiet m → m w0 = (r, w') →
    (length (preparations w') ≤ S (length (preparations w0)))%nat ∧ has_launch_intent (w_db w')) as Hq.
  { intros m Hm Em. apply Hm in Em as [-> Hk]. split; [lia|auto]. }
  destruct a as [att|].
  2: { revert E. apply Hq. unfold fail_exchange. within_auto. }
  case_decide. { revert E. apply Hq. unfold fail_exchange. within_auto. }
  rewrite asked_then in E. eapply issue_then; [exact Hi| |exact E].
  intros [art|e]; within_auto.
Qed.

Lemma quiet_own c rec pass ch hash : hash ≠ h → within quiet (ownExchange deliveryCap c rec pass ch hash).
Proof.
  intros Hn. unfold ownExchange. apply within_bind; [apply _|apply quiet_Take|]. intros [att|].
  2: { unfold fail_exchange. within_auto. }
  unfold fail_exchange, asked, call_PrepareLaunch. within_auto.
  apply none_sent_upstream. cbn. intros E. apply Hn. by apply (inj (String.append "ope-launch-")) in E.
Qed.

Lemma exchange_once c req w r w' :
  ExchangeAndPrepare deliveryCap c req w = (r, w') → prepared_once w → prepared_once w'.
Proof.
  unfold ExchangeAndPrepare. intros E Ho. call_inv E E1; apply lift_inv in E1 as [_ ->];
    [|injection E as <- <-; done]. op_inv_step E; [|injection E as <- <-; done].
  call_inv E E2; apply lift_inv in E2 as [_ ->]; [|injection E as <- <-; done].
  cbv zeta in E. rewrite now_then in E. call_inv E Eg; apply quiet_getIntent in Eg;
    pose proof (none_sent_once prepares has_launch_intent _ _ Eg) as Hg; [|injection E as <- <-; by apply Hg].
  specialize (Hg Ho). destruct a1 as [row|].
  { apply quiet_settleRow in E. by eapply none_sent_once. }
  call_inv E Ev; apply quiet_validate in Ev; eapply none_sent_once in Hg; try exact Ev;
    [|injection E as <- <-; done]. destruct a1 as [rec pass].
  call_inv E Ec.
  2: { injection E as <- <-. by apply tx_Err in Ec as [_ ->]. }
  apply tx_Ok in Ec as (db & Ec & ->). destruct a1.
  - destruct (decide (hex (Sum256 a) = h)) as [Eh|Nh].
    + apply claim_launch_Ok in Ec as [Hc _]; [|done|done]. destruct (Hc eq_refl) as [Hn Hy].
      assert (preparations w1 = []) as E0 by (destruct Hg as [?|[_ ?]]; [done|contradiction]).
      eapply issued_once; [eapply own_once; [|exact E]; exact Hy|exact E0].
    + apply quiet_own in E; [|done]. eapply none_sent_once; [exact E|].
      eapply none_sent_once; [|exact Hg]. split; [done|]. by eapply claim_launch_keeps.
  - assert (prepared_once (w1 <| w_db := db |>)) as H1.
    { eapply none_sent_once; [|exact Hg]. split; [done|]. by eapply claim_launch_keeps. }
    call_inv E Ea; apply quiet_getIntent in Ea; eapply none_sent_once in H1; try exact Ea;
      [|injection E as <- <-; done]. destruct a1 as [row|].
    + apply quiet_settleRow in E. by eapply none_sent_once.
    + injection E as <- <-. exact H1.
Qed.

(** Exchanges of any codes, completed, failed or retried, and anything else
    that neither prepares the code nor forgets its intent: other handlers, and
    a restart, which loses the memory but not the database. *)
Inductive exchange_step (w w' : World) : Prop :=
  | xs_exchange c req r : ExchangeAndPrepare deliveryCap c req w = (r, w') → exchange_step w w'
  | xs_other : quiet w w' → exchange_step w w'.

(** C1: AuthScope is asked to prepare a run at most once per authorization code:
    over any history of exchanges, duplicate submissions, retries after lost
    answers, cancelled requests and restarts included, at most one preparation
    carries the key of the code, and then its intent is durable. *)
Theorem prepared_at_most_once w w' :
  preparations w = [] → rtc exchange_step w w' →
  (length (preparations w') ≤ 1)%nat ∧ (preparations w' ≠ [] → has_launch_intent (w_db w')).
Proof.
  apply history_once. intros w1 w2 [c req r E|Hq] Ho; [by eapply exchange_once|].
  by eapply none_sent_once.
Qed.
End once_per_code.

(** ** What an exchange returns *)

Section exact.
Context `{Env}.
Context (deliveryCap : nat).
Notation ws := instance_WorkspaceID.

(** The passes change only by what other requests commit meanwhile. *)
Definition passes_step (db db' : DB) : Prop :=
  db_mission_passes db' = db_mission_passes db ∨ ∃ n, db' = peers n db.
Definition passes_alone (w w' : World) : Prop := rtc passes_step (w_db w) (w_db w').

#[export] Instance passes_alone_preorder : PreOrder passes_alone.
Proof. split; [intros w; apply rtc_refl|]. intros w1 w2 w3 H1 H2. unfold passes_alone in *. by etrans. Qed.

Lemma alone_db w w' : db_mission_passes (w_db w') = db_mission_passes (w_db w) → passes_alone w w'.
Proof. intros E. apply rtc_once. by left. Qed.
Lemma alone_now : within passes_alone now.
Proof. intros w r w' E. injection E as <- <-. by apply alone_db. Qed.
Lemma alone_upstream {A} c (reply : list call → res A) : within passes_alone (upstream c reply).
Proof. intros w r w' E. injection E as <- <-. by apply alone_db. Qed.
Lemma alone_wait : within passes_alone wait.
Proof. intros w r w' E. injection E as <- <-. apply rtc_once. right. by eexists. Qed.
Lemma alone_modify f : (∀ w, w_db (f w) = w_db w) → within passes_alone (modify f).
Proof. intros Hf w r w' E. injection E as <- <-. apply alone_db. by rewrite Hf. Qed.
Lemma alone_tx {A} (fn : Tx A) :
  (∀ db a db', fn db = (Ok a, db') → db_mission_passes db' = db_mission_passes db) →
  within passes_alone (tx fn).
Proof.
  intros Hf w [a|e] w' E; [apply tx_Ok in E as (db & E & ->)|by apply tx_Err in E as [_ ->]].
  apply alone_db. by eapply Hf.
Qed.
Lemma alone_reads {A} (fn : Tx A) : within eq fn → within passes_alone (tx fn).
Proof. intros Hf. apply alone_tx. intros db a db' E. by apply Hf in E as <-. Qed.
#[local] Hint Resolve alone_now alone_upstream alone_wait : within.
#[local] Hint Extern 2 (within passes_alone (modify _)) => apply alone_modify; reflexivity : within.
#[local] Hint Extern 2 (within passes_alone (tx (select _ _))) => apply alone_reads, within_select : within.
#[local] Hint Extern 2 (within passes_alone (tx (getCLIAuthorizationByCodeHash _ _))) =>
  apply alone_reads, by_code_reads : within.
#[local] Hint Extern 2 (within passes_alone (tx (latestWorkflowPosture _ _))) =>
  apply alone_reads, latest_posture_reads : within.

Lemma settle_launch_Ok hash st run env f t db u db' :
  settleLaunchExchangeIntent ws hash st run env f t db = (Ok u, db') →
  ∃ row, db_launch_exchange_intents db !! (ws, ToLower hash) = Some row ∧
    le_Status row = LaunchExchangeInFlight ∧
    db' = db <| db_launch_exchange_intents := <[(ws, ToLower hash) :=
      row <| le_Status := st |> <| le_RunID := run |> <| le_EnvelopeDigest := env |>
          <| le_Failure := f |> <| le_UpdatedAt := t |>]> (db_launch_exchange_intents db) |>.
Proof. unfold settleLaunchExchangeIntent. intros E. op_inv E. eauto. Qed.

Lemma alone_settle c hash st f : within passes_alone (settleInTx c hash st f).
Proof.
  unfold settleInTx. destruct c; within_auto. apply alone_tx. intros db u db' E.
  by apply settle_launch_Ok in E as (row & _ & _ & ->).
Qed.
#[local] Hint Resolve alone_settle : within.

Lemma alone_Take id : within passes_alone (Take id).
Proof.
  unfold Take. apply within_bind; [apply _|apply within_gets; apply _|]. intros c.
  destruct (pc_items c !! id); within_auto.
Qed.
Lemma alone_getIntent hash : within passes_alone (getIntent hash).
Proof. unfold getIntent, getLaunchExchangeIntent. within_auto. Qed.
Lemma alone_claim i t : within passes_alone (tx (claimLaunchExchangeIntent i t)).
Proof. apply alone_tx. intros db b db' E. unfold claimLaunchExchangeIntent in E. op_inv E; reflexivity. Qed.
Lemma alone_validate ch v t : within passes_alone (validateForExchange ch v t).
Proof.
  unfold validateForExchange, checkPosture, asked, call_IntrospectMission, call_ListAgentKits, getMissionPass.
  within_auto.
Qed.
#[local] Hint Resolve alone_Take alone_getIntent alone_claim alone_validate : within.

(** The delivery cache and the order of its entries agree. *)
Record delivery_ok (w : World) : Prop := {
  do_bound : (length (w_delivery_order w) ≤ deliveryCap)%nat;
  do_nodup : NoDup (w_delivery_order w);
  do_order : ∀ id, id ∈ w_delivery_order w ↔ is_Some (w_delivery w !! id)
}.

Lemma remember_run id result w : deliveryCap ≠ 0%nat → delivery_ok w →
  ∃ w', rememberDelivery deliveryCap id result w = (Ok tt, w') ∧ delivery_ok w' ∧
    w_delivery w' !! id = Some result ∧ w_db w' = w_db w.
Proof.
  intros Hc [Hb Hn Ho]. unfold rememberDelivery, modify. cbv zeta.
  destruct (decide (w_delivery w !! id = None)) as [D|D].
  - assert (id ∉ w_delivery_order w) as Hni by (rewrite Ho, D; by intros [? ?]).
    assert (∀ i, is_Some (<[id := result]> (w_delivery w) !! i) ↔ i = id ∨ i ∈ w_delivery_order w) as Hi.
    { intros i. rewrite Ho. destruct (decide (i = id)) as [->|N].
      - rewrite lookup_insert_eq. split; [by left|by eexists].
      - rewrite lookup_insert_ne by done. tauto. }
    destruct (decide (length (w_delivery_order w) < deliveryCap)%nat) as [L|L].
    + rewrite length_app. cbn [length]. replace (_ + 1 - _)%nat with 0%nat by lia.
      eexists. split; [reflexivity|]. cbn [w_delivery w_delivery_order w_db upd].
      change (take 0 ?l) with (@nil string). change (drop 0 ?l) with l. cbn [foldr]. split_and!; [|apply lookup_insert_eq|done]. constructor; cbn.
      * rewrite length_app. cbn [length]. lia.
      * apply NoDup_app. split_and!; [done| |apply NoDup_singleton]. by intros x ? ->%list_elem_of_singleton.
      * intros i. rewrite Hi, elem_of_app, list_elem_of_singleton. tauto.
    + rewrite length_app. cbn [length]. replace (_ + 1 - _)%nat with 1%nat by lia.
      destruct (w_delivery_order w) as [|old rest] eqn:Eo; [cbn in *; lia|].
      apply NoDup_cons in Hn as [Hno Hn]. apply not_elem_of_cons in Hni as [Hne Hni].
      eexists. split; [reflexivity|]. cbn [w_delivery w_delivery_order w_db upd app].
      change (take 1 (old :: ?l)) with [old]. change (drop 1 (old :: ?l)) with l. cbn [foldr].
      split_and!; [|by rewrite lookup_delete_ne, lookup_insert_eq|done]. constructor; cbn.
      * rewrite length_app. cbn [length] in *. lia.
      * apply NoDup_app. split_and!; [done| |apply NoDup_singleton].
        by intros x ? ->%list_elem_of_singleton.
      * intros i. rewrite elem_of_app, list_elem_of_singleton. specialize (Hi i).
        rewrite elem_of_cons in Hi. destruct (decide (i = old)) as [->|N].
        -- rewrite lookup_delete_eq. split; [intros [?| ->]; done|by intros [? ?]].
        -- rewrite lookup_delete_ne by done. rewrite Hi. naive_solver.
  - replace (length (w_delivery_order w) - deliveryCap)%nat with 0%nat by lia.
    eexists. split; [reflexivity|]. cbn [w_delivery w_delivery_order w_db upd].
    change (take 0 ?l) with (@nil string). change (drop 0 ?l) with l. cbn [foldr]. split_and!; [|apply lookup_insert_eq|done].
    constructor; cbn; [done|done|]. intros i. rewrite Ho. destruct (decide (i = id)) as [->|N].
    + rewrite lookup_insert_eq. split; [by eexists|]. intros _. by apply not_eq_None_Some.
    + by rewrite lookup_insert_ne.
Qed.

(** A prepared run taken over: what was checked, and the one transaction that
    moves the pass and settles the intent. *)
Record adopted (artifacts : LaunchArtifacts) (hash : string) (rec : CLIAuthorization)
    (result : ExchangeResult) (w w' : World) : Prop := {
  ad_result : result = exchange_result artifacts;
  ad_isolated : la_IsolationProfile artifacts = IsolationEnforced;
  ad_complete : la_RunID artifacts ≠ "" ∧ la_SealedSignedEnvelope artifacts ≠ "";
  ad_mission : la_MissionRef artifacts = ca_MissionRef rec;
  ad_sealed : checkSealedEnvelope (w_keys w) (la_SealedSignedEnvelope artifacts) = Ok tt;
  ad_moved : ∃ current t tput created row,
    db_mission_passes (w_db w) !! (ws, ca_PassID rec) = Some current ∧
    checkPassBinding current rec t = Ok tt ∧
    db_launch_exchange_intents (w_db w) !! (ws, ToLower hash) = Some row ∧
    le_Status row = LaunchExchangeInFlight ∧
    db_mission_passes (w_db w') = <[pass_key current :=
      stamped tput (mp_StoreRevision current + 1) created (launching_pass current artifacts)]>
        (db_mission_passes (w_db w)) ∧
    db_launch_exchange_intents (w_db w') = <[(ws, ToLower hash) :=
      row <| le_Status := LaunchExchangeCompleted |> <| le_RunID := la_RunID artifacts |>
          <| le_EnvelopeDigest := tagged_digest (la_SealedSignedEnvelope artifacts) |>
          <| le_Failure := "" |> <| le_UpdatedAt := t |>]> (db_launch_exchange_intents (w_db w));
  ad_delivered : deliveryCap ≠ 0%nat → delivery_ok w → w_delivery w' !! hash = Some result
}.

Lemma fail_exchange_run {A} c hash failure e w (x : res A) w' :
  fail_exchange c hash failure e w = (x, w') → passes_alone w w' ∧ ∃ e', x = Err e'.
Proof.
  unfold fail_exchange. intros E. call_inv E Es; apply alone_settle in Es; injection E as <- <-; eauto.
Qed.

Lemma adopt_tx_Ok art hash rec pass t tput db u db' :
  adopt_tx art hash rec pass t tput db = (Ok u, db') →
  ∃ current created row, db_mission_passes db !! (ws, ca_PassID rec) = Some current ∧
    checkPassBinding current rec t = Ok tt ∧
    db_launch_exchange_intents db !! (ws, ToLower hash) = Some row ∧
    le_Status row = LaunchExchangeInFlight ∧
    db_mission_passes db' = <[pass_key current :=
      stamped tput (mp_StoreRevision current + 1) created (launching_pass current art)]>
        (db_mission_passes db) ∧
    db_launch_exchange_intents db' = <[(ws, ToLower hash) :=
      row <| le_Status := LaunchExchangeCompleted |> <| le_RunID := la_RunID art |>
          <| le_EnvelopeDigest := tagged_digest (la_SealedSignedEnvelope art) |>
          <| le_Failure := "" |> <| le_UpdatedAt := t |>]> (db_launch_exchange_intents db).
Proof.
  unfold adopt_tx. intros E. call_inv E Eg; [|discriminate E]. apply select_Ok in Eg as [Hg ->].
  call_inv E Eb; [|discriminate E]. apply lift_inv in Eb as [Eb ->]. destruct a0.
  op_inv_step E; [|discriminate E]. call_inv E Ep; [|discriminate E].
  apply putMissionPass_Ok in Ep as (_ & _ & _ & ->). apply settle_launch_Ok in E as (row & Hr & Hs & ->).
  exists a. eexists _, row. split_and!; try done.
Qed.

Lemma adoptArtifacts_run c art hash rec pass w r w' :
  adoptArtifacts deliveryCap c art hash rec pass w = (r, w') →
  match r with
  | Ok result => adopted art hash rec result w w' ∧ c = false
  | Err _ => passes_alone w w'
  end.
Proof.
  unfold adoptArtifacts. intros E.
  destruct (decide (la_IsolationProfile art ≠ IsolationEnforced)) as [D|D];
    [apply fail_exchange_run in E as [E [e ->]]; done|apply dec_stable in D].
  case_decide as D2; [apply fail_exchange_run in E as [E [e ->]]; done|].
  destruct (decide (la_MissionRef art ≠ ca_MissionRef rec)) as [D3|D3];
    [apply fail_exchange_run in E as [E [e ->]]; done|apply dec_stable in D3].
  rewrite gets_then in E. destruct (checkSealedEnvelope _ _) as [[]|e] eqn:Es;
    [|apply fail_exchange_run in E as [E [e' ->]]; done].
  rewrite !now_then in E. destruct c.
  { op_inv_step E. apply fail_exchange_run in E as [E [e' ->]]. etrans; [|exact E]. by apply alone_db. }
  try_inv E Et. destruct r0 as [u|e].
  2: { apply tx_Err in Et as [_ ->]. apply fail_exchange_run in E as [E [e' ->]].
       etrans; [|exact E]. by apply alone_db. }
  apply tx_Ok in Et as (db & Et & ->).
  apply adopt_tx_Ok in Et as (cur & created & row & H1 & H2 & H3 & H4 & H5 & H6).
  match type of E with (rememberDelivery _ _ _ ≫= _) ?w0 = _ => set (w1 := w0) in * end.
  assert (w_db w1 = db) as Edb by done.
  unfold rememberDelivery in E. rewrite modify_then in E. injection E as <- <-. split; [|done].
  split; try done.
  - split; intros E0; apply D2; auto.
  - exists cur. eexists _, _, created, row. cbn [w_db upd]. rewrite Edb. split_and!; done.
  - intros Hc Hok. assert (delivery_ok w1) as Hok1 by (destruct Hok; by constructor).
    destruct (remember_run hash (exchange_result art) w1 Hc Hok1) as (w2 & E2 & _ & Hd & _).
    unfold rememberDelivery, modify in E2. injection E2 as <-. exact Hd.
Qed.

Lemma alone_adopt_err c art hash rec pass w e w' :
  adoptArtifacts deliveryCap c art hash rec pass w = (Err e, w') → passes_alone w w'.
Proof. intros E. by apply adoptArtifacts_run in E. Qed.

Lemma alone_asked {A} (c : call) (reply : list call → res A) : within passes_alone (asked (upstream c reply)).
Proof. unfold asked. within_auto. Qed.

(** An adoption somewhere after [w], with the authorization of the code. *)
Definition adopted_later (hash : string) (rec : CLIAuthorization) (result : ExchangeResult) (w w' : World)
    : Prop :=
  ∃ art w1, passes_alone w w1 ∧ adopted art hash rec result w1 w'.

Lemma adopt_later c art hash rec pass w w0 r w' :
  passes_alone w w0 → adoptArtifacts deliveryCap c art hash rec pass w0 = (r, w') →
  match r with Ok result => adopted_later hash rec result w w' | Err _ => passes_alone w w' end.
Proof.
  intros Ha E. apply adoptArtifacts_run in E. destruct r as [result|e]; [|by etrans].
  destruct E as [E _]. by exists art, w0.
Qed.

Lemma fail_later {A} c hash failure e w w0 (r : res A) w' (P : A → Prop) :
  passes_alone w w0 → fail_exchange c hash failure e w0 = (r, w') →
  match r with Ok a => P a | Err _ => passes_alone w w' end.
Proof. intros Ha E. apply fail_exchange_run in E as [E [e' ->]]. by etrans. Qed.

#[local] Ltac fails := eapply fail_later; eassumption.
#[local] Ltac adopts := eapply adopt_later; eassumption.

Lemma own_run c rec pass ch hash w r w' :
  ownExchange deliveryCap c rec pass ch hash w = (r, w') →
  match r with Ok result => adopted_later hash rec result w w' | Err _ => passes_alone w w' end.
Proof.
  unfold ownExchange. intros E. call_inv E Et; apply alone_Take in Et; [|by injection E as <- <-].
  destruct a as [att|]; [|fails].
  case_decide; [fails|]. call_inv E Ep; apply alone_asked in Ep; [|injection E as <- <-; by etrans].
  assert (passes_alone w w1) as H1 by by etrans. destruct a as [art|e]; [adopts|].
  unfold handlePrepareError in E. case_decide; [fails|].
  destruct c; [fails|].
  call_inv E Er; apply alone_asked in Er; [|injection E as <- <-; by etrans].
  assert (passes_alone w w2) as Hw2 by by etrans. destruct a as [out|e2]; [|fails].
  destruct (or_Artifacts out) as [art|]; [|fails].
  case_decide; [adopts|fails].
Qed.

(** The authorization of a code, as a fresh exchange checks it. *)
Record offered (codeHash verifier : string) (t : time) (rec : CLIAuthorization) (w : World) : Prop := {
  of_row : ∃ k, db_cli_authorizations (w_db w) !! k = Some rec;
  of_workspace : ca_WorkspaceID rec = ws;
  of_code : ca_CodeHash rec = Some codeHash;
  of_intact : VerifyRecordIntegrity rec = Ok tt;
  of_live : t < ca_ExpiresAt rec;
  of_verifier : VerifyCodeChallenge (ca_CodeChallenge rec) verifier
}.

Lemma validate_offered ch v t w rec pass w' :
  validateForExchange ch v t w = (Ok (rec, pass), w') → offered ch v t rec w.
Proof.
  unfold validateForExchange. intros E. try_inv E Er. call_inv E El; [|discriminate E].
  apply lift_inv in El as [El ->]. apply not_found_Ok in El as ->.
  apply tx_Ok in Er as (db & Er & ->). apply by_code_Ok in Er as (-> & Hw & Hc & k & Hk).
  do 5 (op_inv_step E; [|discriminate E]). try_inv E Ep.
  repeat (let X := fresh "X" in call_inv E X; [|discriminate E]). injection E as <- <- <-.
  constructor; try done. by exists k.
Qed.

(** The owner of an unsettled intent is gone, and the intent is not stale. *)
Definition orphaned (hash : string) (t : time) (w : World) : Prop :=
  ∃ row, db_launch_exchange_intents (w_db w) !! (ws, ToLower hash) = Some row ∧
    le_Status row ≠ LaunchExchangeCompleted ∧ le_Status row ≠ LaunchExchangeFailed ∧
    le_Status row ≠ LaunchExchangeExpired ∧ t - le_UpdatedAt row ≤ launchExchangeStaleAfter.

(** A completed intent is replayed to whoever proves the verifier. *)
Record replayed (codeHash verifier : string) (t : time) (result : ExchangeResult) (w w' : World) : Prop := {
  rp_row : ∃ row, db_launch_exchange_intents (w_db w) !! (ws, ToLower (hex codeHash)) = Some row ∧
    le_Status row = LaunchExchangeCompleted ∧ t - le_UpdatedAt row ≤ launchExchangeStaleAfter;
  rp_verifier : ∃ k rec, db_cli_authorizations (w_db w) !! k = Some rec ∧
    ca_CodeHash rec = Some codeHash ∧ VerifyCodeChallenge (ca_CodeChallenge rec) verifier;
  rp_result : w_delivery w !! hex codeHash = Some result ∧ w' = w ∨
    w_delivery w !! hex codeHash = None ∧ ∃ out art,
      reply_ReconcileOperation (w_calls w) (launch_key_of (hex codeHash)) "" launch_opts = Ok out ∧
      or_Status out = "completed" ∧ or_Artifacts out = Some art ∧ result = exchange_result art;
  rp_passes : passes_alone w w'
}.

Lemma settleRow_run c ch v row t w r w' :
  db_launch_exchange_intents (w_db w) !! (ws, ToLower (hex ch)) = Some row →
  settleRow deliveryCap c ch v (hex ch) row t w = (r, w') →
  match r with
  | Ok result => replayed ch v t result w w' ∨
      orphaned (hex ch) t w ∧ ∃ rec, ca_CodeHash rec = Some ch ∧ adopted_later (hex ch) rec result w w'
  | Err _ => passes_alone w w'
  end.
Proof.
  intros Hrow. unfold settleRow. intros E. case_decide as D1.
  - unfold replayCompleted in E. op_inv_step E; [|by injection E as <- <-].
    call_inv E Er; [|injection E as <- <-; by apply tx_Err in Er as [_ ->]].
    apply tx_Ok in Er as (db & Er & ->). apply by_code_Ok in Er as (-> & _ & Hc & k & Hk).
    assert (w <| w_db := w_db w |> = w) as Ew by by destruct w. rewrite Ew in E.
    op_inv_step E; [|by injection E as <- <-]. rewrite gets_then in E.
    destruct (w_delivery w !! hex ch) as [x|] eqn:Ed.
    { injection E as <- <-. left. constructor; [|by eauto 10|by left|done]. exists row. split_and!; [done|done|lia]. }
    unfold reconcileCompleted in E. call_inv E Ea; pose proof (alone_asked _ _ _ _ _ Ea) as Ha;
      [|by injection E as <- <-]. destruct a0 as [out|e]; [|by injection E as <- <-].
    destruct (or_Artifacts out) as [art|] eqn:Eart; [|by injection E as <- <-].
    op_inv_step E; [|by injection E as <- <-]. unfold rememberDelivery in E.
    rewrite modify_then in E. injection E as <- <-. left. constructor.
    + exists row. split_and!; [done|done|lia].
    + eauto 10.
    + right. split; [done|]. exists out, art. unfold asked, try, call_ReconcileOperation, upstream in Ea.
      cbn in Ea. injection Ea as Ea _. destruct D2. by split_and!.
    + etrans; [exact Ha|]. by apply alone_db.
  - case_decide as D2; [by injection E as <- <-|]. case_decide as D3; [by injection E as <- <-|].
    unfold reconcileOrphan in E. case_decide as D4.
    { call_inv E Es; apply alone_settle in Es; by injection E as <- <-. }
    call_inv E Ea; apply alone_asked in Ea; [|by injection E as <- <-].
    destruct a as [[oi ok st ow [art|]]|e]; [|by injection E as <- <-..].
    case_decide as D5; [|by injection E as <- <-]. op_inv_step E; [|by injection E as <- <-].
    call_inv E Er; [|injection E as <- <-; by apply tx_Err in Er as [_ ->]].
    apply tx_Ok in Er as (db & Er & ->). apply by_code_Ok in Er as (-> & _ & Hc & k & Hk).
    call_inv E Ep; [|injection E as <- <-; apply tx_Err in Ep as [_ ->]; etrans; [exact Ea|]; by apply alone_db].
    apply tx_Ok in Ep as (db & Ep & ->). apply select_Ok in Ep as [Hp ->].
    eapply (adopt_later _ _ _ _ _ w) in E; [|etrans; [exact Ea|]; by apply alone_db].
    destruct r as [result|e]; [|done]. right. split; [|by exists a].
    exists row. split_and!; [done..|lia].
Qed.

Lemma getIntent_row hash w o w' : getIntent hash w = (Ok o, w') → w' = w ∧
  ∀ row, o = Some row → db_launch_exchange_intents (w_db w) !! (ws, ToLower hash) = Some row.
Proof.
  unfold getIntent, getLaunchExchangeIntent. intros E. try_inv E Er. destruct r as [row|e].
  - apply tx_Ok in Er as (db & Er & ->). apply select_Ok in Er as [Hr ->]. injection E as <- <-.
    split; [by destruct w|]. by intros ? [= <-].
  - apply tx_Err in Er as [_ ->]. op_inv_step E; [|discriminate E]. by injection E as <- <-.
Qed.

(** Whatever run the reconciliation of a completed exchange reports is handed
    out, whether or not it is the recorded one. *)
Lemma reconcile_unchecked hash w out art :
  reply_ReconcileOperation (w_calls w) (launch_key_of hash) "" launch_opts = Ok out →
  or_Status out = "completed" → or_Artifacts out = Some art → la_SealedSignedEnvelope art ≠ "" →
  (reconcileCompleted deliveryCap hash w).1 = Ok (exchange_result art).
Proof.
  intros Er Es Ea Hne. unfold reconcileCompleted, asked, call_ReconcileOperation, wait, rememberDelivery.
  unfold try, upstream, modify, mbind, se_bind. cbn. rewrite Er, Ea. unfold require.
  rewrite decide_True by done. reflexivity.
Qed.

End exact.

(** ** On the bench *)

Definition bench_posture : WorkflowPostureRecord :=
  zero_WorkflowPostureRecord <| wp_WorkspaceID := "ws" |> <| wp_ConnectionID := "conn" |>
    <| wp_HeadSHA := hex (of_bytes (replicate 20 171)) |> <| wp_Outcome := "clean" |>
    <| wp_ExpiresAt := bench_time + Hour |> <| wp_CheckedAt := bench_time |>.
Definition bench_exchange_world : World :=
  bench_redirected.2 <| w_keys := MkKeyStore "" ∅ ["key-1"] |>
    <| w_db := (w_db bench_redirected.2)
         <| db_github_posture_checks := {[ ("ws", "conn", "main") := bench_posture ]} |> |>.
Definition bench_code_text : string := String.substring 36 43 bench_redirect.
Definition bench_exchange : ExchangeRequest := MkExchangeRequest bench_code_text bench_verifier.
Definition bench_exchanged := @ExchangeAndPrepare bench_env 512 false bench_exchange bench_exchange_world.
Definition bench_prepared : World.ExchangeResult := MkExchangeResult "run-1" "mission-1" bench_sealed.

Lemma bench_exchanged_run :
  @ExchangeAndPrepare bench_env 512 false bench_exchange bench_exchange_world =
  (Ok bench_prepared, bench_exchanged.2).
Proof.
  change (bench_exchanged = (Ok bench_prepared, bench_exchanged.2)).
  assert (bench_exchanged.1 = Ok bench_prepared) as E by (vm_compute; reflexivity).
  rewrite <- E. apply surjective_pairing.
Qed.

Definition bench_code_hash : string := hex (Sum256 (default "" (RawURLDecode bench_code_text))).

Lemma prepared_at_most_once_witness :
  let again := @ExchangeAndPrepare bench_env 512 false bench_exchange bench_exchanged.2 in
  (length (sent_calls (prepares bench_code_hash) bench_exchanged.2) =? 1)%nat = true ∧
  (length (sent_calls (prepares bench_code_hash) again.2) ≤ 1)%nat.
Proof.
  intros again. split; [vm_compute; reflexivity|].
  apply (@prepared_at_most_once bench_env 512 bench_code_hash (λ n db Hd, Hd) bench_exchange_world again.2).
  - vm_compute. reflexivity.
  - eapply rtc_l; [|eapply rtc_l; [|apply rtc_refl]].
    + exact (xs_exchange _ _ _ _ _ _ _ bench_exchanged_run).
    + exact (xs_exchange _ _ _ _ _ _ _ (surjective_pairing again)).
Defined.

