(* ===== verification/LaunchHistory.v ===== *)
(** * From a browser decision to a prepared run

    Histories in which authorizations are opened and decided (CLIAuth) and
    their codes are exchanged (Launch), with other requests and restarts in
    between: whatever AuthScope is asked to prepare was decided by the founder
    for exactly that launch. *)

From S2P Require Import Prelude GoTime Sha256 Base64 Json StoreModel StorePass StoreAuth StoreGithub.
From S2P Require Import Trust PassModel World Attestor Bench Ceremony Settle Once CLIAuth Launch.

Section history.
Context `{Env}.
Context (baseURL : string) (deliveryCap : nat).
Notation ws := instance_WorkspaceID.

(** Other requests keep the authorizations in order and the approved ones. *)
Definition rows_kept (db db' : DB) : Prop :=
  (authorizations_ok db → authorizations_ok db') ∧
  ∀ k r, db_cli_authorizations db !! k = Some r → is_Some (ca_ApprovedAt r) →
    db_cli_authorizations db' !! k = Some r.

#[export] Instance rows_kept_preorder : PreOrder rows_kept.
Proof.
  split; [by intros db; split|]. intros db1 db2 db3 [A1 A2] [B1 B2]. split; [tauto|].
  intros k r Hk Ha. auto.
Qed.

Context (peers_keep : ∀ n db, rows_kept db (peers n db)).

Definition is_prepare (c : call) : Prop := match c with PrepareLaunch _ _ _ _ => True | _ => False end.
#[export] Instance is_prepare_dec c : Decision (is_prepare c).
Proof. destruct c; cbn; apply _. Defined.

(** Nothing is prepared and the cache is left alone. *)
Definition aside (w w' : World) : Prop :=
  rows_kept (w_db w) (w_db w') ∧ w_attestations w' = w_attestations w ∧
  filter is_prepare (w_calls w') = filter is_prepare (w_calls w).

#[export] Instance aside_preorder : PreOrder aside.
Proof.
  split; [by intros w|]. intros w1 w2 w3 (A1 & A2 & A3) (B1 & B2 & B3).
  split_and!; [by etrans|congruence..].
Qed.

Lemma rows_same db db' : db_cli_authorizations db' = db_cli_authorizations db → rows_kept db db'.
Proof. intros E. split; [by apply authorizations_ok_same|]. by rewrite E. Qed.

Lemma aside_now : within aside now.
Proof. intros w r w' E. by injection E as <- <-. Qed.
Lemma aside_wait : within aside wait.
Proof. intros w r w' E. injection E as <- <-. split_and!; [apply peers_keep|done..]. Qed.
Lemma aside_upstream {A} c (reply : list call → res A) : ¬ is_prepare c → within aside (upstream c reply).
Proof.
  intros Hc w r w' E. injection E as <- <-. split_and!; [done..|]. cbn [w_calls upd].
  by rewrite filter_cons, decide_False.
Qed.
Lemma aside_tx {A} (fn : Tx A) :
  (∀ db a db', fn db = (Ok a, db') → db_cli_authorizations db' = db_cli_authorizations db) →
  within aside (tx fn).
Proof.
  intros Hf w [a|e] w' E; [apply tx_Ok in E as (db & E & ->)|by apply tx_Err in E as [_ ->]].
  split_and!; [|done..]. apply rows_same. by eapply Hf.
Qed.
Lemma aside_reads {A} (fn : Tx A) : within eq fn → within aside (tx fn).
Proof. intros Hf. apply aside_tx. intros db a db' E. by apply Hf in E as <-. Qed.
Lemma aside_modify f : (∀ w, w_db (f w) = w_db w) → (∀ w, w_attestations (f w) = w_attestations w) →
  (∀ w, w_calls (f w) = w_calls w) → within aside (modify f).
Proof.
  intros H1 H2 H3 w r w' E. injection E as <- <-. unfold aside. rewrite H1, H2, H3. done.
Qed.
#[local] Hint Resolve aside_now aside_wait : within.
#[local] Hint Extern 2 (within aside (modify _)) => apply aside_modify; reflexivity : within.
#[local] Hint Extern 2 (within aside (upstream _ _)) => apply aside_upstream; intros [] : within.
#[local] Hint Extern 2 (within aside (tx (select _ _))) => apply aside_reads, within_select : within.
#[local] Hint Extern 2 (within aside (tx (getCLIAuthorizationByCodeHash _ _))) =>
  apply aside_reads, by_code_reads : within.
#[local] Hint Extern 2 (within aside (tx (latestWorkflowPosture _ _))) =>
  apply aside_reads, latest_posture_reads : within.

Lemma aside_settle c hash st f : within aside (settleInTx c hash st f).
Proof.
  unfold settleInTx. destruct c; within_auto. apply aside_tx. intros db u db' E.
  by apply settle_launch_Ok in E as (row & _ & _ & ->).
Qed.
#[local] Hint Resolve aside_settle : within.

Lemma aside_adopt c art hash rec pass : within aside (adoptArtifacts deliveryCap c art hash rec pass).
Proof.
  unfold adoptArtifacts, fail_exchange, rememberDelivery. destruct c; within_auto.
  all: apply aside_tx; intros db u db' E; unfold adopt_tx in E.
  all: call_inv E Eg; [|discriminate E]; apply select_Ok in Eg as [_ ->].
  all: op_inv_step E; [|discriminate E]; op_inv_step E; [|discriminate E].
  all: call_inv E Ep; [|discriminate E]; apply putMissionPass_Ok in Ep as (_ & _ & _ & ->).
  all: by apply settle_launch_Ok in E as (row & _ & _ & ->).
Qed.
#[local] Hint Resolve aside_adopt : within.

Lemma aside_prepare_error c e hash rec pass :
  within aside (handlePrepareError deliveryCap c e hash rec pass).
Proof. unfold handlePrepareError, fail_exchange, asked, call_ReconcileOperation. destruct c; within_auto. Qed.
Lemma aside_settleRow c ch v hash row t : within aside (settleRow deliveryCap c ch v hash row t).
Proof.
  unfold settleRow, replayCompleted, reconcileCompleted, reconcileOrphan, asked, call_ReconcileOperation,
    rememberDelivery, getMissionPass. within_auto.
Qed.
Lemma aside_validate ch v t : within aside (validateForExchange ch v t).
Proof.
  unfold validateForExchange, checkPosture, asked, call_IntrospectMission, call_ListAgentKits, getMissionPass.
  within_auto.
Qed.
Lemma aside_getIntent hash : within aside (getIntent hash).
Proof. unfold getIntent, getLaunchExchangeIntent. within_auto. Qed.
Lemma aside_claim i t : within aside (tx (claimLaunchExchangeIntent i t)).
Proof. apply aside_tx. intros db b db' E. unfold claimLaunchExchangeIntent in E. op_inv E; reflexivity. Qed.
#[local] Hint Resolve aside_prepare_error aside_settleRow aside_validate aside_getIntent aside_claim : within.

(** ** What a preparation rests on *)

(** The approved authorization behind a preparation. *)
Definition decided (ref : string) (req : LaunchRequest) (att : SignedDecisionAttestation) (db : DB) : Prop :=
  ∃ rec codeHash, db_cli_authorizations db !! (ws, ca_AuthorizationID rec) = Some rec ∧
    is_Some (ca_ApprovedAt rec) ∧ ca_CodeHash rec = Some codeHash ∧ VerifyRecordIntegrity rec = Ok tt ∧
    ref = ca_MissionRef rec ∧
    req = MkLaunchRequest (ca_AgentKitID rec) (launch_key_of (hex codeHash)) (ca_EphemeralPublicKey rec) ∧
    launch_attestation rec att ∧ ca_DecisionAttestationDigest rec = attestationDigest att.

Definition launches_decided (w : World) : Prop :=
  ∀ ref req att opts, PrepareLaunch ref req att opts ∈ w_calls w → decided ref req att (w_db w).

Lemma decided_kept ref req att db db' : rows_kept db db' → decided ref req att db → decided ref req att db'.
Proof. intros [_ Hk] (rec & h & Hr & Ha & Hrest). exists rec, h. split; [by apply Hk|done]. Qed.

Definition launch_ok (w : World) : Prop := cli_ok w ∧ launches_decided w.

Lemma prepare_filter w ref req att opts :
  PrepareLaunch ref req att opts ∈ w_calls w ↔ PrepareLaunch ref req att opts ∈ filter is_prepare (w_calls w).
Proof. rewrite list_elem_of_filter. cbn. tauto. Qed.

Lemma launches_kept w w' : rows_kept (w_db w) (w_db w') →
  filter is_prepare (w_calls w') = filter is_prepare (w_calls w) → launches_decided w → launches_decided w'.
Proof.
  intros Hk Ec Hl ref req att opts Hin. rewrite prepare_filter, Ec, <- prepare_filter in Hin.
  eapply decided_kept; [exact Hk|]. by eapply Hl.
Qed.

Lemma attested_kept a db db' : rows_kept db db' → attested a db → attested a db'.
Proof. intros [_ Hk] (r & Hr & Ha & Hrest). exists r. split; [by apply Hk|done]. Qed.

Lemma aside_ok w w' : aside w w' → launch_ok w → launch_ok w'.
Proof.
  intros (Hk & Ea & Ec) [[H1 H2 H3] Hl]. split; [|by eapply launches_kept].
  constructor; [by apply Hk|by rewrite Ea|]. intros id a. rewrite Ea. intros Hi.
  eapply attested_kept; [exact Hk|by eapply H3].
Qed.

(** Opening and deciding an authorization. *)
Lemma create_launch_ok req w r w' : Create baseURL req w = (r, w') → launch_ok w → launch_ok w'.
Proof.
  intros E [Hc Hl]. pose proof (create_authorization_ok _ _ _ _ _ E Hc) as Hc'. split; [done|].
  apply Create_created in E as (C & Ec & _). eapply launches_kept; [|by rewrite Ec|exact Hl].
  split; [intros _; by apply ck_authorizations|]. intros k rec Hk _.
  remember (w_db w') as db' eqn:Edb. destruct C as [e|u b ex t|u b id t new Hr Hlb -> -> Hn Hs]; [done..|].
  cbn [db_cli_authorizations upd]. rewrite lookup_insert_ne by congruence. done.
Qed.

Lemma finish_launch_ok p id ch assertion w r w' :
  FinishBrowserDecision p id ch assertion w = (r, w') → launch_ok w → launch_ok w'.
Proof.
  intros E Hok. apply FinishBrowserDecision_run in E. destruct r as [redirect|e].
  2: { destruct E as (Ed & Ea & Ec). apply (aside_ok w); [|done]. split_and!; [by apply rows_same|done|by rewrite Ec]. }
  destruct E as (rec & b & v & att & codeRaw & Hrd). destruct Hok as [Hc Hl].
  pose proof (approve_authorization_ok _ _ _ _ _ _ _ _ _ _ _ _ Hrd Hc) as Hc'. split; [done|].
  eapply launches_kept; [|by rewrite (rd_calls _ _ _ _ _ _ _ _ _ _ _ _ Hrd)|exact Hl].
  split; [intros _; by apply ck_authorizations|]. intros k rec' Hk Ha.
  destruct (rd_stored _ _ _ _ _ _ _ _ _ _ _ _ Hrd) as (old & t & Ho & Hn & ->).
  rewrite lookup_insert_ne; [done|]. intros <-. rewrite Ho in Hk. injection Hk as <-. rewrite Hn in Ha.
  by destruct Ha.
Qed.

(** The owner of a claim prepares what was decided. *)
Lemma own_launch_ok c rec pass ch w r w' :
  launch_ok w → db_cli_authorizations (w_db w) !! (ws, ca_AuthorizationID rec) = Some rec →
  ca_CodeHash rec = Some ch → ownExchange deliveryCap c rec pass ch (hex ch) w = (r, w') → launch_ok w'.
Proof.
  intros [Hc Hl] Hrec Hch E. unfold ownExchange in E. call_inv E Et.
  2: { injection E as <- <-. pose proof (take_ok _ _ _ _ Et Hc) as (Hc' & Ed & Ec & _). split; [done|].
       eapply launches_kept; [by apply rows_same|by rewrite Ec|done]. }
  pose proof (take_ok _ _ _ _ Et Hc) as (Hc' & Ed & Ec & Htaken).
  assert (launch_ok w0) as Hok0.
  { split; [done|]. eapply launches_kept; [by apply rows_same|by rewrite Ec|done]. }
  assert (∀ m : M World.ExchangeResult, within aside m → m w0 = (r, w') → launch_ok w') as Hq
    by (intros m Hm Em; apply Hm in Em; by eapply aside_ok).
  destruct a as [att|]; [|revert E; apply Hq; unfold fail_exchange; within_auto].
  case_decide as D; [revert E; apply Hq; unfold fail_exchange; within_auto|].
  destruct (Htaken att eq_refl) as [Eid (r0 & Hr0 & Hap & Hh & Hd & Ead & Hla)].
  rewrite Eid, Hrec in Hr0. injection Hr0 as <-.
  rewrite asked_then in E. erewrite try_then in E by apply upstream_run.
  match type of E with _ ?w1 = _ => assert (launch_ok w1) as Hok1 end.
  { destruct Hok0 as [[K1 K2 K3] Kl]. split; [by constructor|].
    intros ref req at' opts [Eq|Hin]%elem_of_cons; [|by eapply Kl].
    injection Eq as -> -> -> _. exists rec, ch. cbn [w_db upd]. rewrite Ed. split_and!; try done.
    - by eapply (ao_intact _ (ck_authorizations _ Hc)).
    - by rewrite Hd. }
  match type of E with ?m _ = _ => assert (within aside m) as Hm end.
  { within_auto. }
  apply Hm in E. by eapply aside_ok.
Qed.

Lemma exchange_launch_ok c req w r w' :
  ExchangeAndPrepare deliveryCap c req w = (r, w') → launch_ok w → launch_ok w'.
Proof.
  unfold ExchangeAndPrepare. intros E Hok. call_inv E E1; apply lift_inv in E1 as [_ ->];
    [|by injection E as <- <-]. op_inv_step E; [|by injection E as <- <-].
  call_inv E E2; apply lift_inv in E2 as [_ ->]; [|by injection E as <- <-].
  cbv zeta in E. rewrite now_then in E.
  assert (launch_ok (w <| w_ticks := S (w_ticks w) |>)) as H0 by (eapply aside_ok; [|exact Hok]; by split_and!).
  call_inv E Eg; apply aside_getIntent in Eg; eapply aside_ok in H0; try exact Eg; [|by injection E as <- <-].
  destruct a1 as [row|]; [apply aside_settleRow in E; by eapply aside_ok|].
  call_inv E Ev; pose proof Ev as Av%aside_validate; pose proof (aside_ok _ _ Av H0) as H1';
    [|by injection E as <- <-]. destruct a1 as [rec pass].
  apply validate_offered in Ev as [[k Hk] Hw Hc Hi _ _].
  destruct H0 as [[A0 _ _] _]. pose proof (ao_keyed _ A0 _ _ Hk) as ->. rewrite Hw in Hk.
  assert (is_Some (ca_ApprovedAt rec)) as Hap.
  { apply not_eq_None_Some. intros Hn. rewrite (ao_pending _ A0 _ _ Hk Hn) in Hc. discriminate Hc. }
  destruct Av as ([_ Hrows] & _). apply Hrows in Hk; [|done].
  call_inv E Ec; pose proof Ec as Ac%aside_claim; pose proof (aside_ok _ _ Ac H1') as H2';
    [|by injection E as <- <-].
  destruct Ac as ([_ Hrows2] & _). apply Hrows2 in Hk; [|done].
  destruct a1; [by eapply own_launch_ok in E|].
  call_inv E Ea; apply aside_getIntent in Ea; eapply aside_ok in H2'; try exact Ea; [|by injection E as <- <-].
  destruct a1 as [row|]; [apply aside_settleRow in E; by eapply aside_ok|by injection E as <- <-].
Qed.

(** What happens between the founder's browser, the CLI and AuthScope.  A
    restart loses the cache, and whatever is not listed keeps the approved
    authorizations, the cache and the preparations. *)
Inductive launch_step (w w' : World) : Prop :=
  | lh_create req r : Create baseURL req w = (r, w') → launch_step w w'
  | lh_begin p id r : BeginBrowserDecision p id w = (r, w') → launch_step w w'
  | lh_finish p id ch assertion r :
      FinishBrowserDecision p id ch assertion w = (r, w') → launch_step w w'
  | lh_exchange c req r : ExchangeAndPrepare deliveryCap c req w = (r, w') → launch_step w w'
  | lh_evict t : w' = w <| w_attestations := EvictExpired t (w_attestations w) |> → launch_step w w'
  | lh_restart : rows_kept (w_db w) (w_db w') →
      w_attestations w' = MkPendingDecisionAttestations ∅ [] → w_calls w' = w_calls w → launch_step w w'
  | lh_other : aside w w' → launch_step w w'.

Lemma launch_step_ok w w' : launch_step w w' → launch_ok w → launch_ok w'.
Proof.
  intros [req r E|p id r E|p id ch assertion r E|c req r E|t ->|Hk Ea Ec|Hs] Hok.
  - by eapply create_launch_ok.
  - apply cli_kept_Begin in E as (Ed & Ea & Ec). eapply aside_ok; [|exact Hok].
    split_and!; [by apply rows_same|done|by rewrite Ec].
  - by eapply finish_launch_ok.
  - by eapply exchange_launch_ok.
  - destruct Hok as [[H1 H2 H3] Hl]. split; [|exact Hl].
    constructor; [done|by apply EvictExpired_ok|]. intros id a. cbn. intros Hi%evict_fold_items. by eapply H3.
  - destruct Hok as [[H1 _ _] Hl]. split; [|by eapply launches_kept; [exact Hk|rewrite Ec|]].
    constructor; [by apply Hk|rewrite Ea; apply empty_cache_ok|]. intros id a. by rewrite Ea.
  - by eapply aside_ok.
Qed.

(** ** One decision per authorization *)

(** Approved authorizations stay as they are. *)
Definition approved_kept (w w' : World) : Prop :=
  ∀ k r, db_cli_authorizations (w_db w) !! k = Some r → is_Some (ca_ApprovedAt r) →
    db_cli_authorizations (w_db w') !! k = Some r.
#[export] Instance approved_kept_preorder : PreOrder approved_kept.
Proof. split; unfold approved_kept; [by intros w k r|]. intros w1 w2 w3 A B k r Hk Ha. auto. Qed.

Lemma aside_approved w w' : aside w w' → approved_kept w w'.
Proof. intros ([_ Hk] & _). exact Hk. Qed.
Lemma same_approved w w' : w_db w' = w_db w → approved_kept w w'.
Proof. unfold approved_kept. by intros ->. Qed.

Lemma exchange_approved c req : within approved_kept (ExchangeAndPrepare deliveryCap c req).
Proof.
  assert (∀ A (m : M A), within aside m → within approved_kept m) as Hm.
  { intros A m. apply within_weaken, aside_approved. }
  unfold ExchangeAndPrepare, ownExchange, Take, asked, call_PrepareLaunch, fail_exchange.
  repeat (first [solve [auto with within typeclass_instances]
    |apply Hm; solve [auto with within typeclass_instances]
    |intros ??? E; injection E as _ <-; by apply same_approved|within_step]).
Qed.

Lemma launch_step_approved w w' : launch_step w w' → approved_kept w w'.
Proof.
  intros [req r E|p id r E|p id ch assertion r E|c req r E|t ->|[_ Hk] _ _|Hs].
  - apply Create_created in E as [C _]. intros k rec Hk _. remember (w_db w') as db' eqn:Edb.
    destruct C as [e|u b ex t|u b id t new Hr Hlb -> -> Hn Hs]; [done..|].
    cbn [db_cli_authorizations upd]. rewrite lookup_insert_ne by congruence. done.
  - apply cli_kept_Begin in E as (Ed & _ & _). intros k rec. by rewrite Ed.
  - apply FinishBrowserDecision_run in E. destruct r as [redirect|e].
    2: { destruct E as (Ed & _ & _). intros k rec. by rewrite Ed. }
    destruct E as (rec & b & v & att & codeRaw & Hrd). intros k rec' Hk [ta Ha].
    destruct (rd_stored _ _ _ _ _ _ _ _ _ _ _ _ Hrd) as (old & t & Ho & Hn & ->).
    rewrite lookup_insert_ne; [done|]. intros <-. congruence.
  - by eapply exchange_approved.
  - by apply same_approved.
  - exact Hk.
  - by apply aside_approved.
Qed.

Lemma history_approved w w' : rtc launch_step w w' → approved_kept w w'.
Proof.
  induction 1 as [w|w1 w2 w3 H1 _ IH]; [done|]. etrans; [by apply launch_step_approved|exact IH].
Qed.

(** C4: The browser decision hands out one code per authorization, for exactly
    the launch it pins: the authorization is intact, unexpired and unapproved,
    its pass is approved, unexpired and still bound as pinned, the founder
    answered a fresh passkey challenge over those very bytes, and the signed
    attestation names the authorization and the approved digests.  Only the
    hash of the code is stored.  After any history of authorizations,
    decisions, exchanges, restarts and other requests that keep approved
    authorizations, every further attempt to decide the same authorization is
    refused and changes nothing (but the readings of the clock). *)
Theorem FinishBrowserDecision_once p id ch assertion w redirect w1 :
  authorizations_ok (w_db w) → FinishBrowserDecision p id ch assertion w = (Ok redirect, w1) →
  (∃ rec b v att codeRaw, redirected p id ch assertion redirect w w1 rec b v att codeRaw ∧
     ca_AuthorizationID rec = id ∧ VerifyRecordIntegrity rec = Ok tt ∧ launch_attestation rec att) ∧
  ∀ p2 ch2 assertion2 w2 r w3, rtc launch_step w1 w2 →
    FinishBrowserDecision p2 id ch2 assertion2 w2 = (r, w3) → (∃ e, r = Err e) ∧ idle w2 w3.
Proof.
  intros Hau E. apply FinishBrowserDecision_run in E as (rec & b & v & att & codeRaw & Hrd).
  pose proof Hrd as (Ei & Hi & Hla & t & Es)%redirected_row; [|done]. split.
  - exists rec, b, v, att, codeRaw. by split_and!.
  - intros p2 ch2 assertion2 w2 r w3 Hh E. eapply FinishBrowserDecision_approved in E; [exact E| |].
    + apply (history_approved _ _ Hh); [rewrite Es; apply lookup_insert_eq|]. by eexists.
    + by eexists.
Qed.

End history.

(** ** On the bench *)

Lemma bench_decision_run : @BeginBrowserDecision bench_env bench_principal (cs_ID bench_start) bench_created.2
  = (bench_decision.1, bench_decision.2).
Proof. unfold bench_decision. apply surjective_pairing. Qed.

Lemma bench_world_aside : @launch_step bench_env "https://ope" 512 bench_redirected.2 bench_exchange_world.
Proof.
  apply lh_other. unfold bench_exchange_world. generalize bench_redirected.2. intros w.
  split_and!; [by apply rows_same|done..].
Qed.

Lemma bench_launch_history :
  rtc (@launch_step bench_env "https://ope" 512) bench_cli_world bench_exchanged.2.
Proof.
  eapply rtc_l; [eapply lh_create; exact bench_created_run|].
  eapply rtc_l; [eapply lh_begin; exact bench_decision_run|].
  eapply rtc_l; [eapply lh_finish; exact bench_redirected_run|].
  eapply rtc_l; [exact bench_world_aside|].
  eapply rtc_l; [eapply lh_exchange; exact bench_exchanged_run|apply rtc_refl].
Qed.


Lemma FinishBrowserDecision_once_witness :
  let again := @FinishBrowserDecision bench_env bench_principal (cs_ID bench_start) bench_decision_id
    "good" bench_exchanged.2 in
  (∃ rec att, ca_AuthorizationID rec = cs_ID bench_start ∧ @launch_attestation bench_env rec att) ∧
  (∃ e, again.1 = Err e) ∧ idle bench_exchanged.2 again.2.
Proof.
  intros again.
  destruct (@FinishBrowserDecision_once bench_env "https://ope" 512 (λ n db, reflexivity db) bench_principal
    (cs_ID bench_start) bench_decision_id "good" bench_decision.2 bench_redirect bench_redirected.2
    (ck_authorizations _ bench_cli_ok) bench_redirected_run)
    as [(rec & b & v & att & codeRaw & _ & Hi & _ & Hla) Hlater].
  split; [exists rec, att; split; [exact Hi|exact Hla]|].
  apply (Hlater bench_principal bench_decision_id "good" bench_exchanged.2); [|apply surjective_pairing].
  eapply rtc_l; [|eapply rtc_l; [eapply lh_exchange; exact bench_exchanged_run|apply rtc_refl]].
  exact bench_world_aside.
Defined.
