(* ===== verification/Revocation.v ===== *)
(** * Revoking a mission (src/internal/missionpass/revoke.go)

    The passkey ceremony over the canonical revocation bytes, the one
    upstream revocation per pass behind its durable intent, settlement and
    reconciliation; and the result-only CLI handoff: minting, exchanging and
    looking up a registered request. *)

From S2P Require Import Prelude GoTime Sha256 Base64 Json StoreModel StorePass StoreIntents.
From S2P Require Import StoreAuth PassModel World Attestor Bench Ceremony Source Settle Once Approval.
From S2P Require Import CLIAuth.

Definition RevocationReasonFounderRequested : string := "founder_requested".
Definition RevocationReasonSafetyConcern : string := "safety_concern".
Definition RevocationReasonMissionSuperseded : string := "mission_superseded".
Definition validRevocationReasons : list string :=
  [RevocationReasonFounderRequested; RevocationReasonSafetyConcern;
   RevocationReasonMissionSuperseded].

Definition NormalizeRevocationReason (reason : string) : res string :=
  let normalized := ToLower (TrimSpace reason) in
  _ ← require_res (normalized ∈ validRevocationReasons) ErrInvalidRevocationReason;
  Ok normalized.

Definition revokeCanonical (b : RevokeBinding) : json :=
  JObj [("workspace_id", JStr (vb_WorkspaceID b)); ("founder_id", JStr (vb_FounderID b));
        ("session_id", JStr (vb_SessionID b)); ("pass_id", JStr (vb_PassID b));
        ("mission_ref", JStr (vb_MissionRef b)); ("mission_version", JInt (vb_MissionVersion b));
        ("descendants", JBool (vb_Descendants b)); ("reason_code", JStr (vb_ReasonCode b));
        ("purpose", JStr (vb_Purpose b)); ("audience", JStr (vb_Audience b));
        ("nonce", JStr (vb_Nonce b))].

Definition CanonicalRevokeBytes (b : RevokeBinding) : string := render true (revokeCanonical b).

Record RevocationDigestInput := MkRevocationDigestInput {
  vi_WorkspaceID : string;
  vi_PassID : string;
  vi_MissionRef : string;
  vi_MissionVersion : Z;
  vi_ReasonCode : string
}.

Definition revocationDigestCanonical (i : RevocationDigestInput) : json :=
  JObj [("workspace_id", JStr (vi_WorkspaceID i)); ("pass_id", JStr (vi_PassID i));
        ("mission_ref", JStr (vi_MissionRef i)); ("mission_version", JInt (vi_MissionVersion i));
        ("descendants", JBool true); ("reason_code", JStr (vi_ReasonCode i));
        ("purpose", JStr DecisionMissionRevoke); ("audience", JStr AudienceMissionRevoke)].

Definition CanonicalRevocationDigest (i : RevocationDigestInput) : string :=
  hex (Sum256 (render true (revocationDigestCanonical i))).

Record RevocationResult := MkRevocationResult {
  vr_PassID : string;
  vr_MissionRef : string;
  vr_Revoked : bool;
  vr_Containment : string;
  vr_ReasonCode : string;
  vr_RevokedAt : time
}.

Definition revokeAttestationTTL : Z := 5 * Minute.

Definition revocationKey (workspaceID passID : string) : string :=
  "revoke:" +:+ workspaceID +:+ ":" +:+ passID.

Definition mapContainment (upstream : string) : string :=
  if decide (upstream = ContainmentAcknowledged) then ContainmentAcknowledged
  else if decide (upstream = ContainmentPartial) then ContainmentPartial
  else ContainmentPending.

Definition digest_input (b : RevokeBinding) : RevocationDigestInput :=
  MkRevocationDigestInput (vb_WorkspaceID b) (vb_PassID b) (vb_MissionRef b)
    (vb_MissionVersion b) (vb_ReasonCode b).

Definition revoke_claims (b : RevokeBinding) (canonical : string) (v : VerifiedDecision)
    (issuedAt : time) : DecisionClaims :=
  MkDecisionClaims (vb_WorkspaceID b) (vb_FounderID b) AudienceMissionRevoke PurposeMissionRevoke
    (vb_MissionRef b) (tagged_digest canonical) "" (vd_Method v) (ceremonyProofDigest v)
    (vd_Nonce v) issuedAt (issuedAt + revokeAttestationTTL).

(** The intent [revokeOnce] stores before it calls. *)
Definition revoke_intent (b : RevokeBinding) (attDigest attJSON : string) : RevocationIntentRecord :=
  zero_RevocationIntentRecord <| ri_WorkspaceID := vb_WorkspaceID b |>
    <| ri_PassID := vb_PassID b |>
    <| ri_IdempotencyKey := revocationKey (vb_WorkspaceID b) (vb_PassID b) |>
    <| ri_ReasonCode := vb_ReasonCode b |>
    <| ri_CanonicalDigest := CanonicalRevocationDigest (digest_input b) |>
    <| ri_State := RevocationIntentInFlight |> <| ri_AttestationDigest := attDigest |>
    <| ri_AttestationJSON := attJSON |>.

Section revocation.
Context `{Env}.

(** [Begin] *)
Definition BeginRevocation (p : Principal) (passID reason : string) : M (string * string) :=
  reasonCode ← lift (NormalizeRevocationReason reason);
  rec ← tx (getMissionPass (p_WorkspaceID p) passID);
  _ ← require (Revocable (mp_State rec)) ErrPassNotRevocable;
  _ ← require (mp_MissionRef rec ≠ "") ErrPassNotRevocable;
  nonce ← randomBytes 32;
  let b := MkRevokeBinding (p_WorkspaceID p) (p_FounderID p) (p_SessionID p) passID
             (mp_MissionRef rec) (mp_AuthScopeMissionVersion rec) true reasonCode
             DecisionMissionRevoke AudienceMissionRevoke (hex nonce) in
  let canonical := CanonicalRevokeBytes b in
  begun ← BeginDecision p DecisionMissionRevoke passID canonical;
  let '(challenge, options) := begun in
  _ ← modify (λ w, w <| w_revocations :=
        <[ch_ChallengeID challenge := Mk_begunRevocation (ch_ChallengeID challenge)
            (ch_Digest challenge) b canonical p (ch_ExpiresAt challenge)]> (w_revocations w) |>);
  mret (ch_ChallengeID challenge, options).

Definition dropBegunRevocation (challengeID : string) : M unit :=
  modify (λ w, w <| w_revocations := delete challengeID (w_revocations w) |>).

(** The pass is re-read and written back whole, so no column is lost. *)
Definition markRevokePending (b : RevokeBinding) : M unit :=
  t ← now;
  tx (rec ← getMissionPass (vb_WorkspaceID b) (vb_PassID b);
      putMissionPass t
        (rec <| mp_Reconciliation := ReconciliationPending |>
             <| mp_Containment := if decide (mp_Containment rec = "") then ContainmentPending
                                  else mp_Containment rec |>)
        (mp_StoreRevision rec)).

Definition revoked_row (rec : MissionPassRecord) (containment : string) : MissionPassRecord :=
  rec <| mp_State := PassRevoked |> <| mp_Containment := containment |>
      <| mp_Reconciliation := ReconciliationSettled |>.

Definition settleRevocation (b : RevokeBinding) (revocation : Revocation) : M RevocationResult :=
  let containment := mapContainment (rx_Containment revocation) in
  t ← now;
  let revokedAt := if decide (0 < rx_RevokedAt revocation) then UnixMilli (rx_RevokedAt revocation)
                   else t in
  t1 ← now; t2 ← now;
  _ ← tx (rec ← getMissionPass (vb_WorkspaceID b) (vb_PassID b);
          _ ← require (mp_State rec = PassRevoked ∨ Revocable (mp_State rec))
                (ErrOther "missionpass: settle revocation: state not revocable");
          _ ← putMissionPass t1 (revoked_row rec containment) (mp_StoreRevision rec);
          completeRevocationIntent t2 (vb_WorkspaceID b) (vb_PassID b) containment
            (if decide (rx_MissionRef revocation = "") then vb_MissionRef b
             else rx_MissionRef revocation));
  mret (MkRevocationResult (vb_PassID b) (vb_MissionRef b) true containment (vb_ReasonCode b)
          revokedAt).

(** [None] is Go's nil result with a nil error. *)
Definition ReconcileRevocation (workspaceID passID : string) : M (option RevocationResult) :=
  rec ← tx (getMissionPass workspaceID passID);
  if decide (mp_State rec = PassRevoked ∧ mp_Reconciliation rec = ReconciliationSettled) then
    mret None
  else
  found ← try (tx (getRevocationIntent workspaceID passID));
  match found with
  | Err e => if decide (e = ErrNotFound) then mret None else fail e
  | Ok intent =>
      if decide (ri_State intent = RevocationIntentCompleted) then mret None else
      outcome ← call_ReconcileOperation (ri_IdempotencyKey intent) (mp_MissionRef rec)
                  (opts_for workspaceID "founder:reconcile" "");
      if decide (or_Status outcome ≠ "completed") then mret None else
      t ← now;
      result ← settleRevocation
        (MkRevokeBinding workspaceID "" "" passID (mp_MissionRef rec)
           (mp_AuthScopeMissionVersion rec) true (ri_ReasonCode intent) DecisionMissionRevoke
           AudienceMissionRevoke "")
        (MkRevocation (mp_MissionRef rec) true (t / Millisecond) "" "pending");
      mret (Some result)
  end.

Definition replayCompleted (b : RevokeBinding) : M RevocationResult :=
  intent ← tx (getRevocationIntent (vb_WorkspaceID b) (vb_PassID b));
  mret (MkRevocationResult (vb_PassID b) (vb_MissionRef b) true (ri_Containment intent)
          (ri_ReasonCode intent) (ri_UpdatedAt intent)).

(** The call a revocation sends. *)
Definition revoke_opts (b : RevokeBinding) : RequestOptions :=
  opts_for (vb_WorkspaceID b) ("founder:" +:+ vb_FounderID b)
    (revocationKey (vb_WorkspaceID b) (vb_PassID b)).

Definition issueRevocation (b : RevokeBinding) (att : SignedDecisionAttestation)
    : M (option RevocationResult) :=
  r ← try (call_RevokeMission (vb_MissionRef b) (MkRevokeRequest (vb_ReasonCode b)) att
             (revoke_opts b));
  match r with
  | Err e =>
      if decide (isAmbiguousUpstream e) then
        _ ← try (markRevokePending b);
        fail ErrRevokePending
      else fail e
  | Ok revocation => result ← settleRevocation b revocation; mret (Some result)
  end.

Definition revokeOnce (b : RevokeBinding) (att : SignedDecisionAttestation)
    (attDigest attJSON : string) : M (option RevocationResult) :=
  let key := revocationKey (vb_WorkspaceID b) (vb_PassID b) in
  let canonicalDigest := CanonicalRevocationDigest (digest_input b) in
  found ← try (tx (getRevocationIntent (vb_WorkspaceID b) (vb_PassID b)));
  match found with
  | Ok intent =>
      if decide (ri_State intent = RevocationIntentCompleted) then
        result ← replayCompleted b; mret (Some result)
      else
        _ ← require (ri_CanonicalDigest intent = canonicalDigest) ErrRevokeConflict;
        _ ← require (ri_IdempotencyKey intent = key) ErrRevokeConflict;
        ReconcileRevocation (vb_WorkspaceID b) (vb_PassID b)
  | Err e =>
      _ ← require (e = ErrNotFound) e;
      t ← now;
      stored ← try (tx (putRevocationIntent t (revoke_intent b attDigest attJSON)));
      match stored with
      | Err e =>
          if decide (e = ErrConflict) then
            ReconcileRevocation (vb_WorkspaceID b) (vb_PassID b)
          else fail e
      | Ok _ => issueRevocation b att
      end
  end.

(** [Finish] *)
Definition FinishRevocation (p : Principal) (passID challengeID assertion : string)
    : M (option RevocationResult) :=
  begun_map ← gets w_revocations;
  match begun_map !! challengeID with
  | None => fail ErrCeremonyNotFound
  | Some begun =>
      let q := br_principal begun in
      let b := br_binding begun in
      _ ← require (p_WorkspaceID q = p_WorkspaceID p ∧ p_FounderID q = p_FounderID p ∧
                   p_SessionID q = p_SessionID p) ErrRevokeBindingChanged;
      rec ← tx (getMissionPass (p_WorkspaceID p) passID);
      _ ← require (mp_MissionRef rec = vb_MissionRef b ∧
                   mp_AuthScopeMissionVersion rec = vb_MissionVersion b) ErrRevokeBindingChanged;
      _ ← require (mp_State rec = PassRevoked ∨ Revocable (mp_State rec)) ErrPassNotRevocable;
      _ ← dropBegunRevocation challengeID;
      v ← FinishDecision p challengeID DecisionMissionRevoke passID (br_canonical begun) assertion;
      issuedAt ← now;
      att ← Attest (revoke_claims b (br_canonical begun) v issuedAt);
      revokeOnce b att (attestationDigest att) (render true (attestation_json att))
  end.
End revocation.

(** ** The bytes determine the revocation *)

(** What a founder's passkey signs for a revocation is unambiguous: two
    bindings with the same canonical bytes are the same binding, and two
    registered digests are equal only for the same workspace, pass, mission
    reference, mission version and reason, short of a SHA-256 collision
    between the two canonical documents (ASCII identifiers). *)
Theorem revocation_bytes_bind b1 b2 i1 i2 :
  json_ascii (revokeCanonical b1) = true → json_ascii (revokeCanonical b2) = true →
  json_ascii (revocationDigestCanonical i1) = true →
  json_ascii (revocationDigestCanonical i2) = true →
  (CanonicalRevokeBytes b1 = CanonicalRevokeBytes b2 → b1 = b2) ∧
  (CanonicalRevocationDigest i1 = CanonicalRevocationDigest i2 →
   i1 = i2 ∨ sha256_collision (render true (revocationDigestCanonical i1))
               (render true (revocationDigestCanonical i2))).
Proof.
  intros A1 A2 A3 A4. split.
  - intros E%render_inj; [|done..]. injection E as E. by destruct b1, b2; cbn in *; congruence.
  - intros [E|C]%digest_collision; [left|by right].
    apply render_inj in E; [|done..]. injection E as E. by destruct i1, i2; cbn in *; congruence.
Qed.

Definition bench_revoke_binding : RevokeBinding :=
  MkRevokeBinding "ws" "founder" "session-1" "pass-1" "mission-1" 1 true
    RevocationReasonSafetyConcern DecisionMissionRevoke AudienceMissionRevoke "00".

Lemma revocation_bytes_bind_witness :
  let b := bench_revoke_binding in
  CanonicalRevokeBytes b = CanonicalRevokeBytes b ∧ b = b.
Proof.
  intros b. split; [reflexivity|].
  apply (revocation_bytes_bind b b (digest_input b) (digest_input b)); 
    vm_compute; reflexivity.
Defined.

Section theorems.
Context `{Env}.

(** ** Settling *)

Lemma completeRevocationIntent_Ok t ws id c ref db u db' :
  completeRevocationIntent t ws id c ref db = (Ok u, db') →
  ∃ old, db_revocation_intents db !! (ws, id) = Some old ∧
  db' = db <| db_revocation_intents :=
     <[(ws, id) := old <| ri_State := RevocationIntentCompleted |> <| ri_Containment := c |>
        <| ri_UpstreamRef := ref |> <| ri_UpdatedAt := t |>]> (db_revocation_intents db) |>.
Proof. intros E. unfold completeRevocationIntent in E. op_inv E. eauto. Qed.

(** A settled revocation is recorded honestly and completely.  When
    [settleRevocation] succeeds, the stored pass was revoked already or in a
    revocable state; it is now revoked and settled with every other column as
    it was, its containment is the acknowledged one only if AuthScope said
    acknowledged, and the intent is completed with the same containment.  When
    it fails, the database is unchanged. *)
Theorem settleRevocation_sound b rev w :
  let '(r, w') := settleRevocation b rev w in
  let k := (vb_WorkspaceID b, vb_PassID b) in
  match r with
  | Ok result =>
      ∃ rec created updated intent,
        db_mission_passes (w_db w) !! k = Some rec ∧
        (mp_State rec = PassRevoked ∨ life_step (mp_State rec) PassRevoked) ∧
        db_mission_passes (w_db w') =
          <[pass_key rec := (revoked_row rec (vr_Containment result))
              <| mp_StoreRevision := mp_StoreRevision rec + 1 |>
              <| mp_CreatedAt := created |> <| mp_UpdatedAt := updated |>]>
            (db_mission_passes (w_db w)) ∧
        (vr_Containment result = ContainmentAcknowledged ↔
           rx_Containment rev = ContainmentAcknowledged) ∧
        db_revocation_intents (w_db w') !! k = Some intent ∧
        ri_State intent = RevocationIntentCompleted ∧
        ri_Containment intent = vr_Containment result
  | Err _ => w_db w' = w_db w
  end.
Proof.
  destruct (settleRevocation b rev w) as [r w'] eqn:E. intros k.
  unfold settleRevocation in E. cbv zeta in E. rewrite !now_then in E.
  call_inv E Et.
  2:{ injection E as <- <-. apply tx_Err in Et as [_ ->]. done. }
  injection E as <- <-. apply tx_Ok in Et as (db & Et & ->).
  call_inv Et Eg; [|discriminate Et]. apply select_Ok in Eg as [Eg ->].
  op_inv_step Et; [|discriminate Et].
  call_inv Et Ep; [|discriminate Et]. apply putMissionPass_Ok in Ep as (_ & _ & _ & ->).
  apply completeRevocationIntent_Ok in Et as (old & Eo & ->).
  exists a0. eexists _, _, _. split_and!.
  - exact Eg.
  - destruct D as [D|D]; [by left|right]. apply life_step_iff.
    unfold Revocable, revocableStates in D. rewrite !elem_of_cons, elem_of_nil in D.
    destruct_or?; try done; match goal with Hs : mp_State a0 = _ |- _ => rewrite Hs end; by_decide.
  - reflexivity.
  - cbn. unfold mapContainment. repeat case_decide; naive_solver.
  - cbn. by rewrite lookup_insert_eq.
  - done.
  - done.
Qed.

(** ** At most one revocation per pass *)

Section once.
Variables (ws pass : string).

(** The revocations of the pass in a log. *)
Definition is_revocation (c : call) : Prop :=
  match c with
  | RevokeMission _ _ _ opts => op_IdempotencyKey opts = revocationKey ws pass
  | _ => False
  end.
#[local] Instance is_revocation_dec c : Decision (is_revocation c).
Proof. destruct c; cbn; apply _. Defined.

Definition revocation_intent (db : DB) : Prop := is_Some (db_revocation_intents db !! (ws, pass)).

Definition revocations (w : World) : list call := sent_calls is_revocation w.
Definition has_intent (w : World) : Prop := revocation_intent (w_db w).

(** No revocation sent, no intent lost. *)
#[local] Notation no_revocation := (none_sent is_revocation revocation_intent).

Lemma once_settle b rev : within no_revocation (settleRevocation b rev).
Proof.
  unfold settleRevocation. cbv zeta.
  do 3 (apply within_bind; [apply _|apply none_sent_now|intros ?t]).
  apply within_bind; [apply _| |intros u; apply within_ret; apply _].
  apply none_sent_tx. unfold revocation_intent. intros db a db' E Hi.
  call_inv E Eg; [|discriminate E]. apply select_Ok in Eg as [Eg ->].
  op_inv_step E; [|discriminate E].
  call_inv E Ep; [|discriminate E]. apply putMissionPass_Ok in Ep as (_ & _ & _ & ->).
  apply completeRevocationIntent_Ok in E as (old & Eo & ->). cbn in *.
  destruct (decide ((vb_WorkspaceID b, vb_PassID b) = (ws, pass))) as [->|N].
  - by rewrite lookup_insert_eq.
  - by rewrite lookup_insert_ne.
Qed.

Lemma once_mark b : within no_revocation (markRevokePending b).
Proof.
  unfold markRevokePending. apply within_bind; [apply _|apply none_sent_now|intros t].
  apply none_sent_tx. unfold revocation_intent. intros db a db' E Hi.
  call_inv E Eg; [|discriminate E]. apply select_Ok in Eg as [Eg ->].
  by apply putMissionPass_Ok in E as (_ & _ & _ & ->).
Qed.
#[local] Hint Resolve once_settle once_mark : within.

Lemma once_reconcile ws' pass' : within no_revocation (ReconcileRevocation ws' pass').
Proof.
  unfold ReconcileRevocation, call_ReconcileOperation, getMissionPass, getRevocationIntent.
  repeat (first [solve [auto with within typeclass_instances]
                |apply none_sent_upstream; cbn; tauto|within_step]).
Qed.

Lemma putRevocationIntent_Ok t rec db u db' :
  putRevocationIntent t rec db = (Ok u, db') →
  is_Some (db_revocation_intents db' !! (ri_WorkspaceID rec, ri_PassID rec)).
Proof.
  intros E. unfold putRevocationIntent in E. op_inv E; cbn; by rewrite lookup_insert_eq.
Qed.

Lemma issueRevocation_once b att w r w' :
  issueRevocation b att w = (r, w') → has_intent w →
  (length (revocations w') ≤ S (length (revocations w)))%nat ∧ has_intent w'.
Proof.
  intros E Hi. unfold issueRevocation, call_RevokeMission in E.
  refine (issue_then _ _ _ _ _ _ _ _ Hi _ E). intros x. within_auto.
Qed.

(** Any step of any process that keeps the pass's intent and sends no
    revocation of it, or a revocation or reconciliation of the pass. *)
Inductive revocation_step : World → World → Prop :=
  | rs_revoke b att attDigest attJSON w r w' :
      vb_WorkspaceID b = ws → vb_PassID b = pass →
      revokeOnce b att attDigest attJSON w = (r, w') → revocation_step w w'
  | rs_reconcile w r w' : ReconcileRevocation ws pass w = (r, w') → revocation_step w w'
  | rs_other w w' : no_revocation w w' → revocation_step w w'.

#[local] Notation revoked_once := (sent_once is_revocation revocation_intent).

Lemma replay_once b : within no_revocation (replayCompleted b).
Proof. unfold replayCompleted, getRevocationIntent. within_auto. Qed.

Lemma revokeOnce_once b att d j w r w' :
  vb_WorkspaceID b = ws → vb_PassID b = pass → revokeOnce b att d j w = (r, w') →
  revoked_once w → revoked_once w'.
Proof.
  intros Hw Hp E Hr. unfold revokeOnce in E. cbv zeta in E. rewrite Hw, Hp in E. try_inv E Eg.
  destruct r0 as [intent|e].
  - apply (none_sent_once _ _ w); [|done]. transitivity w0; [by apply (none_sent_read is_revocation revocation_intent) in Eg|].
    case_decide.
    + call_inv E Es; injection E as <- <-; by apply replay_once in Es.
    + do 2 (op_inv_step E; [|by injection E as <- <-]). by apply once_reconcile in E.
  - apply tx_Err in Eg as [[db Eg] ->]. apply select_Err in Eg as (Eg & -> & _).
    op_inv_step E; [|done]. rewrite now_then in E. try_inv E Ep. destruct r0 as [u|e].
    + apply tx_Ok in Ep as (db2 & Ep & ->). apply putRevocationIntent_Ok in Ep.
      cbn in Ep. rewrite Hw, Hp in Ep. apply issueRevocation_once in E; [|exact Ep].
      eapply issued_once; [exact E|]. destruct Hr as [Hr|[_ Hr]]; [exact Hr|].
      unfold revocation_intent in Hr. rewrite Eg in Hr. by destruct Hr.
    + apply tx_Err in Ep as [_ ->]. apply (none_sent_once _ _ w); [|done].
      case_decide; [|by injection E as <- <-].
      apply once_reconcile in E. etransitivity; [|exact E]. by split.
Qed.

Lemma revocation_step_once w w' : revocation_step w w' → revoked_once w → revoked_once w'.
Proof.
  intros [b att d j w1 r w2 Hw Hp E|w1 r w2 E|w1 w2 E]; [by eapply revokeOnce_once| |].
  - apply none_sent_once. by apply once_reconcile in E.
  - by apply none_sent_once.
Qed.

(** C27: a pass's mission is revoked upstream at most once, whatever happens.
    Over any history of revocation attempts, reconciliations and unrelated
    steps that keep the stored intent, the log holds at most one
    [RevokeMission] under the pass's key, and as soon as it holds one the
    intent that made it durable is stored. *)
Theorem revocation_at_most_once w w' :
  revocations w = [] → rtc revocation_step w w' →
  (length (revocations w') ≤ 1)%nat ∧ (revocations w' ≠ [] → has_intent w').
Proof.
  apply (history_once is_revocation revocation_intent). apply revocation_step_once.
Qed.
End once.

(** A stored intent is only ever reconciled, even after AuthScope refused the
    revocation: the attempt then ends without a result and without an error,
    which the HTTP handler takes for a result. *)
Theorem revokeOnce_never_reissues b att d j w intent rec op :
  let k := (vb_WorkspaceID b, vb_PassID b) in
  db_revocation_intents (w_db w) !! k = Some intent →
  ri_State intent ≠ RevocationIntentCompleted →
  ri_CanonicalDigest intent = CanonicalRevocationDigest (digest_input b) →
  ri_IdempotencyKey intent = revocationKey (vb_WorkspaceID b) (vb_PassID b) →
  db_mission_passes (w_db w) !! k = Some rec → mp_State rec ≠ PassRevoked →
  reply_ReconcileOperation (w_calls w) (ri_IdempotencyKey intent) (mp_MissionRef rec)
    (opts_for (vb_WorkspaceID b) "founder:reconcile" "") = Ok op →
  or_Status op ≠ "completed" →
  ∃ w', revokeOnce b att d j w = (Ok None, w') ∧ w_db w' = w_db w ∧
    w_calls w' = ReconcileOperation (ri_IdempotencyKey intent) (mp_MissionRef rec)
      (opts_for (vb_WorkspaceID b) "founder:reconcile" "") :: w_calls w.
Proof.
  intros k Hi Hs Hd Hk Hp Hst Hop Hc. unfold revokeOnce. cbv zeta.
  erewrite try_then by (apply tx_read; apply (select_run _ _ _ _ Hi)). cbv beta iota.
  rewrite decide_False, !require_then by done. unfold ReconcileRevocation.
  erewrite bind_run by (apply tx_read; apply (select_run _ _ _ _ Hp)).
  rewrite decide_False by tauto.
  erewrite try_then by (apply tx_read; apply (select_run _ _ _ _ Hi)). cbv beta iota.
  rewrite decide_False by done. unfold call_ReconcileOperation.
  erewrite bind_run by (rewrite upstream_run, Hop; reflexivity).
  rewrite decide_True by done. by eexists.
Qed.

(** ** What is sent is what was signed *)

(** The binding a sent revocation must come from. *)
Definition signed_revocation (p : Principal) (passID challengeID assertion : string) (w : World)
    (ref : string) (req : RevokeRequest) (att : SignedDecisionAttestation) (opts : RequestOptions)
    : Prop :=
  ∃ begun rec v wv t,
    w_revocations w !! challengeID = Some begun ∧
    let b := br_binding begun in
    let q := br_principal begun in
    ref = vb_MissionRef b ∧ req = MkRevokeRequest (vb_ReasonCode b) ∧ opts = revoke_opts b ∧
    p_WorkspaceID q = p_WorkspaceID p ∧ p_FounderID q = p_FounderID p ∧
    p_SessionID q = p_SessionID p ∧
    db_mission_passes (w_db w) !! (p_WorkspaceID p, passID) = Some rec ∧
    mp_MissionRef rec = ref ∧ mp_AuthScopeMissionVersion rec = vb_MissionVersion b ∧
    (mp_State rec = PassRevoked ∨ Revocable (mp_State rec)) ∧
    FinishDecision p challengeID DecisionMissionRevoke passID (br_canonical begun) assertion
      (w <| w_revocations := delete challengeID (w_revocations w) |>) = (Ok v, wv) ∧
    sa_Claims att = revoke_claims b (br_canonical begun) v t.

Definition revoke_sends (P : string → RevokeRequest → SignedDecisionAttestation → RequestOptions → Prop)
    (c : call) : Prop :=
  match c with RevokeMission ref req att opts => P ref req att opts | _ => True end.

Lemma revokeOnce_sends P b att d j :
  P (vb_MissionRef b) (MkRevokeRequest (vb_ReasonCode b)) att (revoke_opts b) →
  within (sends (revoke_sends P)) (revokeOnce b att d j).
Proof.
  intros HP. unfold revokeOnce, ReconcileRevocation, replayCompleted, issueRevocation,
    settleRevocation, markRevokePending, call_ReconcileOperation, call_RevokeMission.
  repeat (first [solve [auto with within typeclass_instances]
                |apply sends_upstream; cbn; first [exact I|exact HP]|within_step]).
Qed.

(** A revocation is sent only for what the founder's passkey signed.  Any
    [RevokeMission] that a [Finish] adds to the log is for the mission
    reference and reason of the challenge's binding; the stored pass carried
    that reference and version, and was revoked or revocable; the challenge
    was begun by the same founder and session; the passkey ceremony verified
    the canonical bytes kept for it; and the attestation's claims are those of
    that verified ceremony. *)
Theorem FinishRevocation_bound p passID challengeID assertion w :
  let '(_, w') := FinishRevocation p passID challengeID assertion w in
  ∃ l, w_calls w' = (l ++ w_calls w)%list ∧
    ∀ ref req att opts, RevokeMission ref req att opts ∈ l →
      signed_revocation p passID challengeID assertion w ref req att opts.
Proof.
  destruct (FinishRevocation p passID challengeID assertion w) as [r w'] eqn:E.
  assert (sends (revoke_sends (signed_revocation p passID challengeID assertion w)) w w') as Hs.
  2:{ destruct Hs as (l & Ec & Hl). exists l. split; [done|]. intros ref req att opts Hin.
      rewrite Forall_forall in Hl. apply (Hl _ Hin). }
  unfold FinishRevocation in E. rewrite gets_then in E.
  destruct (w_revocations w !! challengeID) as [begun|] eqn:Eb; [|by injection E as <- <-].
  cbv zeta in E. op_inv_step E; [|by injection E as <- <-]. destruct D as (Hw & Hf & Hse).
  call_inv E Eg; [|apply tx_Err in Eg as [_ ->]; by injection E as <- <-].
  apply tx_Ok in Eg as (db & Eg & ->). apply select_Ok in Eg as [Eg ->].
  assert (w <| w_db := w_db w |> = w) as Ew by by destruct w. rewrite Ew in E.
  op_inv_step E; [|by injection E as <- <-]. op_inv_step E; [|by injection E as <- <-].
  unfold dropBegunRevocation in E. rewrite modify_then in E.
  call_inv E Ef; pose proof Ef as (Ec & _)%within_FinishDecision.
  2:{ injection E as <- <-. apply sends_keeps. exact Ec. }
  rewrite now_then in E. call_inv E Ea.
  2:{ injection E as <- <-. apply sends_keeps. apply (keeps_Attest w_calls) in Ea; [|done].
      unfold keeps in *. rewrite Ea. exact Ec. }
  apply Attest_Ok in Ea as (Ecl & _ & ->).
  apply revokeOnce_sends with (P := signed_revocation p passID challengeID assertion w) in E.
  - destruct E as (l & E & Hl). exists l. split; [|done]. rewrite E. cbn. by rewrite Ec.
  - destruct D as [D1 D2]. eexists begun, _, _, _, _. split; [done|]. cbv zeta.
    do 6 (split; [done|]). split; [exact Eg|]. do 3 (split; [done|]).
    split; [exact Ef|exact Ecl].
Qed.
End theorems.

(** ** A history on the bench *)

Definition bench_running : MissionPassRecord :=
  bench_pass <| mp_State := PassRunning |> <| mp_MissionRef := "mission-1" |>
    <| mp_AuthScopeMissionVersion := 1 |>.

Lemma revocation_at_most_once_witness :
  let b := bench_revoke_binding in
  let w0 := start (bench_DB_with bench_running) in
  let w1 := (@revokeOnce bench_env b zero_attestation "d" "{}" w0).2 in
  let w2 := (@revokeOnce bench_env b zero_attestation "d" "{}" w1).2 in
  length (revocations "ws" "pass-1" w2) = 1%nat ∧
  (length (revocations "ws" "pass-1" w2) ≤ 1)%nat.
Proof.
  intros b w0 w1 w2. split; [vm_compute; reflexivity|].
  apply (revocation_at_most_once (H := bench_env) "ws" "pass-1" w0 w2).
  - reflexivity.
  - eapply rtc_l; [|eapply rtc_l; [|apply rtc_refl]].
    + exact (rs_revoke (H := bench_env) "ws" "pass-1" b zero_attestation "d" "{}" w0 _ w1
        eq_refl eq_refl (surjective_pairing _)).
    + exact (rs_revoke (H := bench_env) "ws" "pass-1" b zero_attestation "d" "{}" w1 _ w2
        eq_refl eq_refl (surjective_pairing _)).
Defined.

(** ** The result-only CLI handoff *)

Record ExchangeResult := MkExchangeResult {
  xr_ResultRef : string;
  xr_Containment : string
}.

Record CLILookupRequest := MkCLILookupRequest {
  lr_RequestID : string;
  lr_PassID : string;
  lr_RedirectURI : string;
  lr_State : string;
  lr_ExpiresAt : time
}.

Section cli.
Context `{Env}.

Definition newRevocationCode : M string := b ← randomBytes 32; mret (hex b).
Definition newResultRef : M string := b ← randomBytes 16; mret ("revres-" +:+ hex b).

Definition MintResult (requestID : string) (i : RevocationDigestInput) (containment : string)
    : M string :=
  t ← now;
  rec ← tx (getCLIRevocation instance_WorkspaceID requestID);
  _ ← require (cr_WorkspaceID rec = instance_WorkspaceID) ErrCLIRevocationNotFound;
  _ ← require (After (cr_ExpiresAt rec) t) ErrCLIRevocationExpired;
  _ ← require (cr_PassID rec = vi_PassID i) ErrCLIRevocationConflict;
  _ ← require (CanonicalRevocationDigest i = cr_CanonicalDigest rec) ErrCLIRevocationConflict;
  code ← newRevocationCode;
  ref ← newResultRef;
  _ ← tx (mintCLIRevocationResult instance_WorkspaceID requestID ref containment (Sum256 code));
  mret code.

Definition Exchange (code verifier redirectURI state : string) : M ExchangeResult :=
  t ← now;
  _ ← require (code ≠ "" ∧ verifier ≠ "") ErrCLIRevocationConflict;
  found ← try (tx (getCLIRevocationByCodeHash instance_WorkspaceID (Sum256 code)));
  rec ← match found with Ok rec => mret rec | Err _ => fail ErrCLIRevocationNotFound end;
  _ ← require (cr_WorkspaceID rec = instance_WorkspaceID) ErrCLIRevocationNotFound;
  _ ← require (cr_State rec = state) ErrCLIRevocationConflict;
  _ ← require (cr_RedirectURI rec = redirectURI) ErrCLIRevocationConflict;
  _ ← require (VerifyCodeChallenge (cr_CodeChallenge rec) verifier) ErrCLIRevocationConflict;
  _ ← require (After (cr_ExpiresAt rec) t) ErrCLIRevocationExpired;
  consumed ← try (tx (consumeCLIRevocationResult instance_WorkspaceID (Sum256 code) t));
  match consumed with
  | Ok (ref, containment) => mret (MkExchangeResult ref containment)
  | Err e => if decide (e = ErrNotFound) then fail ErrCLIRevocationNotFound else fail e
  end.

Definition Lookup (workspaceID requestID : string) : M CLILookupRequest :=
  _ ← require (workspaceID ≠ "" ∧ requestID ≠ "") ErrCLIRevocationNotFound;
  _ ← require (workspaceID = instance_WorkspaceID) ErrCLIRevocationNotFound;
  found ← try (tx (getCLIRevocation instance_WorkspaceID requestID));
  rec ← match found with Ok rec => mret rec | Err _ => fail ErrCLIRevocationNotFound end;
  _ ← require (cr_WorkspaceID rec = instance_WorkspaceID) ErrCLIRevocationNotFound;
  t ← now;
  _ ← require (After (cr_ExpiresAt rec) t) ErrCLIRevocationExpired;
  mret (MkCLILookupRequest (cr_RequestID rec) (cr_PassID rec) (cr_RedirectURI rec) (cr_State rec)
          (cr_ExpiresAt rec)).

Definition PassSummary (workspaceID passID : string) : M (string * string * Z) :=
  _ ← require (workspaceID = instance_WorkspaceID) ErrCLIRevocationNotFound;
  rec ← tx (getMissionPass workspaceID passID);
  mret (mp_PassID rec, mp_MissionRef rec, mp_AuthScopeMissionVersion rec).

(** *** One code, one reference *)

Lemma by_code_hash_mem ws h db rec db' :
  getCLIRevocationByCodeHash ws h db = (Ok rec, db') →
  db' = db ∧ cr_WorkspaceID rec = ws ∧ cr_CodeHash rec = Some h ∧
  ∃ k, db_cli_revocations db !! k = Some rec.
Proof.
  unfold getCLIRevocationByCodeHash. rewrite gets_then.
  destruct (table_rows _ _) as [|r l] eqn:E; [done|]. intros [= <- <-].
  assert (r ∈ r :: l) as Hin by constructor. rewrite <- E in Hin.
  by apply elem_of_table_rows in Hin as [[??] ?].
Qed.

Lemma consume_Ok ws h t db p db' :
  consumeCLIRevocationResult ws h t db = (Ok p, db') →
  ∃ rec, getCLIRevocationByCodeHash ws h db = (Ok rec, db) ∧ cr_ResultRef rec ≠ "" ∧
    p = (cr_ResultRef rec, cr_ResultContainment rec) ∧
    db' = db <| db_cli_revocations := db_cli_revocations db' |>.
Proof.
  unfold consumeCLIRevocationResult. intros E. call_inv E Eg; [|discriminate E].
  pose proof Eg as (-> & _ & _ & _)%by_code_hash_mem. exists a. split; [done|].
  do 2 (op_inv_step E; [|discriminate E]). rewrite gets_then in E. cbv zeta in E.
  call_inv E Em; [|discriminate E]. injection E as <- <-. split_and!; [done|done|].
  destruct (db_cli_revocations db !! _) as [old|]; [case_decide|]; injection Em as _ <-;
    by destruct db.
Qed.

(** The consumption mark is all an exchange may change. *)
Definition cli_frame (w w' : World) : Prop :=
  w_db w' = (w_db w) <| db_cli_revocations := db_cli_revocations (w_db w') |>.
#[local] Instance cli_frame_preorder : PreOrder cli_frame.
Proof.
  split; unfold cli_frame; [intros w; by destruct (w_db w)|].
  intros w1 w2 w3 E1 E2. rewrite E2 at 1. by rewrite E1.
Qed.

Lemma Exchange_calls code verifier uri state : within (keeps w_calls) (Exchange code verifier uri state).
Proof. unfold Exchange. keeps_auto. Qed.

Lemma Exchange_db code verifier uri state : within cli_frame (Exchange code verifier uri state).
Proof.
  assert (∀ w, cli_frame w w) as Hr by reflexivity.
  assert (within cli_frame now) as Hnow.
  { intros w r w' E. injection E as <- <-. apply (Hr w). }
  unfold Exchange. apply within_bind; [apply _|done|intros t].
  assert (within cli_frame (tx (getCLIRevocationByCodeHash instance_WorkspaceID (Sum256 code)))) as H1.
  { intros w [a|e] w' E; [|by apply tx_Err in E as [_ ->]].
    apply tx_Ok in E as (db & [-> _]%by_code_hash_mem & ->). apply (Hr w). }
  assert (within cli_frame (tx (consumeCLIRevocationResult instance_WorkspaceID (Sum256 code) t))) as H2.
  { intros w [a|e] w' E; [|by apply tx_Err in E as [_ ->]].
    apply tx_Ok in E as (db & (rec & _ & _ & _ & Ed)%consume_Ok & ->). exact Ed. }
  repeat (first [solve [auto with within typeclass_instances]|exact H1|exact H2|within_step]).
Qed.

(** The CLI result code discloses only what its registered request was
    given.  An exchange succeeds only for a stored, unexpired request of this
    workspace whose code hash is that of the presented code, with the exact
    state and redirect URI, and a 32-byte verifier whose S256 challenge is the
    registered one; it returns the minted reference and containment of that
    request, and changes nothing but the consumption mark of CLI revocation
    requests. *)
Theorem Exchange_bound code verifier redirectURI state w :
  let '(r, w') := Exchange code verifier redirectURI state w in
  w_calls w' = w_calls w ∧
  w_db w' = (w_db w) <| db_cli_revocations := db_cli_revocations (w_db w') |> ∧
  ∀ result, r = Ok result → ∃ k rec,
    db_cli_revocations (w_db w) !! k = Some rec ∧ cr_WorkspaceID rec = instance_WorkspaceID ∧
    cr_CodeHash rec = Some (Sum256 code) ∧ cr_State rec = state ∧
    cr_RedirectURI rec = redirectURI ∧ clock (w_ticks w) < cr_ExpiresAt rec ∧
    (String.length <$> RawURLDecode verifier) = Some 32%nat ∧
    RawURLEncode (Sum256 verifier) = cr_CodeChallenge rec ∧
    cr_ResultRef rec ≠ "" ∧
    result = MkExchangeResult (cr_ResultRef rec) (cr_ResultContainment rec).
Proof.
  destruct (Exchange code verifier redirectURI state w) as [r w'] eqn:E.
  split; [|split]; [| |intros result ->].
  - by apply Exchange_calls in E.
  - by apply Exchange_db in E.
  - unfold Exchange in E. rewrite now_then in E. op_inv_step E; [|discriminate E].
    try_inv E Eg. match type of E with (match ?x with _ => _ end ≫= _) _ = _ =>
      destruct x as [rec|e] end; cbv beta iota in E; [|discriminate E].
    apply tx_Ok in Eg as (db & Eg & ->).
    pose proof Eg as (-> & Hw & Hh & k & Hk)%by_code_hash_mem.
    op_inv_step E. do 5 (op_inv_step E; [|discriminate E]).
    try_inv E Ec. match type of E with (match ?x with _ => _ end) _ = _ =>
      destruct x as [[ref cont]|e] end; [|case_decide; discriminate E].
    injection E as <- _. apply tx_Ok in Ec as (db & Ec & _).
    apply consume_Ok in Ec as (rec' & Er & Hne & [= -> ->] & _). cbn in Er.
    cbn in Eg. assert (rec' = rec) as -> by congruence.
    exists k, rec. destruct D3 as [Hv1 Hv2]. unfold After in *. cbn in *. by split_and!.
Qed.
End cli.
