(* ===== verification/ExpansionDelta.v ===== *)
(** * Expansion deltas (src/internal/expansion/expansion.go)

    The canonical authority change under review: its strict decoding, its
    stored form and digest, and the canonical bytes of the decision that a
    founder's passkey signs. *)

From S2P Require Import Prelude GoTime Sha256 Json JsonParse Rfc3339 StoreModel PassModel World Bench.

Definition ApproveOnce : string := "approve_once".
Definition Deny : string := "deny".

Record Delta := MkDelta {
  dl_ExpansionID : string;
  dl_MissionRef : string;
  dl_MissionVersion : Z;
  dl_BlockedOperation : string;
  dl_Resource : string;
  dl_Repository : string;
  dl_Ref : string;
  dl_Path : string;
  dl_Destination : string;
  dl_NormalizedArgumentsDigest : string;
  dl_Quantity : Z;
  dl_BudgetMicros : Z;
  dl_CurrentAuthority : string;
  dl_RequestedAuthority : string;
  dl_ConsequenceChange : string;
  dl_ReasonCode : string;
  dl_Reversibility : string;
  dl_RequestedExpiry : time;
  dl_AgentRationale : string;
  dl_ExpansionDigest : string
}.
#[export] Instance eta_Delta : Eta Delta := λ r, MkDelta
    (dl_ExpansionID r) (dl_MissionRef r) (dl_MissionVersion r) (dl_BlockedOperation r)
    (dl_Resource r) (dl_Repository r) (dl_Ref r) (dl_Path r) (dl_Destination r)
    (dl_NormalizedArgumentsDigest r) (dl_Quantity r) (dl_BudgetMicros r) (dl_CurrentAuthority r)
    (dl_RequestedAuthority r) (dl_ConsequenceChange r) (dl_ReasonCode r) (dl_Reversibility r)
    (dl_RequestedExpiry r) (dl_AgentRationale r) (dl_ExpansionDigest r).
#[export] Instance Delta_eq_dec : EqDecision Delta.
Proof. solve_decision. Defined.

Record ExpansionDetail := MkExpansionDetail {
  ed_Delta : Delta;
  ed_Status : string;
  ed_DecidedMissionVersion : Z
}.

Definition zero_Delta : Delta :=
  MkDelta "" "" 0 "" "" "" "" "" "" "" 0 0 "" "" "" "" "" zero_time "" "".

(** ** Decoding *)

Definition delta_names : list string :=
  ["expansion_id"; "mission_ref"; "mission_version"; "blocked_operation"; "resource";
   "repository"; "ref"; "path"; "destination"; "normalized_arguments_digest"; "quantity";
   "budget_micros"; "current_authority"; "requested_authority"; "consequence_change";
   "reason_code"; "reversibility"; "requested_expiry"; "agent_rationale";
   "expansion_digest"].

(** The fields of a JSON object that belong to the delta; members absent or
    null keep the zero value. *)
Definition decode_delta (o : list (string * value)) : option Delta :=
  f1 ← str_field "expansion_id" o; f2 ← str_field "mission_ref" o;
  f3 ← int_field "mission_version" o; f4 ← str_field "blocked_operation" o;
  f5 ← str_field "resource" o; f6 ← str_field "repository" o;
  f7 ← str_field "ref" o; f8 ← str_field "path" o;
  f9 ← str_field "destination" o; f10 ← str_field "normalized_arguments_digest" o;
  f11 ← int_field "quantity" o; f12 ← int_field "budget_micros" o;
  f13 ← str_field "current_authority" o; f14 ← str_field "requested_authority" o;
  f15 ← str_field "consequence_change" o; f16 ← str_field "reason_code" o;
  f17 ← str_field "reversibility" o; f18 ← time_field "requested_expiry" o;
  f19 ← str_field "agent_rationale" o; f20 ← str_field "expansion_digest" o;
  Some (MkDelta f1 f2 f3 f4 f5 f6 f7 f8 f9 f10 f11 f12 f13 f14 f15 f16 f17 f18 f19 f20).

Definition err_delta (msg : string) : err := ErrOther ("expansion: " +:+ msg).

Definition validDigestShape (s : string) : Prop :=
  String.prefix "sha256:" s = true ∧ String.length s = 71%nat.
#[export] Instance validDigestShape_dec s : Decision (validDigestShape s).
Proof. unfold validDigestShape. apply _. Defined.

Definition validate (d : Delta) : res unit :=
  _ ← require_res (¬ (dl_ExpansionID d = "" ∨ dl_MissionRef d = ""))
        (err_delta "delta missing expansion or mission identity");
  _ ← require_res (¬ (dl_BlockedOperation d = "" ∨ dl_Resource d = ""))
        (err_delta "delta missing blocked operation or resource");
  _ ← require_res (¬ (dl_CurrentAuthority d = "" ∨ dl_RequestedAuthority d = ""))
        (err_delta "delta missing current or requested authority");
  _ ← require_res (¬ (dl_ConsequenceChange d = "" ∨ dl_ReasonCode d = ""))
        (err_delta "delta missing consequence change or reason code");
  _ ← require_res (¬ (dl_Reversibility d ≠ "reversible" ∧ dl_Reversibility d ≠ "irreversible"))
        (err_delta "unknown reversibility");
  _ ← require_res (¬ IsZero (dl_RequestedExpiry d)) (err_delta "delta missing requested expiry");
  _ ← require_res (validDigestShape (dl_NormalizedArgumentsDigest d))
        (err_delta "malformed normalized arguments digest");
  _ ← require_res (validDigestShape (dl_ExpansionDigest d))
        (err_delta "malformed expansion digest");
  require_res (¬ (dl_Quantity d < 0 ∨ dl_BudgetMicros d < 0))
    (err_delta "negative quantity or budget").

Definition strictDecodeDetail (raw : string) : res ExpansionDetail :=
  detail ← opt_res (err_delta "decode delta")
    ('(v, _) ← decode_first raw;
     match v with
     | VObj o =>
         if decide (known_fields (delta_names ++ ["status"; "decided_mission_version"])%list o) then
           d ← decode_delta o; s ← str_field "status" o;
           n ← int_field "decided_mission_version" o;
           Some (MkExpansionDetail d s n)
         else None
     | VNull => Some (MkExpansionDetail zero_Delta "" 0)
     | _ => None
     end);
  _ ← validate (ed_Delta detail);
  Ok detail.

(** ** Canonical forms *)

(** [json.Marshal] of a delta; an empty rationale is omitted. *)
Definition delta_json (d : Delta) : json :=
  JObj ([
         ("expansion_id", JStr (dl_ExpansionID d));
         ("mission_ref", JStr (dl_MissionRef d));
         ("mission_version", JInt (dl_MissionVersion d));
         ("blocked_operation", JStr (dl_BlockedOperation d));
         ("resource", JStr (dl_Resource d));
         ("repository", JStr (dl_Repository d));
         ("ref", JStr (dl_Ref d));
         ("path", JStr (dl_Path d));
         ("destination", JStr (dl_Destination d));
         ("normalized_arguments_digest", JStr (dl_NormalizedArgumentsDigest d));
         ("quantity", JInt (dl_Quantity d));
         ("budget_micros", JInt (dl_BudgetMicros d));
         ("current_authority", JStr (dl_CurrentAuthority d));
         ("requested_authority", JStr (dl_RequestedAuthority d));
         ("consequence_change", JStr (dl_ConsequenceChange d));
         ("reason_code", JStr (dl_ReasonCode d));
         ("reversibility", JStr (dl_Reversibility d));
         ("requested_expiry", JStr (formatTime (dl_RequestedExpiry d)))] ++
        (if decide (dl_AgentRationale d = "") then []
         else [("agent_rationale", JStr (dl_AgentRationale d))]) ++
        [("expansion_digest", JStr (dl_ExpansionDigest d))])%list.

(** Times outside the years 0 to 9999 do not marshal. *)
Definition marshalDelta (d : Delta) : res string :=
  _ ← require_res (json_year (dl_RequestedExpiry d)) (err_delta "encode delta");
  Ok (render true (delta_json d)).

Definition normalized (d : Delta) : Delta :=
  d <| dl_RequestedExpiry := Truncate (dl_RequestedExpiry d) Second |>.

Definition canonicalDeltaJSON (d : Delta) : res string := marshalDelta (normalized d).

(** A digest input that does not marshal panics. *)
Definition CanonicalExpansionDigest (d : Delta) : res string :=
  raw ← marshalDelta ((normalized d) <| dl_AgentRationale := "" |> <| dl_ExpansionDigest := "" |>);
  Ok (tagged_digest raw).

Definition verifyDigest (d : Delta) : res unit :=
  got ← CanonicalExpansionDigest d;
  require_res (got = dl_ExpansionDigest d) (err_delta "digest mismatch").

Definition canonicalExpansionJSON (b : ExpansionBinding) : json :=
  JObj [("workspace_id", JStr (eb_WorkspaceID b)); ("pass_id", JStr (eb_PassID b));
        ("mission_ref", JStr (eb_MissionRef b));
        ("expected_authscope_version", JInt (eb_ExpectedAuthScopeVersion b));
        ("expansion_id", JStr (eb_ExpansionID b));
        ("expansion_digest", JStr (eb_ExpansionDigest b)); ("decision", JStr (eb_Decision b));
        ("effective_expiry", JStr (format_rfc3339 (eb_EffectiveExpiry b)));
        ("purpose", JStr (eb_Purpose b)); ("audience", JStr (eb_Audience b))].

Definition CanonicalExpansionBytes (b : ExpansionBinding) : string :=
  render true (canonicalExpansionJSON b).

Definition bindingDigest (b : ExpansionBinding) : string :=
  tagged_digest (CanonicalExpansionBytes b).

Definition effectiveExpiry (decision : string) (requestedExpiry missionExpiry : time) : time :=
  if decide (decision ≠ ApproveOnce) then zero_time
  else if decide (IsZero missionExpiry ∨ ¬ Before missionExpiry requestedExpiry) then requestedExpiry
  else missionExpiry.

(** ** What is stored decodes to what was verified *)

(** Text and numbers as the wire can carry them. *)
Definition delta_ok (d : Delta) : Prop :=
  json_ascii (delta_json d) = true ∧ int64_range (dl_MissionVersion d) ∧ int64_range (dl_Quantity d) ∧
  int64_range (dl_BudgetMicros d).

Lemma decode_delta_json d o :
  delta_ok d → json_year (dl_RequestedExpiry d) →
  dl_RequestedExpiry d = Truncate (dl_RequestedExpiry d) Second →
  of_json (delta_json d) = VObj o →
  decode_delta o = Some d ∧ known_fields (delta_names ++ ["status"; "decided_mission_version"])%list o ∧
  str_field "status" o = Some "" ∧ int_field "decided_mission_version" o = Some 0.
Proof.
  intros (_ & H1 & H2 & H3) Hy Ht Ho.
  assert (parse_time (formatTime (dl_RequestedExpiry d)) = Some (dl_RequestedExpiry d)) as Hp.
  { rewrite Ht at 1. rewrite parse_truncated by done. congruence. }
  apply int_text in H1, H2, H3. unfold delta_json in Ho.
  unfold decode_delta, str_field, int_field, time_field.
  destruct (decide (dl_AgentRationale d = "")) as [Er|Er];
    cbn [app of_json fmap list_fmap fst snd] in Ho; revert Hp H1 H2 H3 Ho;
    generalize (formatTime (dl_RequestedExpiry d));
    generalize (bytes_of (itoa (dl_MissionVersion d))) (bytes_of (itoa (dl_Quantity d)))
      (bytes_of (itoa (dl_BudgetMicros d)));
    intros tv tq tb te Hp H1 H2 H3 Ho; injection Ho as <-; (split; [|split_and!]).
  - read_from 0%nat 18%nat. read_absent. read_at 18%nat. rewrite <- Er at 1. by destruct d.
  - apply known_keys. by_decide.
  - apply field_absent. vm_compute. reflexivity.
  - apply field_absent. vm_compute. reflexivity.
  - read_from 0%nat 20%nat. by destruct d.
  - apply known_keys. by_decide.
  - apply field_absent. vm_compute. reflexivity.
  - apply field_absent. vm_compute. reflexivity.
Qed.

Lemma normalized_twice d : normalized (normalized d) = normalized d.
Proof.
  unfold normalized. cbn. rewrite !Truncate_second.
  rewrite Z.div_mul by discriminate. reflexivity.
Qed.

Lemma strictDecodeDetail_Ok raw detail :
  strictDecodeDetail raw = Ok detail →
  validate (ed_Delta detail) = Ok tt ∧ int64_range (dl_MissionVersion (ed_Delta detail)) ∧
  int64_range (dl_Quantity (ed_Delta detail)) ∧ int64_range (dl_BudgetMicros (ed_Delta detail)).
Proof.
  unfold strictDecodeDetail. intros E. apply res_bind_Ok in E as (dt & E & Ev).
  apply res_bind_Ok in Ev as ([] & Ev & ->%Ok_inj). split; [done|].
  apply opt_res_Ok in E. apply bind_Some in E as ([v r] & _ & E).
  destruct v; try done; [injection E as <-; cbn; unfold int64_range; lia|].
  case_decide; [|done]. apply bind_Some in E as (d & Ed & E).
  apply bind_Some in E as (st & _ & E). apply bind_Some in E as (n & _ & E).
  injection E as <-. cbn. unfold decode_delta in Ed.
  do 20 (apply bind_Some in Ed as (? & ? & Ed)). injection Ed as <-. cbn.
  split_and!; by eapply int_field_range.
Qed.

Lemma stored_form_decodes d raw :
  delta_ok (normalized d) → canonicalDeltaJSON d = Ok raw → validate (normalized d) = Ok tt →
  strictDecodeDetail raw = Ok (MkExpansionDetail (normalized d) "" 0).
Proof.
  intros Hok E Hv. unfold canonicalDeltaJSON, marshalDelta in E.
  apply res_bind_Ok in E as (u & Hy%require_res_inv & <-%Ok_inj).
  assert (∃ o, of_json (delta_json (normalized d)) = VObj o) as [o Ho] by by eexists.
  destruct (decode_delta_json (normalized d) o) as (Hd & Hk & Hs & Hn); [done|done| |done|].
  { by rewrite <- normalized_twice at 1. }
  unfold strictDecodeDetail. destruct Hok as [Ha _]. rewrite decode_first_render by exact Ha.
  rewrite Ho. cbn [mbind option_bind]. rewrite decide_True by exact Hk.
  rewrite Hd, Hs, Hn. unfold opt_res. cbn [mbind option_bind res_bind ed_Delta]. by rewrite Hv.
Qed.

Lemma digest_normalized d : CanonicalExpansionDigest (normalized d) = CanonicalExpansionDigest d.
Proof. unfold CanonicalExpansionDigest. by rewrite normalized_twice. Qed.

(** C25: what OPE stores of an expansion is what AuthScope signed.  The
    canonical JSON of a delta (ASCII text, 64-bit numbers) decodes strictly
    to that delta at whole seconds, with no status and no decided version, and
    the stored form has the same expansion digest, so a delta that verified
    before it was stored verifies whenever it is read again. *)
Theorem stored_delta_round_trip d raw :
  delta_ok (normalized d) → canonicalDeltaJSON d = Ok raw → validate (normalized d) = Ok tt →
  strictDecodeDetail raw = Ok (MkExpansionDetail (normalized d) "" 0) ∧
  CanonicalExpansionDigest (normalized d) = CanonicalExpansionDigest d ∧
  verifyDigest (normalized d) = verifyDigest d.
Proof.
  intros Hok E Hv. split; [by apply stored_form_decodes|]. split; [apply digest_normalized|].
  unfold verifyDigest. by rewrite digest_normalized.
Qed.

(** ** What a digest and a signature cover *)

Definition unsigned (d : Delta) : Delta :=
  (normalized d) <| dl_AgentRationale := "" |> <| dl_ExpansionDigest := "" |>.

Lemma delta_json_inj d1 d2 :
  json_year (dl_RequestedExpiry d1) → json_year (dl_RequestedExpiry d2) →
  delta_json (unsigned d1) = delta_json (unsigned d2) → unsigned d1 = unsigned d2.
Proof.
  intros Y1 Y2 E. unfold delta_json in E. cbn in E.
  rewrite !formatTime_truncated in E.
  pose proof (format_rfc3339_inj _ _ Y1 Y2) as Ht. clear Y1 Y2. revert Ht E.
  generalize (format_rfc3339 (dl_RequestedExpiry d1)) (format_rfc3339 (dl_RequestedExpiry d2)).
  intros f1 f2 Ht E. unfold unsigned, normalized. rewrite !Truncate_second.
  injection E. clear E. intros. rewrite Ht by assumption. clear Ht.
  generalize (dl_RequestedExpiry d2 / Second * Second). intros t.
  destruct d1, d2. cbn in *. subst. reflexivity.
Qed.

(** The text of a decision binding is ASCII and its expiry has a year the
    wire format carries. *)
Definition binding_ok (b : ExpansionBinding) : Prop :=
  json_ascii (canonicalExpansionJSON b) = true ∧ json_year (eb_EffectiveExpiry b).
#[export] Instance binding_ok_dec b : Decision (binding_ok b).
Proof. unfold binding_ok. apply _. Defined.

(** The binding with its expiry as the signed bytes carry it. *)
Definition to_second (b : ExpansionBinding) : ExpansionBinding :=
  MkExpansionBinding (eb_WorkspaceID b) (eb_PassID b) (eb_MissionRef b)
    (eb_ExpectedAuthScopeVersion b) (eb_ExpansionID b) (eb_ExpansionDigest b) (eb_Decision b)
    (Truncate (eb_EffectiveExpiry b) Second) (eb_Purpose b) (eb_Audience b).

Lemma CanonicalExpansionBytes_inj b1 b2 :
  binding_ok b1 → binding_ok b2 → CanonicalExpansionBytes b1 = CanonicalExpansionBytes b2 →
  to_second b1 = to_second b2.
Proof.
  intros [A1 Y1] [A2 Y2] E. apply render_inj in E; [|assumption..].
  pose proof (format_rfc3339_inj _ _ Y1 Y2) as Ht. clear Y1 Y2 A1 A2.
  unfold canonicalExpansionJSON in E. revert Ht E.
  generalize (format_rfc3339 (eb_EffectiveExpiry b1)) (format_rfc3339 (eb_EffectiveExpiry b2)).
  intros f1 f2 Ht E. unfold to_second. rewrite !Truncate_second.
  injection E. clear E. intros. rewrite Ht by assumption. clear Ht.
  generalize (eb_EffectiveExpiry b2 / Second * Second). intros t.
  destruct b1, b2. cbn in *. subst. reflexivity.
Qed.

Lemma tagged_digest_inj s t : tagged_digest s = tagged_digest t → s = t ∨ sha256_collision s t.
Proof.
  intros E%tagged_digest_eq. destruct (decide (s = t)); [by left|right]. by split.
Qed.

Definition delta_text (d : Delta) : string := render true (delta_json (unsigned d)).

Lemma CanonicalExpansionDigest_Ok d x :
  CanonicalExpansionDigest d = Ok x →
  x = tagged_digest (delta_text d) ∧ json_year (Truncate (dl_RequestedExpiry d) Second).
Proof.
  unfold CanonicalExpansionDigest, marshalDelta. intros E.
  apply res_bind_Ok in E as (raw & E & <-%Ok_inj).
  apply res_bind_Ok in E as (u & Hy%require_res_inv & <-%Ok_inj). by split.
Qed.

Lemma json_year_truncated t : json_year (Truncate t Second) → json_year t.
Proof.
  unfold json_year, Year. rewrite Truncate_second, Z.div_mul by discriminate. exact id.
Qed.

(** What the passkey signs for an expansion, and the digest AuthScope
    signs for a delta, are unambiguous.  Two decision bindings with the same
    canonical bytes agree on every field (the effective expiry to the second);
    two deltas with the same expansion digest agree on every field but the
    agent's rationale and the digest itself (the expiry to the second), or
    exhibit a SHA-256 collision between their canonical documents (ASCII
    text). *)
Theorem decision_bytes_bind b1 b2 d1 d2 x :
  binding_ok b1 → binding_ok b2 →
  json_ascii (delta_json (unsigned d1)) = true → json_ascii (delta_json (unsigned d2)) = true →
  CanonicalExpansionDigest d1 = Ok x → CanonicalExpansionDigest d2 = Ok x →
  (CanonicalExpansionBytes b1 = CanonicalExpansionBytes b2 → to_second b1 = to_second b2) ∧
  (unsigned d1 = unsigned d2 ∨ sha256_collision (delta_text d1) (delta_text d2)).
Proof.
  intros B1 B2 A1 A2 [E1 Y1]%CanonicalExpansionDigest_Ok [E2 Y2]%CanonicalExpansionDigest_Ok.
  split; [by apply CanonicalExpansionBytes_inj|].
  rewrite E1 in E2. apply tagged_digest_inj in E2 as [E2|C]; [left|by right].
  apply render_inj in E2; [|assumption..].
  apply delta_json_inj; [by apply json_year_truncated..|exact E2].
Qed.

(** An approved expansion is bounded by the request and by the mission:
    the effective expiry is the earlier of the two (the requested one when the
    mission has none), and a denial carries the zero time. *)
Theorem effectiveExpiry_bounded decision requested mission :
  let e := effectiveExpiry decision requested mission in
  (decision ≠ ApproveOnce → e = zero_time) ∧
  (decision = ApproveOnce →
     e = (if decide (IsZero mission) then requested else requested `min` mission)).
Proof.
  intros e. unfold e, effectiveExpiry, Before. split; intros D.
  - by rewrite decide_True.
  - rewrite decide_False by tauto. destruct (decide (IsZero mission)) as [Z|Z].
    + by rewrite decide_True by tauto.
    + destruct (decide (mission < requested)); [rewrite decide_False by tauto|
        rewrite decide_True by tauto]; lia.
Qed.

(** ** A delta on the bench *)

Definition bench_delta0 : Delta :=
  MkDelta "exp-1" "mission-1" 1 "write" "repo" "o/r" "main" "src" "" (tagged_digest "args") 1 0 "read" "write"
    "wider" "needs_write" "reversible" (bench_time + Hour) "because" "".
Definition bench_delta : Delta :=
  bench_delta0 <| dl_ExpansionDigest :=
    match CanonicalExpansionDigest bench_delta0 with Ok d => d | Err _ => "" end |>.

Lemma stored_delta_round_trip_witness :
  ∃ raw, canonicalDeltaJSON bench_delta = Ok raw ∧ verifyDigest bench_delta = Ok tt ∧
    strictDecodeDetail raw = Ok (MkExpansionDetail (normalized bench_delta) "" 0).
Proof.
  destruct (canonicalDeltaJSON bench_delta) as [raw|e] eqn:E; [|vm_compute in E; discriminate E].
  exists raw. split; [reflexivity|]. split; [vm_compute; reflexivity|].
  apply (stored_delta_round_trip bench_delta raw); [|exact E|vm_compute; reflexivity].
  unfold delta_ok. split; [vm_compute; reflexivity|]. by_decide.
Defined.

Definition bench_decision_binding (decision : string) : ExpansionBinding :=
  MkExpansionBinding "ws" "pass-1" "mission-1" 1 "exp-1" (dl_ExpansionDigest bench_delta) decision
    (effectiveExpiry decision (bench_time + Hour) zero_time) "expansion_decision"
    "authscope:expansion-decision".

Lemma decision_bytes_bind_witness :
  unsigned bench_delta = unsigned bench_delta ∨
  sha256_collision (delta_text bench_delta) (delta_text bench_delta).
Proof.
  destruct (CanonicalExpansionDigest bench_delta) as [x|e] eqn:E;
    [|vm_compute in E; discriminate E].
  assert (binding_ok (bench_decision_binding ApproveOnce)) as B by by_decide.
  assert (json_ascii (delta_json (unsigned bench_delta)) = true) as A by (vm_compute; reflexivity).
  exact (proj2 (decision_bytes_bind _ _ _ _ x B B A A E E)).
Defined.
