(* ===== verification/Expansion.v ===== *)
(** * Deciding an expansion (src/internal/expansion/service.go)

    The local table of pending expansions synced from AuthScope, the passkey
    ceremony over one exact delta, the one upstream decision per expansion
    behind its durable intent, settlement and reconciliation. *)

From S2P Require Import Prelude GoTime Sha256 Json JsonParse Rfc3339 StoreModel StorePass StoreIntents.
From S2P Require Import PassModel World Attestor Bench Ceremony Settle Once Approval ExpansionDelta.

Definition decisionAttestationTTL : Z := 5 * Minute.

Record PendingExpansion := MkPendingExpansion {
  pe_Delta : Delta;
  pe_Stale : bool;
  pe_Expired : bool
}.

Record DecisionResult := MkDecisionResult {
  dr_ExpansionID : string;
  dr_PassID : string;
  dr_Decision : string;
  dr_DecisionRef : string;
  dr_AuthScopeMissionVersion : Z;
  dr_State : PassState
}.

Definition expansionDecisionKey (workspaceID expansionID : string) : string :=
  "expansion:" +:+ workspaceID +:+ ":" +:+ expansionID.

Definition decisionRef (b : ExpansionBinding) : string :=
  "expansion-decision:" +:+ eb_WorkspaceID b +:+ ":" +:+ eb_ExpansionID b +:+ ":" +:+ eb_Decision b.

Definition decidableState (state : PassState) : Prop :=
  state = PassRunning ∨ state = PassAwaitingExpansion.
#[export] Instance decidableState_dec s : Decision (decidableState s).
Proof. unfold decidableState. apply _. Defined.

(** The row [syncExpansions] stores for a verified delta. *)
Definition expansion_row (workspaceID : string) (pass : MissionPassRecord) (expansionID deltaJSON : string)
    (d : Delta) : ExpansionRecord :=
  zero_ExpansionRecord <| ex_WorkspaceID := workspaceID |> <| ex_ExpansionID := expansionID |>
    <| ex_PassID := mp_PassID pass |> <| ex_MissionRef := mp_MissionRef pass |>
    <| ex_Status := ExpansionPending |> <| ex_DeltaJSON := deltaJSON |>
    <| ex_ExpansionDigest := dl_ExpansionDigest d |>.

(** The status the listing gives an expansion: that of its first entry. *)
Definition listed_status (listed : list Expansion) (expansionID : string) : string :=
  match filter (λ e, xp_ExpansionID e = expansionID) listed with
  | e :: _ => xp_Status e
  | [] => ""
  end.

(** The transaction that resolves the local pending rows AuthScope no longer
    lists as pending. *)
Fixpoint resolve_stale (t : time) (workspaceID : string) (seen : list string) (listed : list Expansion)
    (local : list ExpansionRecord) : Tx unit :=
  match local with
  | [] => mret tt
  | rec :: local' =>
      let status := listed_status listed (ex_ExpansionID rec) in
      if decide (ex_ExpansionID rec ∈ seen ∨ status = ExpansionPending) then
        resolve_stale t workspaceID seen listed local'
      else
        _ ← resolveExpansion t workspaceID (ex_ExpansionID rec)
              (if decide (status = "") then "resolved" else status);
        resolve_stale t workspaceID seen listed local'
  end.

(** The live binding a challenge is made of, and checked against. *)
Definition live_binding (workspaceID : string) (pass : MissionPassRecord) (expansionID : string)
    (d : Delta) (decision : string) : ExpansionBinding :=
  MkExpansionBinding workspaceID (mp_PassID pass) (mp_MissionRef pass)
    (mp_AuthScopeMissionVersion pass) expansionID (dl_ExpansionDigest d) decision
    (effectiveExpiry decision (dl_RequestedExpiry d) (mp_ExpiresAt pass))
    PurposeExpansionDecision AudienceExpansionDecision.

Definition expansion_claims (p : Principal) (expansionID : string) (b : ExpansionBinding) (d : Delta)
    (v : VerifiedDecision) (nonce : string) (issuedAt : time) : DecisionClaims :=
  MkDecisionClaims (eb_WorkspaceID b) (p_FounderID p) AudienceExpansionDecision
    PurposeExpansionDecision expansionID (bindingDigest b) (dl_NormalizedArgumentsDigest d)
    (vd_Method v) (ceremonyProofDigest v) nonce issuedAt (issuedAt + decisionAttestationTTL).

(** The intent [decideOnce] stores before it calls. *)
Definition decision_intent (b : ExpansionBinding) (attDigest attJSON : string)
    : ExpansionIntentRecord :=
  zero_ExpansionIntentRecord <| ei_WorkspaceID := eb_WorkspaceID b |>
    <| ei_ExpansionID := eb_ExpansionID b |> <| ei_PassID := eb_PassID b |>
    <| ei_IdempotencyKey := expansionDecisionKey (eb_WorkspaceID b) (eb_ExpansionID b) |>
    <| ei_Decision := eb_Decision b |> <| ei_CanonicalDigest := bindingDigest b |>
    <| ei_State := ExpansionIntentInFlight |> <| ei_AttestationDigest := attDigest |>
    <| ei_AttestationJSON := attJSON |>.

(** The call a decision sends. *)
Definition decision_opts (p : Principal) (b : ExpansionBinding) : RequestOptions :=
  opts_for (eb_WorkspaceID b) ("founder:" +:+ p_FounderID p)
    (expansionDecisionKey (eb_WorkspaceID b) (eb_ExpansionID b)).
Definition decision_of (b : ExpansionBinding) (d : Delta) : ExpansionDecision :=
  MkExpansionDecision (bool_decide (eb_Decision b = ApproveOnce)) (dl_ReasonCode d).

(** The pass an approval settles. *)
Definition expanded_row (rec : MissionPassRecord) (version : Z) : MissionPassRecord :=
  rec <| mp_AuthScopeMissionVersion := version |> <| mp_State := PassRunning |>
      <| mp_Reconciliation := ReconciliationSettled |>.

Section expansion.
Context `{Env}.

(** One listed pending expansion: fetched, decoded, verified and stored. *)
Definition syncOne (workspaceID : string) (pass : MissionPassRecord) (opts : RequestOptions)
    (e : Expansion) : M unit :=
  raw ← call_GetExpansion (xp_ExpansionID e) opts;
  detail ← lift (strictDecodeDetail raw);
  let d := ed_Delta detail in
  _ ← require (dl_ExpansionID d = xp_ExpansionID e) (err_delta "identity mismatch");
  _ ← require (dl_MissionRef d = mp_MissionRef pass)
        (err_delta "delta mission does not match pass mission");
  _ ← lift (verifyDigest d);
  deltaJSON ← lift (canonicalDeltaJSON d);
  t ← now;
  tx (putExpansion t (expansion_row workspaceID pass (xp_ExpansionID e) deltaJSON d)).

Fixpoint syncEach (workspaceID : string) (pass : MissionPassRecord) (opts : RequestOptions)
    (pending : list Expansion) : M unit :=
  match pending with
  | [] => mret tt
  | e :: pending' => _ ← syncOne workspaceID pass opts e; syncEach workspaceID pass opts pending'
  end.

Definition syncExpansions (workspaceID : string) (pass : MissionPassRecord) : M unit :=
  if decide (mp_MissionRef pass = "") then mret tt else
  let opts := opts_for workspaceID "founder:expansion-sync" "" in
  listed ← call_ListExpansions (mp_MissionRef pass) opts;
  let pending := filter (λ e, xp_Status e = ExpansionPending) listed in
  _ ← require (length pending ≤ 1)%nat ErrExpansionConflict;
  _ ← syncEach workspaceID pass opts pending;
  t ← now;
  tx (local ← listExpansions workspaceID (mp_PassID pass) ExpansionPending;
      resolve_stale t workspaceID (xp_ExpansionID <$> pending) listed local).

Definition pending_view (pass : MissionPassRecord) (now : time) (rec : ExpansionRecord)
    : res PendingExpansion :=
  detail ← strictDecodeDetail (ex_DeltaJSON rec);
  let d := ed_Delta detail in
  Ok (MkPendingExpansion d
        (bool_decide (dl_MissionVersion d ≠ mp_AuthScopeMissionVersion pass))
        (bool_decide (¬ After (dl_RequestedExpiry d) now))).

Fixpoint pending_views (pass : MissionPassRecord) (now : time) (recs : list ExpansionRecord)
    : res (list PendingExpansion) :=
  match recs with
  | [] => Ok []
  | rec :: recs' => v ← pending_view pass now rec; vs ← pending_views pass now recs'; Ok (v :: vs)
  end.

Definition ListPending (workspaceID passID : string) : M (list PendingExpansion) :=
  found ← try (tx (getMissionPass workspaceID passID));
  match found with
  | Err e => if decide (e = ErrNotFound) then mret [] else fail e
  | Ok pass =>
      _ ← syncExpansions workspaceID pass;
      recs ← tx (listExpansions workspaceID passID ExpansionPending);
      t ← now;
      lift (pending_views pass t recs)
  end.

(** [BeginDecision]: the challenge, its options and the effective expiry. *)
Definition BeginExpansionDecision (p : Principal) (expansionID decision : string)
    : M (string * string * time) :=
  _ ← require (decision = ApproveOnce ∨ decision = Deny) ErrInvalidDecision;
  found ← try (tx (getExpansion (p_WorkspaceID p) expansionID));
  rec0 ← lift (not_found_as ErrExpansionNotPending found);
  pass0 ← tx (getMissionPass (p_WorkspaceID p) (ex_PassID rec0));
  _ ← require (decidableState (mp_State pass0)) ErrPassNotDecidable;
  _ ← syncExpansions (p_WorkspaceID p) pass0;
  reloaded ← try (tx (pass ← getMissionPass (p_WorkspaceID p) (ex_PassID rec0);
                      rec ← getExpansion (p_WorkspaceID p) expansionID; mret (pass, rec)));
  live ← lift (not_found_as ErrExpansionNotPending reloaded);
  let '(pass, rec) := live in
  _ ← require (ex_Status rec = ExpansionPending) ErrExpansionNotPending;
  detail ← lift (strictDecodeDetail (ex_DeltaJSON rec));
  let d := ed_Delta detail in
  t ← now;
  _ ← require (After (dl_RequestedExpiry d) t) ErrExpansionNotPending;
  _ ← require (dl_MissionVersion d = mp_AuthScopeMissionVersion pass) ErrExpansionStale;
  let b := live_binding (p_WorkspaceID p) pass expansionID d decision in
  begun ← BeginDecision p DecisionExpansionDecision expansionID (CanonicalExpansionBytes b);
  let '(challenge, options) := begun in
  t2 ← now;
  _ ← modify (λ w, w <| w_decisions :=
        <[ch_ChallengeID challenge := Mk_begunDecision (ch_ChallengeID challenge) p b
            (bindingDigest b) t2]> (w_decisions w) |>);
  mret (ch_ChallengeID challenge, options, eb_EffectiveExpiry b).

Definition dropBegunDecision (challengeID : string) : M unit :=
  modify (λ w, w <| w_decisions := delete challengeID (w_decisions w) |>).

(** [replayCompleted] *)
Definition replayDecided (b : ExpansionBinding) : M DecisionResult :=
  intent ← tx (getExpansionIntent (eb_WorkspaceID b) (eb_ExpansionID b));
  pass ← tx (getMissionPass (eb_WorkspaceID b) (eb_PassID b));
  mret (MkDecisionResult (eb_ExpansionID b) (eb_PassID b) (ei_Decision intent)
          (ei_UpstreamRef intent) (ei_ResultMissionVersion intent) (mp_State pass)).

Definition markDecisionPending (b : ExpansionBinding) : M unit :=
  t ← now;
  tx (rec ← getMissionPass (eb_WorkspaceID b) (eb_PassID b);
      putMissionPass t (rec <| mp_Reconciliation := ReconciliationPending |>)
        (mp_StoreRevision rec)).

(** The transaction of [settleDecision]: the version and state it reports. *)
Definition settle_decision_tx (t1 t2 t3 : time) (b : ExpansionBinding) (result : ExpansionResult)
    : Tx (Z * PassState) :=
  rec ← getMissionPass (eb_WorkspaceID b) (eb_PassID b);
  settled ←
    (if decide (eb_Decision b = ApproveOnce) then
       _ ← require (eb_ExpectedAuthScopeVersion b < xr_MissionVersion result)
             (err_delta "upstream mission version did not advance");
       _ ← (if decide (mp_AuthScopeMissionVersion rec < xr_MissionVersion result ∨
                       mp_State rec ≠ PassRunning)
            then putMissionPass t1 (expanded_row rec (xr_MissionVersion result))
                   (mp_StoreRevision rec)
            else mret tt);
       mret (xr_MissionVersion result, PassRunning)
     else mret (mp_AuthScopeMissionVersion rec, mp_State rec));
  _ ← resolveExpansion t2 (eb_WorkspaceID b) (eb_ExpansionID b)
        (if decide (eb_Decision b = ApproveOnce) then ExpansionApproved else ExpansionDenied);
  _ ← completeExpansionIntent t3 (eb_WorkspaceID b) (eb_ExpansionID b) (decisionRef b)
        (fst settled);
  mret settled.

Definition settleDecision (b : ExpansionBinding) (d : Delta) (result : ExpansionResult)
    : M DecisionResult :=
  t1 ← now; t2 ← now; t3 ← now;
  settled ← tx (settle_decision_tx t1 t2 t3 b result);
  mret (MkDecisionResult (eb_ExpansionID b) (eb_PassID b) (eb_Decision b) (decisionRef b)
          (fst settled) (snd settled)).

(** The binding a reconciliation settles with. *)
Definition reconciled_binding (workspaceID expansionID : string) (intent : ExpansionIntentRecord)
    (d : Delta) (pass : MissionPassRecord) : ExpansionBinding :=
  MkExpansionBinding workspaceID (ei_PassID intent) (mp_MissionRef pass)
    (mp_AuthScopeMissionVersion pass) expansionID (dl_ExpansionDigest d) (ei_Decision intent)
    zero_time PurposeExpansionDecision AudienceExpansionDecision.

(** [None] is Go's nil result with a nil error. *)
Definition reconcileLocked (workspaceID expansionID : string) : M (option DecisionResult) :=
  found ← try (tx (getExpansionIntent workspaceID expansionID));
  match found with
  | Err e => if decide (e = ErrNotFound) then mret None else fail e
  | Ok intent =>
      if decide (ei_State intent = ExpansionIntentCompleted) then
        result ← replayDecided (MkExpansionBinding workspaceID (ei_PassID intent) "" 0 expansionID
                                  "" "" zero_time "" "");
        mret (Some result)
      else
      let opts := opts_for workspaceID "founder:reconcile" "" in
      outcome ← call_ReconcileOperation (ei_IdempotencyKey intent) (ei_PassID intent) opts;
      if decide (or_Status outcome ≠ "completed") then mret None else
      raw ← call_GetExpansion expansionID opts;
      detail ← lift (strictDecodeDetail raw);
      let d := ed_Delta detail in
      _ ← lift (verifyDigest d);
      pass ← tx (getMissionPass workspaceID (ei_PassID intent));
      let b := reconciled_binding workspaceID expansionID intent d pass in
      if decide (ed_Status detail = ExpansionApproved) then
        _ ← require (¬ ed_DecidedMissionVersion detail ≤ 0)
              (err_delta "upstream decided without a mission version");
        result ← settleDecision b d
          (MkExpansionResult expansionID ApproveOnce 0 (ed_DecidedMissionVersion detail));
        mret (Some result)
      else if decide (ed_Status detail = ExpansionDenied) then
        result ← settleDecision b d
          (MkExpansionResult expansionID Deny 0 (mp_AuthScopeMissionVersion pass));
        mret (Some result)
      else mret None
  end.

(** The exported entry takes the per-expansion lock and nothing else. *)
Definition ReconcileExpansion (workspaceID expansionID : string) : M (option DecisionResult) :=
  reconcileLocked workspaceID expansionID.

Definition issueDecision (p : Principal) (b : ExpansionBinding) (d : Delta)
    (att : SignedDecisionAttestation) : M (option DecisionResult) :=
  r ← try (call_DecideExpansion (eb_ExpansionID b) (decision_of b d) att (decision_opts p b));
  match r with
  | Err e =>
      if decide (isAmbiguousUpstream e) then
        _ ← try (markDecisionPending b);
        fail ErrExpansionPending
      else fail e
  | Ok result => settled ← settleDecision b d result; mret (Some settled)
  end.

Definition decideOnce (p : Principal) (b : ExpansionBinding) (d : Delta)
    (att : SignedDecisionAttestation) (attDigest attJSON : string) : M (option DecisionResult) :=
  let key := expansionDecisionKey (eb_WorkspaceID b) (eb_ExpansionID b) in
  found ← try (tx (getExpansionIntent (eb_WorkspaceID b) (eb_ExpansionID b)));
  match found with
  | Ok intent =>
      _ ← require (ei_CanonicalDigest intent = bindingDigest b) ErrExpansionConflict;
      if decide (ei_State intent = ExpansionIntentCompleted) then
        result ← replayDecided b; mret (Some result)
      else
        _ ← require (ei_IdempotencyKey intent = key) ErrExpansionConflict;
        reconcileLocked (eb_WorkspaceID b) (eb_ExpansionID b)
  | Err e =>
      _ ← require (e = ErrNotFound) e;
      t ← now;
      stored ← try (tx (putExpansionIntent t (decision_intent b attDigest attJSON)));
      match stored with
      | Err e =>
          if decide (e = ErrConflict) then
            reconcileLocked (eb_WorkspaceID b) (eb_ExpansionID b)
          else fail e
      | Ok _ => issueDecision p b d att
      end
  end.

(** The delta the live state still matches, when there is no intent yet. *)
Definition checkLive (p : Principal) (expansionID : string) (begun : begunDecision) : M Delta :=
  let b := bd_binding begun in
  found ← try (tx (pass ← getMissionPass (p_WorkspaceID p) (eb_PassID b);
                   rec ← getExpansion (p_WorkspaceID p) expansionID; mret (pass, rec)));
  live ← lift (not_found_as ErrExpansionNotPending found);
  let '(pass, rec) := live in
  detail ← lift (strictDecodeDetail (ex_DeltaJSON rec));
  let d := ed_Delta detail in
  _ ← require (bindingDigest (live_binding (p_WorkspaceID p) pass expansionID d (eb_Decision b)) =
               bd_digest begun) ErrExpansionBindingChanged;
  mret d.

(** [FinishDecision] *)
Definition FinishExpansionDecision (p : Principal) (expansionID challengeID assertion : string)
    : M (option DecisionResult) :=
  decisions ← gets w_decisions;
  match decisions !! challengeID with
  | None => fail ErrCeremonyNotFound
  | Some begun =>
      let q := bd_principal begun in
      let b := bd_binding begun in
      _ ← require (p_WorkspaceID q = p_WorkspaceID p ∧ p_FounderID q = p_FounderID p ∧
                   p_SessionID q = p_SessionID p) ErrExpansionBindingChanged;
      found ← try (tx (getExpansionIntent (p_WorkspaceID p) expansionID));
      intent ← match found with
               | Ok intent => mret (Some intent)
               | Err e => _ ← require (e = ErrNotFound) e; mret None
               end;
      match intent with
      | Some intent =>
          _ ← require (ei_CanonicalDigest intent = bd_digest begun) ErrExpansionConflict;
          _ ← dropBegunDecision challengeID;
          _ ← FinishDecision p challengeID DecisionExpansionDecision expansionID
                (CanonicalExpansionBytes b) assertion;
          decideOnce p b zero_Delta zero_attestation "" ""
      | None =>
          d ← checkLive p expansionID begun;
          _ ← dropBegunDecision challengeID;
          v ← FinishDecision p challengeID DecisionExpansionDecision expansionID
                (CanonicalExpansionBytes b) assertion;
          issuedAt ← now;
          nonce ← randomBytes 32;
          att ← Attest (expansion_claims q expansionID b d v nonce issuedAt);
          decideOnce p b d att (attestationDigest att) (render true (attestation_json att))
      end
  end.
End expansion.

Section theorems.
Context `{Env}.

(** ** Settling *)

Lemma completeExpansionIntent_Ok t ws id ref v db u db' :
  completeExpansionIntent t ws id ref v db = (Ok u, db') →
  ∃ old, db_expansion_intents db !! (ws, id) = Some old ∧
  db' = db <| db_expansion_intents :=
     <[(ws, id) := old <| ei_State := ExpansionIntentCompleted |> <| ei_UpstreamRef := ref |>
        <| ei_ResultMissionVersion := v |> <| ei_UpdatedAt := t |>]> (db_expansion_intents db) |>.
Proof. intros E. unfold completeExpansionIntent in E. op_inv E. eauto. Qed.

Lemma resolveExpansion_Ok t ws id status db u db' :
  resolveExpansion t ws id status db = (Ok u, db') →
  ∃ old, db_expansions db !! (ws, id) = Some old ∧ ex_Status old = ExpansionPending ∧
  db' = db <| db_expansions :=
     <[(ws, id) := old <| ex_Status := status |> <| ex_UpdatedAt := t |>]> (db_expansions db) |>.
Proof. intros E. unfold resolveExpansion in E. op_inv E. eauto. Qed.

(** What a settled decision did to the pass. *)
Definition settled_pass (b : ExpansionBinding) (result : ExpansionResult) (rec : MissionPassRecord)
    (version : Z) (state : PassState) (m m' : gmap (string * string) MissionPassRecord) : Prop :=
  if decide (eb_Decision b = ApproveOnce) then
    version = xr_MissionVersion result ∧ eb_ExpectedAuthScopeVersion b < version ∧
    state = PassRunning ∧
    (m' = m ∧ mp_State rec = PassRunning ∧ version ≤ mp_AuthScopeMissionVersion rec ∨
     ∃ created updated, m' = <[pass_key rec := (expanded_row rec version)
       <| mp_StoreRevision := mp_StoreRevision rec + 1 |>
       <| mp_CreatedAt := created |> <| mp_UpdatedAt := updated |>]> m)
  else version = mp_AuthScopeMissionVersion rec ∧ state = mp_State rec ∧ m' = m.

Lemma settle_decision_tx_Ok t1 t2 t3 b result db version state db' :
  settle_decision_tx t1 t2 t3 b result db = (Ok (version, state), db') →
  ∃ rec row row' intent intent',
    db_mission_passes db !! (eb_WorkspaceID b, eb_PassID b) = Some rec ∧
    settled_pass b result rec version state (db_mission_passes db) (db_mission_passes db') ∧
    db_expansions db !! (eb_WorkspaceID b, eb_ExpansionID b) = Some row ∧
    ex_Status row = ExpansionPending ∧
    db_expansions db' = <[(eb_WorkspaceID b, eb_ExpansionID b) := row']> (db_expansions db) ∧
    ex_Status row' = (if decide (eb_Decision b = ApproveOnce) then ExpansionApproved
                      else ExpansionDenied) ∧
    ex_DeltaJSON row' = ex_DeltaJSON row ∧
    db_expansion_intents db !! (eb_WorkspaceID b, eb_ExpansionID b) = Some intent ∧
    db_expansion_intents db' =
      <[(eb_WorkspaceID b, eb_ExpansionID b) := intent']> (db_expansion_intents db) ∧
    ei_State intent' = ExpansionIntentCompleted ∧ ei_UpstreamRef intent' = decisionRef b ∧
    ei_ResultMissionVersion intent' = version ∧
    ei_CanonicalDigest intent' = ei_CanonicalDigest intent ∧
    ei_Decision intent' = ei_Decision intent.
Proof.
  intros E. unfold settle_decision_tx in E. call_inv E Eg; [|discriminate E].
  apply select_Ok in Eg as [Eg ->]. call_inv E Es; [|discriminate E].
  call_inv E Er; [|discriminate E]. call_inv E Ec; [|discriminate E]. injection E as -> <-.
  apply resolveExpansion_Ok in Er as (row & Er & Hp & ->).
  apply completeExpansionIntent_Ok in Ec as (intent & Ec & ->). cbn [fst snd] in *.
  assert (settled_pass b result a version state (db_mission_passes db) (db_mission_passes d) ∧
    db_expansions d = db_expansions db ∧ db_expansion_intents d = db_expansion_intents db)
    as (Hs & Hx & Hi).
  { unfold settled_pass. clear Er Ec. case_decide as D.
    - op_inv_step Es; [|discriminate Es]. call_inv Es Ep; [|discriminate Es].
      injection Es as <- <- <-. case_decide as D2.
      + apply putMissionPass_Ok in Ep as (_ & _ & _ & ->). split; [|done]. split_and!; [done..|].
        right. by eexists _, _.
      + injection Ep as _ <-. split; [|done]. split_and!; [done..|]. left.
        split; [done|]. destruct (decide (mp_State a = PassRunning)) as [->|]; [|tauto].
        split; [done|]. lia.
    - injection Es as <- <- <-. by split_and!. }
  cbn [db_expansion_intents db_expansions upd] in Ec. rewrite Hx in Er. rewrite Hi in Ec.
  eexists a, row, _, intent, _. split; [exact Eg|]. split; [exact Hs|]. split; [exact Er|].
  split; [exact Hp|]. split; [cbn; rewrite Hx; reflexivity|]. do 2 (split; [reflexivity|]).
  split; [exact Ec|]. split; [cbn; rewrite Hi; reflexivity|]. done.
Qed.

(** A settled expansion decision is recorded completely or not at all.
    When [settleDecision] succeeds, the expansion was pending and is now
    approved or denied as decided with its delta kept, the intent is completed
    with the decision's reference and mission version, and the pass either
    carries the new upstream version (greater than the one the decision was
    bound to) in the running state with every other column as it was, or, for
    a denial, is untouched.  When it fails, the database is unchanged. *)
Theorem settleDecision_sound b d result w :
  let '(r, w') := settleDecision b d result w in
  let k := (eb_WorkspaceID b, eb_ExpansionID b) in
  match r with
  | Ok res =>
      dr_Decision res = eb_Decision b ∧ dr_DecisionRef res = decisionRef b ∧
      ∃ rec row row' intent',
        db_mission_passes (w_db w) !! (eb_WorkspaceID b, eb_PassID b) = Some rec ∧
        settled_pass b result rec (dr_AuthScopeMissionVersion res) (dr_State res)
          (db_mission_passes (w_db w)) (db_mission_passes (w_db w')) ∧
        db_expansions (w_db w) !! k = Some row ∧ ex_Status row = ExpansionPending ∧
        db_expansions (w_db w') !! k = Some row' ∧
        ex_Status row' = (if decide (eb_Decision b = ApproveOnce) then ExpansionApproved
                          else ExpansionDenied) ∧
        ex_DeltaJSON row' = ex_DeltaJSON row ∧
        db_expansion_intents (w_db w') !! k = Some intent' ∧
        ei_State intent' = ExpansionIntentCompleted ∧ ei_UpstreamRef intent' = decisionRef b ∧
        ei_ResultMissionVersion intent' = dr_AuthScopeMissionVersion res
  | Err _ => w_db w' = w_db w
  end.
Proof.
  destruct (settleDecision b d result w) as [r w'] eqn:E. unfold settleDecision in E.
  rewrite !now_then in E. call_inv E Et.
  2:{ injection E as <- <-. by apply tx_Err in Et as [_ ->]. }
  injection E as <- <-. apply tx_Ok in Et as (db & Et & ->). destruct a as [version state].
  apply settle_decision_tx_Ok in Et
    as (rec & row & row' & intent & intent' & ? & ? & ? & ? & Ex & ? & ? & ? & Ei & ? & ? & ? & _ & _).
  cbn in *. split_and!; [done..|]. exists rec, row, row', intent'. cbn.
  rewrite Ex, Ei, !lookup_insert_eq. by split_and!.
Qed.

(** ** At most one decision per expansion *)

Section once.
Variables (ws expansion : string).

(** The decisions of the expansion in a log. *)
Definition is_decision (c : call) : Prop :=
  match c with
  | DecideExpansion _ _ _ opts => op_IdempotencyKey opts = expansionDecisionKey ws expansion
  | _ => False
  end.
#[local] Instance is_decision_dec c : Decision (is_decision c).
Proof. destruct c; cbn; apply _. Defined.

Definition decision_intent_stored (db : DB) : Prop :=
  is_Some (db_expansion_intents db !! (ws, expansion)).
Definition decisions (w : World) : list call := sent_calls is_decision w.
#[local] Notation no_decision := (none_sent is_decision decision_intent_stored).
#[local] Notation decided_once := (sent_once is_decision decision_intent_stored).

Lemma no_decision_settle b d result : within no_decision (settleDecision b d result).
Proof.
  unfold settleDecision. do 3 (apply within_bind; [apply _|apply none_sent_now|intros ?t]).
  apply within_bind; [apply _| |intros u; apply within_ret; apply _].
  apply none_sent_tx. unfold decision_intent_stored. intros db [v s] db' E Hi.
  apply settle_decision_tx_Ok in E
    as (rec & row & row' & intent & intent' & _ & _ & _ & _ & _ & _ & _ & _ & -> & _).
  destruct (decide ((eb_WorkspaceID b, eb_ExpansionID b) = (ws, expansion))) as [->|N].
  - by rewrite lookup_insert_eq.
  - by rewrite lookup_insert_ne.
Qed.

Lemma no_decision_mark b : within no_decision (markDecisionPending b).
Proof.
  unfold markDecisionPending. apply within_bind; [apply _|apply none_sent_now|intros t].
  apply none_sent_tx. unfold decision_intent_stored. intros db a db' E Hi.
  call_inv E Eg; [|discriminate E]. apply select_Ok in Eg as [Eg ->].
  by apply putMissionPass_Ok in E as (_ & _ & _ & ->).
Qed.

Lemma no_decision_replay b : within no_decision (replayDecided b).
Proof. unfold replayDecided, getExpansionIntent, getMissionPass. within_auto. Qed.
#[local] Hint Resolve no_decision_settle no_decision_mark no_decision_replay : within.

Lemma no_decision_reconcile ws' id : within no_decision (reconcileLocked ws' id).
Proof.
  unfold reconcileLocked, call_ReconcileOperation, call_GetExpansion, getExpansionIntent,
    getMissionPass.
  repeat (first [solve [auto with within typeclass_instances]
                |apply none_sent_upstream; cbn; tauto|within_step]).
Qed.

Lemma putExpansionIntent_Ok t rec db u db' :
  putExpansionIntent t rec db = (Ok u, db') →
  is_Some (db_expansion_intents db' !! (ei_WorkspaceID rec, ei_ExpansionID rec)).
Proof. intros E. unfold putExpansionIntent in E. op_inv E; cbn; by rewrite lookup_insert_eq. Qed.

Lemma issueDecision_once p b d att w r w' :
  issueDecision p b d att w = (r, w') → decision_intent_stored (w_db w) →
  (length (decisions w') ≤ S (length (decisions w)))%nat ∧ decision_intent_stored (w_db w').
Proof.
  intros E Hi. unfold issueDecision, call_DecideExpansion in E.
  refine (issue_then _ _ _ _ _ _ _ _ Hi _ E). intros x. within_auto.
Qed.

Lemma decideOnce_once p b d att ad aj w r w' :
  eb_WorkspaceID b = ws → eb_ExpansionID b = expansion →
  decideOnce p b d att ad aj w = (r, w') → decided_once w → decided_once w'.
Proof.
  intros Hw Hp E Hr. unfold decideOnce in E. cbv zeta in E. rewrite Hw, Hp in E. try_inv E Eg.
  destruct r0 as [intent|e].
  - apply (none_sent_once _ _ w); [|done].
    transitivity w0; [by apply (none_sent_read is_decision decision_intent_stored) in Eg|].
    op_inv_step E; [|by injection E as <- <-]. case_decide.
    + call_inv E Es; injection E as <- <-; by apply no_decision_replay in Es.
    + op_inv_step E; [|by injection E as <- <-]. by apply no_decision_reconcile in E.
  - apply tx_Err in Eg as [[db Eg] ->]. apply select_Err in Eg as (Eg & -> & _).
    op_inv_step E; [|done]. rewrite now_then in E. try_inv E Ep. destruct r0 as [u|e].
    + apply tx_Ok in Ep as (db2 & Ep & ->). apply putExpansionIntent_Ok in Ep.
      cbn in Ep. rewrite Hw, Hp in Ep. apply issueDecision_once in E; [|exact Ep].
      eapply issued_once; [exact E|]. destruct Hr as [Hr|[_ Hr]]; [exact Hr|].
      unfold decision_intent_stored in Hr. rewrite Eg in Hr. by destruct Hr.
    + apply tx_Err in Ep as [_ ->]. apply (none_sent_once _ _ w); [|done].
      case_decide; [|by injection E as <- <-].
      apply no_decision_reconcile in E. etransitivity; [|exact E]. by split.
Qed.

(** A decision or reconciliation of the expansion, or any step of any process
    that keeps its intent and sends no decision of it. *)
Inductive decision_step : World → World → Prop :=
  | ds_decide p b d att attDigest attJSON w r w' :
      eb_WorkspaceID b = ws → eb_ExpansionID b = expansion →
      decideOnce p b d att attDigest attJSON w = (r, w') → decision_step w w'
  | ds_reconcile w r w' : ReconcileExpansion ws expansion w = (r, w') → decision_step w w'
  | ds_other w w' : no_decision w w' → decision_step w w'.

(** C22: an expansion is decided upstream at most once, whatever happens.  Over
    any history of decisions by any founders, approving or denying, of
    reconciliations, and of unrelated steps that keep the stored intent, the
    log holds at most one [DecideExpansion] under the expansion's key, and as
    soon as it holds one the intent that made it durable is stored. *)
Theorem decision_at_most_once w w' :
  decisions w = [] → rtc decision_step w w' →
  (length (decisions w') ≤ 1)%nat ∧ (decisions w' ≠ [] → decision_intent_stored (w_db w')).
Proof.
  apply (history_once is_decision decision_intent_stored).
  intros w1 w2 [p b d att ad aj v r v' Hw Hp E|v r v' E|v v' E]; [by eapply decideOnce_once| |].
  - apply none_sent_once. by apply no_decision_reconcile in E.
  - by apply none_sent_once.
Qed.
End once.

(** ** What is sent is what was signed *)

(** Where a sent decision comes from. *)
Definition signed_decision (p : Principal) (expansionID challengeID assertion : string) (w : World)
    (id : string) (decision : ExpansionDecision) (att : SignedDecisionAttestation)
    (opts : RequestOptions) : Prop :=
  ∃ begun pass row detail v wv nonce t,
    w_decisions w !! challengeID = Some begun ∧
    let b := bd_binding begun in
    let q := bd_principal begun in
    id = eb_ExpansionID b ∧ decision = decision_of b (ed_Delta detail) ∧ opts = decision_opts p b ∧
    p_WorkspaceID q = p_WorkspaceID p ∧ p_FounderID q = p_FounderID p ∧
    p_SessionID q = p_SessionID p ∧
    db_expansion_intents (w_db w) !! (p_WorkspaceID p, expansionID) = None ∧
    db_mission_passes (w_db w) !! (p_WorkspaceID p, eb_PassID b) = Some pass ∧
    db_expansions (w_db w) !! (p_WorkspaceID p, expansionID) = Some row ∧
    strictDecodeDetail (ex_DeltaJSON row) = Ok detail ∧
    bindingDigest (live_binding (p_WorkspaceID p) pass expansionID (ed_Delta detail)
      (eb_Decision b)) = bd_digest begun ∧
    FinishDecision p challengeID DecisionExpansionDecision expansionID (CanonicalExpansionBytes b)
      assertion (w <| w_decisions := delete challengeID (w_decisions w) |>) = (Ok v, wv) ∧
    sa_Claims att = expansion_claims q expansionID b (ed_Delta detail) v nonce t.

Definition decision_sends
    (P : string → ExpansionDecision → SignedDecisionAttestation → RequestOptions → Prop)
    (c : call) : Prop :=
  match c with DecideExpansion id d att opts => P id d att opts | _ => True end.

Lemma decideOnce_sends P p b d att ad aj :
  P (eb_ExpansionID b) (decision_of b d) att (decision_opts p b) →
  within (sends (decision_sends P)) (decideOnce p b d att ad aj).
Proof.
  intros HP. unfold decideOnce, reconcileLocked, replayDecided, issueDecision, settleDecision,
    markDecisionPending, call_ReconcileOperation, call_GetExpansion, call_DecideExpansion.
  repeat (first [solve [auto with within typeclass_instances]
                |apply sends_upstream; cbn; first [exact I|exact HP]|within_step]).
Qed.

(** *** Syncing *)

(** A sync reads AuthScope and writes the expansions table, nothing else. *)
Definition sync_frame (w w' : World) : Prop :=
  w_decisions w' = w_decisions w ∧ w_ceremonies w' = w_ceremonies w ∧
  w_db w' = (w_db w) <| db_expansions := db_expansions (w_db w') |> ∧
  sends (λ c, ¬ is_mutation c) w w'.

Lemma db_same db : db = db <| db_expansions := db_expansions db |>.
Proof. by destruct db. Qed.

#[export] Instance sync_frame_preorder : PreOrder sync_frame.
Proof.
  split.
  - intros w. unfold sync_frame. split_and!; [done..|apply db_same|reflexivity].
  - intros w1 w2 w3 (A1&A2&A3&A4) (B1&B2&B3&B4). unfold sync_frame.
    split_and!; [congruence..| |by etransitivity]. rewrite B3 at 1. by rewrite A3.
Qed.

Lemma sync_now : within sync_frame now.
Proof.
  intros w r w' E. injection E as <- <-. unfold sync_frame.
  split_and!; [done..|apply (db_same (w_db w))|by apply sends_keeps].
Qed.
Lemma sync_read {A} c (reply : list call → res A) :
  ¬ is_mutation c → within sync_frame (upstream c reply).
Proof.
  intros Hc w r w' E. pose proof (sends_upstream (λ c, ¬ is_mutation c) c reply Hc w r w' E) as Hs.
  injection E as <- <-. unfold sync_frame. split_and!; [done..|apply (db_same (w_db w))|done].
Qed.
Lemma sync_tx {A} (fn : Tx A) :
  (∀ db a db', fn db = (Ok a, db') → db' = db <| db_expansions := db_expansions db' |>) →
  within sync_frame (tx fn).
Proof.
  intros Hf w [a|e] w' E; [|by apply tx_Err in E as [_ ->]].
  apply tx_Ok in E as (db & E & ->). apply Hf in E.
  unfold sync_frame. split_and!; [done..|exact E|by apply sends_keeps].
Qed.

Lemma putExpansion_frame t rec db u db' :
  putExpansion t rec db = (Ok u, db') → db' = db <| db_expansions := db_expansions db' |>.
Proof. intros E. unfold putExpansion in E. op_inv E; done. Qed.

Lemma resolve_stale_frame t ws seen listed local db u db' :
  resolve_stale t ws seen listed local db = (Ok u, db') →
  db' = db <| db_expansions := db_expansions db' |>.
Proof.
  revert db. induction local as [|rec local IH]; intros db E; cbn in E.
  - injection E as _ <-. by destruct db.
  - case_decide; [by apply IH|]. call_inv E Er; [|discriminate E].
    apply resolveExpansion_Ok in Er as (old & _ & _ & ->). apply IH in E. exact E.
Qed.

Lemma sync_one ws pass opts e : within sync_frame (syncOne ws pass opts e).
Proof.
  unfold syncOne, call_GetExpansion.
  repeat (first [apply sync_now|apply sync_read; cbn; tauto
                |apply sync_tx; intros ? ? ?; apply putExpansion_frame
                |solve [auto with within typeclass_instances]|within_step]).
Qed.

Lemma sync_each ws pass opts l : within sync_frame (syncEach ws pass opts l).
Proof.
  induction l as [|e l IH]; cbn [syncEach]; [apply within_ret; apply _|].
  apply within_bind; [apply _|apply sync_one|intros u; exact IH].
Qed.

Lemma sync_syncExpansions ws pass : within sync_frame (syncExpansions ws pass).
Proof.
  unfold syncExpansions, call_ListExpansions.
  repeat (first [apply sync_now|apply sync_read; cbn; tauto|apply sync_each
                |solve [auto with within typeclass_instances]|within_step]).
  apply sync_tx. intros db u db' E. unfold listExpansions in E.
  call_inv E El; [|discriminate E]. rewrite gets_then in El. injection El as _ <-.
  by apply resolve_stale_frame in E.
Qed.

(** *** What a challenge is made of *)

(** Every begun decision and its ceremony are about the same expansion. *)
Definition decisions_wf (w : World) : Prop :=
  ∀ id begun c ch, w_decisions w !! id = Some begun → w_ceremonies w !! id = Some c →
    ce_decision c = Some ch →
    ch_SubjectID ch = eb_ExpansionID (bd_binding begun) ∧
    eb_WorkspaceID (bd_binding begun) = p_WorkspaceID (bd_principal begun) ∧
    bd_digest begun = bindingDigest (bd_binding begun).

Lemma two_reads ws id ws' id' w pass rec w' :
  tx (p ← getMissionPass ws id; r ← getExpansion ws' id'; mret (p, r)) w = (Ok (pass, rec), w') →
  db_mission_passes (w_db w) !! (ws, id) = Some pass ∧
  db_expansions (w_db w) !! (ws', id') = Some rec ∧ w' = w.
Proof.
  intros E. apply tx_Ok in E as (db & E & ->). call_inv E E1; [|discriminate E].
  apply select_Ok in E1 as [E1 ->]. call_inv E E2; [|discriminate E].
  apply select_Ok in E2 as [E2 ->]. injection E as -> -> <-.
  split_and!; [done..|by destruct w].
Qed.

Lemma two_reads_world ws id ws' id' w r w' :
  tx (p ← getMissionPass ws id; r ← getExpansion ws' id'; mret (p, r)) w = (r, w') → w' = w.
Proof.
  destruct r as [[pass rec]|e]; [by intros (_ & _ & ->)%two_reads|by intros [_ ->]%tx_Err].
Qed.

(** A challenge is begun only over the live, verified state of one
    pending expansion.  When [BeginDecision] succeeds, the decision is approve
    or deny; the expansion is pending in the table just synced, for a pass
    that could decide expansions; its stored delta decodes, has not expired
    and is of the pass's current mission version; what is kept for the finish
    is exactly the binding of that state, with the effective expiry returned
    to the browser, under the challenge's identifier, in step with the
    ceremony; and no mutation was sent to AuthScope. *)
Theorem BeginExpansionDecision_binds p expansionID decision w ch options expiry w' :
  BeginExpansionDecision p expansionID decision w = (Ok (ch, options, expiry), w') →
  (decision = ApproveOnce ∨ decision = Deny) ∧
  ∃ passID pass row detail t begun,
    db_mission_passes (w_db w') !! (p_WorkspaceID p, passID) = Some pass ∧
    decidableState (mp_State pass) ∧
    db_expansions (w_db w') !! (p_WorkspaceID p, expansionID) = Some row ∧
    ex_Status row = ExpansionPending ∧ strictDecodeDetail (ex_DeltaJSON row) = Ok detail ∧
    clock t < dl_RequestedExpiry (ed_Delta detail) ∧
    dl_MissionVersion (ed_Delta detail) = mp_AuthScopeMissionVersion pass ∧
    w_decisions w' = <[ch := begun]> (w_decisions w) ∧ bd_principal begun = p ∧
    bd_binding begun = live_binding (p_WorkspaceID p) pass expansionID (ed_Delta detail) decision ∧
    expiry = effectiveExpiry decision (dl_RequestedExpiry (ed_Delta detail)) (mp_ExpiresAt pass) ∧
    (decisions_wf w → decisions_wf w') ∧
    sends (λ c, ¬ is_mutation c) w w'.
Proof.
  intros E. unfold BeginExpansionDecision in E.
  op_inv_step E; [|discriminate E]. split; [done|].
  try_inv E E0. destruct r as [rec0|e0]; [|cbn [not_found_as] in E; rewrite lift_Err_then in E; discriminate E].
  cbn [not_found_as] in E. rewrite lift_Ok_then in E.
  apply tx_Ok in E0 as (db & E0 & ->). apply select_Ok in E0 as [_ ->].
  assert (w <| w_db := w_db w |> = w) as Ew by by destruct w. rewrite Ew in E. clear Ew.
  call_inv E E1; [|discriminate E]. apply tx_Ok in E1 as (db & E1 & ->).
  apply select_Ok in E1 as [E1 ->].
  assert (w <| w_db := w_db w |> = w) as Ew by by destruct w. rewrite Ew in E. clear Ew.
  op_inv_step E; [|discriminate E].
  call_inv E Es; [|discriminate E].
  apply sync_syncExpansions in Es as (Sd & Sc & Sdb & Ss).
  try_inv E E2. pose proof (two_reads_world _ _ _ _ _ _ _ E2) as ->.
  destruct r as [[pass rec]|e2]; [|cbn [not_found_as] in E; rewrite lift_Err_then in E; discriminate E].
  cbn [not_found_as] in E. rewrite lift_Ok_then in E. cbv beta iota in E.
  apply two_reads in E2 as (Ep & Ex & _).
  assert (pass = a) as ->.
  { rewrite Sdb in Ep. cbn in Ep. congruence. }
  op_inv_step E; [|discriminate E]. op_inv_step E; [|discriminate E].
  rewrite now_then in E. do 2 (op_inv_step E; [|discriminate E]). cbv zeta in E.
  call_inv E Eb; [|discriminate E]. destruct a2 as [challenge opts].
  rewrite now_then, modify_then in E. injection E as <- <- <- <-.
  pose proof Eb as (Bc & _ & _ & Bd & _ & Bdb)%within_BeginDecision.
  apply BeginDecision_Ok in Eb as (Hsub & _ & c & Hc & Hcd).
  cbn in Bc, Bd, Bdb, Hc. eexists (ex_PassID rec0), a, rec, a1, _, _.
  assert (db_mission_passes (w_db w1) = db_mission_passes (w_db w0) ∧
          db_expansions (w_db w1) = db_expansions (w_db w0)) as [Hp1 Hx1] by by rewrite Bdb.
  cbn. rewrite Hp1, Hx1.
  split; [exact Ep|]. split; [done|]. split; [exact Ex|]. do 2 (split; [done|]).
  split; [eassumption|]. split; [done|]. split; [rewrite Bd, Sd; reflexivity|].
  do 3 (split; [reflexivity|]). split.
  - intros Hwf id begun c' ch' Hi Hci Hch. cbn in Hi, Hci. rewrite Bd, Sd in Hi.
    rewrite Hc in Hci. destruct (decide (id = ch_ChallengeID challenge)) as [->|N].
    + rewrite lookup_insert_eq in Hi. rewrite Sc, lookup_insert_eq in Hci.
      injection Hi as <-. injection Hci as <-.
      cbn. split_and!; [congruence|done..].
    + rewrite lookup_insert_ne in Hi by done. rewrite lookup_insert_ne, Sc in Hci by done.
      by eapply Hwf.
  - destruct Ss as (l & El & Hl). exists l. split; [|done]. cbn. by rewrite Bc.
Qed.

(** *** Finishing *)

Lemma checkLive_Ok p id begun w d w' :
  checkLive p id begun w = (Ok d, w') →
  w' = w ∧ ∃ pass row detail,
    db_mission_passes (w_db w) !! (p_WorkspaceID p, eb_PassID (bd_binding begun)) = Some pass ∧
    db_expansions (w_db w) !! (p_WorkspaceID p, id) = Some row ∧
    strictDecodeDetail (ex_DeltaJSON row) = Ok detail ∧ d = ed_Delta detail ∧
    bindingDigest (live_binding (p_WorkspaceID p) pass id d (eb_Decision (bd_binding begun))) =
      bd_digest begun.
Proof.
  intros E. unfold checkLive in E. cbv zeta in E. try_inv E E2.
  pose proof (two_reads_world _ _ _ _ _ _ _ E2) as ->.
  destruct r as [[pass rec]|e2]; [|cbn [not_found_as] in E; rewrite lift_Err_then in E; discriminate E].
  cbn [not_found_as] in E. rewrite lift_Ok_then in E. cbv beta iota in E.
  apply two_reads in E2 as (Ep & Ex & _). op_inv_step E; [|discriminate E].
  op_inv_step E; [|discriminate E]. injection E as <- <-.
  split; [done|]. by exists pass, rec, a.
Qed.

Lemma checkLive_world p id begun w r w' : checkLive p id begun w = (r, w') → w' = w.
Proof.
  destruct r as [d|e]; [by intros [-> _]%checkLive_Ok|]. intros E. unfold checkLive in E.
  cbv zeta in E. try_inv E E2. pose proof (two_reads_world _ _ _ _ _ _ _ E2) as ->.
  op_inv_step E; [|by injection E as <- <-]. destruct a as [pass rec].
  op_inv_step E; [|by injection E as <- <-]. op_inv_step E; [discriminate E|].
  by injection E as <- <-.
Qed.

(** With the intent stored, a finish sends no decision at all. *)
Lemma decideOnce_quiet p b d att ad aj w intent r w' :
  db_expansion_intents (w_db w) !! (eb_WorkspaceID b, eb_ExpansionID b) = Some intent →
  decideOnce p b d att ad aj w = (r, w') → sends (decision_sends (λ _ _ _ _, False)) w w'.
Proof.
  intros Hi E. unfold decideOnce in E. cbv zeta in E.
  erewrite try_then in E by (apply tx_read; apply (select_run _ _ _ _ Hi)). cbv beta iota in E.
  revert E. match goal with |- ?m w = _ → _ =>
    assert (within (sends (decision_sends (λ _ _ _ _, False))) m) as Hm end; [|apply Hm].
  unfold reconcileLocked, replayDecided, settleDecision, call_ReconcileOperation, call_GetExpansion.
  repeat (first [solve [auto with within typeclass_instances]
                |apply sends_upstream; exact I|within_step]).
Qed.

Lemma sends_weaken Q Q' w w' : (∀ c, Q c → Q' c) → sends Q w w' → sends Q' w w'.
Proof. intros HQ (l & E & Hl). exists l. split; [done|]. by eapply Forall_impl. Qed.

(** C23: an expansion decision is sent only for what the founder's passkey
    signed, over the state AuthScope verified.  Any [DecideExpansion] that a
    finish adds to the log comes from a challenge begun by the same founder
    and session for this expansion; no decision of it was stored before; the
    live pass and the stored, strictly decoded delta still have the digest of
    the binding that was begun; the passkey ceremony verified the canonical
    bytes of that binding; the call carries its expansion, its decision and
    its idempotency key; and the attestation's claims are those of that
    ceremony and binding. *)
Theorem FinishExpansionDecision_bound p expansionID challengeID assertion w :
  decisions_wf w →
  let '(_, w') := FinishExpansionDecision p expansionID challengeID assertion w in
  ∃ l, w_calls w' = (l ++ w_calls w)%list ∧
    ∀ id decision att opts, DecideExpansion id decision att opts ∈ l →
      signed_decision p expansionID challengeID assertion w id decision att opts.
Proof.
  intros Hwf. destruct (FinishExpansionDecision _ _ _ _ w) as [r w'] eqn:E.
  set (Q := decision_sends (signed_decision p expansionID challengeID assertion w)).
  enough (sends Q w w') as (l & Ec & Hl).
  { exists l. split; [done|]. intros id decision att opts Hin. rewrite Forall_forall in Hl.
    apply (Hl _ Hin). }
  unfold FinishExpansionDecision in E. rewrite gets_then in E.
  destruct (w_decisions w !! challengeID) as [begun|] eqn:Eb; [|by injection E as <- <-].
  cbv zeta in E. op_inv_step E; [|by injection E as <- <-]. destruct D as (Hw & Hf & Hse).
  try_inv E Eg. assert (w0 = w) as ->.
  { destruct r0 as [i|e]; [|by apply tx_Err in Eg as [_ ->]].
    apply tx_Ok in Eg as (db & Eg & ->). apply select_Ok in Eg as [_ ->]. by destruct w. }
  destruct r0 as [intent|e].
  - cbn [mbind] in E. change (mret (Some intent) ≫= ?f) with (f (Some intent)) in E.
    apply tx_Ok in Eg as (db & Eg & _). apply select_Ok in Eg as [Eg _].
    cbv beta iota in E.
    op_inv_step E; [|by injection E as <- <-].
    unfold dropBegunDecision in E. rewrite modify_then in E.
    call_inv E Ef; pose proof Ef as (Ec & _ & _ & _ & _ & Edb)%within_FinishDecision.
    2:{ injection E as <- <-. apply sends_keeps. exact Ec. }
    apply FinishDecision_subject in Ef as (c & ch & Hc & Hch & Hsub). cbn in Hc.
    destruct (Hwf _ _ _ _ Eb Hc Hch) as (Hs & Hws & _).
    eapply decideOnce_quiet in E.
    + destruct E as (l & El & Hl). exists l. rewrite El. cbn in Ec. rewrite Ec. split; [done|].
      eapply Forall_impl; [exact Hl|]. by intros [].
    + rewrite Edb. cbn. rewrite Hws, Hw, <- Hs, Hsub. exact Eg.
  - apply tx_Err in Eg as [[db Eg] _]. apply select_Err in Eg as (Eg & -> & _).
    call_inv E En; [|rewrite require_then in En by done; discriminate En].
    rewrite require_then in En by done. injection En as <- <-. cbv beta iota in E.
    call_inv E Ek; pose proof Ek as ->%checkLive_world; [|by injection E as <- <-].
    apply checkLive_Ok in Ek as (_ & pass & row & detail & Ep & Ex & Ed & -> & Ebd).
    unfold dropBegunDecision in E. rewrite modify_then in E.
    call_inv E Ef; pose proof Ef as (Ec & _)%within_FinishDecision; cbn in Ec.
    2:{ injection E as <- <-. apply sends_keeps. exact Ec. }
    rewrite now_then, random_then in E. call_inv E Ea.
    2:{ injection E as <- <-. apply sends_keeps. apply (keeps_Attest w_calls) in Ea; [|done].
        unfold keeps in *. rewrite Ea. exact Ec. }
    apply Attest_Ok in Ea as (Ecl & _ & ->).
    apply (decideOnce_sends (signed_decision p expansionID challengeID assertion w)) in E.
    + destruct E as (l & El & Hl). exists l. rewrite El. cbn. rewrite Ec. done.
    + eexists begun, pass, row, detail, _, _, _, _. split; [done|]. cbv zeta.
      do 6 (split; [done|]). split; [exact Eg|]. do 4 (split; [assumption|]).
      split; [exact Ef|exact Ecl].
Qed.
End theorems.

(** ** On the bench *)

Definition bench_expansion_env : Env :=
  bench_env_with (bench_authority no_fault (λ _, render true (delta_json bench_delta)) "completed").

Definition bench_live_pass : MissionPassRecord :=
  bench_pass <| mp_State := PassRunning |> <| mp_MissionRef := "mission-1" |>
    <| mp_AuthScopeMissionVersion := 1 |>.

(** The table as a first listing of the pending expansions leaves it. *)
Definition bench_listed : World :=
  (@ListPending bench_expansion_env "ws" "pass-1" (start (bench_DB_with bench_live_pass))).2.
Definition bench_begin (decision : string) : res (string * string * time) * World :=
  @BeginExpansionDecision bench_expansion_env bench_principal "exp-1" decision bench_listed.
Definition bench_challenge_id : string := hex (of_bytes (replicate 16 2)).

Lemma BeginExpansionDecision_binds_witness : ∃ ch options expiry w',
  bench_begin ApproveOnce = (Ok (ch, options, expiry), w') ∧
  (ApproveOnce = ApproveOnce ∨ ApproveOnce = Deny).
Proof.
  destruct (bench_begin ApproveOnce) as [[[[ch options] expiry]|e] w'] eqn:E;
    [|vm_compute in E; discriminate E].
  exists ch, options, expiry, w'. split; [reflexivity|].
  exact (proj1 (BeginExpansionDecision_binds (H := bench_expansion_env) _ _ _ _ _ _ _ _ E)).
Defined.

(** [decisions_wf] as a check over the map. *)
Definition begun_ok (w : World) (id : string) (begun : begunDecision) : Prop :=
  match w_ceremonies w !! id with
  | Some c =>
      match ce_decision c with
      | Some ch => ch_SubjectID ch = eb_ExpansionID (bd_binding begun) ∧
          eb_WorkspaceID (bd_binding begun) = p_WorkspaceID (bd_principal begun) ∧
          bd_digest begun = bindingDigest (bd_binding begun)
      | None => True
      end
  | None => True
  end.
#[export] Instance begun_ok_dec w id begun : Decision (begun_ok w id begun).
Proof. unfold begun_ok. repeat case_match; apply _. Defined.

Lemma decisions_wf_check w : map_Forall (begun_ok w) (w_decisions w) → decisions_wf w.
Proof. intros Hall id begun c ch Hi Hc Hch. specialize (Hall _ _ Hi). unfold begun_ok in Hall.
  by rewrite Hc, Hch in Hall. Qed.

Lemma FinishExpansionDecision_bound_witness :
  let w := (bench_begin ApproveOnce).2 in
  let '(r, w') := @FinishExpansionDecision bench_expansion_env bench_principal "exp-1"
                    bench_challenge_id "good" w in
  is_ok r = true ∧ ∃ l, w_calls w' = (l ++ w_calls w)%list.
Proof.
  intros w.
  assert (decisions_wf w) as Hwf by (apply decisions_wf_check; by_decide).
  pose proof (FinishExpansionDecision_bound (H := bench_expansion_env) bench_principal "exp-1"
    bench_challenge_id "good" w Hwf) as Hb.
  assert (is_ok (@FinishExpansionDecision bench_expansion_env bench_principal "exp-1"
    bench_challenge_id "good" w).1 = true) as Hok by (vm_compute; reflexivity).
  destruct (FinishExpansionDecision _ _ _ _ w) as [r w'].
  split; [exact Hok|]. destruct Hb as (l & E & _). exists l. exact E.
Defined.

Lemma decision_at_most_once_witness :
  let b := bench_decision_binding ApproveOnce in
  let w0 := bench_listed in
  let decide_once w := (@decideOnce bench_expansion_env bench_principal b bench_delta
    zero_attestation "d" "{}" w).2 in
  let w2 := decide_once (decide_once w0) in
  length (decisions "ws" "exp-1" w2) = 1%nat ∧ (length (decisions "ws" "exp-1" w2) ≤ 1)%nat.
Proof.
  intros b w0 decide_once w2. split; [vm_compute; reflexivity|].
  apply (decision_at_most_once (H := bench_expansion_env) "ws" "exp-1" w0 w2).
  - reflexivity.
  - eapply rtc_l; [|eapply rtc_l; [|apply rtc_refl]];
      exact (ds_decide (H := bench_expansion_env) "ws" "exp-1" bench_principal b bench_delta
        zero_attestation "d" "{}" _ _ _ eq_refl eq_refl (surjective_pairing _)).
Defined.

(** ** Two behaviours worth knowing *)

(** Settling does not look at the pass's state: a decision that reaches
    AuthScope just before a revocation of the pass puts the revoked pass back
    to running. *)
Example settle_resurrects_revoked :
  let w := bench_listed <| w_db := (w_db bench_listed) <| db_mission_passes :=
             {[ ("ws", "pass-1") := bench_live_pass <| mp_State := PassRevoked |> ]} |> |> in
  let w' := (@decideOnce bench_expansion_env bench_principal (bench_decision_binding ApproveOnce)
               bench_delta zero_attestation "d" "{}" w).2 in
  mp_State <$> db_mission_passes (w_db w') !! ("ws", "pass-1") = Some PassRunning.
Proof. vm_compute. reflexivity. Qed.

(** When AuthScope replaced the pending expansion by another one, the sync
    stores the new row before it resolves the old one, meets the unique index
    and fails, now and on every later attempt. *)
Example replaced_expansion_blocks_sync :
  let db := bench_DB_with bench_live_pass in
  let old := zero_ExpansionRecord <| ex_WorkspaceID := "ws" |> <| ex_ExpansionID := "exp-0" |>
    <| ex_PassID := "pass-1" |> <| ex_MissionRef := "mission-1" |>
    <| ex_Status := ExpansionPending |> <| ex_DeltaJSON := "{}" |> in
  let w := start (db <| db_expansions := {[ ("ws", "exp-0") := old ]} |>) in
  (@syncExpansions bench_expansion_env "ws" bench_live_pass w).1 = Err ErrConflict ∧
  (ex_Status <$> db_expansions (w_db (@syncExpansions bench_expansion_env "ws" bench_live_pass w).2)
     !! ("ws", "exp-0")) = Some ExpansionPending.
Proof. split; vm_compute; reflexivity. Qed.
