(* ===== verification/ExpansionSync.v ===== *)
(** * The expansions table holds what AuthScope signed

    Frames of the expansion service's operations on the expansions table, and
    the invariant that every stored delta decodes and has its signed digest. *)

From S2P Require Import Prelude GoTime Sha256 Json JsonParse Rfc3339 StoreModel StorePass StoreIntents.
From S2P Require Import PassModel World Attestor Bench Ceremony Settle Once Approval ExpansionDelta Expansion.

Section theorems.
Context `{Env}.

(** ** The stored deltas are the verified ones *)

(** What survives the stored form: ASCII text, and an expiry past the first
    second of year 1 (the form keeps whole seconds). *)
Definition readable (d : Delta) : Prop :=
  json_ascii (delta_json (normalized d)) = true ∧
  ¬ IsZero (Truncate (dl_RequestedExpiry d) Second).

(** The row's delta text is the canonical form of a delta that AuthScope's
    answer strictly decoded to and whose digest was recomputed. *)
Definition verified_row (row : ExpansionRecord) : Prop :=
  ∃ raw detail, let d := ed_Delta detail in
    strictDecodeDetail raw = Ok detail ∧ canonicalDeltaJSON d = Ok (ex_DeltaJSON row) ∧
    dl_ExpansionID d = ex_ExpansionID row ∧ dl_MissionRef d = ex_MissionRef row ∧
    dl_ExpansionDigest d = ex_ExpansionDigest row ∧
    CanonicalExpansionDigest d = Ok (ex_ExpansionDigest row) ∧
    (readable d → strictDecodeDetail (ex_DeltaJSON row) = Ok (MkExpansionDetail (normalized d) "" 0) ∧
       verifyDigest (normalized d) = Ok tt).

Definition expansions_verified (db : DB) : Prop :=
  ∀ k row, db_expansions db !! k = Some row → verified_row row.

Lemma validate_normalized d :
  ¬ IsZero (Truncate (dl_RequestedExpiry d) Second) → validate d = Ok tt →
  validate (normalized d) = Ok tt.
Proof.
  intros Hz. unfold validate. rewrite !require_res_bind. cbn. tauto.
Qed.

Lemma expansion_row_verified ws pass id raw deltaJSON detail :
  strictDecodeDetail raw = Ok detail → dl_ExpansionID (ed_Delta detail) = id →
  dl_MissionRef (ed_Delta detail) = mp_MissionRef pass →
  verifyDigest (ed_Delta detail) = Ok tt → canonicalDeltaJSON (ed_Delta detail) = Ok deltaJSON →
  verified_row (expansion_row ws pass id deltaJSON (ed_Delta detail)).
Proof.
  intros Ed <- Hm Hv Hj. exists raw, detail. cbv zeta.
  split; [exact Ed|]. split; [exact Hj|]. split; [done|]. split; [exact Hm|]. split; [done|].
  split; [apply res_bind_Ok in Hv as (got & Hg & Hq%require_res_inv); cbn; congruence|]. intros [Ha Hz].
  apply strictDecodeDetail_Ok in Ed as (Hval & I1 & I2 & I3). split.
  - apply stored_form_decodes; [by split_and!|exact Hj|by apply validate_normalized].
  - rewrite <- Hv. unfold verifyDigest. by rewrite digest_normalized.
Qed.

(** Kept by every step of the service. *)
Definition keeps_verified (w w' : World) : Prop :=
  expansions_verified (w_db w) → expansions_verified (w_db w').
#[export] Instance keeps_verified_preorder : PreOrder keeps_verified.
Proof. split; unfold keeps_verified; [intros w Hw; exact Hw|intros w1 w2 w3; auto]. Qed.

Lemma verified_same w w' : db_expansions (w_db w') = db_expansions (w_db w) → keeps_verified w w'.
Proof. unfold keeps_verified, expansions_verified. by intros ->. Qed.

Lemma verified_insert k row db db' :
  db_expansions db' = <[k := row]> (db_expansions db) → verified_row row →
  expansions_verified db → expansions_verified db'.
Proof.
  unfold expansions_verified. intros -> Hr Hall k' row'. destruct (decide (k = k')) as [->|N].
  - rewrite lookup_insert_eq. by intros [= <-].
  - rewrite lookup_insert_ne by done. apply Hall.
Qed.

Lemma verified_tx {A} (fn : Tx A) :
  (∀ db a db', fn db = (Ok a, db') → expansions_verified db → expansions_verified db') →
  within keeps_verified (tx fn).
Proof.
  intros Hf w [a|e] w' E; [|by apply tx_Err in E as [_ ->]].
  apply tx_Ok in E as (db & E & ->). exact (Hf _ _ _ E).
Qed.

Lemma putExpansion_Ok t rec db u db' :
  putExpansion t rec db = (Ok u, db') → ∃ k row,
    db_expansions db' = <[k := row]> (db_expansions db) ∧
    ex_DeltaJSON row = ex_DeltaJSON rec ∧ ex_ExpansionID row = ex_ExpansionID rec ∧
    ex_MissionRef row = ex_MissionRef rec ∧ ex_ExpansionDigest row = ex_ExpansionDigest rec.
Proof.
  intros E. unfold putExpansion in E. op_inv E; eexists _, _; cbn; (split; [reflexivity|done]).
Qed.

Lemma verified_resolve t ws id status db u db' :
  resolveExpansion t ws id status db = (Ok u, db') → expansions_verified db → expansions_verified db'.
Proof.
  intros (old & Eo & _ & ->)%resolveExpansion_Ok Hall. eapply verified_insert; [reflexivity| |done].
  exact (Hall _ _ Eo).
Qed.

Lemma verified_resolve_stale t ws seen listed local db u db' :
  resolve_stale t ws seen listed local db = (Ok u, db') →
  expansions_verified db → expansions_verified db'.
Proof.
  revert db. induction local as [|rec local IH]; intros db E; cbn in E.
  - by injection E as _ <-.
  - case_decide; [by apply IH|]. call_inv E Er; [|discriminate E]. intros Hdb.
    eapply IH; [exact E|]. by eapply verified_resolve.
Qed.

Lemma verified_syncOne ws pass opts e : within keeps_verified (syncOne ws pass opts e).
Proof.
  intros w r w' E. unfold syncOne, call_GetExpansion in E.
  erewrite bind_upstream in E. destruct (reply_GetExpansion _ _ _) as [raw|er] eqn:Er;
    [|injection E as <- <-; by apply verified_same].
  op_inv_step E; [|injection E as <- <-; by apply verified_same].
  cbv zeta in E. do 2 (op_inv_step E; [|injection E as <- <-; by apply verified_same]).
  do 2 (op_inv_step E; [|injection E as <- <-; by apply verified_same]). rewrite now_then in E.
  destruct r as [u|err]; [|apply tx_Err in E as [_ ->]; by apply verified_same].
  apply tx_Ok in E as (db & E & ->). apply putExpansion_Ok in E as (k & row & E & Ej & Ei & Em & Edg).
  intros Hall. eapply verified_insert; [exact E| |exact Hall].
  destruct a0 as [].
  assert (verified_row (expansion_row ws pass (xp_ExpansionID e) a1 (ed_Delta a))) as Hv
    by (by eapply expansion_row_verified).
  unfold verified_row in *. rewrite Ej, Ei, Em, Edg. exact Hv.
Qed.

Lemma verified_sync ws pass : within keeps_verified (syncExpansions ws pass).
Proof.
  assert (∀ l opts, within keeps_verified (syncEach ws pass opts l)) as He.
  { intros l opts. induction l as [|e l IH]; cbn [syncEach]; [apply within_ret; apply _|].
    apply within_bind; [apply _|apply verified_syncOne|intros u; exact IH]. }
  unfold syncExpansions, call_ListExpansions. case_decide; [apply within_ret; apply _|]. cbv zeta.
  apply within_bind; [apply _|intros w r w' [= <- <-]; by apply verified_same|intros listed].
  apply within_bind; [apply _|apply within_require; apply _|intros u].
  apply within_bind; [apply _|apply He|intros u'].
  apply within_bind; [apply _|intros w r w' [= <- <-]; by apply verified_same|intros t].
  apply verified_tx. intros db v db' E. unfold listExpansions in E.
  call_inv E El; [|discriminate E]. rewrite gets_then in El. injection El as <- <-.
  exact (verified_resolve_stale _ _ _ _ _ _ _ _ E).
Qed.

Lemma verified_now : within keeps_verified now.
Proof. intros w r w' [= <- <-]. by apply verified_same. Qed.
Lemma verified_upstream {A} c (reply : list call → res A) :
  within keeps_verified (upstream c reply).
Proof. intros w r w' [= <- <-]. by apply verified_same. Qed.
Lemma verified_read {K V} `{Countable K} (table : DB → gmap K V) k :
  within keeps_verified (tx (select table k)).
Proof. apply verified_tx. by intros db a db' [_ ->]%select_Ok. Qed.
Lemma verified_other_db {A} (fn : Tx A) :
  (∀ db a db', fn db = (Ok a, db') → db_expansions db' = db_expansions db) →
  within keeps_verified (tx fn).
Proof.
  intros Hf w [a|e] w' E; [|by apply tx_Err in E as [_ ->]].
  apply tx_Ok in E as (db & E & ->). apply verified_same. by apply Hf in E.
Qed.
Lemma verified_ceremony {A} (m : M A) : within ceremony_frame m → within keeps_verified m.
Proof.
  intros Hm w r w' E. apply Hm in E as (_ & _ & _ & _ & _ & Ed). apply verified_same. by rewrite Ed.
Qed.

Lemma verified_mark b : within keeps_verified (markDecisionPending b).
Proof.
  unfold markDecisionPending. apply within_bind; [apply _|apply verified_now|intros t].
  apply verified_other_db. intros db a db' E.
  call_inv E Eg; [|discriminate E]. apply select_Ok in Eg as [Eg ->].
  by apply putMissionPass_Ok in E as (_ & _ & _ & ->).
Qed.

Lemma verified_settle b d result : within keeps_verified (settleDecision b d result).
Proof.
  unfold settleDecision. do 3 (apply within_bind; [apply _|apply verified_now|intros ?t]).
  apply within_bind; [apply _| |intros u; apply within_ret; apply _].
  apply verified_tx. intros db [v s] db' E Hall.
  unfold settle_decision_tx in E. call_inv E Eg; [|discriminate E].
  apply select_Ok in Eg as [_ ->]. call_inv E Es; [|discriminate E].
  call_inv E Er; [|discriminate E]. call_inv E Ec; [|discriminate E]. injection E as _ <-.
  apply completeExpansionIntent_Ok in Ec as (old & _ & ->).
  apply verified_resolve in Er; [exact Er|].
  assert (db_expansions d0 = db_expansions db) as Ex; [|unfold expansions_verified; by rewrite Ex].
  case_decide; [|by injection Es as _ <-].
  op_inv_step Es; [|discriminate Es]. call_inv Es Ep; [|discriminate Es]. injection Es as _ <-.
  case_decide; [|by injection Ep as _ <-]. by apply putMissionPass_Ok in Ep as (_ & _ & _ & ->).
Qed.

Lemma verified_putIntent t rec : within keeps_verified (tx (putExpansionIntent t rec)).
Proof.
  apply verified_other_db. intros db a db' E. unfold putExpansionIntent in E. by op_inv E.
Qed.
#[local] Hint Resolve verified_now verified_upstream verified_read verified_mark verified_settle
  verified_putIntent verified_sync : within.

Lemma verified_reconcile ws id : within keeps_verified (reconcileLocked ws id).
Proof.
  unfold reconcileLocked, replayDecided, call_ReconcileOperation, call_GetExpansion,
    getExpansionIntent, getMissionPass. within_auto.
Qed.
#[local] Hint Resolve verified_reconcile : within.

Lemma verified_decideOnce p b d att ad aj : within keeps_verified (decideOnce p b d att ad aj).
Proof.
  unfold decideOnce, replayDecided, issueDecision, call_DecideExpansion, getExpansionIntent,
    getMissionPass. within_auto.
Qed.

(** The requests the expansion service answers. *)
Inductive expansion_request : World → World → Prop :=
  | xr_list ws passID w r w' : ListPending ws passID w = (r, w') → expansion_request w w'
  | xr_begin p id decision w r w' :
      BeginExpansionDecision p id decision w = (r, w') → expansion_request w w'
  | xr_finish p id challengeID assertion w r w' :
      FinishExpansionDecision p id challengeID assertion w = (r, w') → expansion_request w w'
  | xr_reconcile ws id w r w' : ReconcileExpansion ws id w = (r, w') → expansion_request w w'.

Lemma verified_request w w' : expansion_request w w' → keeps_verified w w'.
Proof.
  assert (∀ ws id ws' id', within keeps_verified
    (tx (p ← getMissionPass ws id; r ← getExpansion ws' id'; mret (p, r)))) as H2.
  { intros ws id ws' id' v r v' E. by rewrite (two_reads_world _ _ _ _ _ _ _ E). }
  assert (∀ p e begun, within keeps_verified (checkLive p e begun)) as Hc.
  { intros p e begun v r v' E. by rewrite (checkLive_world _ _ _ _ _ _ E). }
  intros [ws id v r v' E|p id dec v r v' E|p id ch a v r v' E|ws id v r v' E].
  - revert v r v' E. fold (within keeps_verified (ListPending ws id)). unfold ListPending, getMissionPass.
    assert (within keeps_verified (tx (listExpansions ws id ExpansionPending))) as Hl.
    { apply verified_other_db. intros db x db' [= _ <-]. done. }
    repeat (first [solve [auto with within typeclass_instances]|apply Hl|within_step]).
  - revert v r v' E. fold (within keeps_verified (BeginExpansionDecision p id dec)). unfold BeginExpansionDecision, getExpansion, getMissionPass.
    repeat (first [solve [auto with within typeclass_instances]|apply H2
      |apply verified_ceremony, within_BeginDecision|within_step]).
    by apply verified_same.
  - revert v r v' E. fold (within keeps_verified (FinishExpansionDecision p id ch a)). unfold FinishExpansionDecision, getExpansionIntent, dropBegunDecision.
    repeat (first [solve [auto with within typeclass_instances]|apply Hc|apply verified_decideOnce
      |apply verified_ceremony, within_FinishDecision|apply verified_ceremony, within_randomBytes
      |within_step]); try by apply verified_same.
    all: intros v r v' E; apply (keeps_Attest w_db) in E; [|done]; apply verified_same;
      unfold keeps in E; by rewrite E.
  - revert v r v' E. apply verified_reconcile.
Qed.
(** C24: the founder always decides on what AuthScope signed.  Through any
    history of requests to the expansion service, starting from a table that
    has the property (an empty one has), whatever AuthScope answers, every
    stored expansion holds the canonical form of a delta that strictly decoded
    from an answer, is the row's own expansion and mission, and has the
    row's digest, recomputed over its canonical bytes.  If its text is ASCII
    and its expiry past the first second of year 1, the stored form strictly
    decodes back to that delta at whole seconds, and verifies again. *)
Theorem stored_deltas_verified w w' :
  expansions_verified (w_db w) → rtc expansion_request w w' → expansions_verified (w_db w').
Proof.
  intros Hv Hs. induction Hs as [|w1 w2 w3 H1 _ IH]; [done|].
  apply IH. by apply verified_request in H1; apply H1.
Qed.
End theorems.

Lemma stored_deltas_verified_witness :
  db_expansions (w_db bench_listed) !! ("ws", "exp-1") ≠ None ∧
  expansions_verified (w_db bench_listed).
Proof.
  split; [vm_compute; discriminate|].
  apply (stored_deltas_verified (H := bench_expansion_env) (start (bench_DB_with bench_live_pass))).
  - intros k row Hk. vm_compute in Hk. discriminate Hk.
  - eapply rtc_l; [|apply rtc_refl].
    exact (xr_list (H := bench_expansion_env) "ws" "pass-1" _ _ _ (surjective_pairing _)).
Defined.

