(* ===== verification/Events.v ===== *)
(** * Mission events and their projection (src/internal/missionpass/events.go)

    The strict decoding of an authoritative event into its allowlisted
    fields, the effect of an event on its pass, and the application of a page
    of events in one transaction. *)

From S2P Require Import Prelude GoTime Sha256 Json JsonParse Rfc3339 StoreModel StorePass PassModel World Bench.

(** ** Event types and their enumerations *)

Definition EventMissionStarted : string := "mission_started".
Definition EventActionChecked : string := "action_checked".
Definition EventExpansionRequested : string := "expansion_requested".
Definition EventPullRequestCreated : string := "pull_request_created".
Definition EventRunSucceeded : string := "run_succeeded".
Definition EventRunFailed : string := "run_failed".
Definition EventMissionExpired : string := "mission_expired".
Definition EventMissionRevoked : string := "mission_revoked".
Definition EventReceiptReady : string := "receipt_ready".

Definition knownEventTypes : list string :=
  [EventMissionStarted; EventActionChecked; EventExpansionRequested; EventPullRequestCreated;
   EventRunSucceeded; EventRunFailed; EventMissionExpired; EventMissionRevoked;
   EventReceiptReady].
Definition validCheckKinds : list string := ["policy"; "build"; "test"; "secret-scan"].
Definition validCheckOutcomes : list string := ["passed"; "failed"].
Definition validEventReasons : list string :=
  ["founder_requested"; "safety_concern"; "mission_superseded"; "policy_violation"; "expired";
   "upstream_error"].

Definition maxEventPayloadBytes : Z := 16 * 1024.
Definition eventClockSkew : Z := 5 * Minute.

Record SafeEvent := MkSafeEvent {
  sf_EventID : string;
  sf_Cursor : string;
  sf_Type : string;
  sf_OccurredAt : time;
  sf_AuthScopeMissionVersion : Z;
  sf_ResourceDigest : string;
  sf_ReasonCode : string;
  sf_Branch : string;
  sf_PullRequestNumber : Z;
  sf_HeadSHA : string;
  sf_CheckKind : string;
  sf_CheckOutcome : string
}.
#[export] Instance eta_SafeEvent : Eta SafeEvent := λ r, MkSafeEvent
    (sf_EventID r) (sf_Cursor r) (sf_Type r) (sf_OccurredAt r) (sf_AuthScopeMissionVersion r)
    (sf_ResourceDigest r) (sf_ReasonCode r) (sf_Branch r) (sf_PullRequestNumber r)
    (sf_HeadSHA r) (sf_CheckKind r) (sf_CheckOutcome r).
#[export] Instance SafeEvent_eq_dec : EqDecision SafeEvent.
Proof. solve_decision. Defined.

Definition zero_SafeEvent : SafeEvent := MkSafeEvent "" "" "" zero_time 0 "" "" "" 0 "" "" "".

(** ** Payloads *)

Record eventCommon := Mk_eventCommon {
  ec_WorkspaceID : string;
  ec_MissionVersion : Z;
  ec_ResourceDigest : string
}.

(** missionStartedPayload and runSucceededPayload. *)
Record branchPayload := Mk_branchPayload {
  bp_common : eventCommon;
  bp_Branch : string;
  bp_HeadSHA : string
}.
Record actionCheckedPayload := Mk_actionCheckedPayload {
  kp_common : eventCommon;
  kp_CheckKind : string;
  kp_CheckOutcome : string
}.
(** expansionRequestedPayload, runFailedPayload, missionExpiredPayload and
    missionRevokedPayload. *)
Record reasonPayload := Mk_reasonPayload {
  rp_common : eventCommon;
  rp_ReasonCode : string
}.
Record pullRequestCreatedPayload := Mk_pullRequestCreatedPayload {
  qp_common : eventCommon;
  qp_Branch : string;
  qp_PullRequestNumber : Z;
  qp_HeadSHA : string
}.

Definition common_names : list string := ["workspace_id"; "mission_version"; "resource_digest"].

Definition decode_common (o : list (string * value)) : option eventCommon :=
  w ← str_field "workspace_id" o; v ← int_field "mission_version" o;
  d ← str_field "resource_digest" o;
  Some (Mk_eventCommon w v d).
Definition decode_branchPayload (o : list (string * value)) : option branchPayload :=
  c ← decode_common o; b ← str_field "branch" o; h ← str_field "head_sha" o;
  Some (Mk_branchPayload c b h).
Definition decode_actionCheckedPayload (o : list (string * value)) : option actionCheckedPayload :=
  c ← decode_common o; k ← str_field "check_kind" o; u ← str_field "check_outcome" o;
  Some (Mk_actionCheckedPayload c k u).
Definition decode_reasonPayload (o : list (string * value)) : option reasonPayload :=
  c ← decode_common o; r ← str_field "reason_code" o;
  Some (Mk_reasonPayload c r).
Definition decode_pullRequestCreatedPayload (o : list (string * value))
    : option pullRequestCreatedPayload :=
  c ← decode_common o; b ← str_field "branch" o; n ← int_field "pull_request_number" o;
  h ← str_field "head_sha" o;
  Some (Mk_pullRequestCreatedPayload c b n h).

Definition err_event (msg : string) : err := ErrOther ("missionpass: event: " +:+ msg).

(** [dec]: the first JSON value, fields outside [names] rejected; [null]
    leaves the struct at its zero value. *)
Definition dec {A} (names : list string) (decode : list (string * value) → option A)
    (raw : string) : res A :=
  opt_res (err_event "strict decode")
    ('(v, _) ← decode_first raw;
     match v with
     | VObj o => if decide (known_fields (common_names ++ names)%list o) then decode o else None
     | VNull => decode []
     | _ => None
     end).

(** ** Field validators *)

Definition validateDigest (d : string) : res unit :=
  require_res (¬ (d = "" ∨ 128 < Z.of_nat (String.length d)))
    (err_event "digest must be 1-128 characters").

(** [branchPattern], ["^authscope/[A-Za-z0-9._-]+$"]. *)
Definition branch_char (b : Z) : bool :=
  in_range 65 90 b || in_range 97 122 b || in_range 48 57 b ||
  bool_decide (b = 46 ∨ b = 95 ∨ b = 45).
Definition branchPattern (s : string) : Prop :=
  match after (bytes_of "authscope/") (bytes_of s) with
  | Some rest => rest ≠ [] ∧ forallb branch_char rest = true
  | None => False
  end.
#[export] Instance branchPattern_dec s : Decision (branchPattern s).
Proof. unfold branchPattern. destruct (after _ _); apply _. Defined.

Definition validateBranch (b : string) : res unit :=
  require_res (branchPattern b) (err_event "branch must match the mission branch pattern").

Definition hex_char (b : Z) : bool := bool_decide (is_Some (hex_val b)).
Definition validateSHA (s : string) : res unit :=
  _ ← require_res (¬ (String.length s ≠ 40%nat ∧ String.length s ≠ 64%nat))
        (err_event "must be 40 or 64 hex characters");
  require_res (forallb hex_char (bytes_of s) = true) (err_event "must be hex").

Definition validateReason (r : string) : res unit :=
  require_res (r ∈ validEventReasons) (err_event "unknown reason code").

(** ** Decoding an event *)

Definition fill_branch (branch sha : string) (s : SafeEvent) : res SafeEvent :=
  _ ← validateBranch branch;
  _ ← validateSHA sha;
  Ok (s <| sf_Branch := branch |> <| sf_HeadSHA := sha |>).

Definition fill_reason (reason : string) (s : SafeEvent) : res SafeEvent :=
  _ ← validateReason reason;
  Ok (s <| sf_ReasonCode := reason |>).

Definition fill_check (kind outcome : string) (s : SafeEvent) : res SafeEvent :=
  _ ← require_res (kind ∈ validCheckKinds) (err_event "unknown check kind");
  _ ← require_res (outcome ∈ validCheckOutcomes) (err_event "unknown check outcome");
  Ok (s <| sf_CheckKind := kind |> <| sf_CheckOutcome := outcome |>).

Definition fill_pull_request (branch : string) (number : Z) (sha : string) (s : SafeEvent)
    : res SafeEvent :=
  _ ← validateBranch branch;
  _ ← require_res (¬ number ≤ 0) (err_event "pull request number must be positive");
  _ ← validateSHA sha;
  Ok (s <| sf_Branch := branch |> <| sf_PullRequestNumber := number |> <| sf_HeadSHA := sha |>).

(** The common fields, and the closure that validates and fills the fields
    of the type. *)
Definition decodePayload (eventType raw : string)
    : res (eventCommon * (SafeEvent → res SafeEvent)) :=
  if decide (eventType = EventMissionStarted) then
    pl ← dec ["branch"; "head_sha"] decode_branchPayload raw;
    Ok (bp_common pl, fill_branch (bp_Branch pl) (bp_HeadSHA pl))
  else if decide (eventType = EventActionChecked) then
    pl ← dec ["check_kind"; "check_outcome"] decode_actionCheckedPayload raw;
    Ok (kp_common pl, fill_check (kp_CheckKind pl) (kp_CheckOutcome pl))
  else if decide (eventType = EventExpansionRequested) then
    pl ← dec ["reason_code"] decode_reasonPayload raw;
    Ok (rp_common pl, fill_reason (rp_ReasonCode pl))
  else if decide (eventType = EventPullRequestCreated) then
    pl ← dec ["branch"; "pull_request_number"; "head_sha"] decode_pullRequestCreatedPayload raw;
    Ok (qp_common pl, fill_pull_request (qp_Branch pl) (qp_PullRequestNumber pl) (qp_HeadSHA pl))
  else if decide (eventType = EventRunSucceeded) then
    pl ← dec ["branch"; "head_sha"] decode_branchPayload raw;
    Ok (bp_common pl, fill_branch (bp_Branch pl) (bp_HeadSHA pl))
  else if decide (eventType = EventRunFailed) then
    pl ← dec ["reason_code"] decode_reasonPayload raw;
    Ok (rp_common pl, fill_reason (rp_ReasonCode pl))
  else if decide (eventType = EventMissionExpired) then
    pl ← dec ["reason_code"] decode_reasonPayload raw;
    Ok (rp_common pl, fill_reason (rp_ReasonCode pl))
  else if decide (eventType = EventMissionRevoked) then
    pl ← dec ["reason_code"] decode_reasonPayload raw;
    Ok (rp_common pl, fill_reason (rp_ReasonCode pl))
  else if decide (eventType = EventReceiptReady) then
    c ← dec [] decode_common raw;
    Ok (c, λ s, Ok s)
  else Err errUnknownEventType.

Definition decodeEvent (ev : MissionEvent) (workspaceID : string) (versionFloor : Z)
    (now prevOccurred : time) : res SafeEvent :=
  _ ← require_res (¬ (ev_EventID ev = "" ∨ 128 < Z.of_nat (String.length (ev_EventID ev))))
        (err_event "invalid event ID");
  _ ← require_res (ev_EventType ev ∈ knownEventTypes) errUnknownEventType;
  let size := Z.of_nat (String.length (ev_Payload ev)) in
  _ ← require_res (¬ (size = 0 ∨ maxEventPayloadBytes < size))
        (err_event "payload size out of bounds");
  let occurred := UnixMilli (ev_OccurredAt ev) in
  _ ← require_res (¬ ev_OccurredAt ev ≤ 0) (err_event "occurred_at must be positive");
  _ ← require_res (¬ After occurred (now + eventClockSkew))
        (err_event "occurred_at is in the future");
  _ ← require_res (¬ (¬ IsZero prevOccurred ∧ Before occurred prevOccurred))
        (err_event "events out of order");
  let safe := zero_SafeEvent <| sf_EventID := ev_EventID ev |> <| sf_Type := ev_EventType ev |>
                             <| sf_OccurredAt := occurred |> in
  '(common, specific) ← decodePayload (ev_EventType ev) (ev_Payload ev);
  _ ← require_res (ec_WorkspaceID common = workspaceID) (err_event "workspace mismatch");
  _ ← require_res (¬ ec_MissionVersion common < 0)
        (err_event "mission version must not be negative");
  _ ← require_res (¬ ec_MissionVersion common < versionFloor)
        (err_event "mission version below floor");
  _ ← validateDigest (ec_ResourceDigest common);
  specific (safe <| sf_AuthScopeMissionVersion := ec_MissionVersion common |>
                 <| sf_ResourceDigest := ec_ResourceDigest common |>).

(** ** Stored form *)

(** [fmt.Sprintf("%020d", seq)] *)
Definition eventCursor (seq : Z) : string :=
  if decide (seq < 0) then "-" +:+ digits 19 (- seq) else digits 20 seq.

(** A member [omitempty] leaves out. *)
Definition opt_str (name v : string) : list (string * json) :=
  if decide (v = "") then [] else [(name, JStr v)].
Definition opt_int (name : string) (v : Z) : list (string * json) :=
  if decide (v = 0) then [] else [(name, JInt v)].

Definition safe_json (s : SafeEvent) : json :=
  JObj ([("event_id", JStr (sf_EventID s)); ("cursor", JStr (sf_Cursor s));
         ("type", JStr (sf_Type s)); ("occurred_at", JStr (formatTime (sf_OccurredAt s)));
         ("authscope_mission_version", JInt (sf_AuthScopeMissionVersion s));
         ("resource_digest", JStr (sf_ResourceDigest s))] ++
        opt_str "reason_code" (sf_ReasonCode s) ++ opt_str "branch" (sf_Branch s) ++
        opt_int "pull_request_number" (sf_PullRequestNumber s) ++
        opt_str "head_sha" (sf_HeadSHA s) ++ opt_str "check_kind" (sf_CheckKind s) ++
        opt_str "check_outcome" (sf_CheckOutcome s))%list.

(** [json.Marshal]: the time must fall in a four-digit year. *)
Definition marshalSafe (s : SafeEvent) : res string :=
  _ ← require_res (json_year (sf_OccurredAt s)) (err_event "marshal");
  Ok (render true (safe_json s)).

(** [json.Unmarshal] into a [SafeEvent]. *)
Definition decode_safe (o : list (string * value)) : option SafeEvent :=
  f1 ← str_field "event_id" o; f2 ← str_field "cursor" o; f3 ← str_field "type" o;
  f4 ← time_field "occurred_at" o; f5 ← int_field "authscope_mission_version" o;
  f6 ← str_field "resource_digest" o; f7 ← str_field "reason_code" o;
  f8 ← str_field "branch" o; f9 ← int_field "pull_request_number" o;
  f10 ← str_field "head_sha" o; f11 ← str_field "check_kind" o;
  f12 ← str_field "check_outcome" o;
  Some (MkSafeEvent f1 f2 f3 f4 f5 f6 f7 f8 f9 f10 f11 f12).

Definition unmarshalSafe (payload : string) : res SafeEvent :=
  opt_res (ErrOther "missionpass: decode stored event")
    (v ← parse payload;
     match v with VObj o => decode_safe o | VNull => Some zero_SafeEvent | _ => None end).

(** ** Effects on the pass *)

(** The moved record and whether it changed. *)
Definition movePass (pass : MissionPassRecord) (to : PassState) (fromRunOutcome : bool)
    : res (MissionPassRecord * bool) :=
  if decide (mp_State pass = to) then Ok (pass, false)
  else if decide (fromRunOutcome = true ∧ mp_State pass = PassOutcomePending) then Ok (pass, false)
  else if decide (isTerminalPassState (mp_State pass)) then Ok (pass, false)
  else
    _ ← Transition (mp_State pass) to;
    let pass := pass <| mp_State := to |> in
    Ok (if fromRunOutcome then pass <| mp_Reconciliation := ReconciliationSettled |> else pass,
        true).

(** The backwards scan: [recs] is the list of stored events, newest first. *)
Fixpoint last_run_outcome (recs : list MissionEventRecord) : res SafeEvent :=
  match recs with
  | [] => Ok zero_SafeEvent
  | rec :: recs' =>
      safe ← unmarshalSafe (me_Payload rec);
      if decide (sf_Type safe = EventRunSucceeded ∨ sf_Type safe = EventRunFailed)
      then Ok safe else last_run_outcome recs'
  end.

Definition latestRunOutcome (workspaceID passID : string) : Tx SafeEvent :=
  events ← listMissionEvents workspaceID passID "" 10000;
  lift (last_run_outcome (rev events)).

(** [now] is [time.Now()]. *)
Definition applyReceipt (now : time) (pass : MissionPassRecord) (safe : SafeEvent)
    : Tx (MissionPassRecord * bool) :=
  if decide (isTerminalPassState (mp_State pass)) then mret (pass, false) else
  _ ← require (mp_State pass = PassOutcomePending)
        (ErrOther "receipt without a pending outcome");
  outcome ← latestRunOutcome (mp_WorkspaceID pass) (mp_PassID pass);
  _ ← require (sf_Type outcome ≠ "") (ErrOther "receipt without a projected run outcome");
  _ ← require (¬ (sf_ResourceDigest outcome = "" ∨ sf_ResourceDigest outcome ≠ sf_ResourceDigest safe))
        (ErrOther "receipt digest does not match the projected run outcome");
  if decide (IsZero (mp_ReceiptPendingAt pass))
  then mret (pass <| mp_ReceiptPendingAt := now |>, true)
  else mret (pass, false).

Definition applyEventEffect (now : time) (pass : MissionPassRecord) (safe : SafeEvent)
    : Tx (MissionPassRecord * bool) :=
  if decide (sf_Type safe = EventRunSucceeded ∨ sf_Type safe = EventRunFailed) then
    lift (movePass pass PassOutcomePending true)
  else if decide (sf_Type safe = EventMissionRevoked) then lift (movePass pass PassRevoked false)
  else if decide (sf_Type safe = EventMissionExpired) then lift (movePass pass PassExpired false)
  else if decide (sf_Type safe = EventExpansionRequested) then
    if decide (mp_State pass = PassRunning)
    then lift (movePass pass PassAwaitingExpansion false) else mret (pass, false)
  else if decide (sf_Type safe = EventReceiptReady) then applyReceipt now pass safe
  else mret (pass, false).

(** ** A page *)

(** The variables of the loop of [applyPageTx]. *)
Record page_state := Mk_page_state {
  ps_pass : MissionPassRecord;
  ps_seq : Z;
  ps_maxVersion : Z;
  ps_prevOccurred : time;
  ps_stored : Z;
  ps_passChanged : bool
}.
#[export] Instance eta_page_state : Eta page_state := λ r, Mk_page_state
    (ps_pass r) (ps_seq r) (ps_maxVersion r) (ps_prevOccurred r) (ps_stored r)
    (ps_passChanged r).

Definition event_row (workspaceID passID : string) (safe : SafeEvent) (raw : string)
    : MissionEventRecord :=
  MkMissionEventRecord workspaceID passID (sf_EventID safe) (sf_Type safe) (sf_Cursor safe) raw
    (sf_OccurredAt safe).

(** One iteration: [clk] is the reading of the projector's clock, [now] of
    [time.Now()]. *)
Definition apply_event (clk now : time) (workspaceID passID : string) (versionFloor : Z)
    (ev : MissionEvent) (st : page_state) : Tx page_state :=
  safe ← lift (decodeEvent ev workspaceID versionFloor clk (ps_prevOccurred st));
  let st := st <| ps_prevOccurred := sf_OccurredAt safe |>
               <| ps_maxVersion := forward_int (ps_maxVersion st) (sf_AuthScopeMissionVersion safe) |> in
  let seq := ps_seq st + 1 in
  let safe := safe <| sf_Cursor := eventCursor seq |> in
  raw ← lift (marshalSafe safe);
  inserted ← putEventIfAbsent (event_row workspaceID passID safe raw);
  if inserted : bool then
    effect ← applyEventEffect now (ps_pass st) safe;
    mret (st <| ps_seq := seq |> <| ps_stored := ps_stored st + 1 |>
             <| ps_pass := fst effect |>
             <| ps_passChanged := snd effect || ps_passChanged st |>)
  else mret st.

Fixpoint apply_events (clk now : time) (workspaceID passID : string) (versionFloor : Z)
    (evs : list MissionEvent) (st : page_state) : Tx page_state :=
  match evs with
  | [] => mret st
  | ev :: evs' =>
      st ← apply_event clk now workspaceID passID versionFloor ev st;
      apply_events clk now workspaceID passID versionFloor evs' st
  end.

(** The reads and checks before the loop. *)
Definition page_start (workspaceID passID : string) (page : EventPage)
    : Tx (MissionPassRecord * MissionProjection) :=
  pass ← getMissionPass workspaceID passID;
  found ← try (getMissionProjection workspaceID passID);
  proj ← match found with
         | Ok proj =>
             _ ← require (pj_Compatible proj = true) ErrProjectionIncompatible;
             mret proj
         | Err e => if decide (e = ErrNotFound) then mret zero_MissionProjection else fail e
         end;
  _ ← require (¬ (pg_Events page ≠ [] ∧ pg_NextCursor page = ""))
        (ErrOther "missionpass: apply page: page with events must carry a next cursor");
  mret (pass, proj).

Definition version_floor (pass : MissionPassRecord) (proj : MissionProjection) : Z :=
  forward_int (pj_MissionVersion proj) (mp_AuthScopeMissionVersion pass).

(** The writes after the loop. *)
Definition page_end (now : time) (workspaceID passID : string) (page : EventPage)
    (proj : MissionProjection) (st : page_state) : Tx Z :=
  _ ← (if ps_passChanged st
       then putMissionPass now (ps_pass st) (mp_StoreRevision (ps_pass st)) else mret tt);
  _ ← require (¬ (0 < ps_stored st ∧ pg_NextCursor page = pj_Cursor proj))
        (ErrOther "missionpass: apply page: page cursor did not advance");
  _ ← advanceProjection now workspaceID passID (pg_NextCursor page) (ps_seq st) (ps_maxVersion st);
  mret (ps_stored st).

Definition applyPageTx (clk now : time) (workspaceID passID : string) (page : EventPage) : Tx Z :=
  '(pass, proj) ← page_start workspaceID passID page;
  let versionFloor := version_floor pass proj in
  st ← apply_events clk now workspaceID passID versionFloor (pg_Events page)
         (Mk_page_state pass (pj_EventSeq proj) versionFloor zero_time 0 false);
  page_end now workspaceID passID page proj st.

Section projector.
Context `{Env}.

(** [gate]: whether the projector was built with a gate. *)
Definition markIncompatible (gate : bool) (workspaceID passID : string) : M unit :=
  _ ← require (gate = true) (ErrOther "missionpass: no projection gate configured");
  t ← now;
  _ ← tx (markProjectionIncompatible t workspaceID passID IncompatibleProjectionReason);
  modify (λ w, w <| w_gate := Some IncompatibleProjectionReason |>).

Definition ApplyPage (gate : bool) (workspaceID passID : string) (page : EventPage) : M Z :=
  _ ← require (¬ (workspaceID = "" ∨ passID = ""))
        (ErrOther "missionpass: apply page: workspace and pass IDs are required");
  clk ← now; t ← now;
  applied ← try (tx (applyPageTx clk t workspaceID passID page));
  match applied with
  | Ok stored => mret stored
  | Err e =>
      if decide (e = errUnknownEventType) then
        _ ← markIncompatible gate workspaceID passID;
        fail ErrProjectionIncompatible
      else fail e
  end.
End projector.

(** ** Reading the timeline *)

Record ProjectionStatus := MkProjectionStatus {
  pt_Events : list SafeEvent;
  pt_Cursor : string;
  pt_Compatible : bool;
  pt_Stale : bool;
  pt_Reason : string;
  pt_Containment : string;
  pt_State : string;
  pt_Reconciliation : string;
  pt_RepositoryName : string
}.

Definition LoadProjection (workspaceID passID afterCursor : string) (limit : Z)
    : Tx ProjectionStatus :=
  pass ← getMissionPass workspaceID passID;
  records ← listMissionEvents workspaceID passID afterCursor limit;
  events ← lift (mapM (λ rec, unmarshalSafe (me_Payload rec)) records);
  let status := MkProjectionStatus events in
  found ← try (getMissionProjection workspaceID passID);
  match found with
  | Err e =>
      if decide (e = ErrNotFound) then
        mret (status "" true false "" (mp_Containment pass) (mp_State pass)
                (mp_Reconciliation pass) (mp_RepositoryName pass))
      else fail e
  | Ok proj =>
      mret (status (pj_Cursor proj) (pj_Compatible proj) (pj_Stale proj)
              (pj_IncompatibilityReason proj) (mp_Containment pass) (mp_State pass)
              (mp_Reconciliation pass) (mp_RepositoryName pass))
  end.

(** ** The allowlist

    What a decoded event may hold: every field is bounded, drawn from a fixed
    enumeration or of a fixed shape, and each type fills only its own. *)

Definition branch_and_head (s : SafeEvent) : Prop :=
  branchPattern (sf_Branch s) ∧ validateSHA (sf_HeadSHA s) = Ok tt.

Definition no_branch (s : SafeEvent) : Prop := sf_Branch s = "" ∧ sf_HeadSHA s = "".
Definition no_check (s : SafeEvent) : Prop := sf_CheckKind s = "" ∧ sf_CheckOutcome s = "".

Definition allowlisted (s : SafeEvent) : Prop :=
  (0 < String.length (sf_EventID s) ≤ 128)%nat ∧ sf_Type s ∈ knownEventTypes ∧
  0 ≤ sf_AuthScopeMissionVersion s ∧ (0 < String.length (sf_ResourceDigest s) ≤ 128)%nat ∧
  (if decide (sf_Type s = EventMissionStarted ∨ sf_Type s = EventRunSucceeded) then
     branch_and_head s ∧ sf_PullRequestNumber s = 0 ∧ sf_ReasonCode s = "" ∧ no_check s
   else if decide (sf_Type s = EventPullRequestCreated) then
     branch_and_head s ∧ 0 < sf_PullRequestNumber s ∧ sf_ReasonCode s = "" ∧ no_check s
   else if decide (sf_Type s = EventActionChecked) then
     sf_CheckKind s ∈ validCheckKinds ∧ sf_CheckOutcome s ∈ validCheckOutcomes ∧
     no_branch s ∧ sf_PullRequestNumber s = 0 ∧ sf_ReasonCode s = ""
   else if decide (sf_Type s = EventReceiptReady) then
     no_branch s ∧ sf_PullRequestNumber s = 0 ∧ sf_ReasonCode s = "" ∧ no_check s
   else sf_ReasonCode s ∈ validEventReasons ∧ no_branch s ∧ sf_PullRequestNumber s = 0 ∧
     no_check s).

(** The integers are int64. *)
Definition int64_fields (s : SafeEvent) : Prop :=
  int64_range (sf_AuthScopeMissionVersion s) ∧ int64_range (sf_PullRequestNumber s).

Lemma length_pos (s : string) : s ≠ "" → (0 < String.length s)%nat.
Proof. destruct s; cbn; [done|lia]. Qed.

(** The fields an event carries besides those of its type. *)
Definition bare (s : SafeEvent) : Prop :=
  sf_ReasonCode s = "" ∧ no_branch s ∧ sf_PullRequestNumber s = 0 ∧ no_check s.

Lemma fill_branch_Ok b h s s' : fill_branch b h s = Ok s' →
  branchPattern b ∧ validateSHA h = Ok tt ∧ s' = s <| sf_Branch := b |> <| sf_HeadSHA := h |>.
Proof.
  unfold fill_branch, validateBranch. rewrite require_res_bind_Ok. intros [Hb H].
  apply res_bind_Ok in H as ([] & Hh & H). apply Ok_inj in H. done.
Qed.
Lemma fill_reason_Ok r s s' : fill_reason r s = Ok s' →
  r ∈ validEventReasons ∧ s' = s <| sf_ReasonCode := r |>.
Proof.
  unfold fill_reason, validateReason. rewrite require_res_bind_Ok. intros [Hr H].
  apply Ok_inj in H. done.
Qed.

(** Settles the branches of a conditional on a known event type. *)
Ltac type_case :=
  repeat match goal with
  | |- context [if decide ?P then _ else _] => destruct (decide P) as [?D|?D]
  end;
  try (exfalso; match goal with
       | D : ¬ _ |- _ => apply D; first [done|by left|by right]
       | D : _ ∨ _ |- _ => by destruct D
       | D : _ = _ |- _ => discriminate D
       end);
  split_and!; try done; try lia.

Lemma decodePayload_shape ty raw c fill s s' :
  decodePayload ty raw = Ok (c, fill) → sf_Type s = ty → bare s → fill s = Ok s' →
  (0 < String.length (sf_EventID s) ≤ 128)%nat → ty ∈ knownEventTypes →
  0 ≤ sf_AuthScopeMissionVersion s → (0 < String.length (sf_ResourceDigest s) ≤ 128)%nat →
  allowlisted s' ∧
  s' = s <| sf_ReasonCode := sf_ReasonCode s' |> <| sf_Branch := sf_Branch s' |>
         <| sf_PullRequestNumber := sf_PullRequestNumber s' |> <| sf_HeadSHA := sf_HeadSHA s' |>
         <| sf_CheckKind := sf_CheckKind s' |> <| sf_CheckOutcome := sf_CheckOutcome s' |>.
Proof.
  intros E <- (Hb1 & [Hb2 Hb3] & Hb4 & [Hb5 Hb6]) Hf Hid Hty Hv Hd.
  unfold decodePayload in E. destruct s as [i u ty o v d r b n h k w]. cbn in *. subst r b n h k w.
  repeat match type of E with (if decide ?P then _ else _) = _ => destruct (decide P) as [->|] end;
    try discriminate E; apply res_bind_Ok in E as (pl & _ & E);
    apply Ok_inj in E; injection E as <- <-.
  all: try (apply fill_branch_Ok in Hf as (? & ? & ->)).
  all: try (apply fill_reason_Ok in Hf as (? & ->)).
  all: try (unfold fill_check in Hf; rewrite !require_res_bind_Ok in Hf;
            destruct Hf as (? & ? & Hf); apply Ok_inj in Hf as <-).
  all: try (unfold fill_pull_request, validateBranch in Hf;
            rewrite !require_res_bind_Ok in Hf; destruct Hf as (? & ? & Hf);
            apply res_bind_Ok in Hf as ([] & ? & Hf); apply Ok_inj in Hf as <-).
  all: try (apply Ok_inj in Hf as <-).
  all: split; [|reflexivity]; unfold allowlisted, branch_and_head, no_branch, no_check; cbn.
  all: do 4 (split; [done|]); type_case.
Qed.

Lemma dec_Ok {A} names (decode : list (string * value) → option A) raw a :
  dec names decode raw = Ok a → ∃ o, decode o = Some a.
Proof.
  unfold dec. intros E. apply opt_res_Ok in E.
  destruct (decode_first raw) as [[v r]|]; [|discriminate E]. cbn in E.
  destruct v; try discriminate E; [by eexists|case_decide; [by eexists|discriminate E]].
Qed.

Lemma decode_common_range o c : decode_common o = Some c → int64_range (ec_MissionVersion c).
Proof.
  unfold decode_common. intros (w & _ & E)%bind_Some. apply bind_Some in E as (v & Hv & E).
  apply bind_Some in E as (d & _ & E). injection E as <-. by eapply int_field_range.
Qed.

Ltac binds_inv E := repeat (let H := fresh "B" in apply bind_Some in E as (? & H & E)).

(** Numbers of a payload come from int64 fields. *)
Lemma decodePayload_int64 ty raw c fill :
  decodePayload ty raw = Ok (c, fill) →
  int64_range (ec_MissionVersion c) ∧
  ∀ s s', fill s = Ok s' → int64_range (sf_PullRequestNumber s) →
    int64_range (sf_PullRequestNumber s').
Proof.
  unfold decodePayload. intros E.
  repeat match type of E with (if decide ?P then _ else _) = _ => destruct (decide P) as [->|] end;
    try discriminate E; apply res_bind_Ok in E as (pl & Ed & E);
    apply Ok_inj in E; injection E as <- <-; apply dec_Ok in Ed as [o Ed].
  all: try (apply decode_common_range in Ed as Hr; split; [exact Hr|];
            intros s s' Hf; apply Ok_inj in Hf as <-; done).
  all: binds_inv Ed; injection Ed as <-; (split; [eapply decode_common_range; cbn; eassumption|]);
    cbn; intros s s' Hf.
  all: try (apply fill_branch_Ok in Hf as (_ & _ & ->); done).
  all: try (apply fill_reason_Ok in Hf as (_ & ->); done).
  - unfold fill_check in Hf. rewrite !require_res_bind_Ok in Hf. destruct Hf as (_ & _ & Hf).
    by apply Ok_inj in Hf as <-.
  - unfold fill_pull_request, validateBranch in Hf. rewrite !require_res_bind_Ok in Hf.
    destruct Hf as (_ & _ & Hf). apply res_bind_Ok in Hf as ([] & _ & Hf). apply Ok_inj in Hf as <-.
    intros _. cbn. by eapply int_field_range.
Qed.

Lemma decodeEvent_Ok ev ws floor clk prev safe :
  decodeEvent ev ws floor clk prev = Ok safe →
  allowlisted safe ∧ int64_fields safe ∧ sf_EventID safe = ev_EventID ev ∧ sf_Type safe = ev_EventType ev ∧
  sf_Cursor safe = "" ∧ sf_OccurredAt safe = UnixMilli (ev_OccurredAt ev) ∧
  0 < ev_OccurredAt ev ∧ sf_OccurredAt safe ≤ clk + eventClockSkew ∧
  (IsZero prev ∨ prev ≤ sf_OccurredAt safe) ∧ floor ≤ sf_AuthScopeMissionVersion safe ∧
  ∃ c fill, decodePayload (ev_EventType ev) (ev_Payload ev) = Ok (c, fill) ∧
    ec_WorkspaceID c = ws ∧ sf_AuthScopeMissionVersion safe = ec_MissionVersion c ∧
    sf_ResourceDigest safe = ec_ResourceDigest c.
Proof.
  unfold decodeEvent. cbv zeta. rewrite !require_res_bind_Ok.
  intros (Hid & Hty & Hsize & Hpos & Hfut & Hord & E).
  apply res_bind_Ok in E as ([c fill] & Ep & E). unfold validateDigest in E.
  rewrite !require_res_bind_Ok in E. destruct E as (Hws & Hv & Hfl & Hd & Hf).
  pose proof Ep as Ep'. eapply decodePayload_shape in Ep' as [Ha Es]; try exact Hf; try done.
  - rewrite Es. cbn. unfold After, Before in *. split_and!; try done; try lia.
    + rewrite <- Es. exact Ha.
    + rewrite <- Es. apply decodePayload_int64 in Ep as [Hr Hn]. split.
      * rewrite Es. exact Hr.
      * eapply Hn; [exact Hf|]. cbn. unfold int64_range. lia.
    + destruct (decide (IsZero prev)); [by left|right].
      apply Z.nlt_ge. intros ?. by apply Hord.
    + exists c, fill. done.
  - cbn. apply Decidable.not_or in Hid as [? ?]. split; [by apply length_pos|lia].
  - cbn. lia.
  - cbn. apply Decidable.not_or in Hd as [? ?]. split; [by apply length_pos|lia].
Qed.

Lemma fill_errs ty raw c fill s :
  decodePayload ty raw = Ok (c, fill) → errs_other (fill s).
Proof.
  unfold decodePayload. intros E.
  repeat match type of E with (if decide ?P then _ else _) = _ => destruct (decide P) as [->|] end;
    try discriminate E; apply res_bind_Ok in E as (pl & _ & E);
    apply Ok_inj in E; injection E as <- <-;
    unfold fill_branch, fill_reason, fill_check, fill_pull_request, validateBranch, validateSHA,
      validateReason, err_event; repeat errs_other_step.
Qed.

Lemma decodePayload_errs ty raw : ty ∈ knownEventTypes → errs_other (decodePayload ty raw).
Proof.
  intros Hty. unfold decodePayload, dec, err_event.
  repeat (destruct (decide (ty = _)) as [->|]; [repeat errs_other_step|]).
  exfalso. unfold knownEventTypes in Hty. rewrite !elem_of_cons, elem_of_nil in Hty. tauto.
Qed.

(** An event of a type the program does not know, with a well-formed id. *)
Definition unknown_event (ev : MissionEvent) : Prop :=
  ¬ (ev_EventID ev = "" ∨ 128 < Z.of_nat (String.length (ev_EventID ev))) ∧
  ev_EventType ev ∉ knownEventTypes.

(** An event is refused as unknown exactly for its type (a valid id
    provided). *)
Lemma decodeEvent_unknown ev ws floor clk prev :
  decodeEvent ev ws floor clk prev = Err errUnknownEventType ↔ unknown_event ev.
Proof.
  split.
  - intros E. split.
    { intros Hid. unfold decodeEvent in E. rewrite require_res_else in E by tauto. discriminate E. }
    intros Hty. assert (errs_other (decodeEvent ev ws floor clk prev)) as Ho.
    { unfold decodeEvent, err_event. cbv zeta. apply fails_with_bind; [errs_other_step|intros ? _].
      rewrite require_res_then by done.
      repeat errs_other_step; [by apply decodePayload_errs|].
      match goal with H : _ = Ok ?x |- _ => destruct x as [c fill] end.
      unfold validateDigest, err_event. repeat errs_other_step. by eapply fill_errs. }
    by destruct (Ho _ E).
  - intros [Hid Hty]. unfold decodeEvent. by rewrite require_res_then, require_res_else.
Qed.

(** ** The life cycle *)

(** What events may do to a pass: legal moves of its state, never out of a
    terminal one and never into completed or failed, settling a pending
    reconciliation and noting a pending receipt; nothing else. *)
Definition effect (p p' : MissionPassRecord) : Prop :=
  rtc life_step (mp_State p) (mp_State p') ∧
  (isTerminalPassState (mp_State p) → p' = p) ∧
  (mp_State p' = PassCompleted ∨ mp_State p' = PassFailed → p' = p) ∧
  p' = p <| mp_State := mp_State p' |> <| mp_Reconciliation := mp_Reconciliation p' |>
         <| mp_ReceiptPendingAt := mp_ReceiptPendingAt p' |>.

Lemma effect_refl p : effect p p.
Proof. split_and!; [reflexivity|done|done|by destruct p]. Qed.

#[export] Instance effect_preorder : PreOrder effect.
Proof.
  split; [exact effect_refl|].
  intros p q r (A1 & A2 & A3 & A4) (B1 & B2 & B3 & B4). split_and!.
  - by transitivity (mp_State q).
  - intros Ht. rewrite (A2 Ht) in B2. auto.
  - intros Hc. assert (r = q) as -> by auto. auto.
  - rewrite B4, A4. by destruct p.
Qed.

(** The record after an event and whether it changed. *)
Definition change (p p' : MissionPassRecord) (ch : bool) : Prop :=
  effect p p' ∧ (ch = false → p' = p) ∧ (ch = true → ¬ isTerminalPassState (mp_State p)).

Lemma change_none p : change p p false.
Proof. split; [reflexivity|done]. Qed.

Lemma movePass_change p to b p' ch :
  to ≠ PassCompleted → to ≠ PassFailed →
  movePass p to b = Ok (p', ch) → change p p' ch ∧
    (mp_State p' = to ∨ isTerminalPassState (mp_State p) ∨
     b = true ∧ mp_State p = PassOutcomePending).
Proof.
  intros Hc Hf. unfold movePass. intros E.
  destruct (decide (mp_State p = to)) as [D1|D1].
  { injection E as <- <-. split; [apply change_none|by left]. }
  destruct (decide (b = true ∧ _)) as [D2|D2].
  { injection E as <- <-. split; [apply change_none|by right; right]. }
  destruct (decide (isTerminalPassState _)) as [D3|D3].
  { injection E as <- <-. split; [apply change_none|by right; left]. }
  apply res_bind_Ok in E as ([] & Et & E). apply Ok_inj in E. injection E as <- <-.
  assert (∀ q : MissionPassRecord, q = (if b then p <| mp_State := to |> <| mp_Reconciliation :=
    ReconciliationSettled |> else p <| mp_State := to |>) → mp_State q = to) as Hq
    by (intros q ->; by destruct b).
  split; [split; [|done]|left; by apply Hq].
  split_and!; rewrite ?(Hq _ eq_refl).
  - by apply rtc_once.
  - done.
  - intros [|]; done.
  - destruct b; by destruct p.
Qed.

Lemma latestRunOutcome_db ws pass db r db' :
  latestRunOutcome ws pass db = (r, db') → db' = db.
Proof.
  unfold latestRunOutcome. rewrite (bind_run _ _ _ _ _ (listMissionEvents_run _ _ _ _ _)).
  by intros [= _ <-].
Qed.

(** A computation that only reads and yields an effect on [p]. *)
Definition has_effect (p : MissionPassRecord) (m : Tx (MissionPassRecord * bool)) : Prop :=
  ∀ db r db', m db = (r, db') →
  db' = db ∧ ∀ p' ch, r = Ok (p', ch) → change p p' ch.

Lemma has_effect_same p : has_effect p (mret (p, false)).
Proof.
  intros db r db' E. injection E as <- <-. split; [done|].
  intros p' ch E. injection E as <- <-. apply change_none.
Qed.

Lemma has_effect_move p to b : to ≠ PassCompleted → to ≠ PassFailed →
  has_effect p (lift (movePass p to b)).
Proof.
  intros Hc Hf db r db' E. injection E as <- <-. split; [done|].
  intros p' ch E. apply movePass_change in E as [? _]; done.
Qed.

Lemma has_effect_receipt now p s : has_effect p (applyReceipt now p s).
Proof.
  intros db r db' E. unfold applyReceipt in E.
  op_inv_step E; [by eapply has_effect_same|].
  op_inv_step E; [|injection E as <- <-; done].
  call_inv E El; apply latestRunOutcome_db in El as ->; [|injection E as <- <-; done].
  do 2 (op_inv_step E; [|injection E as <- <-; done]).
  op_inv_step E; [|by eapply has_effect_same]. injection E as <- <-. split; [done|].
  intros p' ch [= <- <-]. split; [|split; [done|intros _; exact D]].
  split_and!; cbn; [reflexivity|done| |by destruct p].
  rewrite D0. intros [|]; discriminate.
Qed.

Lemma applyEventEffect_effect now p s : has_effect p (applyEventEffect now p s).
Proof.
  unfold applyEventEffect. repeat case_decide;
    first [apply has_effect_same|apply has_effect_receipt|by apply has_effect_move].
Qed.

(** ** One event *)

Lemma marshalSafe_Ok s raw : marshalSafe s = Ok raw →
  json_year (sf_OccurredAt s) ∧ raw = render true (safe_json s).
Proof.
  unfold marshalSafe. rewrite require_res_bind_Ok. intros [Hy E]. split; [exact Hy|].
  symmetry. exact (Ok_inj _ _ E).
Qed.

(** The event as it is stored: with the local cursor, in its JSON form. *)
Definition stored_event (workspaceID passID : string) (safe : SafeEvent) : MissionEventRecord :=
  event_row workspaceID passID safe (render true (safe_json safe)).

Lemma apply_event_Ok clk now ws pass floor ev st db st' db' :
  apply_event clk now ws pass floor ev st db = (Ok st', db') →
  ∃ safe, decodeEvent ev ws floor clk (ps_prevOccurred st) = Ok safe ∧
    json_year (sf_OccurredAt safe) ∧
    ps_prevOccurred st' = sf_OccurredAt safe ∧
    ps_maxVersion st' = Z.max (ps_maxVersion st) (sf_AuthScopeMissionVersion safe) ∧
    match db_mission_events db !! (ws, pass, ev_EventID ev) with
    | Some _ => db' = db ∧ ps_seq st' = ps_seq st ∧ ps_stored st' = ps_stored st ∧
        ps_pass st' = ps_pass st ∧ ps_passChanged st' = ps_passChanged st
    | None =>
        let s := safe <| sf_Cursor := eventCursor (ps_seq st + 1) |> in
        db' = db <| db_mission_events :=
          <[(ws, pass, ev_EventID ev) := stored_event ws pass s]> (db_mission_events db) |> ∧
        ps_seq st' = ps_seq st + 1 ∧ ps_stored st' = ps_stored st + 1 ∧
        ∃ ch, applyEventEffect now (ps_pass st) s db' = (Ok (ps_pass st', ch), db') ∧
          change (ps_pass st) (ps_pass st') ch ∧
          ps_passChanged st' = ch || ps_passChanged st
    end.
Proof.
  unfold apply_event. intros E.
  apply bind_Ok in E as (safe & db1 & Ed & E). injection Ed as Ed ->.
  cbv zeta in E. apply bind_Ok in E as (raw & db2 & Em & E). apply lift_inv in Em as [Em ->].
  apply marshalSafe_Ok in Em as [Hy ->]. exists safe. split; [exact Ed|]. split; [exact Hy|].
  apply decodeEvent_Ok in Ed as (_ & _ & Hid & _).
  apply bind_Ok in E as (b & db3 & Ep & E).
  pose proof (putEventIfAbsent_Ok _ _ _ _ Ep) as (Hi & _).
  rewrite putEventIfAbsent_run in Ep by exact Hi. unfold event_key in Ep. cbn [me_WorkspaceID
    me_PassID me_EventID event_row sf_EventID upd] in Ep. rewrite Hid in Ep.
  destruct (db_mission_events db1 !! _) as [r|] eqn:El; injection Ep as <- <-.
  - injection E as <- <-. cbn. rewrite forward_int_max. done.
  - apply bind_Ok in E as ([p' ch] & db4 & Ee & E). pose proof Ee as Ee'.
    apply applyEventEffect_effect in Ee as [-> He].
    pose proof (He _ _ eq_refl) as Hc. injection E as <- <-. cbn in Hc |- *.
    rewrite forward_int_max. split_and!; try done. exists ch. done.
Qed.

Lemma marshalSafe_errs s : errs_other (marshalSafe s).
Proof. unfold marshalSafe, err_event. repeat errs_other_step. Qed.

Lemma movePass_errs p to b : errs_other (movePass p to b).
Proof.
  unfold movePass. repeat case_decide; try apply fails_with_Ok.
  apply fails_with_bind; [|intros; destruct b; apply fails_with_Ok].
  intros e. unfold Transition. repeat case_decide; intros [= <-]; apply other_other.
Qed.

Lemma last_run_outcome_errs recs : errs_other (last_run_outcome recs).
Proof.
  induction recs as [|rec recs IH]; cbn [last_run_outcome]; [apply fails_with_Ok|].
  unfold unmarshalSafe. apply fails_with_bind; [errs_other_step|intros s _].
  case_decide; [apply fails_with_Ok|exact IH].
Qed.

Lemma applyEventEffect_errs now p s db e db' :
  applyEventEffect now p s db = (Err e, db') → ∃ msg, e = ErrOther msg.
Proof.
  unfold applyEventEffect. intros E.
  repeat match type of E with (if decide ?P then _ else _) _ = _ => destruct (decide P) as [?|?] end;
    try (injection E as E _; by apply movePass_errs in E); try discriminate E.
  unfold applyReceipt in E. op_inv_step E; [discriminate E|].
  op_inv_step E; [|injection E as <- _; eauto].
  unfold latestRunOutcome in E. call_inv E El.
  - do 2 (op_inv_step E; [|injection E as <- _; eauto]). op_inv_step E; discriminate E.
  - injection E as <- _. rewrite (bind_run _ _ _ _ _ (listMissionEvents_run _ _ _ _ _)) in El.
    injection El as El _. by apply last_run_outcome_errs in El.
Qed.

Lemma apply_event_unknown clk now ws pass floor ev st db db' :
  apply_event clk now ws pass floor ev st db = (Err errUnknownEventType, db') → unknown_event ev.
Proof.
  unfold apply_event. intros E.
  apply bind_Err in E as [E|(safe & db1 & _ & E)].
  { injection E as E _. by eapply decodeEvent_unknown. }
  cbv zeta in E. exfalso. apply bind_Err in E as [E|(raw & db2 & _ & E)].
  { apply lift_inv in E as [E _]. apply marshalSafe_errs in E as [msg E]. discriminate E. }
  apply bind_Err in E as [E|(b & db3 & _ & E)].
  { unfold putEventIfAbsent in E. op_inv_step E; [|discriminate E].
    op_inv_step E. cbv zeta in E. op_inv_step E; discriminate E. }
  destruct b; [|discriminate E].
  apply bind_Err in E as [E|(x & db4 & _ & E)]; [|discriminate E].
  apply applyEventEffect_errs in E as [msg E]. discriminate E.
Qed.

(** The loop stops at an unknown type exactly when everything before it applies. *)
Lemma apply_events_unknown clk now ws pass floor evs st db :
  (∃ db', apply_events clk now ws pass floor evs st db = (Err errUnknownEventType, db')) ↔
  ∃ pre ev post st1 db1, evs = (pre ++ ev :: post)%list ∧ unknown_event ev ∧
    apply_events clk now ws pass floor pre st db = (Ok st1, db1).
Proof.
  split.
  - intros [db' E]. revert st db E. induction evs as [|ev evs IH]; intros st db E; [discriminate E|].
    cbn [apply_events] in E. apply bind_Err in E as [E|(st1 & db1 & E1 & E)].
    + exists [], ev, evs. eexists _, _. split_and!; [done|by eapply apply_event_unknown|done].
    + apply IH in E as (pre & ev' & post & st2 & db2 & -> & Hev & E2).
      exists (ev :: pre), ev', post. eexists _, _. split_and!; [done|done|]. cbn [apply_events].
      rewrite (bind_run _ _ _ _ _ E1). exact E2.
  - intros (pre & ev & post & st1 & db1 & -> & Hev & E). revert st db E.
    induction pre as [|ev' pre IH]; intros st db E; cbn [apply_events app] in E |- *.
    + injection E as <- <-. eexists. apply bind_fail. unfold apply_event.
      apply decodeEvent_unknown with (ws := ws) (floor := floor) (clk := clk) (prev := ps_prevOccurred st) in Hev.
      by rewrite Hev, lift_Err_then.
    + call_inv E E1; [|discriminate E]. rewrite (bind_run _ _ _ _ _ E1). by apply IH.
Qed.

(** ** The pass over a page *)

(** Events after which a pass is over. *)
Definition ending_type (ty : string) : Prop := ty = EventMissionRevoked ∨ ty = EventMissionExpired.

Lemma applyEventEffect_ends now p s db p' ch db' :
  applyEventEffect now p s db = (Ok (p', ch), db') → ending_type (sf_Type s) →
  isTerminalPassState (mp_State p').
Proof.
  intros E He. assert (∃ to, isTerminalPassState to ∧ to ≠ PassCompleted ∧ to ≠ PassFailed ∧
    movePass p to false = Ok (p', ch)) as (to & Ht & Hc & Hf & Em).
  { unfold applyEventEffect in E. destruct He as [He|He]; rewrite He in E.
    - exists PassRevoked. apply lift_inv in E as [E _]. split_and!; [by right; right; left|done..|exact E].
    - exists PassExpired. apply lift_inv in E as [E _]. split_and!; [by right; right; right|done..|exact E]. }
  apply movePass_change in Em as [[(_ & Hsame & _) _] [->|[Hp|[? _]]]]; try done.
  by rewrite (Hsame Hp).
Qed.

(** What the loop does to the pass, together with the rows it adds. *)
Definition pass_progress (st st' : page_state) (db db' : DB) : Prop :=
  effect (ps_pass st) (ps_pass st') ∧
  (ps_passChanged st' = false → ps_passChanged st = false ∧ ps_pass st' = ps_pass st) ∧
  (ps_passChanged st' = true → ps_passChanged st = true ∨
     ¬ isTerminalPassState (mp_State (ps_pass st))) ∧
  (∀ k r, db_mission_events db !! k = Some r → db_mission_events db' !! k = Some r) ∧
  (∀ k r, db_mission_events db !! k = None → db_mission_events db' !! k = Some r →
     ending_type (me_EventType r) → isTerminalPassState (mp_State (ps_pass st'))).

Lemma pass_progress_trans st1 st2 st3 db1 db2 db3 :
  pass_progress st1 st2 db1 db2 → pass_progress st2 st3 db2 db3 → pass_progress st1 st3 db1 db3.
Proof.
  intros (A1 & A2 & A3 & A4 & A5) (B1 & B2 & B3 & B4 & B5). split_and!.
  - by transitivity (ps_pass st2).
  - intros C. destruct (B2 C) as [C2 ->]. by apply A2.
  - intros C. destruct (B3 C) as [C2|N]; [by apply A3|].
    destruct (decide (isTerminalPassState (mp_State (ps_pass st1)))) as [T|T]; [|by right].
    destruct A1 as (_ & A1 & _). rewrite (A1 T) in N. done.
  - auto.
  - intros k r N1 H3 He. destruct (db_mission_events db2 !! k) as [r2|] eqn:E2; [|by eapply B5].
    pose proof (B4 _ _ E2) as E3. rewrite H3 in E3. injection E3 as <-.
    pose proof (A5 _ _ N1 E2 He) as T. destruct B1 as (_ & B1 & _). by rewrite (B1 T).
Qed.

Lemma apply_event_progress clk now ws pass floor ev st db st' db' :
  apply_event clk now ws pass floor ev st db = (Ok st', db') → pass_progress st st' db db'.
Proof.
  intros E. apply apply_event_Ok in E as (safe & _ & _ & _ & _ & E).
  destruct (db_mission_events db !! (ws, pass, ev_EventID ev)) as [row|] eqn:El.
  - destruct E as (-> & _ & _ & Hp & Hc). unfold pass_progress. rewrite Hp, Hc.
    split_and!; [reflexivity|done|auto|done|]. intros k r H1 H2. congruence.
  - destruct E as (-> & _ & _ & ch & Ee & (C1 & C2 & C3) & Hc).
    unfold pass_progress. rewrite Hc. split_and!.
    + exact C1.
    + intros [-> ->]%orb_false_iff. auto.
    + intros [->| ->]%orb_true_iff; auto.
    + intros k r Hk. cbn [db_mission_events upd]. rewrite lookup_insert_ne; [done|].
      intros <-. congruence.
    + intros k r N Hk He. cbn [db_mission_events upd] in Hk.
      apply lookup_insert_Some in Hk as [[<- <-]|[_ Hk]]; [|congruence].
      eapply applyEventEffect_ends; [exact Ee|exact He].
Qed.

Lemma apply_events_progress clk now ws pass floor evs st db st' db' :
  apply_events clk now ws pass floor evs st db = (Ok st', db') → pass_progress st st' db db'.
Proof.
  revert st db. induction evs as [|ev evs IH]; intros st db E.
  - injection E as <- <-. split_and!; [reflexivity|done|auto|done|]. intros k r H1 H2. congruence.
  - cbn [apply_events] in E. apply bind_Ok in E as (st1 & db1 & E1 & E).
    eapply pass_progress_trans; [by eapply apply_event_progress|by eapply IH].
Qed.

(** ** A page that fails *)

Definition latched (row : MissionProjection) : Prop :=
  pj_Compatible row = false ∧ pj_Stale row = true ∧
  pj_IncompatibilityReason row = IncompatibleProjectionReason.

(** The resume point of a projection that may not exist yet. *)
Definition resume_point (db : DB) (ws pass : string) : string * Z * Z :=
  match db_mission_projections db !! (ws, pass) with
  | Some p => (pj_Cursor p, pj_EventSeq p, pj_MissionVersion p)
  | None => ("", 0, 0)
  end.

Lemma markProjectionIncompatible_run now ws pass reason db :
  ∃ row, markProjectionIncompatible now ws pass reason db =
    (Ok tt, db <| db_mission_projections := <[(ws, pass) := row]> (db_mission_projections db) |>) ∧
    pj_Compatible row = false ∧ pj_Stale row = true ∧ pj_IncompatibilityReason row = reason ∧
    (pj_Cursor row, pj_EventSeq row, pj_MissionVersion row) = resume_point db ws pass.
Proof.
  unfold markProjectionIncompatible, resume_point. rewrite gets_then.
  destruct (db_mission_projections db !! _) as [p|]; eexists; (split; [reflexivity|done]).
Qed.

Lemma page_start_run ws pass page db r db' :
  page_start ws pass page db = (r, db') → db' = db ∧
  match r with
  | Ok (p, proj) => db_mission_passes db !! (ws, pass) = Some p ∧
      match db_mission_projections db !! (ws, pass) with
      | Some q => pj_Compatible q = true ∧ proj = q
      | None => proj = zero_MissionProjection
      end ∧
      (pg_Events page ≠ [] → pg_NextCursor page ≠ "")
  | Err e => e ≠ errUnknownEventType
  end.
Proof.
  unfold page_start, getMissionPass, getMissionProjection, select. intros E. call_inv E Ep.
  all: destruct (db_mission_passes db !! _) as [p|]; [|by simplify_eq].
  all: injection Ep as <- <- || discriminate Ep.
  try_inv E Er. destruct (db_mission_projections db !! _) as [q|]; injection Er as <- <-.
  - destruct (decide (pj_Compatible q = true)) as [Hq|Hq].
    + rewrite (bind_run _ _ _ q db) in E by (by rewrite require_then).
      op_inv E; split; try done. split_and!; try done. tauto.
    + rewrite (bind_fail _ _ _ ErrProjectionIncompatible db) in E by (by rewrite require_else).
      by simplify_eq.
  - rewrite decide_True in E by done. op_inv E; split; try done. split_and!; try done. tauto.
Qed.

Lemma page_end_other now ws pass page proj st db e db' :
  page_end now ws pass page proj st db = (Err e, db') → e ≠ errUnknownEventType.
Proof.
  unfold page_end. intros E ->. apply bind_Err in E as [E|(u & db1 & _ & E)].
  { destruct (ps_passChanged st); [|discriminate E]. unfold putMissionPass in E. by op_inv E. }
  op_inv_step E; [|discriminate E].
  destruct (advanceProjection_max now ws pass (pg_NextCursor page) (ps_seq st)
    (ps_maxVersion st) db1) as (row & Ea & _).
  rewrite (bind_run _ _ _ _ _ Ea) in E. discriminate E.
Qed.

(** The page is read up to an event of unknown type. *)
Definition reaches_unknown (clk now : time) (ws pass : string) (page : EventPage) (db : DB) : Prop :=
  ∃ p proj pre ev post st db1, page_start ws pass page db = (Ok (p, proj), db) ∧
    pg_Events page = (pre ++ ev :: post)%list ∧ unknown_event ev ∧
    apply_events clk now ws pass (version_floor p proj) pre
      (Mk_page_state p (pj_EventSeq proj) (version_floor p proj) zero_time 0 false) db = (Ok st, db1).

Lemma applyPageTx_unknown clk now ws pass page db :
  (∃ db', applyPageTx clk now ws pass page db = (Err errUnknownEventType, db')) ↔
  reaches_unknown clk now ws pass page db.
Proof.
  unfold applyPageTx, reaches_unknown. split.
  - intros [db' E]. apply bind_Err in E as [E|([p proj] & db1 & Es & E)].
    { by apply page_start_run in E as [_ E]. }
    pose proof Es as (-> & _)%page_start_run.
    cbv zeta in E. apply bind_Err in E as [E|(st & db2 & _ & E)]; [|by apply page_end_other in E].
    destruct (proj1 (apply_events_unknown _ _ _ _ _ _ _ _) (ex_intro _ _ E))
      as (pre & ev & post & st1 & db2 & Hp & Hev & E2).
    exists p, proj, pre, ev, post, st1, db2. by split_and!.
  - intros (p & proj & pre & ev & post & st & db1 & Es & Hp & Hev & E).
    rewrite (bind_run _ _ _ _ _ Es). cbv zeta.
    destruct (proj2 (apply_events_unknown clk now ws pass (version_floor p proj) (pg_Events page)
      (Mk_page_state p (pj_EventSeq proj) (version_floor p proj) zero_time 0 false) db)) as [db' E'].
    { by exists pre, ev, post, st, db1. }
    exists db'. by rewrite (bind_fail _ _ _ _ _ E').
Qed.

(** A page is refused while the projection is latched. *)
Lemma applyPageTx_latched clk now ws pass page db p row :
  db_mission_passes db !! (ws, pass) = Some p →
  db_mission_projections db !! (ws, pass) = Some row → pj_Compatible row = false →
  applyPageTx clk now ws pass page db = (Err ErrProjectionIncompatible, db).
Proof.
  intros Hp Hr Hc. unfold applyPageTx. apply bind_fail. unfold page_start, getMissionPass.
  rewrite (bind_run _ _ _ _ _ (select_run _ _ _ _ Hp)).
  unfold getMissionProjection. rewrite (try_then _ _ _ _ _ (select_run _ _ _ _ Hr)).
  apply bind_fail. rewrite require_else; [done|]. by rewrite Hc.
Qed.

Section failures.
Context `{Env}.

Lemma markIncompatible_run ws pass w :
  ∃ row, markIncompatible true ws pass w =
    (Ok tt, w <| w_ticks := S (w_ticks w) |>
              <| w_db := (w_db w) <| db_mission_projections :=
                   <[(ws, pass) := row]> (db_mission_projections (w_db w)) |> |>
              <| w_gate := Some IncompatibleProjectionReason |>) ∧
    latched row ∧
    (pj_Cursor row, pj_EventSeq row, pj_MissionVersion row) = resume_point (w_db w) ws pass.
Proof.
  destruct (markProjectionIncompatible_run (clock (w_ticks w)) ws pass
    IncompatibleProjectionReason (w_db w)) as (row & Em & Hrow).
  exists row. unfold markIncompatible. rewrite require_then, now_then by done.
  erewrite bind_run by (apply tx_run; exact Em). split; [reflexivity|].
  destruct Hrow as (? & ? & ? & ?). done.
Qed.

Lemma ApplyPage_Err gate ws pass page w e w' :
  ApplyPage gate ws pass page w = (Err e, w') →
  let reached := reaches_unknown (clock (w_ticks w)) (clock (S (w_ticks w))) ws pass page (w_db w) in
  (w_db w' = w_db w ∧ w_gate w' = w_gate w ∧ e ≠ errUnknownEventType ∧
   (reached → gate = false ∨ ws = "" ∨ pass = "")) ∨
  (e = ErrProjectionIncompatible ∧ (gate = true ∧ ws ≠ "") ∧ pass ≠ "" ∧
   w_gate w' = Some IncompatibleProjectionReason ∧ reached ∧
   is_Some (db_mission_passes (w_db w) !! (ws, pass)) ∧
   ∃ row, w_db w' = (w_db w) <| db_mission_projections :=
        <[(ws, pass) := row]> (db_mission_projections (w_db w)) |> ∧ latched row ∧
      (pj_Cursor row, pj_EventSeq row, pj_MissionVersion row) = resume_point (w_db w) ws pass).
Proof.
  intros E reached. unfold ApplyPage in E. op_inv_step E.
  2: { injection E as <- <-. left. split_and!; try done. intros _. right. apply dec_stable. tauto. }
  rewrite !now_then in E. try_inv E Et. destruct r as [n|e1]; [discriminate E|].
  apply tx_Err in Et as [[db1 Et] ->].
  destruct (decide (e1 = errUnknownEventType)) as [->|N].
  2: { injection E as <- <-. left. split_and!; try done.
       intros [db2 Hr]%applyPageTx_unknown. cbn in Et. rewrite Hr in Et. by injection Et as <- _. }
  assert (reached) as Hr by (apply applyPageTx_unknown; by eexists).
  destruct gate; [right|injection E as <- <-; left; split_and!; [done|done|done|by left]].
  destruct (markIncompatible_run ws pass
    (w <| w_ticks := S (S (w_ticks w)) |>)) as (row & Em & Hl & Hrp).
  rewrite (bind_run _ _ _ _ _ Em) in E. injection E as <- <-.
  split_and!; try done; try tauto; [|by exists row].
  destruct Hr as (p & proj & _ & _ & _ & _ & _ & Es & _). apply page_start_run in Es as (_ & Hp & _). by exists p.
Qed.

(** C20: applying a page is all or nothing, and an event type the program
    does not know latches the projection.  A page is read up to such an event
    when every event before it applies.  When [ApplyPage] fails without
    reaching one (or the projector has no gate), the database and the gate
    are untouched.  When it reaches one, [ApplyPage] always fails: no event,
    pass or resume point changed, only the projection is marked incompatible
    and stale with the fixed reason, the gate is latched, and every later
    page for that pass is refused without any effect. *)
Theorem ApplyPage_failure ws pass page w r w' gate :
  ApplyPage gate ws pass page w = (r, w') →
  let reached := reaches_unknown (clock (w_ticks w)) (clock (S (w_ticks w))) ws pass page (w_db w) in
  (∀ e, r = Err e → ¬ reached ∨ gate = false ∨ ws = "" ∨ pass = "" →
     w_db w' = w_db w ∧ w_gate w' = w_gate w) ∧
  (reached → gate = true → ws ≠ "" → pass ≠ "" →
   r = Err ErrProjectionIncompatible ∧ w_gate w' = Some IncompatibleProjectionReason ∧
   (∃ row, w_db w' = (w_db w) <| db_mission_projections :=
        <[(ws, pass) := row]> (db_mission_projections (w_db w)) |> ∧ latched row ∧
      (pj_Cursor row, pj_EventSeq row, pj_MissionVersion row) = resume_point (w_db w) ws pass) ∧
   ∀ gate2 page2, ∃ w2,
     ApplyPage gate2 ws pass page2 w' = (Err ErrProjectionIncompatible, w2) ∧
     w_db w2 = w_db w' ∧ w_gate w2 = w_gate w').
Proof.
  intros E reached. split.
  - intros e -> Hn. apply ApplyPage_Err in E as [(Ed & Eg & _)|(-> & [Hgate Hw] & Hs & Hg & Hr & _)]; [done|].
    exfalso. by destruct Hn as [Hn|[Hn|[Hn|Hn]]]; congruence || done.
  - intros Hr -> Hws Hpass. destruct r as [n|e].
    + exfalso. unfold ApplyPage in E. rewrite require_then, !now_then in E by tauto.
      try_inv E Et. destruct r as [n'|e]; [|by case_decide; [call_inv E Em|]; discriminate E].
      apply tx_Ok in Et as (db & Et & _). apply applyPageTx_unknown in Hr as [db' Hr].
      cbn in Et. rewrite Hr in Et. discriminate Et.
    + apply ApplyPage_Err in E as [(_ & _ & _ & Hc)|(-> & _ & _ & Hg & _ & [p Hp] & row & Hdb & Hl & Hrow)].
      { destruct (Hc Hr) as [|[|]]; done. }
      split; [done|]. split; [done|]. split; [by exists row|].
      intros gate2 page2. eexists. split; [|split].
      * unfold ApplyPage. rewrite require_then, !now_then by tauto.
        erewrite try_then by (eapply tx_fail, (applyPageTx_latched _ _ _ _ _ _ p row);
          [cbn; rewrite Hdb; exact Hp|cbn; rewrite Hdb; apply lookup_insert_eq|apply Hl]).
        cbv beta iota. rewrite decide_False by done. reflexivity.
      * reflexivity.
      * reflexivity.
Qed.
End failures.

(** ** A page on the bench *)

Definition bench_event_pass : MissionPassRecord :=
  bench_pass <| mp_State := PassRunning |> <| mp_AuthScopeMissionVersion := 1 |>
    <| mp_MissionRef := "mission-1" |>.

Definition bench_payload (version : Z) (fields : list (string * json)) : string :=
  render false (JObj ([("workspace_id", JStr "ws"); ("mission_version", JInt version);
                       ("resource_digest", JStr "d1")] ++ fields)).

Definition bench_event (id ty : string) (version : Z) (fields : list (string * json)) : MissionEvent :=
  MkMissionEvent id ty 1699999990000 (bench_payload version fields).

Definition bench_started : MissionEvent :=
  bench_event "e1" EventMissionStarted 1
    [("branch", JStr "authscope/pass-1-5"); ("head_sha", JStr (hex (of_bytes (replicate 20 171))))].
Definition bench_revoked : MissionEvent :=
  bench_event "e2" EventMissionRevoked 1 [("reason_code", JStr "founder_requested")].

Definition bench_page : EventPage := MkEventPage [bench_started; bench_revoked; bench_started] "c1".
Definition bench_unknown_page : EventPage :=
  MkEventPage [bench_started; bench_event "e3" "mission_paused" 1 []] "c1".

Definition bench_event_world : World := start (bench_DB_with bench_event_pass).

Lemma ApplyPage_failure_witness :
  let H := bench_env in let w := bench_event_world in
  let w' := (ApplyPage true "ws" "pass-1" bench_unknown_page w).2 in
  (ApplyPage true "ws" "pass-1" bench_unknown_page w).1 = Err ErrProjectionIncompatible ∧
  w_gate w' = Some IncompatibleProjectionReason ∧
  db_mission_events (w_db w') = db_mission_events (w_db w).
Proof.
  intros H w w'. split; [vm_compute; reflexivity|].
  assert (ApplyPage true "ws" "pass-1" bench_unknown_page w = (Err ErrProjectionIncompatible, w'))
    as E by (unfold w'; rewrite (surjective_pairing (ApplyPage _ _ _ _ w)) at 1; f_equal;
             vm_compute; reflexivity).
  destruct (ApplyPage_failure "ws" "pass-1" bench_unknown_page w _ w' true E) as [_ Hlatch].
  destruct Hlatch as (_ & Hg & (row & Hdb & _) & _); [|done..|].
  - apply applyPageTx_unknown. eexists.
    assert ((applyPageTx (clock (w_ticks w)) (clock (S (w_ticks w))) "ws" "pass-1" bench_unknown_page
      (w_db w)).1 = Err errUnknownEventType) as Er by (vm_compute; reflexivity).
    rewrite <- Er. apply surjective_pairing.
  - split; [exact Hg|]. rewrite Hdb. reflexivity.
Defined.

(** ** Two behaviours worth knowing *)

Lemma apply_event_below_floor clk now ws pass floor ev st db st' db' v :
  (∀ c fill, decodePayload (ev_EventType ev) (ev_Payload ev) = Ok (c, fill) →
     ec_MissionVersion c = v) → v < floor →
  apply_event clk now ws pass floor ev st db ≠ (Ok st', db').
Proof.
  intros Hv Hl E. apply apply_event_Ok in E as (safe & Ed & _).
  apply decodeEvent_Ok in Ed as (_ & _ & _ & _ & _ & _ & _ & _ & _ & Hf & c & fill & Ep & _ & E & _).
  rewrite E, (Hv _ _ Ep) in Hf. lia.
Qed.

(** A page that brings an event of an earlier mission version fails as a
    whole: once an expansion decision has raised the version of the pass, the
    events AuthScope recorded before it and the program had not yet read can
    no longer be projected. *)
Example late_event_blocks_projection :
  let H := bench_env in
  let w := start (bench_DB_with (bench_event_pass <| mp_AuthScopeMissionVersion := 2 |>)) in
  is_ok (ApplyPage true "ws" "pass-1" (MkEventPage [bench_started] "c1") w).1 = false ∧
  is_ok (ApplyPage true "ws" "pass-1" (MkEventPage [bench_started] "c1") bench_event_world).1
    = true.
Proof. split; vm_compute; reflexivity. Qed.

(** A re-delivered page whose events span a version change fails too,
    although it was applied before. *)
Example replay_across_versions_fails :
  let H := bench_env in
  let page := MkEventPage [bench_started; bench_event "e4" EventExpansionRequested 2
                [("reason_code", JStr "policy_violation")]] "c1" in
  let r1 := ApplyPage true "ws" "pass-1" page bench_event_world in
  r1.1 = Ok 2 ∧ is_ok (ApplyPage true "ws" "pass-1" page r1.2).1 = false.
Proof. split; vm_compute; reflexivity. Qed.
