(* ===== verification/EventJournal.v ===== *)
(** * The event journal

    An abstract specification of the event projection: per pass, an
    append-only list of safe events, numbered from one, to which a page adds
    the events not yet in it.  [journal_of] relates it to the tables; the
    theorems show that the page application of file Events implements it and
    that reading a timeline returns a window of it. *)

From S2P Require Import Prelude GoTime Sha256 Json JsonParse Rfc3339 Codec StoreModel StorePass PassModel.
From S2P Require Import World Bench Events.

(** ** Cursors order as numbers do *)

Lemma compare_app a b x y : String.length a = String.length b →
  String.compare (a +:+ x) (b +:+ y) =
  match String.compare a b with Eq => String.compare x y | c => c end.
Proof.
  revert b. induction a as [|c a IH]; intros [|d b] E; try discriminate E; [done|].
  change (String.compare (String c (a +:+ x)) (String d (b +:+ y)) =
    match String.compare (String c a) (String d b) with Eq => String.compare x y | c => c end).
  cbn [String.compare]. destruct (Ascii.compare c d); [|done..]. apply IH. by injection E.
Qed.

Lemma digit_compare a b : Ascii.compare (digit a) (digit b) = (a mod 10 ?= b mod 10).
Proof.
  pose proof (digit_val a) as Ha. pose proof (digit_val b) as Hb.
  unfold Ascii.compare. rewrite <- N2Z.inj_compare.
  unfold byte_val in Ha, Hb. rewrite Ha, Hb.
  destruct (Z.compare_spec (a mod 10) (b mod 10)) as [E|E|E];
    [apply Z.compare_eq_iff|apply Z.compare_lt_iff|apply Z.compare_gt_iff]; lia.
Qed.

Lemma length_digits w n : String.length (digits w n) = w.
Proof.
  destruct (digits_text w n) as (H & _). unfold bytes_of in H. rewrite length_fmap in H.
  etransitivity; [|exact H]. clear H. generalize (digits w n) as s. intros s.
  induction s; cbn; auto.
Qed.

Lemma digits_compare w a b : 0 ≤ a < 10 ^ Z.of_nat w → 0 ≤ b < 10 ^ Z.of_nat w →
  String.compare (digits w a) (digits w b) = (a ?= b).
Proof.
  revert a b. induction w as [|w IH]; intros a b Ha Hb.
  { cbn in *. replace a with 0 by lia. by replace b with 0 by lia. }
  rewrite Nat2Z.inj_succ, Z.pow_succ_r in Ha, Hb by lia.
  cbn [digits]. rewrite compare_app by (by rewrite !length_digits).
  rewrite IH by (split; [apply Z.div_pos; lia|apply Z.div_lt_upper_bound; lia]).
  pose proof (Z.div_mod a 10 ltac:(lia)). pose proof (Z.div_mod b 10 ltac:(lia)).
  pose proof (Z.mod_pos_bound a 10 ltac:(lia)). pose proof (Z.mod_pos_bound b 10 ltac:(lia)).
  destruct (Z.compare_spec (a / 10) (b / 10)) as [E|E|E].
  - cbn [String.compare]. rewrite digit_compare.
    destruct (Z.compare_spec (a mod 10) (b mod 10)); symmetry;
      [apply Z.compare_eq_iff|apply Z.compare_lt_iff|apply Z.compare_gt_iff]; lia.
  - symmetry. apply Z.compare_lt_iff. lia.
  - symmetry. apply Z.compare_gt_iff. lia.
Qed.

(** Sequence numbers of an int64. *)
Definition seq_range (n : Z) : Prop := 0 ≤ n < 2 ^ 63.

Lemma eventCursor_compare a b : seq_range a → seq_range b →
  String.compare (eventCursor a) (eventCursor b) = (a ?= b).
Proof.
  unfold seq_range, eventCursor. intros Ha Hb. rewrite !decide_False by lia.
  apply digits_compare; change (10 ^ Z.of_nat 20) with 100000000000000000000; lia.
Qed.

Lemma eventCursor_le a b : seq_range a → seq_range b →
  str_le (eventCursor a) (eventCursor b) ↔ a ≤ b.
Proof.
  intros Ha Hb. unfold str_le, String.leb. rewrite eventCursor_compare by done.
  unfold Z.le. by destruct (a ?= b).
Qed.

Lemma eventCursor_ltb a b : seq_range a → seq_range b →
  String.ltb (eventCursor a) (eventCursor b) = bool_decide (a < b).
Proof.
  intros Ha Hb. unfold String.ltb. rewrite eventCursor_compare by done.
  case_bool_decide as D; unfold Z.lt in D; by destruct (a ?= b).
Qed.

Lemma eventCursor_inj a b : seq_range a → seq_range b → eventCursor a = eventCursor b → a = b.
Proof.
  intros Ha Hb E. pose proof (eventCursor_compare a b Ha Hb) as C. rewrite E in C.
  rewrite eventCursor_compare, Z.compare_refl in C by done. symmetry in C.
  by apply Z.compare_eq_iff.
Qed.

Lemma eventCursor_pos n : seq_range n → String.ltb "" (eventCursor n) = true.
Proof.
  intros Hn. destruct (eventCursor n) eqn:E; [|done]. exfalso.
  unfold eventCursor, seq_range in *. rewrite decide_False in E by lia.
  apply (f_equal String.length) in E. by rewrite length_digits in E.
Qed.

(** ** The journal of a pass *)

Lemma sorted_lookup {A} (R : relation A) l :
  (∀ i j x y, (i < j)%nat → l !! i = Some x → l !! j = Some y → R x y) → StronglySorted R l.
Proof.
  induction l as [|a l IH]; intros H; constructor.
  - apply IH. intros i j x y Hij Hi Hj. apply (H (S i) (S j)); [lia|done..].
  - apply Forall_lookup. intros j y Hj. apply (H O (S j)); [lia|done..].
Qed.

(** Rows sit at the key their columns spell. *)
Definition events_keyed (db : DB) : Prop :=
  map_Forall (λ k r, k = event_key r) (db_mission_events db).

Definition numbered (log : list SafeEvent) : Prop :=
  ∀ i s, log !! i = Some s → sf_Cursor s = eventCursor (Z.of_nat i + 1).

Definition entry_ok (s : SafeEvent) : Prop :=
  allowlisted s ∧ int64_fields s ∧ json_year (sf_OccurredAt s).

(** The rows of a pass are the entries of [log], each allowlisted, numbered
    from one. *)
Record journal_rows (ws pass : string) (db : DB) (log : list SafeEvent) : Prop := {
  jo_rows : ∀ id r, db_mission_events db !! (ws, pass, id) = Some r ↔
    ∃ s, s ∈ log ∧ sf_EventID s = id ∧ r = stored_event ws pass s;
  jo_numbered : numbered log;
  jo_fits : seq_range (Z.of_nat (length log));
  jo_safe : Forall entry_ok log
}.

(** ... and the projection's sequence number is their count. *)
Definition journal_of (ws pass : string) (db : DB) (log : list SafeEvent) : Prop :=
  journal_rows ws pass db log ∧ (resume_point db ws pass).1.2 = Z.of_nat (length log).

(** The cursor after which the entries from index [i] on are read. *)
Definition resume_cursor (i : nat) : string :=
  if decide (i = O) then "" else eventCursor (Z.of_nat i).

Section journal.
Context (ws pass : string) (db : DB) (log : list SafeEvent).
Hypothesis Hkeyed : events_keyed db.
Hypothesis Hjournal : journal_rows ws pass db log.

Lemma journal_index i s : log !! i = Some s → seq_range (Z.of_nat i + 1).
Proof.
  intros Hi. apply lookup_lt_Some in Hi. pose proof (jo_fits _ _ _ _ Hjournal) as Hf.
  unfold seq_range in *. lia.
Qed.

Lemma journal_cursor_le i j s t : log !! i = Some s → log !! j = Some t →
  str_le (sf_Cursor s) (sf_Cursor t) ↔ (i ≤ j)%nat.
Proof.
  intros Hs Ht. pose proof (jo_numbered _ _ _ _ Hjournal) as Hn.
  rewrite (Hn _ _ Hs), (Hn _ _ Ht), eventCursor_le by (by eapply journal_index). lia.
Qed.

Lemma journal_after i j s : (i ≤ length log)%nat → log !! j = Some s →
  String.ltb (resume_cursor i) (sf_Cursor s) = true ↔ (i ≤ j)%nat.
Proof.
  intros Hi Hj. pose proof (journal_index _ _ Hj) as Hr.
  rewrite (jo_numbered _ _ _ _ Hjournal _ _ Hj). unfold resume_cursor.
  case_decide as D; [subst; rewrite eventCursor_pos by done; split; [lia|done]|].
  pose proof (jo_fits _ _ _ _ Hjournal) as Hf.
  rewrite eventCursor_ltb by (done || (unfold seq_range in *; lia)).
  rewrite bool_decide_eq_true. lia.
Qed.

Lemma journal_NoDup : NoDup (stored_event ws pass <$> log).
Proof.
  apply NoDup_alt. intros i j r. rewrite !list_lookup_fmap.
  destruct (log !! i) as [s|] eqn:Es, (log !! j) as [t|] eqn:Et; try done.
  intros E1 E2. injection E1 as E1. injection E2 as E2.
  assert (sf_Cursor s = sf_Cursor t) as E by exact (f_equal me_Cursor (eq_trans E1 (eq_sym E2))).
  rewrite (jo_numbered _ _ _ _ Hjournal _ _ Es), (jo_numbered _ _ _ _ Hjournal _ _ Et) in E.
  apply eventCursor_inj in E; [lia|by eapply journal_index..].
Qed.

Lemma events_after_NoDup cur : NoDup (events_after ws pass cur (db_mission_events db)).
Proof.
  unfold events_after, table_rows. apply NoDup_filter, NoDup_fmap_2_strong.
  - intros [k1 r1] [k2 r2] H1 H2 E. cbn in E. subst r2.
    apply elem_of_map_to_list in H1, H2. apply Hkeyed in H1, H2. congruence.
  - apply NoDup_map_to_list.
Qed.

Lemma events_after_rows i r : (i ≤ length log)%nat →
  r ∈ events_after ws pass (resume_cursor i) (db_mission_events db) ↔
  r ∈ stored_event ws pass <$> drop i log.
Proof.
  intros Hi. unfold events_after. rewrite elem_of_table_rows, list_elem_of_fmap. split.
  - intros [(Hw & Hp & Hc) [k Hk]]. pose proof (Hkeyed _ _ Hk) as Ek. cbn in Ek. subst k.
    unfold event_key in Hk. rewrite Hw, Hp in Hk.
    apply (jo_rows _ _ _ _ Hjournal) in Hk as (s & Hs & _ & ->). exists s. split; [done|].
    apply list_elem_of_lookup in Hs as [j Hj]. apply (journal_after i) in Hj as Ha; [|done].
    apply Ha in Hc. apply list_elem_of_lookup. exists (j - i)%nat. rewrite lookup_drop.
    by replace (i + (j - i))%nat with j by lia.
  - intros (s & -> & Hs). apply list_elem_of_lookup in Hs as [j Hj]. rewrite lookup_drop in Hj.
    split.
    + split_and!; [done..|]. apply (journal_after i) in Hj as Ha; [|done]. apply Ha. lia.
    + eexists. apply (jo_rows _ _ _ _ Hjournal). exists s. split_and!; [|done..].
      by eapply list_elem_of_lookup_2.
Qed.

(** Rows in cursor order are the journal in its own order. *)
Lemma journal_listing i : (i ≤ length log)%nat →
  order_by me_Cursor me_EventID
    (events_after ws pass (resume_cursor i) (db_mission_events db)) =
  stored_event ws pass <$> drop i log.
Proof.
  intros Hi. apply (StronglySorted_unique_strong (lex_le me_Cursor me_EventID)).
  - intros x y Hx Hy Hxy Hyx. rewrite order_by_perm in Hx. apply events_after_rows in Hx; [|done].
    apply list_elem_of_fmap in Hx as (s & -> & Hs), Hy as (t & -> & Ht).
    apply list_elem_of_lookup in Hs as [a Ha], Ht as [b Hb]. rewrite !lookup_drop in Ha, Hb.
    apply lex_le_key in Hxy, Hyx. cbn in Hxy, Hyx.
    apply (journal_cursor_le _ _ _ _ Ha Hb) in Hxy. apply (journal_cursor_le _ _ _ _ Hb Ha) in Hyx.
    replace b with a in Hb by lia. congruence.
  - apply order_by_sorted.
  - apply sorted_lookup. intros a b x y Hab. rewrite !list_lookup_fmap, !lookup_drop.
    intros (s & Ha & ->)%fmap_Some (t & Hb & ->)%fmap_Some. unfold lex_le. cbn.
    pose proof (journal_cursor_le _ _ _ _ Ha Hb) as Hle.
    pose proof (journal_cursor_le _ _ _ _ Hb Ha) as Hge.
    case_decide as D; [|apply Hle; lia]. exfalso. rewrite D in Hge.
    assert (i + b ≤ i + a)%nat by (apply Hge; reflexivity). lia.
  - rewrite order_by_perm. apply NoDup_Permutation.
    + apply events_after_NoDup.
    + pose proof journal_NoDup as Hn. rewrite <- (take_drop i log), fmap_app in Hn.
      by apply NoDup_app in Hn as (_ & _ & ?).
    + intros r. by apply events_after_rows.
Qed.

(** Ids are not repeated in a journal. *)
Lemma journal_has id :
  is_Some (db_mission_events db !! (ws, pass, id)) ↔ id ∈ sf_EventID <$> log.
Proof.
  rewrite list_elem_of_fmap. split.
  - intros [r Hr]. apply (jo_rows _ _ _ _ Hjournal) in Hr as (s & Hs & <- & _). by exists s.
  - intros (s & -> & Hs). eexists. apply (jo_rows _ _ _ _ Hjournal). by exists s.
Qed.
End journal.

(** ** Publishing *)

(** The safe fields of an event, which do not depend on when or after what
    it is read. *)
Definition safe_of (ws : string) (ev : MissionEvent) : res SafeEvent :=
  decodeEvent ev ws 0 (UnixMilli (ev_OccurredAt ev)) zero_time.

Lemma safe_of_decode ev ws floor clk prev safe :
  decodeEvent ev ws floor clk prev = Ok safe → safe_of ws ev = Ok safe.
Proof.
  unfold safe_of, decodeEvent. cbv zeta. rewrite !require_res_bind_Ok.
  intros (H1 & H2 & H3 & H4 & _ & _ & E).
  apply res_bind_Ok in E as ([c fill] & Ep & E). rewrite !require_res_bind_Ok in E.
  destruct E as (H5 & H6 & _ & E). split_and!; try done.
  - unfold After, eventClockSkew, Minute, Second. lia.
  - intros [Hz _]. by apply Hz.
  - apply res_bind_Ok. exists (c, fill). split; [exact Ep|]. cbv beta iota.
    rewrite !require_res_bind_Ok. done.
Qed.

(** The [n]-th entry of a journal. *)
Definition entry (ws : string) (n : nat) (ev : MissionEvent) : SafeEvent :=
  (match safe_of ws ev with Ok s => s | Err _ => zero_SafeEvent end)
    <| sf_Cursor := eventCursor (Z.of_nat n) |>.

(** The specification of a page: events whose id the journal has are
    skipped, the others are appended in order. *)
Fixpoint publish (ws : string) (log : list SafeEvent) (evs : list MissionEvent)
    : list SafeEvent :=
  match evs with
  | [] => log
  | ev :: evs' =>
      if decide (ev_EventID ev ∈ sf_EventID <$> log) then publish ws log evs'
      else publish ws (log ++ [entry ws (S (length log)) ev])%list evs'
  end.

Lemma journal_rows_ext ws pass db db' log :
  (∀ id, db_mission_events db' !! (ws, pass, id) = db_mission_events db !! (ws, pass, id)) →
  journal_rows ws pass db log → journal_rows ws pass db' log.
Proof.
  intros He [H1 H2 H3 H4]. constructor; try done. intros id r. by rewrite He.
Qed.

Lemma journal_rows_append ws pass db log id s :
  journal_rows ws pass db log → id ∉ sf_EventID <$> log → sf_EventID s = id →
  sf_Cursor s = eventCursor (Z.of_nat (length log) + 1) →
  seq_range (Z.of_nat (length log) + 1) → entry_ok s →
  journal_rows ws pass (db <| db_mission_events :=
    <[(ws, pass, id) := stored_event ws pass s]> (db_mission_events db) |>) (log ++ [s]).
Proof.
  intros [H1 H2 H3 H4] Hn <- Hc Hr Ha. constructor.
  - intros id r. cbn [db_mission_events upd]. rewrite lookup_insert_Some. split.
    + intros [[[= <-] <-]|[_ Hk]].
      * exists s. rewrite elem_of_app, list_elem_of_singleton. auto.
      * apply H1 in Hk as (t & Ht & E). exists t. rewrite elem_of_app. auto.
    + intros (t & Ht & <- & ->). rewrite elem_of_app, list_elem_of_singleton in Ht.
      destruct Ht as [Ht| ->]; [right|by left]. split.
      * intros [= E]. apply Hn. rewrite E. by apply list_elem_of_fmap_2.
      * apply H1. by exists t.
  - intros i t. rewrite lookup_snoc_Some. intros [[_ Ht]|[-> ->]]; [by apply H2|done].
  - rewrite length_app. cbn. by rewrite Nat2Z.inj_add.
  - apply Forall_app. split; [done|]. by constructor.
Qed.

Lemma apply_event_publishes clk now ws pass floor ev st db st' db' log :
  apply_event clk now ws pass floor ev st db = (Ok st', db') →
  events_keyed db → journal_rows ws pass db log → ps_seq st = Z.of_nat (length log) →
  seq_range (Z.of_nat (length log) + 1) →
  let log' := publish ws log [ev] in
  events_keyed db' ∧ journal_rows ws pass db' log' ∧ ps_seq st' = Z.of_nat (length log') ∧
  ps_stored st' - ps_stored st = ps_seq st' - ps_seq st ∧
  (∀ k, k.1 ≠ (ws, pass) → db_mission_events db' !! k = db_mission_events db !! k) ∧
  db_mission_passes db' = db_mission_passes db ∧
  db_mission_projections db' = db_mission_projections db.
Proof.
  intros E Hk Hj Hs Hr. apply apply_event_Ok in E as (safe & Ed & Hy & _ & _ & E).
  pose proof (journal_has _ _ _ _ Hj (ev_EventID ev)) as Hh. cbn [publish].
  destruct (db_mission_events db !! _) as [row|].
  - destruct E as (-> & -> & -> & _). rewrite decide_True by (by apply Hh).
    split_and!; try done. lia.
  - destruct E as (-> & -> & -> & _).
    rewrite decide_False by (intros Hin; apply Hh in Hin as [? ?]; done).
    unfold entry. rewrite (safe_of_decode _ _ _ _ _ _ Ed).
    replace (Z.of_nat (S (length log))) with (ps_seq st + 1) by lia.
    apply decodeEvent_Ok in Ed as (Ha & Hi & Hid & _). split_and!.
    + intros k r. cbn [db_mission_events upd]. rewrite lookup_insert_Some.
      intros [[<- <-]|[_ Hl]]; [|by apply Hk].
      unfold event_key. cbn. by rewrite Hid.
    + apply journal_rows_append; try done.
      * intros Hin. by apply Hh in Hin as [? ?].
      * cbn. by rewrite Hs.
    + rewrite length_app. cbn. lia.
    + lia.
    + intros k N. cbn [db_mission_events upd]. apply lookup_insert_ne. by intros <-.
    + done.
    + done.
Qed.

Lemma publish_cons ws log ev evs :
  publish ws log (ev :: evs) = publish ws (publish ws log [ev]) evs.
Proof. cbn [publish]. by case_decide. Qed.

Lemma publish_length ws log evs :
  (length log ≤ length (publish ws log evs) ≤ length log + length evs)%nat.
Proof.
  revert log. induction evs as [|ev evs IH]; intros log; cbn [publish length]; [lia|].
  case_decide; [specialize (IH log); lia|].
  specialize (IH (log ++ [entry ws (S (length log)) ev])%list).
  rewrite length_app in IH. cbn in IH. lia.
Qed.

(** What a page changes outside the rows it writes. *)
Definition other_events_same (ws pass : string) (db db' : DB) : Prop :=
  ∀ k, k.1 ≠ (ws, pass) → db_mission_events db' !! k = db_mission_events db !! k.

Lemma apply_events_publishes clk now ws pass floor evs st db st' db' log :
  apply_events clk now ws pass floor evs st db = (Ok st', db') →
  events_keyed db → journal_rows ws pass db log → ps_seq st = Z.of_nat (length log) →
  Z.of_nat (length log + length evs) < 2 ^ 63 →
  let log' := publish ws log evs in
  events_keyed db' ∧ journal_rows ws pass db' log' ∧ ps_seq st' = Z.of_nat (length log') ∧
  ps_stored st' - ps_stored st = ps_seq st' - ps_seq st ∧
  other_events_same ws pass db db' ∧
  db_mission_passes db' = db_mission_passes db ∧
  db_mission_projections db' = db_mission_projections db.
Proof.
  revert st db log. induction evs as [|ev evs IH]; intros st db log E Hk Hj Hs Hl.
  { injection E as <- <-. cbn. split_and!; try done. lia. }
  cbn [apply_events] in E. apply bind_Ok in E as (st1 & db1 & E1 & E). cbn [length] in Hl.
  pose proof (publish_length ws log [ev]) as Hp. cbn [length] in Hp.
  eapply apply_event_publishes in E1 as (K1 & J1 & S1 & N1 & O1 & P1 & Q1);
    [|done..|unfold seq_range; lia].
  cbv zeta. rewrite publish_cons.
  eapply IH in E as (K2 & J2 & S2 & N2 & O2 & P2 & Q2); [|done..|lia].
  split_and!; try done; try congruence; [lia|].
  intros k N. by rewrite O2, O1.
Qed.

Lemma resume_point_insert db ws pass row :
  resume_point (db <| db_mission_projections := <[(ws, pass) := row]>
    (db_mission_projections db) |>) ws pass = (pj_Cursor row, pj_EventSeq row, pj_MissionVersion row).
Proof. unfold resume_point. cbn [db_mission_projections upd]. by rewrite lookup_insert_eq. Qed.

Lemma resume_point_other db ws pass k row : k ≠ (ws, pass) →
  resume_point (db <| db_mission_projections := <[k := row]> (db_mission_projections db) |>) ws pass =
  resume_point db ws pass.
Proof. intros N. unfold resume_point. cbn [db_mission_projections upd]. by rewrite lookup_insert_ne. Qed.

Lemma page_end_Ok now ws pass page proj st db n db' :
  page_end now ws pass page proj st db = (Ok n, db') →
  n = ps_stored st ∧ db_mission_events db' = db_mission_events db ∧
  (0 < ps_stored st → pg_NextCursor page ≠ pj_Cursor proj) ∧
  (∃ u, (if ps_passChanged st then putMissionPass now (ps_pass st) (mp_StoreRevision (ps_pass st))
         else mret tt) db = (Ok tt, u) ∧ db_mission_passes db' = db_mission_passes u) ∧
  (0 ≤ ps_seq st → (resume_point db' ws pass).1.2 = Z.max (resume_point db ws pass).1.2 (ps_seq st)) ∧
  ∀ ws' pass', (ws', pass') ≠ (ws, pass) → resume_point db' ws' pass' = resume_point db ws' pass'.
Proof.
  unfold page_end. intros E. apply bind_Ok in E as ([] & u & Ep & E).
  op_inv_step E; [|discriminate E].
  destruct (advanceProjection_max now ws pass (pg_NextCursor page) (ps_seq st)
    (ps_maxVersion st) u) as (row & Ea & _ & _ & Hrow).
  rewrite (bind_run _ _ _ _ _ Ea) in E. injection E as <- <-.
  assert (db_mission_events u = db_mission_events db ∧
          db_mission_projections u = db_mission_projections db) as [He Hq].
  { destruct (ps_passChanged st); [|by injection Ep as <-].
    by apply putMissionPass_Ok in Ep as (_ & _ & _ & ->). }
  split_and!; [done|done|tauto|by exists u| |].
  - intros Hs. rewrite resume_point_insert. cbn [fst snd]. unfold resume_point. rewrite <- Hq.
    destruct (db_mission_projections u !! _) as [p|]; cbn; [tauto|].
    destruct Hrow as (_ & -> & _). lia.
  - intros ws' pass' N. rewrite resume_point_other by done. unfold resume_point. by rewrite Hq.
Qed.

Section refinement.
Context `{Env}.

Lemma ApplyPage_Ok gate ws pass page w n w' :
  ApplyPage gate ws pass page w = (Ok n, w') →
  ∃ clk t db', ws ≠ "" ∧ pass ≠ "" ∧ clk = clock (w_ticks w) ∧ t = clock (S (w_ticks w)) ∧
    applyPageTx clk t ws pass page (w_db w) = (Ok n, db') ∧ w_db w' = db' ∧ w_gate w' = w_gate w.
Proof.
  unfold ApplyPage. intros E. op_inv_step E; [|discriminate E].
  rewrite !now_then in E. try_inv E Et. destruct r as [n1|e1].
  - apply tx_Ok in Et as (db1 & Et & ->). injection E as -> <-.
    eexists _, _, db1. split_and!; try done; tauto.
  - exfalso. case_decide; [|discriminate E].
    apply bind_Ok in E as (? & ? & _ & E). discriminate E.
Qed.

(** C19: the event tables implement an append-only journal per pass: when a
    page is applied, the journal of the pass becomes exactly the one the
    specification [publish] prescribes (events already present are skipped,
    the others are appended in page order and numbered consecutively, in
    their allowlisted form), the number returned is the number of entries
    added, the projection's sequence number stays their count, and the
    journals of all other passes are unchanged; when a page fails, every
    journal is unchanged. *)
Theorem ApplyPage_refines gate ws pass page w log r w' :
  events_keyed (w_db w) → journal_of ws pass (w_db w) log →
  Z.of_nat (length log + length (pg_Events page)) < 2 ^ 63 →
  ApplyPage gate ws pass page w = (r, w') →
  events_keyed (w_db w') ∧
  (∀ ws2 pass2 log2, (ws2, pass2) ≠ (ws, pass) →
     journal_of ws2 pass2 (w_db w) log2 → journal_of ws2 pass2 (w_db w') log2) ∧
  match r with
  | Ok n => journal_of ws pass (w_db w') (publish ws log (pg_Events page)) ∧
      n = Z.of_nat (length (publish ws log (pg_Events page))) - Z.of_nat (length log)
  | Err _ => journal_of ws pass (w_db w') log
  end.
Proof.
  intros Hk [Hj Hs] Hl E. destruct r as [n|e].
  - apply ApplyPage_Ok in E as (clk & t & db' & _ & _ & _ & _ & E & -> & _).
    unfold applyPageTx in E. apply bind_Ok in E as ([p proj] & db0 & Est & E).
    apply page_start_run in Est as (-> & _ & Hproj & _). cbv zeta in E.
    apply bind_Ok in E as (st & db1 & Ea & E).
    assert (pj_EventSeq proj = Z.of_nat (length log)) as Hseq.
    { rewrite <- Hs. unfold resume_point. destruct (db_mission_projections _ !! _).
      - by destruct Hproj as [_ ->].
      - by rewrite Hproj. }
    eapply apply_events_publishes in Ea as (K & J & S & N & O & _ & Q); [|done..]. cbn in N.
    apply page_end_Ok in E as (-> & He & _ & _ & Hm & Ho).
    pose proof (publish_length ws log (pg_Events page)) as Hlen.
    assert (∀ ws2 pass2, resume_point db1 ws2 pass2 = resume_point (w_db w) ws2 pass2) as Hrp
      by (intros; unfold resume_point; by rewrite Q).
    split_and!.
    + unfold events_keyed. by rewrite He.
    + intros ws2 pass2 log2 Hne [J2 S2]. split.
      * eapply journal_rows_ext; [|exact J2]. intros id. rewrite He. by apply O.
      * by rewrite Ho, Hrp.
    + split; [|rewrite Hm, Hrp, Hs, S by lia; lia].
      eapply journal_rows_ext; [|exact J]. intros id. by rewrite He.
    + lia.
  - assert (db_mission_events (w_db w') = db_mission_events (w_db w) ∧
      ∀ ws2 pass2, (resume_point (w_db w') ws2 pass2).1.2 =
                   (resume_point (w_db w) ws2 pass2).1.2) as [He Hr].
    { apply ApplyPage_Err in E as [[-> _]|(_ & _ & _ & _ & _ & _ & row & -> & _ & Hr)]; [done|].
      split; [done|]. intros ws2 pass2. destruct (decide ((ws, pass) = (ws2, pass2))) as [[= <- <-]|N].
      - by rewrite resume_point_insert, Hr.
      - by rewrite resume_point_other. }
    assert (∀ ws2 pass2 log2, journal_of ws2 pass2 (w_db w) log2 →
      journal_of ws2 pass2 (w_db w') log2) as Hall.
    { intros ws2 pass2 log2 [J2 S2]. split; [|by rewrite Hr].
      eapply journal_rows_ext; [|exact J2]. intros id. by rewrite He. }
    split_and!; [unfold events_keyed; by rewrite He|auto|by apply Hall].
Qed.
End refinement.

(** ** Reading the stored form back *)

Lemma no_name_opt_str name n v : same_name n name = false →
  no_name name (members (opt_str n v)).*1 = true.
Proof. intros H. unfold opt_str. case_decide; [done|]. cbn. by rewrite H. Qed.
Lemma no_name_opt_int name n v : same_name n name = false →
  no_name name (members (opt_int n v)).*1 = true.
Proof. intros H. unfold opt_int. case_decide; [done|]. cbn. by rewrite H. Qed.

Lemma field_opt_str n v : field as_str "" n (members (opt_str n v)) = Some v.
Proof.
  unfold opt_str. case_decide as D; [by rewrite D|]. unfold field. cbn. by rewrite same_name_refl.
Qed.
Lemma field_opt_int n v : int64_range v → field as_int 0 n (members (opt_int n v)) = Some v.
Proof.
  intros Hv. unfold opt_int. case_decide as D; [by rewrite D|]. unfold field. cbn.
  rewrite same_name_refl. cbn. by rewrite int_text.
Qed.

Ltac absent :=
  rewrite ?fmap_app, ?no_name_app, ?andb_true_iff; split_and?;
  first [apply no_name_opt_str; vm_compute; reflexivity
        |apply no_name_opt_int; vm_compute; reflexivity|lazy; reflexivity].
(** Reads an optional member: the mandatory and other optional ones are not
    it. *)
Ltac read_opt :=
  eapply option_step;
  [repeat (rewrite field_skip by absent); rewrite ?field_only by absent;
   first [apply field_opt_str|by apply field_opt_int]|cbv beta].
(** Reads the [i]-th mandatory member. *)
Ltac read_base i :=
  eapply option_step;
  [rewrite field_only by absent;
   eapply (field_only_at _ _ _ _ i);
   [lazy; reflexivity|reflexivity|done
   |cbn [as_str as_int as_time snd of_json];
    first [reflexivity|by apply parse_formatTime|by apply int_text]]|cbv beta].

Lemma stored_event_decodes s :
  json_ascii (safe_json s) = true → json_year (sf_OccurredAt s) →
  int64_range (sf_AuthScopeMissionVersion s) → int64_range (sf_PullRequestNumber s) →
  unmarshalSafe (render true (safe_json s)) = Ok s.
Proof.
  intros Ha Hy Hv Hn. unfold unmarshalSafe. rewrite parse_render by exact Ha.
  apply opt_res_Ok. cbn [mbind option_bind]. unfold safe_json. cbn [of_json].
  match goal with |- decode_safe (_ <$> ?l) = _ => change (decode_safe (members l) = Some s) end.
  rewrite !members_app. unfold decode_safe, str_field, int_field, time_field.
  read_base 0%nat. read_base 1%nat. read_base 2%nat. read_base 3%nat. read_base 4%nat.
  read_base 5%nat. do 6 read_opt. by destruct s.
Qed.

(** The strings AuthScope chooses freely; the rest of an allowlisted event
    is ASCII by its shape. *)
Definition plain_ids (s : SafeEvent) : Prop :=
  ascii_only (sf_EventID s) ∧ ascii_only (sf_ResourceDigest s) ∧ ascii_only (sf_Cursor s).

Lemma forallb_Forall_ascii (p : Z → bool) l :
  (∀ b, p b = true → 0 ≤ b < 128) → forallb p l = true → Forall (λ b, 0 ≤ b < 128) l.
Proof.
  intros Hp. induction l as [|b l IH]; cbn; [constructor|].
  intros [Hb Hl]%andb_true_iff. constructor; auto.
Qed.

Lemma in_range_true lo hi b : in_range lo hi b = true → lo ≤ b ≤ hi.
Proof.
  unfold in_range. by intros [H1%bool_decide_eq_true H2%bool_decide_eq_true]%andb_true_iff.
Qed.

Lemma branch_char_ascii b : branch_char b = true → 0 ≤ b < 128.
Proof.
  unfold branch_char. rewrite !orb_true_iff, bool_decide_eq_true.
  intros [[[H|H]|H]|H]; try apply in_range_true in H; lia.
Qed.

Lemma hex_char_ascii b : hex_char b = true → 0 ≤ b < 128.
Proof.
  unfold hex_char, hex_val. intros H. apply bool_decide_eq_true in H.
  repeat match type of H with context [in_range ?l ?h b] =>
    let D := fresh "D" in destruct (in_range l h b) eqn:D; [apply in_range_true in D; lia|] end.
  by apply is_Some_None in H.
Qed.

Lemma after_Some p l r : after p l = Some r → l = (p ++ r)%list.
Proof.
  revert l. induction p as [|a p IH]; intros [|b l] E; try discriminate E; cbn in E; [by injection E as <-..|].
  case_decide as D; [|discriminate E]. subst. by rewrite (IH _ E).
Qed.

Lemma branchPattern_ascii s : branchPattern s → ascii_only s.
Proof.
  unfold branchPattern. destruct (after _ _) as [r|] eqn:E; [|done]. intros [_ Hr].
  apply after_Some in E. unfold ascii_only. rewrite E. apply Forall_app. split.
  - by_decide.
  - eapply forallb_Forall_ascii; [apply branch_char_ascii|exact Hr].
Qed.

Lemma validateSHA_ascii s : validateSHA s = Ok tt → ascii_only s.
Proof.
  unfold validateSHA. rewrite require_res_bind_Ok, require_res_inv. intros [_ H].
  eapply forallb_Forall_ascii; [apply hex_char_ascii|exact H].
Qed.

Lemma enum_ascii (l : list string) s : Forall ascii_only l → s ∈ l → ascii_only s.
Proof. rewrite Forall_forall. auto. Qed.

Lemma empty_ascii s : s = "" → ascii_only s.
Proof. intros ->. constructor. Qed.

(** Every string of an allowlisted event but its id and digest is ASCII. *)
Lemma allowlisted_ascii s : allowlisted s → plain_ids s → json_ascii (safe_json s) = true.
Proof.
  intros (_ & Hty & _ & _ & Hs) (Hid & Hd & Hc).
  assert (ascii_only (sf_Type s)) as Ht by (eapply enum_ascii, Hty; by_decide).
  assert (ascii_only (sf_ReasonCode s) ∧ ascii_only (sf_Branch s) ∧ ascii_only (sf_HeadSHA s) ∧
    ascii_only (sf_CheckKind s) ∧ ascii_only (sf_CheckOutcome s)) as (H1 & H2 & H3 & H4 & H5).
  { unfold branch_and_head, no_branch, no_check in Hs. repeat case_decide; destruct_and!;
      split_and!; eauto using branchPattern_ascii, validateSHA_ascii, empty_ascii;
      eapply enum_ascii; try eassumption; by_decide. }
  clear Hs Hty. pose proof (formatTime_ascii (sf_OccurredAt s)) as Ho.
  unfold safe_json, opt_str, opt_int. cbn [json_ascii]. rewrite !forallb_app.
  rewrite !andb_true_iff. split_and!; cbn [forallb fst snd json_ascii];
    rewrite ?(bool_decide_true (ascii_only (sf_EventID s))),
            ?(bool_decide_true (ascii_only (sf_Cursor s))),
            ?(bool_decide_true (ascii_only (sf_Type s))),
            ?(bool_decide_true (ascii_only (formatTime (sf_OccurredAt s)))),
            ?(bool_decide_true (ascii_only (sf_ResourceDigest s))) by assumption;
    try reflexivity; case_decide; try reflexivity; cbn [forallb fst snd json_ascii];
    rewrite ?andb_true_iff, ?bool_decide_eq_true; split_and?; by_decide || done.
Qed.

(** ** Reading a timeline *)

Definition plain_entry (s : SafeEvent) : Prop :=
  ascii_only (sf_EventID s) ∧ ascii_only (sf_ResourceDigest s).

Lemma eventCursor_ascii n : ascii_only (eventCursor n).
Proof.
  unfold eventCursor. case_decide; [|apply digits_ascii].
  unfold ascii_only. rewrite bytes_of_app, Forall_app. split; [by repeat constructor|apply digits_ascii].
Qed.

Lemma journal_decodes ws pass db log s :
  journal_rows ws pass db log → s ∈ log → plain_entry s →
  unmarshalSafe (me_Payload (stored_event ws pass s)) = Ok s.
Proof.
  intros [_ Hn _ Hs] Hin [Hid Hd]. rewrite Forall_forall in Hs.
  destruct (Hs _ Hin) as (Ha & [H1 H2] & Hy). apply stored_event_decodes; [|done..].
  apply allowlisted_ascii; [done|]. split_and!; [done..|].
  apply list_elem_of_lookup in Hin as [i Hi]. rewrite (Hn _ _ Hi). apply eventCursor_ascii.
Qed.

Lemma mapM_decodes ws pass l :
  Forall (λ s, unmarshalSafe (me_Payload (stored_event ws pass s)) = Ok s) l →
  mapM (λ rec, unmarshalSafe (me_Payload rec)) (stored_event ws pass <$> l) = Ok l.
Proof.
  induction 1 as [|s l Hs _ IH]; [done|].
  change (mapM ?f (stored_event ws pass <$> s :: l)) with
    (x ← f (stored_event ws pass s); k ← mapM f (stored_event ws pass <$> l); mret (x :: k)).
  apply res_bind_Ok. exists s. split; [exact Hs|]. apply res_bind_Ok. by exists l.
Qed.

(** A timeline is a window of the journal: reading a pass's events after
    the cursor of its [i]-th entry returns exactly the entries that follow,
    in order and in their allowlisted form, up to the limit (100 when it is
    not positive), with the state of the pass and the health of its
    projection; so reading page by page shows every event once. *)
Theorem LoadProjection_reads ws pass db log p i limit :
  events_keyed db → journal_of ws pass db log → Forall plain_entry log →
  db_mission_passes db !! (ws, pass) = Some p → (i ≤ length log)%nat →
  ∃ status, LoadProjection ws pass (resume_cursor i) limit db = (Ok status, db) ∧
    pt_Events status =
      take (Z.to_nat (if decide (limit ≤ 0) then 100 else limit)) (drop i log) ∧
    pt_State status = mp_State p ∧ pt_Reconciliation status = mp_Reconciliation p ∧
    match db_mission_projections db !! (ws, pass) with
    | Some q => pt_Cursor status = pj_Cursor q ∧ pt_Compatible status = pj_Compatible q ∧
        pt_Stale status = pj_Stale q ∧ pt_Reason status = pj_IncompatibilityReason q
    | None => pt_Cursor status = "" ∧ pt_Compatible status = true ∧ pt_Stale status = false
    end.
Proof.
  intros Hk [Hj _] Hp Hpass Hi. unfold LoadProjection, getMissionPass.
  rewrite (bind_run _ _ _ _ _ (select_run _ _ _ _ Hpass)).
  rewrite (bind_run _ _ _ _ _ (listMissionEvents_run _ _ _ _ _)).
  rewrite (journal_listing ws pass db log Hk Hj i Hi), <- fmap_take.
  rewrite (bind_run _ _ _ (take (Z.to_nat (if decide (limit ≤ 0) then 100 else limit)) (drop i log)) db).
  2: { unfold lift. rewrite mapM_decodes; [done|]. apply Forall_forall. intros s Hs.
       assert (s ∈ log) as Hin.
       { rewrite <- (take_drop i log), elem_of_app. right.
         apply elem_of_take in Hs as (j & Hjs & _).
         by eapply list_elem_of_lookup_2. }
       eapply journal_decodes; [done..|]. rewrite Forall_forall in Hp. by apply Hp. }
  unfold getMissionProjection. destruct (db_mission_projections db !! (ws, pass)) as [q|] eqn:Hq.
  - rewrite (try_then _ _ _ _ _ (select_run _ _ _ _ Hq)). eexists. split; [reflexivity|]. done.
  - rewrite (try_then _ _ _ _ _ (select_none _ _ _ Hq)). rewrite decide_True by done.
    eexists. split; [reflexivity|]. done.
Qed.

(** ** The pass after a page *)

Section life_cycle.
Context `{Env}.

(** C21: a page moves its pass only along the life cycle: when a page is
    applied, the pass exists, its state moves by legal transitions, a pass
    that was over is not touched, and no page makes a pass completed or
    failed (only a verified receipt does); besides its state it may settle
    the reconciliation and note a pending receipt; no other pass changes;
    and if the page brought a new revocation or expiry event, the pass is
    over. *)
Theorem ApplyPage_life_cycle gate ws pass page w n w' :
  passes_wf (w_db w) → ApplyPage gate ws pass page w = (Ok n, w') →
  ∃ p p', db_mission_passes (w_db w) !! (ws, pass) = Some p ∧
    db_mission_passes (w_db w') !! (ws, pass) = Some p' ∧
    (∀ k, k ≠ (ws, pass) → db_mission_passes (w_db w') !! k = db_mission_passes (w_db w) !! k) ∧
    rtc life_step (mp_State p) (mp_State p') ∧
    (isTerminalPassState (mp_State p) → p' = p) ∧
    (mp_State p' = PassCompleted ∨ mp_State p' = PassFailed → p' = p) ∧
    p' = p <| mp_State := mp_State p' |> <| mp_Reconciliation := mp_Reconciliation p' |>
           <| mp_ReceiptPendingAt := mp_ReceiptPendingAt p' |>
           <| mp_StoreRevision := mp_StoreRevision p' |> <| mp_UpdatedAt := mp_UpdatedAt p' |> ∧
    (∀ id r, db_mission_events (w_db w) !! (ws, pass, id) = None →
       db_mission_events (w_db w') !! (ws, pass, id) = Some r →
       ending_type (me_EventType r) → isTerminalPassState (mp_State p')).
Proof.
  intros Hwf E. apply ApplyPage_Ok in E as (clk & t & db' & _ & _ & _ & _ & E & -> & _).
  unfold applyPageTx in E. apply bind_Ok in E as ([p proj] & db0 & Est & E).
  apply page_start_run in Est as (-> & Hp & _ & _). cbv zeta in E.
  apply bind_Ok in E as (st & db1 & Ea & E).
  assert (db_mission_passes db1 = db_mission_passes (w_db w)) as Hsame.
  { clear E. revert Ea. generalize (Mk_page_state p (pj_EventSeq proj) (version_floor p proj) zero_time 0 false).
    generalize (w_db w). induction (pg_Events page) as [|ev evs IH]; intros d st0 Ea.
    - by injection Ea as _ <-.
    - cbn [apply_events] in Ea. apply bind_Ok in Ea as (st1 & d1 & E1 & Ea).
      rewrite (IH _ _ Ea). apply apply_event_Ok in E1 as (? & _ & _ & _ & _ & E1).
      destruct (db_mission_events d !! _); by destruct E1 as (-> & _). }
  apply apply_events_progress in Ea as ((A1 & A2 & A3 & A4) & B & C & _ & D). cbn in A1, A2, A3, A4, B, C.
  apply page_end_Ok in E as (_ & He & _ & (u & Eu & Hu) & _ & _).
  destruct (ps_passChanged st) eqn:Ech.
  - destruct (C eq_refl) as [?|Hnt]; [done|]. apply putMissionPass_Ok in Eu as (_ & _ & _ & ->).
    cbn [db_mission_passes upd] in Hu. rewrite Hsame in Hu. destruct (Hwf _ _ Hp) as [Ekey _].
    assert (pass_key (ps_pass st) = (ws, pass)) as Hkey by (rewrite A4, Ekey; reflexivity).
    rewrite Hkey in Hu. rewrite Hp in Hu. cbn [fmap option_fmap option_map default] in Hu.
    eexists p, _. split; [done|]. rewrite Hu, lookup_insert_eq. split; [reflexivity|]. cbn.
    split_and!.
    + intros k N. apply lookup_insert_ne. congruence.
    + exact A1.
    + intros T. by destruct Hnt.
    + intros T. exfalso. specialize (A3 T). rewrite A3 in T. apply Hnt.
      destruct T as [-> | ->]; [by left|by right; left].
    + rewrite A4. by destruct p.
    + intros id r H1 H2. rewrite He in H2. by eapply D.
  - destruct (B eq_refl) as [_ Est]. injection Eu as <-. rewrite Hu, Hsame.
    exists p, p. split_and!; try done; [by destruct p|].
    intros id r H1 H2. rewrite He in H2. rewrite <- Est. by eapply D.
Qed.
End life_cycle.

(** ** On the bench *)

Lemma journal_rows_empty ws pass db :
  db_mission_events db = ∅ → journal_rows ws pass db [].
Proof.
  intros He. constructor; [|by intros i s|done|constructor].
  intros id r. rewrite He, lookup_empty. split; [done|].
  intros (s & Hs & _). by apply not_elem_of_nil in Hs.
Qed.

Lemma journal_of_empty ws pass db :
  db_mission_events db = ∅ → db_mission_projections db = ∅ → journal_of ws pass db [].
Proof.
  intros He Hp. split; [by apply journal_rows_empty|].
  unfold resume_point. by rewrite Hp, lookup_empty.
Qed.

Lemma events_keyed_empty db : db_mission_events db = ∅ → events_keyed db.
Proof. unfold events_keyed. intros ->. apply map_Forall_empty. Qed.

Definition bench_log : list SafeEvent :=
  [entry "ws" 1 bench_started; entry "ws" 2 bench_revoked].

Lemma bench_publish : publish "ws" [] (pg_Events bench_page) = bench_log.
Proof. vm_compute. reflexivity. Qed.

Lemma ApplyPage_refines_witness :
  let H := bench_env in
  let w := bench_event_world in let w' := (ApplyPage true "ws" "pass-1" bench_page w).2 in
  (ApplyPage true "ws" "pass-1" bench_page w).1 = Ok 2 ∧
  journal_of "ws" "pass-1" (w_db w') bench_log.
Proof.
  intros H w w'. assert ((ApplyPage true "ws" "pass-1" bench_page w).1 = Ok 2) as E1
    by (vm_compute; reflexivity).
  split; [exact E1|].
  destruct (ApplyPage_refines true "ws" "pass-1" bench_page w [] (Ok 2) w') as (_ & _ & Hj & _).
  - apply events_keyed_empty. reflexivity.
  - apply journal_of_empty; reflexivity.
  - reflexivity.
  - rewrite <- E1. apply surjective_pairing.
  - rewrite <- bench_publish. exact Hj.
Defined.

(** A database that holds a journal. *)
Lemma entry_ok_decoded ws n ev s : safe_of ws ev = Ok s → json_year (sf_OccurredAt s) →
  entry_ok (entry ws n ev) ∧ sf_EventID (entry ws n ev) = ev_EventID ev.
Proof.
  unfold entry. intros E Hy. rewrite E. unfold safe_of in E.
  apply decodeEvent_Ok in E as (Ha & Hi & Hid & _). done.
Qed.

Definition bench_timeline (evs : list MissionEvent) : DB :=
  let log := publish "ws" [] evs in
  (bench_DB_with bench_event_pass)
    <| db_mission_events := list_to_map
         ((λ s, (("ws", "pass-1", sf_EventID s), stored_event "ws" "pass-1" s)) <$> rev log) |>
    <| db_mission_projections := {[ ("ws", "pass-1") :=
         MkMissionProjection "ws" "pass-1" "c1" (Z.of_nat (length log)) 1 true false "" 0 ]} |>.

Lemma bench_timeline_journal :
  events_keyed (bench_timeline [bench_started]) ∧
  journal_of "ws" "pass-1" (bench_timeline [bench_started]) [entry "ws" 1 bench_started].
Proof.
  destruct (entry_ok_decoded "ws" 1 bench_started
    (match safe_of "ws" bench_started with Ok s => s | Err _ => zero_SafeEvent end))
    as [Hok Hid]; [vm_compute; reflexivity|by_decide|].
  assert (db_mission_events (bench_timeline [bench_started]) =
    <[("ws", "pass-1", sf_EventID (entry "ws" 1 bench_started)) :=
       stored_event "ws" "pass-1" (entry "ws" 1 bench_started)]>
      (∅ : gmap (string * string * string) MissionEventRecord)) as Hev by reflexivity.
  split.
  - intros k r Hk. rewrite Hev in Hk. apply lookup_insert_Some in Hk as [[<- <-]|[_ Hk]]; [reflexivity|done].
  - split; [|vm_compute; reflexivity].
    apply (journal_rows_ext _ _ ((bench_timeline []) <| db_mission_events :=
      <[("ws", "pass-1", "e1") := stored_event "ws" "pass-1" (entry "ws" 1 bench_started)]>
        (db_mission_events (bench_timeline [])) |>)).
    { intros id. rewrite Hev, Hid. reflexivity. }
    apply (journal_rows_append "ws" "pass-1" (bench_timeline []) [] "e1");
      [by apply journal_rows_empty|by apply not_elem_of_nil|exact Hid|reflexivity|by split|exact Hok].
Qed.

Lemma LoadProjection_reads_witness :
  let db := bench_timeline [bench_started] in
  ∃ status, LoadProjection "ws" "pass-1" "" 10 db = (Ok status, db) ∧
    pt_Events status = [entry "ws" 1 bench_started].
Proof.
  intros db. destruct bench_timeline_journal as [Hk Hj].
  destruct (LoadProjection_reads "ws" "pass-1" db _ bench_event_pass 0 10 Hk Hj)
    as (status & E & Hs & _).
  - repeat constructor; by_decide.
  - reflexivity.
  - cbn. lia.
  - exists status. split; [exact E|exact Hs].
Defined.

Lemma ApplyPage_life_cycle_witness :
  let H := bench_env in
  let w := bench_event_world in let w' := (ApplyPage true "ws" "pass-1" bench_page w).2 in
  (ApplyPage true "ws" "pass-1" bench_page w).1 = Ok 2 ∧
  ∃ p p', db_mission_passes (w_db w) !! ("ws", "pass-1") = Some p ∧
    db_mission_passes (w_db w') !! ("ws", "pass-1") = Some p' ∧
    rtc life_step (mp_State p) (mp_State p') ∧ isTerminalPassState (mp_State p').
Proof.
  intros H w w'. assert ((ApplyPage true "ws" "pass-1" bench_page w).1 = Ok 2) as E1
    by (vm_compute; reflexivity).
  split; [exact E1|].
  destruct (ApplyPage_life_cycle true "ws" "pass-1" bench_page w 2 w') as (p & p' & H1 & H2 & _ & H3 & _ & _ & _ & H4).
  - by_decide.
  - rewrite <- E1. apply surjective_pairing.
  - exists p, p'. split; [exact H1|split; [exact H2|split; [exact H3|]]].
    destruct (db_mission_events (w_db w') !! ("ws", "pass-1", "e2")) as [r|] eqn:Er;
      [|exfalso; revert Er; vm_compute; discriminate].
    apply (H4 "e2" r); [vm_compute; reflexivity|exact Er|].
    left. revert Er. vm_compute. intros [= <-]. reflexivity.
Defined.
