(* ===== verification/Receipt.v ===== *)
(** * Execution receipts (src/internal/receipt/receipt.go, verify.go, filter.go)

    The signed payload and its canonical bytes, the local verification of an
    envelope, and the public check rendered from a verified view. *)

From S2P Require Import Prelude GoTime Sha256 Base64 Json JsonParse Codec StoreModel PassModel.
From S2P Require Import Trust World Bench.

Definition OutcomeSuccess : string := "success".
Definition OutcomeFailure : string := "failure".
Definition ReasonBadSignature : string := "bad_signature".
Definition ReasonBadKey : string := "bad_key".
Definition ReasonBadPayload : string := "bad_payload".
Definition ReasonBadBinding : string := "bad_binding".

Record CheckSummary := MkCheckSummary { cs_Kind : string; cs_Outcome : string }.
#[export] Instance CheckSummary_eq_dec : EqDecision CheckSummary.
Proof. solve_decision. Defined.

Record EnforcementSummary := MkEnforcementSummary { es_Level : string; es_Scope : string }.
#[export] Instance EnforcementSummary_eq_dec : EqDecision EnforcementSummary.
Proof. solve_decision. Defined.

(** The slices of a payload are plain lists: a nil slice is normalised to an
    empty one before the only operation that tells them apart. *)
Record Payload := MkPayload {
  py_AcceptanceEvidence : list string;
  py_AggregateCostMicros : Z;
  py_Branch : string;
  py_BudgetMicros : Z;
  py_BudgetNote : string;
  py_Checks : list CheckSummary;
  py_ExceptionSummaries : list string;
  py_ExpansionDecisionRefs : list string;
  py_FinishedAt : Z;
  py_GrantID : string;
  py_HeadSHA : string;
  py_HistoricalEnforcement : list EnforcementSummary;
  py_IssueNumber : Z;
  py_KeyID : string;
  py_MissionRef : string;
  py_MissionVersions : list Z;
  py_Outcome : string;
  py_PullRequestNumber : Z;
  py_ReceiptID : string;
  py_RepositoryID : Z;
  py_SettlementDigest : string;
  py_SignedAt : Z;
  py_StartedAt : Z;
  py_TestSummaries : list string;
  py_WorkspaceID : string
}.

Record Binding := MkBinding {
  bn_WorkspaceID : string;
  bn_MissionRef : string;
  bn_GrantID : string;
  bn_Outcome : string;
  bn_MissionVersions : list Z;
  bn_ExpansionDecisionRefs : list string;
  bn_RepositoryID : Z;
  bn_IssueNumber : Z;
  bn_Branch : string;
  bn_PullRequestNumber : Z;
  bn_HeadSHA : string
}.
#[export] Instance eta_Binding : Eta Binding := λ b, MkBinding
  (bn_WorkspaceID b) (bn_MissionRef b) (bn_GrantID b) (bn_Outcome b) (bn_MissionVersions b)
  (bn_ExpansionDecisionRefs b) (bn_RepositoryID b) (bn_IssueNumber b) (bn_Branch b)
  (bn_PullRequestNumber b) (bn_HeadSHA b).

(** Here nil slices ([None]) matter: they are stored as [null]. *)
Record ReceiptView := MkReceiptView {
  vw_Verification : string;
  vw_ReasonCode : string;
  vw_ReceiptID : string;
  vw_GrantID : string;
  vw_MissionRef : string;
  vw_WorkspaceID : string;
  vw_KeyID : string;
  vw_SignedAt : Z;
  vw_ReceiptDigest : string;
  vw_SettlementDigest : string;
  vw_Outcome : string;
  vw_MissionVersions : option (list Z);
  vw_ExpansionDecisionRefs : option (list string);
  vw_RepositoryID : Z;
  vw_IssueNumber : Z;
  vw_Branch : string;
  vw_PullRequestNumber : Z;
  vw_HeadSHA : string;
  vw_Checks : option (list CheckSummary);
  vw_StartedAt : Z;
  vw_FinishedAt : Z;
  vw_AggregateCostMicros : Z;
  vw_BudgetMicros : Z;
  vw_HistoricalEnforcement : option (list EnforcementSummary)
}.
#[export] Instance eta_ReceiptView : Eta ReceiptView := λ v, MkReceiptView
  (vw_Verification v) (vw_ReasonCode v) (vw_ReceiptID v) (vw_GrantID v) (vw_MissionRef v)
  (vw_WorkspaceID v) (vw_KeyID v) (vw_SignedAt v) (vw_ReceiptDigest v) (vw_SettlementDigest v)
  (vw_Outcome v) (vw_MissionVersions v) (vw_ExpansionDecisionRefs v) (vw_RepositoryID v)
  (vw_IssueNumber v) (vw_Branch v) (vw_PullRequestNumber v) (vw_HeadSHA v) (vw_Checks v)
  (vw_StartedAt v) (vw_FinishedAt v) (vw_AggregateCostMicros v) (vw_BudgetMicros v)
  (vw_HistoricalEnforcement v).
#[export] Instance ReceiptView_eq_dec : EqDecision ReceiptView.
Proof. solve_decision. Defined.
Definition zero_ReceiptView : ReceiptView := MkReceiptView "" "" "" "" "" "" "" 0 "" "" "" None
  None 0 0 "" 0 "" None 0 0 0 0 None.

(** ** JSON forms *)

(** A struct read with or without [DisallowUnknownFields]; [null] keeps the
    zero value. *)
Definition struct_of {A} (strict : bool) (names : list string)
    (decode : list (string * value) → option A) (v : value) : option A :=
  match v with
  | VObj o => if decide (strict = true → known_fields names o) then decode o else None
  | VNull => decode []
  | _ => None
  end.

Definition CheckSummary_json (c : CheckSummary) : json :=
  JObj [("kind", enc (cs_Kind c)); ("outcome", enc (cs_Outcome c))].
Definition decode_CheckSummary (o : list (string * value)) : option CheckSummary :=
  k ← read "kind" o; r ← read "outcome" o; Some (MkCheckSummary k r).

Definition EnforcementSummary_json (e : EnforcementSummary) : json :=
  JObj [("level", enc (es_Level e)); ("scope", enc (es_Scope e))].
Definition decode_EnforcementSummary (o : list (string * value)) : option EnforcementSummary :=
  l ← read "level" o; s ← read "scope" o; Some (MkEnforcementSummary l s).

Program Definition CheckSummary_codec (strict : bool) : Codec CheckSummary := {|
  enc := CheckSummary_json;
  dec := struct_of strict ["kind"; "outcome"] decode_CheckSummary;
  zero_value := MkCheckSummary "" "";
  plain c := plain (cs_Kind c) ∧ plain (cs_Outcome c)
|}.
Next Obligation.
  intros strict c [H1 H2]. apply members_ascii. by repeat constructor; cbn; try apply enc_ascii.
Qed.
Next Obligation. done. Qed.
Next Obligation.
  intros strict [k r] [H1 H2]. cbn in H1, H2. unfold struct_of, CheckSummary_json. cbn [of_json].
  rewrite decide_True.
  - change (decode_CheckSummary (members [("kind", enc k); ("outcome", enc r)]) = Some (MkCheckSummary k r)).
    unfold decode_CheckSummary. read_all 0%nat. done.
  - intros _. apply known_keys. by_decide.
Qed.

Program Definition EnforcementSummary_codec (strict : bool) : Codec EnforcementSummary := {|
  enc := EnforcementSummary_json;
  dec := struct_of strict ["level"; "scope"] decode_EnforcementSummary;
  zero_value := MkEnforcementSummary "" "";
  plain e := plain (es_Level e) ∧ plain (es_Scope e)
|}.
Next Obligation.
  intros strict e [H1 H2]. apply members_ascii. by repeat constructor; cbn; try apply enc_ascii.
Qed.
Next Obligation. done. Qed.
Next Obligation.
  intros strict [l s] [H1 H2]. cbn in H1, H2. unfold struct_of, EnforcementSummary_json.
  cbn [of_json]. rewrite decide_True.
  - change (decode_EnforcementSummary (members [("level", enc l); ("scope", enc s)]) =
            Some (MkEnforcementSummary l s)).
    unfold decode_EnforcementSummary. read_all 0%nat. done.
  - intros _. apply known_keys. by_decide.
Qed.

(** In a payload unknown fields are refused at every level. *)
#[local] Existing Instance CheckSummary_codec.
#[local] Existing Instance EnforcementSummary_codec.
Definition strict_checks : Codec (list CheckSummary) := list_codec (H := CheckSummary_codec true).
Definition strict_enforcement : Codec (list EnforcementSummary) :=
  list_codec (H := EnforcementSummary_codec true).

Definition payload_names : list string :=
  ["acceptance_evidence"; "aggregate_cost_micros"; "branch"; "budget_micros"; "budget_note";
   "checks"; "exception_summaries"; "expansion_decision_refs"; "finished_at"; "grant_id";
   "head_sha"; "historical_enforcement"; "issue_number"; "key_id"; "mission_ref";
   "mission_versions"; "outcome"; "pull_request_number"; "receipt_id"; "repository_id";
   "settlement_digest"; "signed_at"; "started_at"; "test_summaries"; "workspace_id"].

Definition payload_members (p : Payload) : list (string * json) :=
  [("acceptance_evidence", enc (py_AcceptanceEvidence p));
   ("aggregate_cost_micros", enc (py_AggregateCostMicros p));
   ("branch", enc (py_Branch p));
   ("budget_micros", enc (py_BudgetMicros p));
   ("budget_note", enc (py_BudgetNote p));
   ("checks", @enc _ strict_checks (py_Checks p));
   ("exception_summaries", enc (py_ExceptionSummaries p));
   ("expansion_decision_refs", enc (py_ExpansionDecisionRefs p));
   ("finished_at", enc (py_FinishedAt p));
   ("grant_id", enc (py_GrantID p));
   ("head_sha", enc (py_HeadSHA p));
   ("historical_enforcement", @enc _ strict_enforcement (py_HistoricalEnforcement p));
   ("issue_number", enc (py_IssueNumber p));
   ("key_id", enc (py_KeyID p));
   ("mission_ref", enc (py_MissionRef p));
   ("mission_versions", enc (py_MissionVersions p));
   ("outcome", enc (py_Outcome p));
   ("pull_request_number", enc (py_PullRequestNumber p));
   ("receipt_id", enc (py_ReceiptID p));
   ("repository_id", enc (py_RepositoryID p));
   ("settlement_digest", enc (py_SettlementDigest p));
   ("signed_at", enc (py_SignedAt p));
   ("started_at", enc (py_StartedAt p));
   ("test_summaries", enc (py_TestSummaries p));
   ("workspace_id", enc (py_WorkspaceID p))].

Definition decode_Payload (o : list (string * value)) : option Payload :=
  f1 ← read "acceptance_evidence" o;
  f2 ← read "aggregate_cost_micros" o;
  f3 ← read "branch" o;
  f4 ← read "budget_micros" o;
  f5 ← read "budget_note" o;
  f6 ← @read _ strict_checks "checks" o;
  f7 ← read "exception_summaries" o;
  f8 ← read "expansion_decision_refs" o;
  f9 ← read "finished_at" o;
  f10 ← read "grant_id" o;
  f11 ← read "head_sha" o;
  f12 ← @read _ strict_enforcement "historical_enforcement" o;
  f13 ← read "issue_number" o;
  f14 ← read "key_id" o;
  f15 ← read "mission_ref" o;
  f16 ← read "mission_versions" o;
  f17 ← read "outcome" o;
  f18 ← read "pull_request_number" o;
  f19 ← read "receipt_id" o;
  f20 ← read "repository_id" o;
  f21 ← read "settlement_digest" o;
  f22 ← read "signed_at" o;
  f23 ← read "started_at" o;
  f24 ← read "test_summaries" o;
  f25 ← read "workspace_id" o;
  Some (MkPayload f1 f2 f3 f4 f5 f6 f7 f8 f9 f10 f11 f12 f13 f14 f15 f16 f17 f18 f19 f20 f21
          f22 f23 f24 f25).

Definition CanonicalPayloadBytes (p : Payload) : string := render true (JObj (payload_members p)).

Definition DigestPayload (canonical : string) : string := hex (Sum256 canonical).

(** ** Verification *)

Definition maxClockSkew : Z := 5 * Minute.

(** [^sha256:[0-9a-f]{64}$] *)
Definition settlementDigestPattern : string → Prop := canonicalDigest.
#[export] Instance settlementDigestPattern_dec s : Decision (settlementDigestPattern s).
Proof. unfold settlementDigestPattern. apply _. Defined.

(** Equality of the sorted copies. *)
Definition equalInt64Sets (a b : list Z) : bool :=
  bool_decide (length a = length b ∧ merge_sort Z.le a = merge_sort Z.le b).
Definition equalStringSets (a b : list string) : bool :=
  bool_decide (length a = length b ∧ sort_strings a = sort_strings b).

Section verify.
Context `{Env}.

Definition unverifiable (reason format : string) (args : list format_arg) : err :=
  ErrReceiptUnverifiable (reason +:+ ": " +:+ sprintf format args).

Fixpoint check_versions (l : list Z) : res unit :=
  match l with
  | [] => Ok tt
  | v :: l' =>
      _ ← require_res (0 < v)
            (unverifiable ReasonBadPayload "mission version %d is not positive" [Arg_int v]);
      check_versions l'
  end.

Fixpoint check_checks (i : Z) (l : list CheckSummary) : res unit :=
  match l with
  | [] => Ok tt
  | c :: l' =>
      _ ← require_res (¬ (cs_Kind c = "" ∨ cs_Outcome c = ""))
            (unverifiable ReasonBadPayload "check %d is missing kind or outcome" [Arg_int i]);
      check_checks (i + 1) l'
  end.

Fixpoint check_enforcement (i : Z) (l : list EnforcementSummary) : res unit :=
  match l with
  | [] => Ok tt
  | e :: l' =>
      _ ← require_res (¬ (es_Scope e = "" ∨ es_Level e = ""))
            (unverifiable ReasonBadPayload "enforcement %d is missing scope or level" [Arg_int i]);
      check_enforcement (i + 1) l'
  end.

Definition checkPayloadSemantics (p : Payload) (now : time) : res unit :=
  let bad := unverifiable ReasonBadPayload in
  _ ← require_res (¬ (py_ReceiptID p = "" ∨ py_GrantID p = "" ∨ py_MissionRef p = "" ∨
                      py_WorkspaceID p = ""))
        (bad "receipt, grant, mission, and workspace are required" []);
  _ ← require_res (¬ (py_Outcome p ≠ OutcomeSuccess ∧ py_Outcome p ≠ OutcomeFailure))
        (bad "unknown outcome %q" [Arg_str (py_Outcome p)]);
  _ ← require_res (0 < py_SignedAt p) (bad "missing signing time" []);
  _ ← require_res (settlementDigestPattern (py_SettlementDigest p))
        (bad "settlement digest %q is not a sha256 digest" [Arg_str (py_SettlementDigest p)]);
  _ ← require_res (¬ After (Unix (py_SignedAt p)) (now + maxClockSkew))
        (bad "signing time %s is in the future" [Arg_str (format_rfc3339 (Unix (py_SignedAt p)))]);
  _ ← check_versions (py_MissionVersions p);
  _ ← require_res (¬ (py_StartedAt p < 0 ∨ py_FinishedAt p < 0))
        (bad "negative run timestamps" []);
  _ ← require_res (¬ (0 < py_StartedAt p ∧ 0 < py_FinishedAt p ∧ py_FinishedAt p < py_StartedAt p))
        (bad "run finished before it started" []);
  _ ← require_res (¬ (py_AggregateCostMicros p < 0 ∨ py_BudgetMicros p < 0))
        (bad "negative cost or budget" []);
  _ ← check_checks 0 (py_Checks p);
  check_enforcement 0 (py_HistoricalEnforcement p).

Definition checkBinding (p : Payload) (b : Binding) : res unit :=
  let bad := unverifiable ReasonBadBinding in
  _ ← require_res (py_WorkspaceID p = bn_WorkspaceID b)
        (bad "workspace %q does not match %q" [Arg_str (py_WorkspaceID p); Arg_str (bn_WorkspaceID b)]);
  _ ← require_res (py_MissionRef p = bn_MissionRef b)
        (bad "mission ref %q does not match %q" [Arg_str (py_MissionRef p); Arg_str (bn_MissionRef b)]);
  _ ← require_res (py_GrantID p = bn_GrantID b)
        (bad "grant %q does not match %q" [Arg_str (py_GrantID p); Arg_str (bn_GrantID b)]);
  _ ← require_res (py_Outcome p = bn_Outcome b)
        (bad "outcome %q does not match projected %q" [Arg_str (py_Outcome p); Arg_str (bn_Outcome b)]);
  _ ← require_res (equalInt64Sets (py_MissionVersions p) (bn_MissionVersions b) = true)
        (bad "mission versions %v do not match projected %v"
           [Arg_ints (py_MissionVersions p); Arg_ints (bn_MissionVersions b)]);
  _ ← require_res (equalStringSets (py_ExpansionDecisionRefs p) (bn_ExpansionDecisionRefs b) = true)
        (bad "expansion decision refs %v do not match projected %v"
           [Arg_strs (py_ExpansionDecisionRefs p); Arg_strs (bn_ExpansionDecisionRefs b)]);
  _ ← require_res (py_RepositoryID p = bn_RepositoryID b)
        (bad "repository %d does not match projected %d"
           [Arg_int (py_RepositoryID p); Arg_int (bn_RepositoryID b)]);
  _ ← require_res (py_IssueNumber p = bn_IssueNumber b)
        (bad "issue %d does not match projected %d"
           [Arg_int (py_IssueNumber p); Arg_int (bn_IssueNumber b)]);
  _ ← require_res (py_Branch p = bn_Branch b)
        (bad "branch %q does not match projected %q" [Arg_str (py_Branch p); Arg_str (bn_Branch b)]);
  _ ← require_res (py_PullRequestNumber p = bn_PullRequestNumber b)
        (bad "pull request %d does not match projected %d"
           [Arg_int (py_PullRequestNumber p); Arg_int (bn_PullRequestNumber b)]);
  require_res (py_HeadSHA p = bn_HeadSHA b)
    (bad "head sha %q does not match projected %q" [Arg_str (py_HeadSHA p); Arg_str (bn_HeadSHA b)]).

(** The two [Decode] calls: one strict value, then [io.EOF]. *)
Definition decodeReceiptPayload (raw : string) : res Payload :=
  '(v, rest) ← opt_res (unverifiable ReasonBadPayload "payload decode: %v" [Arg_error raw])
                 (decode_first raw);
  p ← opt_res (unverifiable ReasonBadPayload "payload decode: %v" [Arg_error raw])
        (struct_of true payload_names decode_Payload v);
  _ ← require_res (skip_ws rest = [])
        (unverifiable ReasonBadPayload "trailing data after payload" []);
  Ok p.

Definition verified_view (env : SignedReceiptEnvelope) (p : Payload) : ReceiptView := {|
  vw_Verification := ReceiptVerified;
  vw_ReasonCode := "";
  vw_ReceiptID := py_ReceiptID p;
  vw_GrantID := py_GrantID p;
  vw_MissionRef := py_MissionRef p;
  vw_WorkspaceID := py_WorkspaceID p;
  vw_KeyID := re_KeyID env;
  vw_SignedAt := py_SignedAt p;
  vw_ReceiptDigest := DigestPayload (re_Payload env);
  vw_SettlementDigest := py_SettlementDigest p;
  vw_Outcome := py_Outcome p;
  vw_MissionVersions := Some (py_MissionVersions p);
  vw_ExpansionDecisionRefs := Some (py_ExpansionDecisionRefs p);
  vw_RepositoryID := py_RepositoryID p;
  vw_IssueNumber := py_IssueNumber p;
  vw_Branch := py_Branch p;
  vw_PullRequestNumber := py_PullRequestNumber p;
  vw_HeadSHA := py_HeadSHA p;
  vw_Checks := Some (py_Checks p);
  vw_StartedAt := py_StartedAt p;
  vw_FinishedAt := py_FinishedAt p;
  vw_AggregateCostMicros := py_AggregateCostMicros p;
  vw_BudgetMicros := py_BudgetMicros p;
  vw_HistoricalEnforcement := Some (py_HistoricalEnforcement p)
|}.

(** The signature as [Verify] decodes it. *)
Definition envelope_signature (env : SignedReceiptEnvelope) : option string :=
  sig ← RawURLDecode (re_Signature env);
  if decide (String.length sig = SignatureSize) then Some sig else None.

Definition Verify (env : SignedReceiptEnvelope) (binding : Binding) : M ReceiptView :=
  _ ← require (re_Algorithm env = "Ed25519")
        (unverifiable ReasonBadPayload "unsupported algorithm %q" [Arg_str (re_Algorithm env)]);
  _ ← require (re_KeyID env ≠ "") (unverifiable ReasonBadKey "empty key id" []);
  _ ← require (re_Payload env ≠ "") (unverifiable ReasonBadPayload "empty payload" []);
  sig ← lift (opt_res (unverifiable ReasonBadSignature "malformed signature" [])
                (envelope_signature env));
  p ← lift (decodeReceiptPayload (re_Payload env));
  _ ← require (CanonicalPayloadBytes p = re_Payload env)
        (unverifiable ReasonBadPayload "payload is not in canonical form" []);
  t ← now;
  _ ← lift (checkPayloadSemantics p t);
  _ ← require (py_KeyID p = re_KeyID env)
        (unverifiable ReasonBadKey "payload key id %q does not match envelope key id %q"
           [Arg_str (py_KeyID p); Arg_str (re_KeyID env)]);
  let signedAt := Unix (py_SignedAt p) in
  keys ← gets w_keys;
  key ← lift (match KeyAt keys (re_KeyID env) signedAt with
              | Ok key => Ok key
              | Err _ => Err (unverifiable ReasonBadKey "no valid signing key %q at %s: %v"
                                [Arg_str (re_KeyID env); Arg_str (format_rfc3339 signedAt);
                                 Arg_error (re_KeyID env)])
              end);
  _ ← require (ed25519_Verify key (re_Payload env) sig = true)
        (unverifiable ReasonBadSignature "signature does not verify" []);
  _ ← lift (checkBinding p binding);
  mret (verified_view env p).
End verify.

(** ** The public check *)

Definition receiptDigestPrefixLen : nat := 12.
Definition checkNamePrefix : string := "authscope/receipt".

(** [fmt.Sprintf("%s|%s|%d|%d|%s")] *)
Definition publication_text (workspaceID receiptDigest : string)
    (repositoryID pullRequestNumber : Z) (headSHA : string) : string :=
  workspaceID +:+ "|" +:+ receiptDigest +:+ "|" +:+ itoa repositoryID +:+ "|" +:+
  itoa pullRequestNumber +:+ "|" +:+ headSHA.
Definition PublicationIDKey (workspaceID receiptDigest : string)
    (repositoryID pullRequestNumber : Z) (headSHA : string) : string :=
  hex (Sum256 (publication_text workspaceID receiptDigest repositoryID pullRequestNumber headSHA)).

Definition enforcementStatus (view : option ReceiptView) : string :=
  match view ≫= vw_HistoricalEnforcement with
  | None | Some [] => "none"
  | Some l => String.concat "," ((λ e, es_Scope e +:+ ":" +:+ es_Level e) <$> l)
  end.

Definition no_check : GitHubCheckRequest := MkGitHubCheckRequest "" "" "" "" "" "".

Definition MinimalCheckRequest (view : option ReceiptView) (bindingID idempotencyKey : string)
    : GitHubCheckRequest :=
  match view with
  | Some v =>
      if decide (vw_Verification v ≠ ReceiptVerified ∨ vw_ReceiptDigest v = "") then no_check
      else
        let check conclusion :=
          let prefix := String.substring 0 receiptDigestPrefixLen (vw_ReceiptDigest v) in
          MkGitHubCheckRequest bindingID (vw_HeadSHA v)
            (checkNamePrefix +:+ " " +:+ vw_Outcome v +:+ " " +:+ enforcementStatus view +:+
             " sha256:" +:+ prefix)
            CheckStatusCompleted conclusion idempotencyKey in
        if decide (vw_Outcome v = OutcomeSuccess) then check CheckConclusionSuccess
        else if decide (vw_Outcome v = OutcomeFailure) then check CheckConclusionFailure
        else no_check
  | None => no_check
  end.

(** ** What an accepted payload satisfies *)

Record payload_valid (now : time) (p : Payload) : Prop := {
  pv_ids : py_ReceiptID p ≠ "" ∧ py_GrantID p ≠ "" ∧ py_MissionRef p ≠ "" ∧ py_WorkspaceID p ≠ "";
  pv_outcome : py_Outcome p = OutcomeSuccess ∨ py_Outcome p = OutcomeFailure;
  pv_signed : 0 < py_SignedAt p ∧ Unix (py_SignedAt p) ≤ now + maxClockSkew;
  pv_settlement : settlementDigestPattern (py_SettlementDigest p);
  pv_versions : Forall (λ v, 0 < v) (py_MissionVersions p);
  pv_run : 0 ≤ py_StartedAt p ∧ 0 ≤ py_FinishedAt p ∧
           (py_FinishedAt p = 0 ∨ py_StartedAt p ≤ py_FinishedAt p);
  pv_costs : 0 ≤ py_AggregateCostMicros p ∧ 0 ≤ py_BudgetMicros p;
  pv_checks : Forall (λ c, cs_Kind c ≠ "" ∧ cs_Outcome c ≠ "") (py_Checks p);
  pv_enforcement : Forall (λ e, es_Scope e ≠ "" ∧ es_Level e ≠ "") (py_HistoricalEnforcement p)
}.

(** The claims of the payload are those of the local projection; versions
    and decision references up to order. *)
Record bound_to (b : Binding) (p : Payload) : Prop := {
  bt_workspace : py_WorkspaceID p = bn_WorkspaceID b;
  bt_mission : py_MissionRef p = bn_MissionRef b;
  bt_grant : py_GrantID p = bn_GrantID b;
  bt_outcome : py_Outcome p = bn_Outcome b;
  bt_versions : py_MissionVersions p ≡ₚ bn_MissionVersions b;
  bt_refs : py_ExpansionDecisionRefs p ≡ₚ bn_ExpansionDecisionRefs b;
  bt_repository : py_RepositoryID p = bn_RepositoryID b ∧ py_IssueNumber p = bn_IssueNumber b;
  bt_branch : py_Branch p = bn_Branch b;
  bt_pull : py_PullRequestNumber p = bn_PullRequestNumber b ∧ py_HeadSHA p = bn_HeadSHA b
}.

(** The envelope is a signature, by a key trusted at signing time, over the
    exact canonical bytes of a payload. *)
Record signed_by `{Ed25519} (keys : KeyStore) (env : SignedReceiptEnvelope) (p : Payload) : Prop := {
  sb_algorithm : re_Algorithm env = "Ed25519";
  sb_key : py_KeyID p = re_KeyID env ∧ re_KeyID env ≠ "";
  sb_bytes : CanonicalPayloadBytes p = re_Payload env;
  sb_signature : ∃ sig key rec, RawURLDecode (re_Signature env) = Some sig ∧
    String.length sig = SignatureSize ∧ ks_keys keys !! re_KeyID env = Some rec ∧
    key = kr_pub rec ∧ kr_validFrom rec ≤ Unix (py_SignedAt p) ∧
    (IsZero (kr_validUntil rec) ∨ Unix (py_SignedAt p) < kr_validUntil rec) ∧
    ed25519_Verify key (re_Payload env) sig = true
}.

Lemma sorted_copies_perm {A} (R : relation A) `{!∀ x y, Decision (R x y), !PartialOrder R, !Total R}
    (a b : list A) :
  length a = length b ∧ merge_sort R a = merge_sort R b ↔ a ≡ₚ b.
Proof.
  split.
  - intros [_ E]. by rewrite <- (merge_sort_Permutation R a), E, merge_sort_Permutation.
  - intros Hp. split; [by apply Permutation_length|].
    apply (StronglySorted_unique R); try apply (StronglySorted_merge_sort R); try apply _.
    by rewrite !merge_sort_Permutation.
Qed.

Lemma equalInt64Sets_perm a b : equalInt64Sets a b = true ↔ a ≡ₚ b.
Proof. unfold equalInt64Sets. rewrite bool_decide_eq_true. apply (sorted_copies_perm _); apply _. Qed.

Lemma equalStringSets_perm a b : equalStringSets a b = true ↔ a ≡ₚ b.
Proof. unfold equalStringSets. rewrite bool_decide_eq_true. apply (sorted_copies_perm _); apply _. Qed.

Section verification.
Context `{Env}.

Lemma check_versions_Ok l : check_versions l = Ok tt ↔ Forall (λ v, 0 < v) l.
Proof.
  induction l as [|v l IH]; cbn [check_versions]; [done|].
  by rewrite require_res_bind_Ok, Forall_cons, IH.
Qed.

Lemma check_checks_Ok i l :
  check_checks i l = Ok tt ↔ Forall (λ c, cs_Kind c ≠ "" ∧ cs_Outcome c ≠ "") l.
Proof.
  revert i. induction l as [|c l IH]; intros i; cbn [check_checks]; [done|].
  rewrite require_res_bind_Ok, Forall_cons, IH. tauto.
Qed.

Lemma check_enforcement_Ok i l :
  check_enforcement i l = Ok tt ↔ Forall (λ e, es_Scope e ≠ "" ∧ es_Level e ≠ "") l.
Proof.
  revert i. induction l as [|e l IH]; intros i; cbn [check_enforcement]; [done|].
  rewrite require_res_bind_Ok, Forall_cons, IH. tauto.
Qed.

Lemma bind_unit_Ok {A} (m : res unit) (f : unit → res A) a :
  m ≫= f = Ok a ↔ m = Ok tt ∧ f tt = Ok a.
Proof. rewrite res_bind_Ok. split; [intros ([] & ? & ?); done|eauto]. Qed.

Lemma checkPayloadSemantics_Ok p t : checkPayloadSemantics p t = Ok tt ↔ payload_valid t p.
Proof.
  unfold checkPayloadSemantics. cbv zeta.
  rewrite !require_res_bind_Ok, bind_unit_Ok, !require_res_bind_Ok, bind_unit_Ok.
  rewrite check_versions_Ok, check_checks_Ok, check_enforcement_Ok. unfold After.
  split.
  - intros (H1 & H2 & H3 & H4 & H5 & H6 & H7 & H8 & H9 & H10 & H11).
    constructor; try done; try tauto; try lia.
    destruct (decide (py_Outcome p = OutcomeSuccess)); [by left|right].
    apply dec_stable. tauto.
  - intros [? [?|?] ? ? ? ? ? ? ?]; split_and!; try done; try tauto; try lia.
Qed.

Lemma checkBinding_Ok p b : checkBinding p b = Ok tt ↔ bound_to b p.
Proof.
  unfold checkBinding. cbv zeta. rewrite !require_res_bind_Ok, require_res_inv.
  rewrite equalInt64Sets_perm, equalStringSets_perm. split.
  - intros (?&?&?&?&?&?&?&?&?&?&?). by constructor.
  - intros [? ? ? ? ? ? [? ?] ? [? ?]]. by split_and!.
Qed.

Lemma envelope_signature_Some env sig : envelope_signature env = Some sig ↔
  RawURLDecode (re_Signature env) = Some sig ∧ String.length sig = SignatureSize.
Proof.
  unfold envelope_signature. destruct (RawURLDecode (re_Signature env)) as [s|]; cbn.
  - case_decide; naive_solver.
  - naive_solver.
Qed.

(** The steps of an accepting run. *)
Lemma Verify_steps env b w view w' :
  Verify env b w = (Ok view, w') ↔
  ∃ sig p key, re_Algorithm env = "Ed25519" ∧ re_KeyID env ≠ "" ∧ re_Payload env ≠ "" ∧
    envelope_signature env = Some sig ∧ decodeReceiptPayload (re_Payload env) = Ok p ∧
    CanonicalPayloadBytes p = re_Payload env ∧
    checkPayloadSemantics p (clock (w_ticks w)) = Ok tt ∧ py_KeyID p = re_KeyID env ∧
    KeyAt (w_keys w) (re_KeyID env) (Unix (py_SignedAt p)) = Ok key ∧
    ed25519_Verify key (re_Payload env) sig = true ∧ checkBinding p b = Ok tt ∧
    view = verified_view env p ∧ w' = w <| w_ticks := S (w_ticks w) |>.
Proof.
  unfold Verify. split.
  - intros E. do 3 (op_inv_step E; [|discriminate E]).
    op_inv_step E; [|discriminate E]. apply opt_res_Ok in E0.
    op_inv_step E; [|discriminate E]. op_inv_step E; [|discriminate E]. rewrite now_then in E.
    op_inv_step E; [|discriminate E]. op_inv_step E; [|discriminate E]. cbv zeta in E.
    rewrite gets_then in E.
    match type of E with context [KeyAt ?k ?i ?t] => destruct (KeyAt k i t) as [key|] eqn:Ek end;
      [|discriminate E]. rewrite lift_Ok_then in E.
    op_inv_step E; [|discriminate E]. op_inv_step E; [|discriminate E].
    injection E as <- <-. destruct_all unit. by exists a, a0, key.
  - intros (sig & p & key & Ha & Hk & Hp & Hs & Hd & Hc & Hv & Hi & Hat & He & Hb & -> & ->).
    do 3 (rewrite require_then by done). rewrite Hs. cbn [opt_res]. rewrite lift_Ok_then.
    rewrite Hd, lift_Ok_then, require_then by done. rewrite now_then, Hv, lift_Ok_then.
    rewrite require_then by done. cbv zeta. rewrite gets_then. cbn [w_keys upd].
    rewrite Hat, lift_Ok_then, require_then by done. by rewrite Hb, lift_Ok_then.
Qed.

Lemma canonical_nonempty p : CanonicalPayloadBytes p ≠ "".
Proof. done. Qed.

(** Every refusal is [ErrReceiptUnverifiable], and only the clock moves. *)
Definition refused (e : err) : Prop := ∃ why, e = ErrReceiptUnverifiable why.
Lemma refused_unverifiable reason format args : refused (unverifiable reason format args).
Proof. by eexists. Qed.
Ltac refused_step := fails_with_step ltac:(first [apply refused_unverifiable|by eexists]).

Lemma decodeReceiptPayload_errs raw : fails_with refused (decodeReceiptPayload raw).
Proof.
  unfold decodeReceiptPayload. refused_step; [refused_step|]. destruct a. repeat refused_step.
Qed.
Lemma check_loops_errs :
  (∀ l, fails_with refused (check_versions l)) ∧ (∀ i l, fails_with refused (check_checks i l)) ∧
  (∀ i l, fails_with refused (check_enforcement i l)).
Proof.
  split_and!; intros; [revert l|revert i|revert i]; induction l; intros; cbn; repeat refused_step; done.
Qed.
Lemma checkPayloadSemantics_errs p t : fails_with refused (checkPayloadSemantics p t).
Proof.
  unfold checkPayloadSemantics. cbv zeta. repeat refused_step; apply check_loops_errs.
Qed.
Lemma checkBinding_errs p b : fails_with refused (checkBinding p b).
Proof. unfold checkBinding. cbv zeta. repeat refused_step. Qed.

Ltac refusal := split; [first [eassumption|by eexists]|intros ? [= <-]; eauto].
Lemma Verify_refuses env b w r w' : Verify env b w = (r, w') →
  (∃ n, w' = w <| w_ticks := n |>) ∧ ∀ e, r = Err e → refused e.
Proof.
  assert (∃ n, w = w <| w_ticks := n |>) as Hw by (exists (w_ticks w); by destruct w).
  pose proof refused_unverifiable as Hu. unfold Verify. intros E.
  do 3 (op_inv_step E; [|injection E as <- <-; refusal]).
  op_inv_step E; [|injection E as <- <-; split; [exact Hw|]].
  2: { intros ? [= <-]. eapply fails_with_opt; [|exact E0]. apply Hu. }
  op_inv_step E; [|injection E as <- <-; split; [exact Hw|]].
  2: { intros ? [= <-]. by eapply decodeReceiptPayload_errs. }
  op_inv_step E; [|injection E as <- <-; refusal]. rewrite now_then in E.
  op_inv_step E; [|injection E as <- <-; split; [by eexists|]].
  2: { intros ? [= <-]. by eapply checkPayloadSemantics_errs. }
  op_inv_step E; [|injection E as <- <-; refusal]. cbv zeta in E. rewrite gets_then in E.
  match type of E with context [KeyAt ?k ?i ?t] => destruct (KeyAt k i t) as [key|] eqn:Ek end;
    [rewrite lift_Ok_then in E|injection E as <- <-; refusal].
  op_inv_step E; [|injection E as <- <-; refusal].
  op_inv_step E; [|injection E as <- <-; split; [by eexists|]].
  2: { intros ? [= <-]. by eapply checkBinding_errs. }
  injection E as <- <-. split; [by eexists|done].
Qed.

Lemma Verify_accepts env b w view :
  (∃ w', Verify env b w = (Ok view, w')) ↔
  ∃ p, decodeReceiptPayload (re_Payload env) = Ok p ∧ signed_by (w_keys w) env p ∧
    payload_valid (clock (w_ticks w)) p ∧ bound_to b p ∧ view = verified_view env p.
Proof.
  split.
  - intros (w' & E). apply Verify_steps in E as (sig & p & key & Ha & Hk & Hp & Hs & Hd & Hc &
        Hv & Hi & Hat & He & Hb & -> & _).
      apply checkPayloadSemantics_Ok in Hv. apply checkBinding_Ok in Hb.
      apply envelope_signature_Some in Hs as [Hs Hl]. apply KeyAt_exact in Hat as (rec & ? & ? & ? & ?).
      exists p. split_and!; try done. constructor; try done. exists sig, key, rec. by split_and!.
  - intros (p & Hd & [Ha [Hi Hk] Hc (sig & key & rec & Hs & Hl & Hr & -> & H1 & H2 & He)] & Hv & Hb & ->).
      eexists. apply Verify_steps. exists sig, p, (kr_pub rec). split_and!; try done.
      * rewrite <- Hc. apply canonical_nonempty.
      * by apply envelope_signature_Some.
      * by apply checkPayloadSemantics_Ok.
      * apply KeyAt_exact. by exists rec.
      * by apply checkBinding_Ok.
Qed.

(** C15: a receipt is accepted exactly when it should be: [Verify] returns a
    view if and only if the envelope is an Ed25519 signature, by a key that
    was trusted and inside its validity window at the signing time, over the
    exact canonical bytes of a payload that decodes strictly, is well formed
    and not from the future, and claims what the local projection says; the
    view is then the payload's own fields and the digest of the signed bytes.
    Whatever the envelope, nothing but the clock reading changes, and every
    refusal is [ErrReceiptUnverifiable]. *)
Theorem Verify_exact env b w :
  (∀ view, (∃ w', Verify env b w = (Ok view, w')) ↔
     ∃ p, decodeReceiptPayload (re_Payload env) = Ok p ∧ signed_by (w_keys w) env p ∧
       payload_valid (clock (w_ticks w)) p ∧ bound_to b p ∧ view = verified_view env p) ∧
  ∀ r w', Verify env b w = (r, w') →
    (∃ n, w' = w <| w_ticks := n |>) ∧ ∀ e, r = Err e → refused e.
Proof. split; [intros view; apply Verify_accepts|apply Verify_refuses]. Qed.

(** ** Canonical bytes are read back *)

(** Strings are ASCII and numbers int64. *)
Definition plain_payload (p : Payload) : Prop :=
  plain (py_AcceptanceEvidence p) ∧ plain (py_AggregateCostMicros p) ∧ plain (py_Branch p) ∧
  plain (py_BudgetMicros p) ∧ plain (py_BudgetNote p) ∧ @plain _ strict_checks (py_Checks p) ∧
  plain (py_ExceptionSummaries p) ∧ plain (py_ExpansionDecisionRefs p) ∧ plain (py_FinishedAt p) ∧
  plain (py_GrantID p) ∧ plain (py_HeadSHA p) ∧
  @plain _ strict_enforcement (py_HistoricalEnforcement p) ∧ plain (py_IssueNumber p) ∧
  plain (py_KeyID p) ∧ plain (py_MissionRef p) ∧ plain (py_MissionVersions p) ∧
  plain (py_Outcome p) ∧ plain (py_PullRequestNumber p) ∧ plain (py_ReceiptID p) ∧
  plain (py_RepositoryID p) ∧ plain (py_SettlementDigest p) ∧ plain (py_SignedAt p) ∧
  plain (py_StartedAt p) ∧ plain (py_TestSummaries p) ∧ plain (py_WorkspaceID p).

Lemma decode_Payload_members p : plain_payload p →
  decode_Payload (members (payload_members p)) = Some p.
Proof.
  unfold plain_payload. intros Hp. destruct_and!. unfold decode_Payload.
  read_all 0%nat. by destruct p.
Qed.

Lemma payload_ascii p : plain_payload p → json_ascii (JObj (payload_members p)) = true.
Proof.
  unfold plain_payload. intros Hp. destruct_and!. apply members_ascii. unfold payload_members.
  repeat (constructor; [split; [vm_compute; reflexivity|cbn [snd]; by apply enc_ascii]|]).
  constructor.
Qed.

Lemma canonical_decodes p : plain_payload p →
  decodeReceiptPayload (CanonicalPayloadBytes p) = Ok p.
Proof.
  intros Hp. unfold decodeReceiptPayload, CanonicalPayloadBytes.
  rewrite decode_first_render by by apply payload_ascii.
  cbn [opt_res mbind res_bind of_json]. unfold struct_of. rewrite decide_True.
  - change (_ <$> payload_members p) with (members (payload_members p)).
    rewrite decode_Payload_members by done. done.
  - intros _. apply known_keys. rewrite members_keys. by_decide.
Qed.

(** C36: the canonical bytes of a payload stand for that payload: they decode
    back to it under the verifier's strict decoder, so what AuthScope signs
    is what is read, and payloads with the same bytes are equal; two payloads
    share a receipt digest only when they are equal, short of a SHA-256
    collision (ASCII strings, int64 numbers). *)
Theorem payload_round_trip p q :
  plain_payload p → plain_payload q →
  decodeReceiptPayload (CanonicalPayloadBytes p) = Ok p ∧
  (CanonicalPayloadBytes p = CanonicalPayloadBytes q → p = q) ∧
  (DigestPayload (CanonicalPayloadBytes p) = DigestPayload (CanonicalPayloadBytes q) →
   p = q ∨ sha256_collision (CanonicalPayloadBytes p) (CanonicalPayloadBytes q)).
Proof.
  intros Hp Hq. assert (CanonicalPayloadBytes p = CanonicalPayloadBytes q → p = q) as Hinj.
  { intros E. apply canonical_decodes in Hp, Hq. rewrite E, Hq in Hp. by injection Hp. }
  split_and!; [by apply canonical_decodes|exact Hinj|].
  intros [E|C]%digest_collision; [left; by apply Hinj|by right].
Qed.

End verification.

(** ** What the public check reveals *)

Definition publishable (v : ReceiptView) : Prop :=
  vw_Verification v = ReceiptVerified ∧ vw_ReceiptDigest v ≠ "" ∧
  (vw_Outcome v = OutcomeSuccess ∨ vw_Outcome v = OutcomeFailure).

(** The facts allowed to cross: the outcome, the signed enforcement history,
    twelve digits of the digest, and the commit the check is attached to. *)
Definition public_facts (v : ReceiptView) : string * list EnforcementSummary * string * string :=
  (vw_Outcome v, default [] (vw_HistoricalEnforcement v),
   String.substring 0 12 (vw_ReceiptDigest v), vw_HeadSHA v).

Lemma enforcementStatus_history v1 v2 :
  default [] (vw_HistoricalEnforcement v1) = default [] (vw_HistoricalEnforcement v2) →
  enforcementStatus (Some v1) = enforcementStatus (Some v2).
Proof.
  unfold enforcementStatus. cbn. intros E.
  destruct (vw_HistoricalEnforcement v1) as [[|]|], (vw_HistoricalEnforcement v2) as [[|]|];
    cbn in E; by simplify_eq.
Qed.

Lemma MinimalCheckRequest_publishable v b k : publishable v →
  MinimalCheckRequest (Some v) b k =
    MkGitHubCheckRequest b (vw_HeadSHA v)
      (checkNamePrefix +:+ " " +:+ vw_Outcome v +:+ " " +:+ enforcementStatus (Some v) +:+
       " sha256:" +:+ String.substring 0 receiptDigestPrefixLen (vw_ReceiptDigest v))
      CheckStatusCompleted (vw_Outcome v) k.
Proof.
  intros (Hv & Hd & Ho). unfold MinimalCheckRequest. rewrite decide_False by naive_solver.
  cbv zeta. destruct Ho as [E|E]; rewrite E; reflexivity.
Qed.

Lemma MinimalCheckRequest_other v b k : ¬ publishable v →
  MinimalCheckRequest (Some v) b k = no_check.
Proof.
  intros N. unfold MinimalCheckRequest. case_decide as D; [done|]. cbv zeta.
  unfold publishable in N. repeat case_decide; tauto.
Qed.

#[export] Instance publishable_dec v : Decision (publishable v).
Proof. unfold publishable. apply _. Defined.

Lemma length_bytes_of s : length (bytes_of s) = String.length s.
Proof. induction s as [|c s IH]; [done|]. cbn. by f_equal. Qed.

Lemma length_append a b : String.length (a +:+ b) = (String.length a + String.length b)%nat.
Proof. induction a as [|c a IH]; [done|]. change (S (String.length (a +:+ b)) = S (String.length a + String.length b)). by rewrite IH. Qed.

Lemma length_prefix n s : String.length (String.substring 0 n s) = Nat.min n (String.length s).
Proof. revert n. induction s as [|c s IH]; intros [|n]; try done. cbn. by rewrite IH. Qed.

Lemma append_same_tail a b c d :
  String.length b = String.length d → a +:+ b = c +:+ d → a = c ∧ b = d.
Proof.
  intros Hl E. apply (f_equal bytes_of) in E. rewrite !bytes_of_app in E.
  apply app_inj_2 in E as [E1 E2]; [|by rewrite !length_bytes_of].
  split; by apply bytes_of_inj.
Qed.

(** The public check says the outcome, the signed enforcement history, a
    digest prefix and the commit, and nothing else: a view that is not a
    verified success or failure renders no check; two publishable views that
    agree on those four facts render the same check, whatever else the
    receipts contain; and views with full digests that render the same check
    agree on the outcome, the prefix, the commit and the enforcement text. *)
Theorem public_check_reveals v1 v2 b k :
  (gc_Name (MinimalCheckRequest (Some v1) b k) ≠ "" ↔ publishable v1) ∧
  (publishable v1 → publishable v2 →
   (public_facts v1 = public_facts v2 →
    MinimalCheckRequest (Some v1) b k = MinimalCheckRequest (Some v2) b k) ∧
   (String.length (vw_ReceiptDigest v1) = 64%nat → String.length (vw_ReceiptDigest v2) = 64%nat →
    MinimalCheckRequest (Some v1) b k = MinimalCheckRequest (Some v2) b k →
    vw_Outcome v1 = vw_Outcome v2 ∧ vw_HeadSHA v1 = vw_HeadSHA v2 ∧
    String.substring 0 12 (vw_ReceiptDigest v1) = String.substring 0 12 (vw_ReceiptDigest v2) ∧
    enforcementStatus (Some v1) = enforcementStatus (Some v2))).
Proof.
  split.
  - destruct (decide (publishable v1)) as [P|N].
    + rewrite MinimalCheckRequest_publishable by done. by split.
    + rewrite MinimalCheckRequest_other by done. by split.
  - intros P1 P2. rewrite !MinimalCheckRequest_publishable by done. split.
    { unfold public_facts. intros [= Ho He Hd Hh].
      rewrite Ho, Hh, (enforcementStatus_history v1 v2 He). unfold receiptDigestPrefixLen.
      by rewrite Hd. }
    intros L1 L2 E.
    pose proof (f_equal gc_HeadSHA E) as Hh. pose proof (f_equal gc_Conclusion E) as Ho.
    apply (f_equal gc_Name) in E. cbn in Hh, Ho. cbn [gc_Name] in E. rewrite Ho in E.
    do 4 (apply (inj (String.append _)) in E). apply append_same_tail in E as [He Hp].
    + apply (inj (String.append _)) in Hp. by split_and!.
    + by rewrite !length_append, !length_prefix, L1, L2.
Qed.

(** ** The publication key *)

Definition not_pipe (c : ascii) : bool := negb (bool_decide (byte_val c = 124)).
Definition no_pipe (s : string) : Prop := all_chars not_pipe s = true.

(** The key of a publication binds what is published: two publications
    share an idempotency key only for the same workspace, receipt digest,
    repository, pull request and commit, short of a SHA-256 collision
    (workspace identifiers and digests hold no vertical bar). *)
Theorem publication_key_binds ws1 ws2 d1 d2 r1 r2 n1 n2 h1 h2 :
  no_pipe ws1 → no_pipe ws2 → no_pipe d1 → no_pipe d2 →
  PublicationIDKey ws1 d1 r1 n1 h1 = PublicationIDKey ws2 d2 r2 n2 h2 →
  (ws1 = ws2 ∧ d1 = d2 ∧ r1 = r2 ∧ n1 = n2 ∧ h1 = h2) ∨
  sha256_collision (publication_text ws1 d1 r1 n1 h1) (publication_text ws2 d2 r2 n2 h2).
Proof.
  intros Hw1 Hw2 Hd1 Hd2 [E|C]%digest_collision; [left|by right]. unfold publication_text in E.
  apply (chars_span not_pipe) in E as [-> E]; [|exact Hw1|exact Hw2|done|done]. apply (inj (String.append _)) in E.
  apply (chars_span not_pipe) in E as [-> E]; [|exact Hd1|exact Hd2|done|done]. apply (inj (String.append _)) in E.
  apply itoa_text_inj in E as [-> E]; [|done|done]. apply (inj (String.append _)) in E.
  apply itoa_text_inj in E as [-> E]; [|done|done]. by rewrite (inj (String.append _) _ _ E).
Qed.

(** ** Witnesses *)

Definition bench_receipt_payload : Payload :=
  MkPayload [] 1200 "authscope/p" 5000000 "" [MkCheckSummary "tests" "success"] [] [] 1700000200
    "run-1" "abc" [MkEnforcementSummary "enforced" "tool"] 5 "key-1" "mission-1" [1] "success" 9
    "receipt-1" 42 (tagged_digest "settlement") 1700000001 1700000000 [] "ws".

(** The bench authority's receipt is this payload. *)
Example bench_payload_bytes : CanonicalPayloadBytes bench_receipt_payload = bench_payload.
Proof. vm_compute. reflexivity. Qed.

Lemma bench_payload_plain : plain_payload bench_receipt_payload.
Proof.
  unfold plain_payload, bench_receipt_payload. cbn. unfold int64_range. cbn.
  split_and!; try done; repeat constructor; by_decide.
Qed.

Lemma payload_round_trip_witness :
  decodeReceiptPayload (H := bench_env) bench_payload = Ok bench_receipt_payload.
Proof.
  rewrite <- bench_payload_bytes.
  exact (proj1 (payload_round_trip (H := bench_env) bench_receipt_payload bench_receipt_payload
                  bench_payload_plain bench_payload_plain)).
Defined.

Definition bench_view : ReceiptView :=
  verified_view (MkSignedReceiptEnvelope "Ed25519" "key-1" bench_payload "") bench_receipt_payload.

Lemma publication_key_binds_witness :
  let key ws := PublicationIDKey ws (DigestPayload bench_payload) 42 9 "abc" in
  key "ws" = key "ws" ∧ "ws" = "ws".
Proof.
  intros key. split; [reflexivity|].
  destruct (publication_key_binds "ws" "ws" (DigestPayload bench_payload)
              (DigestPayload bench_payload) 42 42 9 9 "abc" "abc") as [(E & _)|[N _]];
    [vm_compute; reflexivity..|exact E|by destruct N].
Defined.
