(* ===== verification/ReceiptService.v ===== *)
(** * The receipt service (src/internal/receipt/service.go)

    Fetching a receipt and verifying it against the local projection, the
    one transition it may cause, and the publication of the public check. *)

From S2P Require Import Prelude GoTime Sha256 Base64 Json JsonParse Codec StoreModel StorePass StoreIntents.
From S2P Require Import StoreGithub Trust PassModel World Bench StoreAuth Settle Events Receipt.

Definition receipt_opts (workspaceID : string) : RequestOptions :=
  opts_for workspaceID "receipt-service" "".

(** ** The local binding *)

(** One event of the walk, newest first: a field is filled by the first event
    that carries it. *)
Definition bind_event (acc : Binding * gset Z) (rec : MissionEventRecord) : Binding * gset Z :=
  match unmarshalSafe (me_Payload rec) with
  | Err _ => acc
  | Ok se =>
      let '(b, versions) := acc in
      let versions := if decide (0 < sf_AuthScopeMissionVersion se)
                      then {[sf_AuthScopeMissionVersion se]} ∪ versions else versions in
      let b := if decide (sf_Type se = EventRunSucceeded ∧ bn_Outcome b = "")
               then b <| bn_Outcome := OutcomeSuccess |>
               else if decide (sf_Type se = EventRunFailed ∧ bn_Outcome b = "")
               then b <| bn_Outcome := OutcomeFailure |> else b in
      let b := if decide (bn_Branch b = "" ∧ sf_Branch se ≠ "")
               then b <| bn_Branch := sf_Branch se |> else b in
      let b := if decide (bn_PullRequestNumber b = 0 ∧ sf_PullRequestNumber se ≠ 0)
               then b <| bn_PullRequestNumber := sf_PullRequestNumber se |> else b in
      let b := if decide (bn_HeadSHA b = "" ∧ sf_HeadSHA se ≠ "")
               then b <| bn_HeadSHA := sf_HeadSHA se |> else b in
      (b, versions)
  end.

(** The distinct upstream references of the pass's decided expansions. *)
Fixpoint decision_refs (passID : string) (seen : gset string) (l : list ExpansionIntentRecord)
    : list string :=
  match l with
  | [] => []
  | i :: l' =>
      if decide (ei_PassID i ≠ passID ∨ ei_UpstreamRef i = "" ∨ ei_UpstreamRef i ∈ seen)
      then decision_refs passID seen l'
      else ei_UpstreamRef i :: decision_refs passID ({[ei_UpstreamRef i]} ∪ seen) l'
  end.

Definition buildBinding (workspaceID : string) (pass : MissionPassRecord) : Tx Binding :=
  let b := MkBinding workspaceID (mp_MissionRef pass) (mp_RunID pass) "" [] [] 0 0 "" 0 "" in
  events ← listMissionEvents workspaceID (mp_PassID pass) "" 10000;
  let '(b, versions) := foldl bind_event (b, ∅) (rev events) in
  let b := b <| bn_MissionVersions := merge_sort Z.le (elements versions) |> in
  intents ← listExpansionIntents workspaceID ExpansionIntentCompleted;
  let b := b <| bn_ExpansionDecisionRefs := sort_strings (decision_refs (mp_PassID pass) ∅ intents) |> in
  repositoryID ← (if decide (mp_ConnectionID pass ≠ "") then
                    conn ← getConnection workspaceID (mp_ConnectionID pass);
                    mret (co_RepositoryID conn)
                  else mret 0);
  mret (b <| bn_RepositoryID := repositoryID |> <| bn_IssueNumber := mp_IssueNumber pass |>).

(** ** Errors *)

Definition isNotFound (e : err) : Prop := e = ErrUpstreamStatus 404.
#[export] Instance isNotFound_dec e : Decision (isNotFound e).
Proof. unfold isNotFound. apply _. Defined.

(** [strings.Contains] *)
Definition Contains (s sub : string) : bool := bool_decide (is_Some (String.index 0 sub s)).

(** [err.Error()] of a refusal. *)
Definition refusal_text (why : string) : string := "receipt: unverifiable: " +:+ why.

Definition reasonCode (why : string) : string :=
  (fix go codes :=
     match codes with
     | [] => ReasonBadPayload
     | code :: codes' => if Contains (refusal_text why) code then code else go codes'
     end) [ReasonBadSignature; ReasonBadKey; ReasonBadPayload; ReasonBadBinding].

Definition isUnknownKey (e : err) : bool :=
  match e with
  | ErrReceiptUnverifiable why => Contains (refusal_text why) ReasonBadKey
  | _ => false
  end.

(** ** Stored views *)

(** [mustJSON] and [stringsJSON] of a slice. *)
Definition slice_json {A} `{Codec A} (l : option (list A)) : string :=
  match l with Some l => render true (enc l) | None => "null" end.
Definition strings_json (l : option (list string)) : string :=
  match l with Some l => render true (enc l) | None => "[]" end.

#[local] Instance view_checks : Codec CheckSummary := CheckSummary_codec false.
#[local] Instance view_enforcement : Codec EnforcementSummary := EnforcementSummary_codec false.

(** [time.Unix(sec, 0).UTC()] when set. *)
Definition view_time (sec : Z) : time := if decide (0 < sec) then Unix sec else zero_time.
Definition view_sec (t : time) : Z := if decide (IsZero t) then 0 else UnixSec t.

Definition viewToRecord (workspaceID passID : string) (view : ReceiptView) (at_ : time)
    : ReceiptViewRecord := {|
  rv_WorkspaceID := workspaceID;
  rv_PassID := passID;
  rv_Verification := vw_Verification view;
  rv_ReasonCode := vw_ReasonCode view;
  rv_ReceiptID := vw_ReceiptID view;
  rv_GrantID := vw_GrantID view;
  rv_MissionRef := vw_MissionRef view;
  rv_KeyID := vw_KeyID view;
  rv_SignedAt := view_time (vw_SignedAt view);
  rv_ReceiptDigest := vw_ReceiptDigest view;
  rv_SettlementDigest := vw_SettlementDigest view;
  rv_Outcome := vw_Outcome view;
  rv_MissionVersionsJSON := slice_json (vw_MissionVersions view);
  rv_ExpansionDecisionRefsJSON := strings_json (vw_ExpansionDecisionRefs view);
  rv_RepositoryID := vw_RepositoryID view;
  rv_IssueNumber := vw_IssueNumber view;
  rv_Branch := vw_Branch view;
  rv_PullRequestNumber := vw_PullRequestNumber view;
  rv_HeadSHA := vw_HeadSHA view;
  rv_ChecksJSON := slice_json (vw_Checks view);
  rv_StartedAt := view_time (vw_StartedAt view);
  rv_FinishedAt := view_time (vw_FinishedAt view);
  rv_AggregateCostMicros := vw_AggregateCostMicros view;
  rv_BudgetMicros := vw_BudgetMicros view;
  rv_HistoricalEnforcementJSON := slice_json (vw_HistoricalEnforcement view);
  rv_VerifiedAt := at_
|}.

(** [json.Unmarshal] into a nil slice, its error ignored.  (On a malformed
    element Go would keep the elements read so far; the columns hold what
    [viewToRecord] writes.) *)
Definition read_slice {A} `{Codec A} (raw : string) : option (list A) :=
  match parse (if decide (raw = "") then "[]" else raw) with
  | None | Some VNull => None
  | Some v => @Codec.dec (list A) _ v
  end.

Definition recordToView (rec : ReceiptViewRecord) : ReceiptView := {|
  vw_Verification := rv_Verification rec;
  vw_ReasonCode := rv_ReasonCode rec;
  vw_ReceiptID := rv_ReceiptID rec;
  vw_GrantID := rv_GrantID rec;
  vw_MissionRef := rv_MissionRef rec;
  vw_WorkspaceID := rv_WorkspaceID rec;
  vw_KeyID := rv_KeyID rec;
  vw_SignedAt := view_sec (rv_SignedAt rec);
  vw_ReceiptDigest := rv_ReceiptDigest rec;
  vw_SettlementDigest := rv_SettlementDigest rec;
  vw_Outcome := rv_Outcome rec;
  vw_MissionVersions := read_slice (rv_MissionVersionsJSON rec);
  vw_ExpansionDecisionRefs := read_slice (rv_ExpansionDecisionRefsJSON rec);
  vw_RepositoryID := rv_RepositoryID rec;
  vw_IssueNumber := rv_IssueNumber rec;
  vw_Branch := rv_Branch rec;
  vw_PullRequestNumber := rv_PullRequestNumber rec;
  vw_HeadSHA := rv_HeadSHA rec;
  vw_Checks := read_slice (rv_ChecksJSON rec);
  vw_StartedAt := view_sec (rv_StartedAt rec);
  vw_FinishedAt := view_sec (rv_FinishedAt rec);
  vw_AggregateCostMicros := rv_AggregateCostMicros rec;
  vw_BudgetMicros := rv_BudgetMicros rec;
  vw_HistoricalEnforcement := read_slice (rv_HistoricalEnforcementJSON rec)
|}.

(** ** Verification *)

Section service.
Context `{Env}.

Definition refreshKeys (workspaceID : string) : M unit :=
  history ← call_GetSigningKeys (receipt_opts workspaceID);
  let served := (λ k, MkServedKey (si_KeyID k) (si_PublicKey k) (si_ValidFrom k)
                        (si_ValidUntil k) (si_RotatedFrom k)) <$> sh_Keys history in
  t ← now;
  keys ← gets w_keys;
  refreshed ← lift (RefreshFromHistory keys served (Unix (sh_ServedAt history)) t);
  modify (λ w, w <| w_keys := refreshed |>).

(** The stored verdict, if any, with the reason it is latched for. *)
Definition stored_verdict (workspaceID passID : string)
    : Tx (option (ReceiptView * string)) :=
  r ← try (getReceiptView workspaceID passID);
  match r with
  | Ok stored =>
      mret (Some (recordToView stored,
                  if decide (rv_Verification stored = ReceiptUnverifiable)
                  then rv_ReasonCode stored else ""))
  | Err e => if decide (e = ErrNotFound) then mret None else fail e
  end.

(** Phase 1 of [VerifyReceipt]: the stored verdict, or the pass and its
    binding when it is awaiting a receipt. *)
Definition read_pending (workspaceID passID : string)
    : Tx (option (ReceiptView * string) * option (MissionPassRecord * Binding)) :=
  p ← getMissionPass workspaceID passID;
  v ← stored_verdict workspaceID passID;
  match v with
  | Some _ => mret (v, None)
  | None =>
      if decide (mp_State p ≠ PassOutcomePending) then mret (None, None)
      else
        b ← buildBinding workspaceID p;
        mret (None, Some (p, b))
  end.

(** [return view, fmt.Errorf("%w: %s", ErrReceiptUnverifiable, reason)] when
    there is a reason; the view next to an error is read by no caller. *)
Definition verdict_result (view : option ReceiptView) (reason : string) : M (option ReceiptView) :=
  if decide (reason ≠ "") then fail (ErrReceiptUnverifiable reason) else mret view.

(** Phase 2: one refresh of the key history when the key is unknown. *)
Definition verify_refreshing (workspaceID : string) (env : SignedReceiptEnvelope) (b : Binding)
    : M (res ReceiptView) :=
  v ← try (Verify env b);
  match v with
  | Err e =>
      if isUnknownKey e then
        r ← try (refreshKeys workspaceID);
        match r with
        | Err _ => mret (Err (unverifiable ReasonBadKey "signing-key refresh failed" []))
        | Ok _ => try (Verify env b)
        end
      else mret v
  | Ok _ => mret v
  end.

Definition unverifiable_verdict (workspaceID : string) (pass : MissionPassRecord) (reason : string)
    : ReceiptView :=
  zero_ReceiptView <| vw_Verification := ReceiptUnverifiable |> <| vw_ReasonCode := reason |>
    <| vw_GrantID := mp_RunID pass |> <| vw_MissionRef := mp_MissionRef pass |>
    <| vw_WorkspaceID := workspaceID |>.

(** Phase 3, at time [t]: [Some] is a verdict stored in the meantime. *)
Definition settle_verdict (t : time) (workspaceID passID : string) (verdict : ReceiptView)
    : Tx (option (ReceiptView * string)) :=
  raced ← stored_verdict workspaceID passID;
  match raced with
  | Some _ => mret raced
  | None =>
      _ ← putReceiptView t (viewToRecord workspaceID passID verdict t);
      if decide (vw_Verification verdict ≠ ReceiptVerified) then mret None
      else
        next ← (if decide (vw_Outcome verdict = OutcomeSuccess) then mret PassCompleted
                else if decide (vw_Outcome verdict = OutcomeFailure) then mret PassFailed
                else fail (ErrOther "receipt: verified receipt has unknown outcome"));
        current ← getMissionPass workspaceID passID;
        _ ← (if decide (mp_State current = PassOutcomePending) then
               putMissionPass t (current <| mp_State := next |>
                                         <| mp_Reconciliation := ReconciliationSettled |>)
                 (mp_StoreRevision current)
             else mret tt);
        mret None
  end.

Definition VerifyReceipt (workspaceID passID : string) : M (option ReceiptView) :=
  '(out, pending) ← tx (read_pending workspaceID passID);
  match out, pending with
  | Some (view, latchReason), _ => verdict_result (Some view) latchReason
  | None, None => mret None
  | None, Some (pass, binding) =>
      r ← try (call_GetReceipt (mp_RunID pass) (receipt_opts workspaceID));
      match r with
      | Err e => if decide (isNotFound e) then mret None else fail e
      | Ok env =>
          verr ← verify_refreshing workspaceID env binding;
          '(verdict, reason) ←
            (match verr with
             | Ok view => mret (view, "")
             | Err (ErrReceiptUnverifiable why) =>
                 mret (unverifiable_verdict workspaceID pass (reasonCode why), reasonCode why)
             | Err e => fail e
             end);
          _ ← wait;
          t ← now;
          raced ← tx (settle_verdict t workspaceID passID verdict);
          match raced with
          | Some (view, racedReason) => verdict_result (Some view) racedReason
          | None => verdict_result (Some verdict) reason
          end
      end
  end.

(** ** Publication *)

(** Phase 1 of [PublishVerifiedCheck]: the verified view, the repository
    binding, the publication key, and whether it is settled already; the
    intent is stored in flight. *)
Definition intend_publication (t1 t2 : time) (workspaceID passID : string)
    : Tx (ReceiptView * string * string * bool) :=
  pass ← getMissionPass workspaceID passID;
  r ← try (getReceiptView workspaceID passID);
  stored ← (match r with
            | Ok stored => mret stored
            | Err _ => fail (ErrOther "receipt: no verified receipt for pass")
            end);
  _ ← require (rv_Verification stored = ReceiptVerified)
        (ErrOther "receipt: pass receipt is not verified");
  let view := recordToView stored in
  bindingID ← (if decide (mp_ConnectionID pass ≠ "") then
                 conn ← getConnection workspaceID (mp_ConnectionID pass);
                 mret (co_RepositoryBindingRef conn)
               else mret "");
  _ ← require (bindingID ≠ "") (ErrOther "receipt: pass has no repository binding");
  let key := PublicationIDKey workspaceID (vw_ReceiptDigest view) (vw_RepositoryID view)
               (vw_PullRequestNumber view) (vw_HeadSHA view) in
  inserted ← putCheckPublicationIfAbsent t1
    (zero_CheckPublicationRecord <| cp_WorkspaceID := workspaceID |> <| cp_PassID := passID |>
       <| cp_IdempotencyKey := key |> <| cp_ReceiptDigest := vw_ReceiptDigest view |>
       <| cp_RepositoryID := vw_RepositoryID view |>
       <| cp_PullRequestNumber := vw_PullRequestNumber view |>
       <| cp_HeadSHA := vw_HeadSHA view |> <| cp_BindingID := bindingID |>
       <| cp_State := CheckPublicationInFlight |> <| cp_CreatedAt := t1 |>
       <| cp_UpdatedAt := t2 |>);
  intent ← getCheckPublication workspaceID key;
  mret (view, bindingID, key,
        negb inserted && bool_decide (cp_State intent = CheckPublicationSettled)).

Definition settle_publication (workspaceID key state checkRunID : string) : M unit :=
  t ← now;
  tx (setCheckPublicationState t workspaceID key state checkRunID t).

Definition PublishVerifiedCheck (workspaceID passID : string) : M unit :=
  t1 ← now;
  t2 ← now;
  '(view, bindingID, key, alreadySettled) ← tx (intend_publication t1 t2 workspaceID passID);
  if (alreadySettled : bool) then mret tt
  else
    let req := MinimalCheckRequest (Some view) bindingID key in
    if decide (gc_Name req = "") then
      settle_publication workspaceID key CheckPublicationDisputed ""
    else
      r ← try (call_PublishGitHubCheck req (receipt_opts workspaceID));
      _ ← wait;
      match r with
      | Err e =>
          if decide (isNotFound e) then
            settle_publication workspaceID key CheckPublicationDisputed ""
          else fail e
      | Ok result =>
          if decide (gr_IdempotencyKey result ≠ key) then
            settle_publication workspaceID key CheckPublicationDisputed (gr_CheckRunID result)
          else settle_publication workspaceID key CheckPublicationSettled (gr_CheckRunID result)
      end.

(** Phase 1 of [ReconcilePublication]. *)
Definition open_publication (workspaceID passID : string)
    : Tx (option (CheckPublicationRecord * ReceiptView)) :=
  r ← try (getLatestCheckPublicationForPass workspaceID passID);
  match r with
  | Err e => if decide (e = ErrNotFound) then mret None else fail e
  | Ok intent =>
      if decide (cp_State intent = CheckPublicationSettled ∨
                 cp_State intent = CheckPublicationDisputed) then mret None
      else
        stored ← getReceiptView workspaceID passID;
        mret (Some (intent, recordToView stored))
  end.

Definition republish (workspaceID : string) (intent : CheckPublicationRecord) (view : ReceiptView)
    : M unit :=
  let key := cp_IdempotencyKey intent in
  let req := MinimalCheckRequest (Some view) (cp_BindingID intent) key in
  _ ← require (gc_Name req ≠ "") (ErrOther "receipt: cannot render a public check for pass");
  r ← try (call_PublishGitHubCheck req (receipt_opts workspaceID));
  _ ← wait;
  match r with
  | Err e =>
      if decide (isNotFound e) then
        settle_publication workspaceID key CheckPublicationDisputed (cp_CheckRunID intent)
      else fail e
  | Ok result =>
      settle_publication workspaceID key CheckPublicationSettled
        (if decide (gr_CheckRunID result = "") then cp_CheckRunID intent else gr_CheckRunID result)
  end.

Definition ReconcilePublication (workspaceID passID : string) : M unit :=
  found ← tx (open_publication workspaceID passID);
  match found with
  | None => mret tt
  | Some (intent, view) =>
      let key := cp_IdempotencyKey intent in
      let settle state := settle_publication workspaceID key state (cp_CheckRunID intent) in
      r ← try (call_ReconcileOperation key "" (receipt_opts workspaceID));
      _ ← wait;
      match r with
      | Err e =>
          if decide (isNotFound e) then settle CheckPublicationDisputed else fail e
      | Ok op =>
          let status := ToLower (or_Status op) in
          if decide (status = "completed") then settle CheckPublicationSettled
          else if decide (status = "failed" ∨ status = "rejected" ∨ status = "expired") then
            settle CheckPublicationDisputed
          else republish workspaceID intent view
      end
  end.

(** ** The private view *)

Record PublicationStatus := MkPublicationStatus {
  ps_State : string;
  ps_CheckRunID : string;
  ps_IdempotencyKey : string;
  ps_RepositoryID : Z;
  ps_PullRequestNumber : Z;
  ps_HeadSHA : string;
  ps_UpdatedAt : string
}.

Record ReceiptStatus := MkReceiptStatus {
  st_PassID : string;
  st_Verification : string;
  st_ReasonCode : string;
  st_View : option ReceiptView;
  st_Publication : option PublicationStatus
}.

Definition ReceiptStatePending : string := "pending".

Definition Get (workspaceID passID : string) : Tx ReceiptStatus :=
  _ ← getMissionPass workspaceID passID;
  r ← try (getReceiptView workspaceID passID);
  match r with
  | Err e =>
      if decide (e = ErrNotFound) then
        mret (MkReceiptStatus passID ReceiptStatePending "" None None)
      else fail e
  | Ok stored =>
      let view := if decide (rv_Verification stored = ReceiptVerified)
                  then Some (recordToView stored) else None in
      let status := MkReceiptStatus passID (rv_Verification stored) (rv_ReasonCode stored) view in
      r ← try (getLatestCheckPublicationForPass workspaceID passID);
      match r with
      | Err e => if decide (e = ErrNotFound) then mret (status None) else fail e
      | Ok intent =>
          mret (status (Some (MkPublicationStatus (cp_State intent) (cp_CheckRunID intent)
            (cp_IdempotencyKey intent) (cp_RepositoryID intent) (cp_PullRequestNumber intent)
            (cp_HeadSHA intent) (format_rfc3339 (cp_UpdatedAt intent)))))
      end
  end.
End service.

(** ** Stored views are read back *)

Lemma read_slice_json {A} `{Codec A} (l : list A) : plain l → read_slice (slice_json (Some l)) = Some l.
Proof.
  intros Hl. unfold slice_json, read_slice. rewrite decide_False by done.
  rewrite parse_render by by apply enc_ascii. pose proof (enc_not_null l) as Hn.
  pose proof (dec_enc l Hl) as Hd. by destruct (of_json (enc l)).
Qed.

Lemma read_slice_null {A} `{Codec A} : read_slice (A := A) (slice_json (A := A) None) = None.
Proof. reflexivity. Qed.

Lemma view_sec_time s : 0 ≤ s < 2 ^ 63 → view_sec (view_time s) = s.
Proof.
  intros Hs. unfold view_time. destruct (decide (0 < s)) as [D|D]; unfold view_sec.
  - rewrite decide_False; [by apply UnixSec_Unix; lia|]. unfold IsZero, zero_time, Unix, int64, year1_to_unix.
    intros E. apply Z.mul_reg_r in E; [|done].
    assert ((s + 62135596800 + 2 ^ 63) mod 2 ^ 64 = 2 ^ 63) as E2 by lia.
    destruct (decide (s + 62135596800 + 2 ^ 63 < 2 ^ 64)) as [L|L].
    + rewrite Z.mod_small in E2; lia.
    + replace (s + 62135596800 + 2 ^ 63) with (s + 62135596800 - 2 ^ 63 + 1 * 2 ^ 64) in E2 by lia.
      rewrite Z.mod_add, Z.mod_small in E2; lia.
  - rewrite decide_True by done. lia.
Qed.

(** Slices of ASCII strings and int64 numbers; times as the payload check
    leaves them. *)
Definition plain_slice {A} `{Codec A} (l : option (list A)) : Prop := ∀ x, l = Some x → plain x.
Definition plain_view (v : ReceiptView) : Prop :=
  plain_slice (vw_MissionVersions v) ∧ plain_slice (vw_ExpansionDecisionRefs v) ∧
  plain_slice (vw_Checks v) ∧ plain_slice (vw_HistoricalEnforcement v) ∧
  0 ≤ vw_SignedAt v < 2 ^ 63 ∧ 0 ≤ vw_StartedAt v < 2 ^ 63 ∧ 0 ≤ vw_FinishedAt v < 2 ^ 63.

Lemma read_slice_back {A} `{Codec A} (l : option (list A)) :
  plain_slice l → read_slice (slice_json l) = l.
Proof. destruct l as [l|]; intros Hl; [by apply read_slice_json, Hl|apply read_slice_null]. Qed.

(** A stored receipt view is read back as it was: the view rebuilt from
    the row is the one that was stored, with the row's workspace and a nil
    list of decision references turned empty, and every other nil slice
    still nil (ASCII strings, int64 numbers, non-negative times). *)
Theorem view_record_round_trip ws passID view at_ :
  plain_view view →
  recordToView (viewToRecord ws passID view at_) =
    view <| vw_WorkspaceID := ws |>
         <| vw_ExpansionDecisionRefs := Some (default [] (vw_ExpansionDecisionRefs view)) |>.
Proof.
  intros (H1 & H2 & H3 & H4 & H5 & H6 & H7). unfold recordToView, viewToRecord. cbn.
  rewrite !read_slice_back, !view_sec_time by done.
  replace (read_slice (strings_json (vw_ExpansionDecisionRefs view)))
    with (Some (default [] (vw_ExpansionDecisionRefs view))); [done|].
  destruct (vw_ExpansionDecisionRefs view) as [l|] eqn:E; [|done].
  symmetry. apply (read_slice_json l). by apply H2.
Qed.

(** ** One verdict *)

Definition verdict_of (row : ReceiptViewRecord) : ReceiptView * string :=
  (recordToView row,
   if decide (rv_Verification row = ReceiptUnverifiable) then rv_ReasonCode row else "").

Definition receipt_row (db : DB) (ws passID : string) : option ReceiptViewRecord :=
  db_receipt_views db !! (ws, passID).

Lemma stored_verdict_run ws passID db :
  stored_verdict ws passID db = (Ok (verdict_of <$> receipt_row db ws passID), db).
Proof.
  unfold stored_verdict, receipt_row, getReceiptView.
  destruct (db_receipt_views db !! (ws, passID)) as [row|] eqn:E.
  - by rewrite (try_then _ _ _ _ _ (select_run _ _ _ _ E)).
  - by rewrite (try_then _ _ _ _ _ (select_none _ _ _ E)).
Qed.

Definition verdict_state (outcome : string) : PassState :=
  if decide (outcome = OutcomeSuccess) then PassCompleted else PassFailed.

(** What a verdict does to a database that holds none: the row is stored,
    and a verified receipt settles the pass if it is still waiting. *)
Definition settled_db (t : time) (ws passID : string) (verdict : ReceiptView) (db db' : DB) : Prop :=
  let row := viewToRecord ws passID verdict t in
  let stored := db <| db_receipt_views := <[(ws, passID) := row]> (db_receipt_views db) |> in
  if decide (vw_Verification verdict = ReceiptVerified) then
    ∃ cur, db_mission_passes db !! (ws, passID) = Some cur ∧
      db' = if decide (mp_State cur = PassOutcomePending) then
              stored <| db_mission_passes := <[(ws, passID) :=
                cur <| mp_State := verdict_state (vw_Outcome verdict) |>
                    <| mp_Reconciliation := ReconciliationSettled |>
                    <| mp_StoreRevision := mp_StoreRevision cur + 1 |>
                    <| mp_UpdatedAt := t |>]> (db_mission_passes db) |>
            else stored
  else db' = stored.

Lemma putReceiptView_new t ws passID verdict db :
  ws ≠ "" → passID ≠ "" → receipt_row db ws passID = None →
  vw_Verification verdict = ReceiptVerified ∨ vw_Verification verdict = ReceiptUnverifiable →
  putReceiptView t (viewToRecord ws passID verdict t) db =
    (Ok tt, db <| db_receipt_views :=
       <[(ws, passID) := viewToRecord ws passID verdict t]> (db_receipt_views db) |>).
Proof.
  intros Hw Hp Hr Hv. unfold putReceiptView.
  assert (vw_Verification verdict ≠ "") as Hne by (destruct Hv as [->| ->]; done).
  rewrite require_then by done. rewrite require_then by done. cbv zeta. rewrite gets_then.
  cbn [rv_WorkspaceID rv_PassID viewToRecord]. unfold receipt_row in Hr. rewrite Hr.
  unfold modify. by destruct (decide _).
Qed.

Lemma settle_verdict_Ok t ws passID verdict db raced db' :
  passes_wf db → ws ≠ "" → passID ≠ "" →
  vw_Verification verdict = ReceiptVerified ∨ vw_Verification verdict = ReceiptUnverifiable →
  settle_verdict t ws passID verdict db = (Ok raced, db') →
  (db' = db ∧ raced = verdict_of <$> receipt_row db ws passID ∧ raced ≠ None) ∨
  (receipt_row db ws passID = None ∧ raced = None ∧ settled_db t ws passID verdict db db').
Proof.
  intros Hwf Hw Hp Hv E. unfold settle_verdict in E.
  rewrite (bind_run _ _ _ _ _ (stored_verdict_run ws passID db)) in E.
  destruct (receipt_row db ws passID) as [row|] eqn:Er; cbn [fmap option_fmap option_map] in E.
  { injection E as <- <-. by left. }
  right. split; [done|].
  rewrite (bind_run _ _ _ _ _ (putReceiptView_new t ws passID verdict db Hw Hp Er Hv)) in E.
  unfold settled_db. cbv zeta.
  destruct (decide (vw_Verification verdict = ReceiptVerified)) as [V|V].
  2: { rewrite decide_True in E by done. by injection E as <- <-. }
  rewrite decide_False in E by (intros N; by apply N).
  call_inv E En; [|discriminate E].
  assert (a = verdict_state (vw_Outcome verdict) ∧
    d = db <| db_receipt_views :=
       <[(ws, passID) := viewToRecord ws passID verdict t]> (db_receipt_views db) |>) as [-> ->].
  { unfold verdict_state. clear E. op_inv En; by simplify_eq. }
  clear En. call_inv E Ec; [|discriminate E]. apply select_Ok in Ec as [Hc ->]. cbn in Hc.
  match type of Hc with _ = Some ?c => rename c into cur end.
  call_inv E Es; [|discriminate E]. injection E as <- <-. split; [done|].
  exists cur. split; [done|]. destruct (decide (mp_State cur = PassOutcomePending)).
  - apply putMissionPass_Ok in Es as (_ & _ & _ & ->).
    destruct (Hwf _ _ Hc) as [Hk _]. unfold stamped, pass_key. cbn. rewrite <- Hk, Hc. done.
  - by injection Es as <- <-.
Qed.

Section verdicts.
Context `{Env}.

(** The pinned keys, or a key set refreshed from a served history that chains
    to the same root. *)
Definition trusted_keys (ks keys : KeyStore) : Prop :=
  keys = ks ∨ ∃ served at_ t, RefreshFromHistory ks served at_ t = Ok keys.

(** The view of a receipt that verifies against the binding. *)
Definition verified_receipt (ks : KeyStore) (env : SignedReceiptEnvelope) (b : Binding)
    (view : ReceiptView) : Prop :=
  ∃ keys t p, trusted_keys ks keys ∧ decodeReceiptPayload (re_Payload env) = Ok p ∧
    signed_by keys env p ∧ payload_valid t p ∧ bound_to b p ∧ view = verified_view env p.

Lemma within_Verify env b : within (keeps w_db) (Verify env b).
Proof. intros w r w' E. apply Verify_refuses in E as [[n ->] _]. reflexivity. Qed.

Lemma Verify_verified ks env b w view w' :
  trusted_keys ks (w_keys w) → Verify env b w = (Ok view, w') → verified_receipt ks env b view.
Proof.
  intros Hk E. destruct (proj1 (Verify_accepts env b w view)) as (p & ?); [eauto|].
  by exists (w_keys w), (clock (w_ticks w)), p.
Qed.

Lemma refreshKeys_Ok ws w u w' : refreshKeys ws w = (Ok u, w') →
  w_db w' = w_db w ∧ trusted_keys (w_keys w) (w_keys w').
Proof.
  unfold refreshKeys, call_GetSigningKeys. rewrite bind_upstream.
  destruct (reply_GetSigningKeys _ _) as [history|e]; [|done]. cbv zeta. rewrite now_then, gets_then.
  cbn [w_keys upd]. intros E. op_inv_step E; [|discriminate E]. injection E as <- <-.
  split; [done|]. right. eauto.
Qed.

Lemma within_refresh ws : within (keeps w_db) (refreshKeys ws).
Proof. unfold refreshKeys, call_GetSigningKeys. keeps_auto. Qed.

Lemma verify_refreshing_run ws env b w v w' :
  verify_refreshing ws env b w = (v, w') →
  w_db w' = w_db w ∧ ∃ r, v = Ok r ∧
    (∀ view, r = Ok view → verified_receipt (w_keys w) env b view) ∧
    (∀ e, r = Err e → refused e).
Proof.
  unfold verify_refreshing. intros E. try_inv E Ev. pose proof (Verify_refuses _ _ _ _ _ Ev) as [[n ->] Hr].
  destruct r as [view|e].
  - injection E as <- <-. split; [done|]. exists (Ok view). split_and!; [done| |done].
    intros ? [= <-]. eapply Verify_verified; [|exact Ev]. by left.
  - destruct (isUnknownKey e).
    2: { injection E as <- <-. split; [done|]. exists (Err e). split_and!; [done|done|exact Hr]. }
    try_inv E Ek. destruct r as [u|e2].
    + apply refreshKeys_Ok in Ek as [Ed Hk]. unfold try in E.
      destruct (Verify env b w0) as [r2 w2] eqn:E2. injection E as <- <-.
      pose proof (Verify_refuses _ _ _ _ _ E2) as [[m ->] Hr2]. split; [exact Ed|].
      exists r2. split_and!; [done| |exact Hr2]. intros view ->. eapply Verify_verified; [|exact E2].
      exact Hk.
    + injection E as <- <-. split.
      * eapply (within_refresh ws) in Ek. exact Ek.
      * eexists. split_and!; [done|done|]. intros ? [= <-]. apply refused_unverifiable.
Qed.


Lemma buildBinding_reads ws p : within eq (buildBinding ws p).
Proof.
  unfold buildBinding, listMissionEvents, listExpansionIntents, getConnection. cbv zeta.
  repeat (first [apply within_select|solve [auto with within typeclass_instances]|within_step]).
Qed.

Lemma read_pending_Ok ws passID db out pending db' :
  read_pending ws passID db = (Ok (out, pending), db') →
  db' = db ∧ out = verdict_of <$> receipt_row db ws passID ∧
  ∀ p b, pending = Some (p, b) → out = None ∧ db_mission_passes db !! (ws, passID) = Some p ∧
    mp_State p = PassOutcomePending ∧ buildBinding ws p db = (Ok b, db).
Proof.
  unfold read_pending. intros E. call_inv E Ep; [|discriminate E].
  apply select_Ok in Ep as [Hp ->].
  rewrite (bind_run _ _ _ _ _ (stored_verdict_run ws passID db)) in E.
  destruct (verdict_of <$> receipt_row db ws passID) as [v|] eqn:Er.
  { injection E as <- <- <-. by split_and!. }
  destruct (decide _) as [D|D] in E; [injection E as <- <- <-; by split_and!|].
  call_inv E Eb; [|discriminate E]. pose proof (buildBinding_reads _ _ _ _ _ Eb) as <-.
  injection E as <- <- <-. split_and!; [done|done|]. intros p b [= <- <-].
  split_and!; [done|exact Hp|by apply dec_stable|exact Eb].
Qed.

(** The end of [VerifyReceipt] in terms of the database it started from. *)
Definition verdict_stored (ws passID : string) (w : World) (r : res (option ReceiptView))
    (db' : DB) : Prop :=
  ∃ n t p b env, let q := peers n (w_db w) in
    db_mission_passes (w_db w) !! (ws, passID) = Some p ∧ mp_State p = PassOutcomePending ∧
    buildBinding ws p (w_db w) = (Ok b, w_db w) ∧
    (∃ h, reply_GetReceipt h (mp_RunID p) (receipt_opts ws) = Ok env) ∧
    receipt_row q ws passID = None ∧
    ((∃ view, verified_receipt (w_keys w) env b view ∧ r = Ok (Some view) ∧
        settled_db t ws passID view q db') ∨
     (∃ reason, r = Err (ErrReceiptUnverifiable reason) ∧
        settled_db t ws passID (unverifiable_verdict ws p reason) q db')).

Lemma verdict_result_keeps (v : option ReceiptView) reason : within (keeps w_db) (verdict_result v reason).
Proof. unfold verdict_result. within_auto. Qed.

Lemma reasonCode_cases why :
  reasonCode why ∈ [ReasonBadSignature; ReasonBadKey; ReasonBadPayload; ReasonBadBinding].
Proof. unfold reasonCode. repeat case_match; by_decide. Qed.

Lemma reasonCode_ne why : reasonCode why ≠ "".
Proof. unfold reasonCode. by repeat case_match. Qed.

Lemma VerifyReceipt_pending ws passID w p b r w' :
  ws ≠ "" → passID ≠ "" → (∀ n, passes_wf (peers n (w_db w))) →
  tx (read_pending ws passID) w = (Ok (None, Some (p, b)), w) →
  VerifyReceipt ws passID w = (r, w') →
  w_db w' = w_db w ∨ (∃ n, w_db w' = peers n (w_db w)) ∨ verdict_stored ws passID w r (w_db w').
Proof.
  intros Hw Hp Hwf Er E. unfold VerifyReceipt in E. rewrite (bind_run _ _ _ _ _ Er) in E.
  apply tx_Ok in Er as (db & Er & _). apply read_pending_Ok in Er as (_ & _ & Hpend).
  destruct (Hpend p b eq_refl) as (_ & Hpass & Hst & Hb). clear Hpend.
  try_inv E Eg. unfold call_GetReceipt in Eg. rewrite upstream_run in Eg. injection Eg as Eg <-.
  destruct r0 as [env|e].
  2: { left. destruct (decide (isNotFound e)); by injection E as <- <-. }
  set (w1 := w <| w_calls := _ |>) in E.
  destruct (verify_refreshing ws env b w1) as [v w2] eqn:Ev.
  pose proof (verify_refreshing_run _ _ _ _ _ _ Ev) as (Ed & v' & -> & Hok & Hbad).
  rewrite (bind_run _ _ _ _ _ Ev) in E. cbv beta in E.
  assert (∃ verdict reason, (wait ≫= λ _, now ≫= λ t, tx (settle_verdict t ws passID verdict) ≫= λ raced,
      match raced with
      | Some (view, racedReason) => verdict_result (Some view) racedReason
      | None => verdict_result (Some verdict) reason
      end) w2 = (r, w') ∧
      ((v' = Ok verdict ∧ reason = "") ∨
       reason ≠ "" ∧ verdict = unverifiable_verdict ws p reason)) as (verdict & reason & E2 & Hv).
  { destruct v' as [view|e]; [exists view, ""; split; [exact E|by left]|].
    destruct (Hbad e eq_refl) as [why ->]. exists (unverifiable_verdict ws p (reasonCode why)), (reasonCode why).
    split; [exact E|right]. split; [apply reasonCode_ne|done]. }
  clear E. unfold wait in E2. rewrite modify_then, now_then in E2.
  set (n := w_ticks w2) in E2. set (w3 := w2 <| w_db := _ |> <| w_ticks := _ |>) in E2.
  cbn [w_ticks upd] in E2. fold n in E2.
  assert (w_db w3 = peers n (w_db w)) as Eq by (cbn; by rewrite Ed).
  call_inv E2 Es.
  2: { apply tx_Err in Es as [_ ->]. injection E2 as <- <-. right. left. by exists n. }
  apply tx_Ok in Es as (db3 & Es & ->). rewrite Eq in Es.
  apply settle_verdict_Ok in Es as [(-> & Hr & Hn)|(Hr & -> & Hs)]; try done.
  - destruct a as [[view rr]|]; [|done]. apply verdict_result_keeps in E2. right. left. by exists n.
  - right. right. pose proof (verdict_result_keeps _ _ _ _ _ E2) as Ew. rewrite Ew. cbn [w_db upd].
    exists n, (clock n), p, b, env. split_and!; try done; [by eexists|].
    unfold verdict_result in E2. destruct Hv as [[-> ->]|[Hne ->]].
    + left. exists verdict. rewrite decide_False in E2 by (intros N; by apply N).
      injection E2 as <- _. split_and!; [by apply Hok|done|done].
    + right. exists reason. rewrite decide_True in E2 by done. by injection E2 as <- _.
  - destruct Hv as [[-> _]|[_ ->]]; [left|by right].
    by destruct (Hok verdict eq_refl) as (? & ? & ? & _ & _ & _ & _ & _ & ->).
Qed.

(** C14: verification moves a pass only on a receipt that verifies locally,
    and only once.  With a stored verdict [VerifyReceipt] answers from it and
    does nothing else: no request is sent and nothing changes.  Otherwise the
    database is left alone (as the other requests of the process leave it),
    or the pass was waiting for its receipt, no verdict had been stored, and
    exactly one is stored now: either the view of an envelope that AuthScope
    returned for this run and that verifies, under the pinned keys or a key
    set chained to the same root, against the binding built from the local
    store, in which case the pass, if still waiting, becomes completed or
    failed as the receipt says; or an unverifiable verdict, reported as
    [ErrReceiptUnverifiable], which leaves every pass as it was. *)
Theorem VerifyReceipt_settles ws passID w r w' :
  ws ≠ "" → passID ≠ "" → (∀ n, passes_wf (peers n (w_db w))) →
  VerifyReceipt ws passID w = (r, w') →
  match db_mission_passes (w_db w) !! (ws, passID), receipt_row (w_db w) ws passID with
  | Some _, Some row =>
      w' = w ∧ r = let '(view, why) := verdict_of row in
                   if decide (why = "") then Ok (Some view) else Err (ErrReceiptUnverifiable why)
  | _, _ =>
      w_db w' = w_db w ∨ (∃ n, w_db w' = peers n (w_db w)) ∨
      verdict_stored ws passID w r (w_db w')
  end.
Proof.
  intros Hw Hp Hwf E. destruct (tx (read_pending ws passID) w) as [[[out pend]|e] w1] eqn:Er.
  2: { unfold VerifyReceipt in E. rewrite (bind_fail _ _ _ _ _ Er) in E. injection E as <- <-.
       apply tx_Err in Er as [[db' Er] ->].
       destruct (db_mission_passes (w_db w) !! (ws, passID)) eqn:H0; [|by left].
       destruct (receipt_row (w_db w) ws passID) eqn:H1; [|by left].
       unfold read_pending in Er. unfold getMissionPass in Er.
       rewrite (bind_run _ _ _ _ _ (select_run _ _ _ _ H0)) in Er.
       rewrite (bind_run _ _ _ _ _ (stored_verdict_run ws passID (w_db w))), H1 in Er. discriminate Er. }
  pose proof Er as Er2. apply tx_Ok in Er2 as (db' & Er2 & ->).
  pose proof (read_pending_Ok _ _ _ _ _ _ Er2) as (-> & Hout & Hpend).
  assert (w <| w_db := w_db w |> = w) as Ew by by destruct w. rewrite Ew in Er.
  destruct pend as [[p b]|].
  - destruct (Hpend p b eq_refl) as (-> & Hpass & _ & _). rewrite Hpass.
    destruct (receipt_row (w_db w) ws passID); [discriminate Hout|].
    by eapply VerifyReceipt_pending.
  - unfold VerifyReceipt in E. rewrite (bind_run _ _ _ _ _ Er) in E. rewrite Hout in E.
    destruct (receipt_row (w_db w) ws passID) as [row|]; cbn in E.
    + unfold verdict_result in E. unfold verdict_of.
      set (why := if decide (rv_Verification row = ReceiptUnverifiable) then rv_ReasonCode row
                  else "") in *.
      assert (w' = w ∧ r = if decide (why = "") then Ok (Some (recordToView row))
                            else Err (ErrReceiptUnverifiable why)) as [-> Hr].
      { destruct (decide (why = "")) as [D|D].
        - rewrite decide_False in E by (intros N; by apply N). by injection E as <- <-.
        - rewrite decide_True in E by done. by injection E as <- <-. }
      destruct (db_mission_passes (w_db w) !! (ws, passID)); [by split|by left].
    + injection E as <- <-. destruct (db_mission_passes (w_db w) !! (ws, passID)); by left.
Qed.
End verdicts.

(** ** A run *)

Definition bench_done_pass : MissionPassRecord :=
  bench_pass <| mp_State := PassOutcomePending |> <| mp_MissionRef := "mission-1" |>
    <| mp_RunID := "run-1" |>.
Definition bench_done_event : SafeEvent :=
  zero_SafeEvent <| sf_EventID := "ev-1" |> <| sf_Cursor := "c1" |>
    <| sf_Type := EventRunSucceeded |> <| sf_OccurredAt := bench_time |>
    <| sf_AuthScopeMissionVersion := 1 |> <| sf_Branch := "authscope/p" |>
    <| sf_PullRequestNumber := 9 |> <| sf_HeadSHA := "abc" |>.
Definition bench_done_DB : DB :=
  (bench_DB_with bench_done_pass) <| db_mission_events := {[ ("ws", "pass-1", "ev-1") :=
    MkMissionEventRecord "ws" "pass-1" "ev-1" EventRunSucceeded "c1"
      (render true (safe_json bench_done_event)) bench_time ]} |>.
Definition bench_keys : KeyStore :=
  MkKeyStore (key_fingerprint bench_key)
    {[ "key-1" := Mk_keyRecord bench_key (Unix 1600000000) zero_time ]} ["key-1"].
Definition bench_done_world : World := (start bench_done_DB) <| w_keys := bench_keys |>.

Lemma VerifyReceipt_settles_witness :
  let run := @VerifyReceipt bench_env "ws" "pass-1" bench_done_world in
  run.1 = Ok (Some bench_view) ∧
  mp_State <$> db_mission_passes (w_db run.2) !! ("ws", "pass-1") = Some PassCompleted ∧
  (w_db run.2 = w_db bench_done_world ∨ (∃ n, w_db run.2 = @peers bench_env n (w_db bench_done_world)) ∨
   @verdict_stored bench_env "ws" "pass-1" bench_done_world run.1 (w_db run.2)).
Proof.
  intros run. split; [vm_compute; reflexivity|]. split; [vm_compute; reflexivity|].
  assert (∀ n, passes_wf (@peers bench_env n (w_db bench_done_world))) as Hwf.
  { intros n. change (passes_wf bench_done_DB). apply map_Forall_insert; [done|].
    split; [|apply map_Forall_empty]. by_decide. }
  pose proof (@VerifyReceipt_settles bench_env "ws" "pass-1" bench_done_world run.1 run.2
                ltac:(discriminate) ltac:(discriminate) Hwf (surjective_pairing run)) as T.
  replace (receipt_row (w_db bench_done_world) "ws" "pass-1") with (@None ReceiptViewRecord) in T
    by (vm_compute; reflexivity).
  destruct (db_mission_passes (w_db bench_done_world) !! ("ws", "pass-1")); exact T.
Defined.

Lemma view_record_round_trip_witness :
  recordToView (viewToRecord "ws" "pass-1" bench_view bench_time) = bench_view.
Proof.
  rewrite view_record_round_trip; [reflexivity|].
  assert (∀ A (HA : Codec A) (l : list A), plain l → plain_slice (Some l)) as Hs by (by intros ???? ? [= <-]).
  unfold plain_view. split_and!; try (cbn; lia); apply Hs; repeat constructor;
    try (vm_compute; reflexivity); cbn; unfold int64_range; lia.
Defined.

(** The reason is searched in the whole message, which quotes fields of the
    envelope: a sender chooses the code that is reported, and whether the
    keys are refreshed. *)
Example reason_chosen_by_sender :
  let why := ReasonBadPayload +:+ ": unsupported algorithm " +:+
             String (byte_of 34) (ReasonBadKey +:+ String (byte_of 34) "") in
  reasonCode why = ReasonBadKey ∧ isUnknownKey (ErrReceiptUnverifiable why) = true.
Proof. vm_compute. split; reflexivity. Qed.

(** ** One publication *)

Definition publication_key (ws : string) (view : ReceiptView) : string :=
  PublicationIDKey ws (vw_ReceiptDigest view) (vw_RepositoryID view)
    (vw_PullRequestNumber view) (vw_HeadSHA view).

Definition publication_row (db : DB) (ws key : string) : option CheckPublicationRecord :=
  db_check_publications db !! (ws, key).

(** The verified view of a pass, and the intent to publish it. *)
Record intended (ws passID : string) (db : DB) (view : ReceiptView) (db1 : DB)
    (c : CheckPublicationRecord) : Prop := {
  in_view : ∃ row, receipt_row db ws passID = Some row ∧ rv_Verification row = ReceiptVerified ∧
    view = recordToView row;
  in_row : publication_row db1 ws (publication_key ws view) = Some c;
  in_fresh : (publication_row db ws (publication_key ws view) = Some c ∧ db1 = db) ∨
    (publication_row db ws (publication_key ws view) = None ∧
     cp_State c = CheckPublicationInFlight ∧
     cp_WorkspaceID c = ws ∧ cp_PassID c = passID ∧
     cp_IdempotencyKey c = publication_key ws view ∧
     db1 = db <| db_check_publications := <[(ws, publication_key ws view) := c]>
                   (db_check_publications db) |>)
}.

Lemma putCheckPublicationIfAbsent_Ok t rec db inserted db' :
  putCheckPublicationIfAbsent t rec db = (Ok inserted, db') →
  let k := (cp_WorkspaceID rec, cp_IdempotencyKey rec) in
  (inserted = false ∧ db' = db ∧ is_Some (db_check_publications db !! k)) ∨
  (inserted = true ∧ db_check_publications db !! k = None ∧
   db' = db <| db_check_publications :=
     <[k := rec <| cp_CreatedAt := or_now t (cp_CreatedAt rec) |>
                <| cp_UpdatedAt := or_now t (cp_UpdatedAt rec) |>]> (db_check_publications db) |>).
Proof.
  intros E k. unfold putCheckPublicationIfAbsent in E. do 2 (op_inv_step E; [|discriminate E]).
  rewrite gets_then in E. cbv zeta in E. fold k in E.
  destruct (db_check_publications db !! k) eqn:Ek.
  - injection E as <- <-. left. by split_and!.
  - rewrite modify_then in E. injection E as <- <-. right. by split_and!.
Qed.

Lemma intend_publication_Ok t1 t2 ws passID db view bindingID key settled db1 :
  intend_publication t1 t2 ws passID db = (Ok (view, bindingID, key, settled), db1) →
  key = publication_key ws view ∧
  ∃ c, intended ws passID db view db1 c ∧ (settled = false → cp_State c ≠ CheckPublicationSettled) ∧
    (settled = true → db1 = db ∧ cp_State c = CheckPublicationSettled).
Proof.
  unfold intend_publication. intros E. call_inv E Ep; [|discriminate E].
  apply select_Ok in Ep as [Hp ->]. try_inv E Er.
  destruct r as [stored|e]; [|discriminate E]. apply select_Ok in Er as [Hr ->].
  op_inv_step E. op_inv_step E; [|discriminate E]. cbv zeta in E.
  call_inv E Eb; [|discriminate E].
  match type of E with _ ?d = _ => assert (d = db) as -> end.
  { clear E. op_inv_step Eb; [|by injection Eb as _ <-]. call_inv Eb Ec; [|discriminate Eb].
    apply select_Ok in Ec as [_ ->]. by injection Eb as _ <-. }
  op_inv_step E; [|discriminate E].
  set (view0 := recordToView stored) in *. fold (publication_key ws view0) in E.
  call_inv E Ei; [|discriminate E]. apply putCheckPublicationIfAbsent_Ok in Ei.
  call_inv E Eg; [|discriminate E]. apply select_Ok in Eg as [Hg ->].
  injection E as <- <- <- <- <-. split; [done|].
  eexists. split; [constructor; [by exists stored|exact Hg|]|].
  - cbn in Ei. destruct Ei as [(-> & -> & _)|(-> & Hn & ->)]; [by left|right].
    unfold publication_row. cbn in Hg. rewrite lookup_insert_eq in Hg. injection Hg as <-. by split_and!.
  - cbn in Ei. destruct Ei as [(-> & -> & _)|(-> & Hn & ->)]; cbn.
    + split; [by intros ?%bool_decide_eq_false|by intros ?%bool_decide_eq_true].
    + cbn in Hg. rewrite lookup_insert_eq in Hg. injection Hg as <-. by split.
Qed.

(** The publication moved to a final state. *)
Definition publication_moved (ws key state checkRunID : string) (db db' : DB) : Prop :=
  ∃ old t, publication_row db ws key = Some old ∧
    db' = db <| db_check_publications := <[(ws, key) := old <| cp_State := state |>
      <| cp_CheckRunID := checkRunID |> <| cp_UpdatedAt := t |>]> (db_check_publications db) |>.

Section publication.
Context `{Env}.

Lemma settle_publication_run ws key state runID w r w' :
  settle_publication ws key state runID w = (r, w') →
  w_calls w' = w_calls w ∧
  ((r = Ok tt ∧ publication_moved ws key state runID (w_db w) (w_db w')) ∨
   (∃ e, r = Err e) ∧ w_db w' = w_db w).
Proof.
  unfold settle_publication. rewrite now_then. intros E. destruct r as [[]|e].
  - apply tx_Ok in E as (db & E & ->). split; [done|left]. split; [done|]. cbn in E.
    unfold setCheckPublicationState in E. op_inv_step E; [|discriminate E]. rewrite gets_then in E.
    destruct (db_check_publications (w_db w) !! (ws, key)) as [old|] eqn:Eo; [|discriminate E].
    injection E as <-. by eexists old, _.
  - apply tx_Err in E as [_ ->]. split; [done|right]. split; [by eexists|done].
Qed.

(** The end of a run that sent [req] once, the intent [c] being durable in
    [db1] before the request left. *)
Definition published_once (ws : string) (req : GitHubCheckRequest) (key : string) (db1 : DB)
    (w : World) (r : res unit) (w' : World) : Prop :=
  w_calls w' = PublishGitHubCheck req (receipt_opts ws) :: w_calls w ∧
  ∃ n, let q := peers n db1 in
    ((∃ e, r = Err e) ∧ w_db w' = q) ∨
    (∃ state runID, r = Ok tt ∧ publication_moved ws key state runID q (w_db w') ∧
       (state = CheckPublicationDisputed ∨
        state = CheckPublicationSettled ∧ ∃ result,
          reply_PublishGitHubCheck (w_calls w) req (receipt_opts ws) = Ok result ∧
          gr_IdempotencyKey result = key ∧ runID = gr_CheckRunID result)).

(** A publication that needs nothing more: the pass, its verified receipt and
    its bound connection are stored, and the publication is settled. *)
Lemma intend_publication_settled t1 t2 ws passID db row c pass conn :
  ws ≠ "" → passID ≠ "" →
  receipt_row db ws passID = Some row → rv_Verification row = ReceiptVerified →
  publication_row db ws (publication_key ws (recordToView row)) = Some c →
  cp_State c = CheckPublicationSettled →
  db_mission_passes db !! (ws, passID) = Some pass → mp_ConnectionID pass ≠ "" →
  db_github_connections db !! (ws, mp_ConnectionID pass) = Some conn → co_RepositoryBindingRef conn ≠ "" →
  ∃ bindingID, intend_publication t1 t2 ws passID db =
    (Ok (recordToView row, bindingID, publication_key ws (recordToView row), true), db).
Proof.
  intros Hws Hpid Hr Hv Hc Hs Hp Hcid Hco Hb. exists (co_RepositoryBindingRef conn).
  unfold intend_publication, getMissionPass, getReceiptView, getConnection, getCheckPublication.
  rewrite (bind_run _ _ _ _ _ (select_run _ _ _ _ Hp)), (try_then _ _ _ _ _ (select_run _ _ _ _ Hr)).
  cbv beta iota. rewrite (bind_run _ _ _ row db) by done. rewrite require_then by done. cbv zeta.
  rewrite decide_True by done.
  rewrite (bind_run _ _ _ (co_RepositoryBindingRef conn) db)
    by (by rewrite (bind_run _ _ _ _ _ (select_run _ _ _ _ Hco))).
  rewrite require_then by done. fold (publication_key ws (recordToView row)).
  assert (publication_key ws (recordToView row) ≠ "") as Hk.
  { unfold publication_key, PublicationIDKey. intros E%(f_equal String.length).
    rewrite length_hex, length_Sum256 in E. discriminate E. }
  rewrite (bind_run _ _ _ false db).
  2: { unfold putCheckPublicationIfAbsent. rewrite require_then by by split_and!.
       rewrite require_then by by left. rewrite gets_then. cbv zeta. cbn. unfold publication_row in Hc.
       by rewrite Hc. }
  rewrite (bind_run _ _ _ _ _ (select_run _ _ _ _ Hc)). cbn. by rewrite bool_decide_true.
Qed.

(** What a run that sends nothing leaves: the database as it was, or an intent
    for a view that no check can show, written down and then disputed. *)
Definition unsent (ws passID : string) (w : World) (r : res unit) (w' : World) : Prop :=
  w_calls w' = w_calls w ∧
  (w_db w' = w_db w ∧ (r = Ok tt → ∃ row c, receipt_row (w_db w) ws passID = Some row ∧
       publication_row (w_db w) ws (publication_key ws (recordToView row)) = Some c ∧
       cp_State c = CheckPublicationSettled) ∨
   ∃ view db1 c, intended ws passID (w_db w) view db1 c ∧ cp_State c ≠ CheckPublicationSettled ∧
     ¬ publishable view ∧
     ((∃ e, r = Err e) ∧ w_db w' = db1 ∨
      r = Ok tt ∧ publication_moved ws (publication_key ws view) CheckPublicationDisputed "" db1 (w_db w'))).

Lemma publish_sends ws view bindingID db1 w r w' c :
  let key := publication_key ws view in let req := MinimalCheckRequest (Some view) bindingID key in
  w_db w = db1 → publication_row db1 ws key = Some c →
  (r1 ← try (call_PublishGitHubCheck req (receipt_opts ws));
   _ ← wait;
   match r1 with
   | Err e => if decide (isNotFound e) then settle_publication ws key CheckPublicationDisputed "" else fail e
   | Ok result =>
       if decide (gr_IdempotencyKey result ≠ key) then
         settle_publication ws key CheckPublicationDisputed (gr_CheckRunID result)
       else settle_publication ws key CheckPublicationSettled (gr_CheckRunID result)
   end) w = (r, w') → published_once ws req key db1 w r w'.
Proof.
  intros key req Edb Hc E.
  try_inv E Ep. unfold call_PublishGitHubCheck in Ep. rewrite upstream_run in Ep.
  injection Ep as Ep <-. unfold wait in E. rewrite modify_then in E.
  set (n := w_ticks _) in E at 1. set (w2 := _ <| w_db := _ |>) in E.
  assert (w_calls w2 = PublishGitHubCheck req (receipt_opts ws) :: w_calls w) as Ec by done.
  assert (w_db w2 = peers n db1) as Ed by (by rewrite <- Edb). clearbody w2 n.
  assert (∀ state runID, settle_publication ws key state runID w2 = (r, w') →
    (state = CheckPublicationDisputed ∨ state = CheckPublicationSettled ∧ ∃ result,
        reply_PublishGitHubCheck (w_calls w) req (receipt_opts ws) = Ok result ∧
        gr_IdempotencyKey result = key ∧ runID = gr_CheckRunID result) →
    published_once ws req key db1 w r w') as Hsettle.
  { intros state runID Es Hst. apply settle_publication_run in Es as [El Es].
    split; [congruence|]. exists n. cbv zeta. rewrite <- Ed.
    destruct Es as [[-> Hm]|Es]; [right; eauto|left; exact Es]. }
  destruct r0 as [result|e].
  - destruct (decide _) as [K|K] in E; eapply Hsettle; try exact E; [by left|right].
    split; [done|]. exists result. split_and!; [exact Ep|by apply dec_stable|done].
  - destruct (decide _) in E; [eapply Hsettle; [exact E|by left]|]. injection E as <- <-.
    split; [done|]. exists n. left. split; [by eexists|done].
Qed.

(** C18: a check is published at most once per run, and only what was verified
    and written down first.  [PublishVerifiedCheck] sends either one request,
    rendered from the verified view stored for the pass, after an unsettled
    intent under the publication key is durable; it then moves the intent to
    settled, only when AuthScope echoes the key, or to disputed, or ends in
    an error and writes nothing more.  Or it sends nothing: it succeeds when
    the publication is settled already, it disputes the intent of a view that
    no check can show, and otherwise it fails and changes nothing.  A settled
    publication is never sent again and the database stays as it is; the run
    succeeds when the receipt is verified and the pass and its bound
    connection are stored. *)
Theorem PublishVerifiedCheck_once ws passID w r w' :
  PublishVerifiedCheck ws passID w = (r, w') →
  (unsent ws passID w r w' ∨
   ∃ view bindingID db1 c, let key := publication_key ws view in
     let req := MinimalCheckRequest (Some view) bindingID key in
     intended ws passID (w_db w) view db1 c ∧ cp_State c ≠ CheckPublicationSettled ∧
     publishable view ∧ published_once ws req key db1 w r w') ∧
  ∀ row c, receipt_row (w_db w) ws passID = Some row →
    publication_row (w_db w) ws (publication_key ws (recordToView row)) = Some c →
    cp_State c = CheckPublicationSettled → w_calls w' = w_calls w ∧ w_db w' = w_db w ∧
    ∀ pass conn, ws ≠ "" → passID ≠ "" → rv_Verification row = ReceiptVerified →
      db_mission_passes (w_db w) !! (ws, passID) = Some pass → mp_ConnectionID pass ≠ "" →
      db_github_connections (w_db w) !! (ws, mp_ConnectionID pass) = Some conn →
      co_RepositoryBindingRef conn ≠ "" → r = Ok tt.
Proof.
  unfold PublishVerifiedCheck. rewrite !now_then. intros E.
  call_inv E Ei.
  2: { injection E as <- <-. apply tx_Err in Ei as [[db0 Ei] ->].
       split; [left; split; [done|left; split; done]|]. intros row c Hr Hc Hs. split; [done|]. split; [done|].
       intros pass conn Hws Hpid Hv Hp Hcid Hco Hb.
       destruct (intend_publication_settled (clock (w_ticks w)) (clock (S (w_ticks w))) ws passID (w_db w)
         row c pass conn) as [b Eb]; try done. cbn in Ei. rewrite Eb in Ei. discriminate Ei. }
  apply tx_Ok in Ei as (db1 & Ei & ->). destruct a as [[[view bindingID] key] settled].
  cbn [w_db upd] in Ei. apply intend_publication_Ok in Ei as (-> & c & Hi & Hopen & Hset).
  assert (∃ row, receipt_row (w_db w) ws passID = Some row ∧ view = recordToView row) as (row' & Hr' & ->)
    by (destruct Hi as [(row' & Hr' & _ & ->) _ _]; by exists row').
  destruct settled.
  { injection E as <- <-. destruct (Hset eq_refl) as [-> Hst]. split.
    - left. split; [done|left]. split; [done|]. intros _. exists row', c. split_and!; [done| |done].
      by destruct Hi as [_ Hrow _].
    - intros row c0 _ _ _. done. }
  specialize (Hopen eq_refl). clear Hset. cbv zeta in E. split.
  2: { intros row c0 Hr Hc Hs. exfalso. rewrite Hr in Hr'. injection Hr' as <-.
       destruct Hi as [_ _ [[Hf _]|[Hf _]]]; congruence. }
  destruct (decide (publishable (recordToView row'))) as [P|P].
  - right. exists (recordToView row'), bindingID, db1, c. cbv zeta. split_and!; [done..|].
    rewrite decide_False in E by (by rewrite MinimalCheckRequest_publishable).
    eapply publish_sends in E; [exact E|done|]. by destruct Hi as [_ Hrow _].
  - left. rewrite decide_True in E by (by rewrite MinimalCheckRequest_other).
    apply settle_publication_run in E as [El Es]. split; [exact El|]. right.
    exists (recordToView row'), db1, c. split_and!; [done..|].
    destruct Es as [[-> Hm]|[He Ed]]; [by right|by left].
Qed.
End publication.

Definition bench_verified_DB : DB :=
  (bench_DB_with (bench_done_pass <| mp_State := PassCompleted |>)) <| db_receipt_views :=
    {[ ("ws", "pass-1") := viewToRecord "ws" "pass-1" bench_view bench_time ]} |>.
Definition bench_verified_world : World := start bench_verified_DB.

Lemma PublishVerifiedCheck_once_witness :
  let run := @PublishVerifiedCheck bench_env "ws" "pass-1" bench_verified_world in
  run.1 = Ok tt ∧ length (w_calls run.2) = 1%nat ∧
  ∃ view bindingID db1 c, let key := publication_key "ws" view in
     let req := MinimalCheckRequest (Some view) bindingID key in
     intended "ws" "pass-1" (w_db bench_verified_world) view db1 c ∧
     cp_State c ≠ CheckPublicationSettled ∧
     publishable view ∧ @published_once bench_env "ws" req key db1 bench_verified_world run.1 run.2.
Proof.
  intros run.
  assert (run.1 = Ok tt ∧ length (w_calls run.2) = 1%nat) as [H1 H2]
    by (split; vm_compute; reflexivity).
  split; [exact H1|]. split; [exact H2|].
  destruct (@PublishVerifiedCheck_once bench_env "ws" "pass-1" bench_verified_world run.1 run.2
    (surjective_pairing run)) as [[[N _]|T] _]; [|exact T].
  exfalso. rewrite N in H2. discriminate H2.
Defined.
