(* ===== verification/Worker.v ===== *)
(** * The reconciliation worker (src/internal/reconcile/worker.go)

    One sweep: projecting the events of every active pass, the receipt loop,
    and reconciling revocations, expansion decisions and check publications;
    the per-pass backoff; and the leased run around the sweeps.  Logging and
    telemetry are left out. *)

From S2P Require Import Prelude GoTime Sha256 StoreModel StorePass StoreIntents StoreAuth PassModel Trust.
From S2P Require Import World Bench Settle Once Revocation Expansion Events Receipt ReceiptService.

Definition maxPagesPerPass : nat := 10.
Definition baseBackoff : Z := 30 * Second.
Definition maxBackoff : Z := 10 * Minute.

(** The services' state and the worker's own maps. *)
Record Worker := MkWorker {
  wk_world : World;
  wk_backoffUntil : gmap string time;
  wk_backoffCount : gmap string Z;
  wk_incompatible : gset string
}.
#[export] Instance eta_Worker : Eta Worker := λ w, MkWorker
  (wk_world w) (wk_backoffUntil w) (wk_backoffCount w) (wk_incompatible w).

Definition idle (w : World) : Worker := MkWorker w ∅ ∅ ∅.

Notation W := (SE Worker).

(** A service or store call made by the worker. *)
Definition svc {A} (m : M A) : W A := λ s,
  let '(r, w) := m (wk_world s) in (r, s <| wk_world := w |>).

(** ** Backoff *)

(** [baseBackoff << (n-1)], clamped; durations are int64. *)
Definition backoff_delay (n : Z) : Z :=
  let delay := int64 (Z.shiftl baseBackoff (n - 1)) in
  if decide (maxBackoff < delay ∨ delay ≤ 0) then maxBackoff else delay.

Definition reconcilableState (state : string) : Prop :=
  state = PassRunning ∨ state = PassAwaitingExpansion ∨ state = PassOutcomePending.
#[export] Instance reconcilableState_dec s : Decision (reconcilableState s).
Proof. unfold reconcilableState. apply _. Defined.

Section worker.
Context `{Env}.

Definition inBackoff (passID : string) : W bool :=
  untils ← gets wk_backoffUntil;
  match untils !! passID with
  | Some until => t ← svc now; mret (bool_decide (Before t until))
  | None => mret false
  end.

Definition noteFailure (passID : string) : W unit :=
  counts ← gets wk_backoffCount;
  let n := default 0 (counts !! passID) + 1 in
  t ← svc now;
  modify (λ s, s <| wk_backoffCount := <[passID := n]> (wk_backoffCount s) |>
                 <| wk_backoffUntil := <[passID := t + backoff_delay n]> (wk_backoffUntil s) |>).

Definition clearFailure (passID : string) : W unit :=
  modify (λ s, s <| wk_backoffCount := delete passID (wk_backoffCount s) |>
                 <| wk_backoffUntil := delete passID (wk_backoffUntil s) |>).

Definition isIncompatible (passID : string) : W bool :=
  gets (λ s, bool_decide (passID ∈ wk_incompatible s)).
Definition markPassIncompatible (passID : string) : W unit :=
  modify (λ s, s <| wk_incompatible := {[passID]} ∪ wk_incompatible s |>).

(** ** One sweep *)

(** The worker's configuration: its workspace and lease owner, whether a
    projection gate, a receipt service and an expansion service are wired. *)
Context (workspaceID instanceID owner : string) (leaseTTL : Z).
Context (has_gate has_receipt has_expansion : bool).

(** The page loop of [projectPass]: [pages] pages are left. *)
Fixpoint project_pages (pages : nat) (pass : MissionPassRecord) : M unit :=
  match pages with
  | O => mret tt
  | S pages' =>
      found ← try (tx (getMissionProjection workspaceID (mp_PassID pass)));
      cursor ← (match found with
                | Ok proj => mret (pj_Cursor proj)
                | Err e => if decide (e = ErrNotFound) then mret "" else fail e
                end);
      events ← call_ReadEvents (mp_MissionRef pass) cursor
                 (opts_for workspaceID ("worker:" +:+ owner) "");
      _ ← ApplyPage has_gate workspaceID (mp_PassID pass) events;
      if decide (pg_NextCursor events = "" ∨ pg_NextCursor events = cursor) then mret tt
      else project_pages pages' pass
  end.

Definition projectPass (pass : MissionPassRecord) : M unit :=
  if decide (mp_MissionRef pass = "") then mret tt else project_pages maxPagesPerPass pass.

(** The body of the projection loop of [poll]. *)
Definition sweep_pass (pass : MissionPassRecord) : W unit :=
  if decide (¬ reconcilableState (mp_State pass)) then mret tt
  else
    waiting ← inBackoff (mp_PassID pass);
    skip ← (if (waiting : bool) then mret true else isIncompatible (mp_PassID pass));
    if (skip : bool) then mret tt
    else
      r ← try (svc (projectPass pass));
      match r with
      | Err e =>
          if decide (e = ErrProjectionIncompatible) then markPassIncompatible (mp_PassID pass)
          else noteFailure (mp_PassID pass)
      | Ok _ => clearFailure (mp_PassID pass)
      end.

(** [for i := range l], errors of the body being logged only. *)
Fixpoint each {S A} (body : A → SE S unit) (l : list A) : SE S unit :=
  match l with
  | [] => mret tt
  | x :: l' => _ ← try (body x); each body l'
  end.

Definition verify_pass (pass : MissionPassRecord) : M unit :=
  if decide (mp_State pass ≠ PassOutcomePending) then mret tt
  else
    view ← VerifyReceipt workspaceID (mp_PassID pass);
    match view with
    | None => mret tt
    | Some _ => PublishVerifiedCheck workspaceID (mp_PassID pass)
    end.

Definition verifyReceipts : M unit :=
  if has_receipt then
    passes ← tx (listMissionPasses workspaceID);
    each verify_pass passes
  else mret tt.

Definition reconcileRevocations : M unit :=
  intents ← tx (listRevocationIntents workspaceID RevocationIntentInFlight);
  each (λ i, _ ← ReconcileRevocation (ri_WorkspaceID i) (ri_PassID i); mret tt) intents.

Definition reconcileExpansions : M unit :=
  if has_expansion then
    intents ← tx (listExpansionIntents workspaceID ExpansionIntentInFlight);
    each (λ i, _ ← ReconcileExpansion (ei_WorkspaceID i) (ei_ExpansionID i); mret tt) intents
  else mret tt.

Definition reconcileCheckPublications : M unit :=
  if has_receipt then
    intents ← tx (listCheckPublications workspaceID CheckPublicationInFlight);
    each (λ i, ReconcilePublication (cp_WorkspaceID i) (cp_PassID i)) intents
  else mret tt.

Definition poll : W unit :=
  r ← try (svc (tx (listMissionPasses workspaceID)));
  match r with
  | Err _ => mret tt
  | Ok passes =>
      _ ← each sweep_pass passes;
      _ ← try (svc verifyReceipts);
      _ ← try (svc reconcileRevocations);
      _ ← try (svc reconcileExpansions);
      _ ← try (svc reconcileCheckPublications);
      mret tt
  end.

(** ** The leased run *)

(** [attempts] lease attempts are made before the context is cancelled;
    others run while the worker waits between two of them. *)
Fixpoint acquireLease (attempts : nat) : M unit :=
  match attempts with
  | O => fail ErrCancelled
  | S n =>
      t ← now;
      acquired ← tx (acquireWorkerLease t instanceID owner leaseTTL);
      if (acquired : bool) then mret tt else _ ← wait; acquireLease n
  end.

(** A store error counts as a lost lease. *)
Definition heartbeat : M bool :=
  t ← now;
  r ← try (tx (heartbeatWorkerLease t instanceID owner leaseTTL));
  mret match r with Ok ok => ok | Err _ => false end.

Definition releaseLease : M unit :=
  _ ← try (tx (releaseWorkerLease instanceID owner));
  mret tt.

(** What the select of [Run] receives until the context is cancelled, with
    the lease attempts left should the heartbeat find the lease lost. *)
Inductive tick := PollTick | HeartbeatTick (attempts : nat).

Fixpoint run_loop (ticks : list tick) : W unit :=
  match ticks with
  | [] => mret tt
  | PollTick :: ticks' => _ ← poll; run_loop ticks'
  | HeartbeatTick attempts :: ticks' =>
      ok ← svc heartbeat;
      _ ← (if (ok : bool) then mret tt else svc (acquireLease attempts));
      run_loop ticks'
  end.

(** The release is deferred: it happens however the loop ends. *)
Definition Run (attempts : nat) (ticks : list tick) : W unit :=
  _ ← svc (acquireLease attempts);
  r ← try (_ ← poll; run_loop ticks);
  _ ← svc releaseLease;
  lift r.
End worker.

(** ** Backoff bounds *)

Lemma int64_high_multiple z e : 0 ≤ e ≤ 63 → (2 ^ e | z) → (2 ^ e | int64 z).
Proof.
  intros He Hz. unfold int64. assert (∀ m, e ≤ m → (2 ^ e | 2 ^ m)) as Hp.
  { intros m Hm. exists (2 ^ (m - e)). rewrite <- Z.pow_add_r by lia. f_equal. lia. }
  assert ((2 ^ e | 2 ^ 63) ∧ (2 ^ e | 2 ^ 64)) as [H63 H64] by (split; apply Hp; lia).
  apply Z.divide_sub_r; [|done]. rewrite Z.mod_eq by done.
  apply Z.divide_sub_r; [by apply Z.divide_add_r|]. by apply Z.divide_mul_l.
Qed.

(** C38: the retry delay is exponential up to its cap and never overflows: the
    delay after the n-th failure is 30 s * 2^(n-1) bounded by ten minutes,
    for every n up to the largest int, although the shift itself wraps
    around in int64 from the 30th failure on. *)
Theorem backoff_delay_exact n :
  1 ≤ n → backoff_delay n = Z.min (baseBackoff * 2 ^ (n - 1)) maxBackoff.
Proof.
  intros Hn. unfold backoff_delay. cbv zeta. rewrite Z.shiftl_mul_pow2 by lia.
  destruct (decide (n ≤ 30)) as [Hle|Hgt].
  - assert (n ∈ Z.of_nat <$> seq 1 30) as Hin.
    { apply list_elem_of_fmap. exists (Z.to_nat n). rewrite elem_of_seq. lia. }
    assert (Forall (λ m, (let d := int64 (baseBackoff * 2 ^ (m - 1)) in
      if decide (maxBackoff < d ∨ d ≤ 0) then maxBackoff else d) =
      Z.min (baseBackoff * 2 ^ (m - 1)) maxBackoff) (Z.of_nat <$> seq 1 30)) as Hall
      by by_decide.
    rewrite Forall_forall in Hall. by apply Hall.
  - rewrite Z.min_r.
    2: { transitivity (baseBackoff * 2 ^ 30); [vm_compute; discriminate|].
         apply Z.mul_le_mono_nonneg_l; [vm_compute; discriminate|]. apply Z.pow_le_mono_r; lia. }
    destruct (int64_high_multiple (baseBackoff * 2 ^ (n - 1)) 40) as [k Hk]; [lia| |].
    { exists (baseBackoff / 2 ^ 10 * 2 ^ (n - 31)).
      replace (n - 1) with (10 + (n - 31) + 20) by lia. rewrite !Z.pow_add_r by lia.
      change baseBackoff with (baseBackoff / 2 ^ 10 * 2 ^ 10) at 1.
      change (2 ^ 40) with (2 ^ 10 * 2 ^ 10 * 2 ^ 20). ring. }
    rewrite Hk. destruct (decide _) as [D|D]; [done|]. exfalso. apply D.
    destruct (decide (k ≤ 0)); [right; lia|left]. unfold maxBackoff, Minute, Second. lia.
Qed.

(** ** What a sweep sends *)

(** Reads, reconciliations by key, and checks of verified receipts; never a
    decision of the founder. *)
Definition background (c : call) : Prop :=
  match c with
  | ReadEvents _ _ _ | GetReceipt _ _ | GetSigningKeys _ | ReconcileOperation _ _ _
  | GetExpansion _ _ => True
  | PublishGitHubCheck req _ =>
      ∃ view bindingID key, publishable view ∧ req = MinimalCheckRequest (Some view) bindingID key
  | _ => False
  end.

Section sweep.
Context `{Env}.
Context (workspaceID instanceID owner : string) (leaseTTL : Z).
Context (has_gate has_receipt has_expansion : bool).

Ltac sends_auto :=
  repeat (first [solve [auto with within typeclass_instances]|solve [done]|within_step]).

Lemma sends_wait Q : within (sends Q) wait.
Proof. apply within_modify. intros w. by apply sends_keeps. Qed.
#[local] Hint Resolve sends_wait : within.

Lemma sends_ApplyPage gate ws pass page : within (sends background) (ApplyPage gate ws pass page).
Proof. unfold ApplyPage, markIncompatible. sends_auto. Qed.
Lemma sends_Verify env b : within (sends background) (Verify env b).
Proof. unfold Verify. sends_auto. Qed.
#[local] Hint Resolve sends_ApplyPage sends_Verify : within.

Lemma sends_VerifyReceipt ws pass : within (sends background) (VerifyReceipt ws pass).
Proof.
  unfold VerifyReceipt, call_GetReceipt, verify_refreshing, refreshKeys, call_GetSigningKeys,
    verdict_result. sends_auto.
Qed.

Lemma named_check_publishable view b k :
  gc_Name (MinimalCheckRequest (Some view) b k) ≠ "" → publishable view.
Proof. intros N. apply dec_stable. intros P. apply N. by rewrite MinimalCheckRequest_other. Qed.

Lemma sends_check view b k opts :
  gc_Name (MinimalCheckRequest (Some view) b k) ≠ "" →
  within (sends background) (call_PublishGitHubCheck (MinimalCheckRequest (Some view) b k) opts).
Proof.
  intros N. unfold call_PublishGitHubCheck. apply sends_upstream. cbn. exists view, b, k.
  split; [by apply named_check_publishable in N|done].
Qed.
#[local] Hint Resolve sends_check : within.

Lemma sends_settle ws key state runID : within (sends background) (settle_publication ws key state runID).
Proof. unfold settle_publication. sends_auto. Qed.
#[local] Hint Resolve sends_settle : within.

Lemma sends_PublishVerifiedCheck ws pass : within (sends background) (PublishVerifiedCheck ws pass).
Proof. unfold PublishVerifiedCheck. sends_auto. Qed.

Lemma within_require_bind {S A} (R : relation S) `{!PreOrder R} (P : Prop) `{Decision P} e
    (f : unit → SE S A) : (P → within R (f tt)) → within R (require P e ≫= f).
Proof.
  intros Hf. destruct (decide P) as [D|D].
  - intros s r s' E. rewrite require_then in E by done. by eapply Hf.
  - intros s r s' E. rewrite require_else in E by done. by injection E as <- <-.
Qed.

Lemma sends_ReconcilePublication ws pass : within (sends background) (ReconcilePublication ws pass).
Proof.
  unfold ReconcilePublication, call_ReconcileOperation, republish. cbv zeta.
  repeat (first [apply within_require_bind; [|intros ?]|solve [auto with within typeclass_instances]|within_step]).
Qed.

Lemma sends_ReconcileRevocation ws pass : within (sends background) (ReconcileRevocation ws pass).
Proof. unfold ReconcileRevocation, call_ReconcileOperation, settleRevocation. sends_auto. Qed.

Lemma sends_ReconcileExpansion ws id : within (sends background) (ReconcileExpansion ws id).
Proof.
  unfold ReconcileExpansion, reconcileLocked, call_ReconcileOperation, call_GetExpansion,
    settleDecision, replayDecided. sends_auto.
Qed.
#[local] Hint Resolve sends_VerifyReceipt sends_PublishVerifiedCheck sends_ReconcilePublication
  sends_ReconcileRevocation sends_ReconcileExpansion : within.

Lemma within_each {S A} (R : relation S) `{!PreOrder R} (body : A → SE S unit) l :
  (∀ x, within R (body x)) → within R (each body l).
Proof.
  intros Hb. induction l as [|x l IH]; [by apply within_ret|]. cbn [each].
  apply within_bind; [done| |done]. by apply within_try, Hb.
Qed.

Lemma sends_project pages pass :
  within (sends background) (project_pages workspaceID owner has_gate pages pass).
Proof.
  induction pages as [|n IH]; [apply (within_ret _)|]. cbn [project_pages]. unfold call_ReadEvents.
  sends_auto.
Qed.

(** The frame of a worker computation: that of the services' state. *)
Definition on_world (R : relation World) (s s' : Worker) : Prop := R (wk_world s) (wk_world s').
#[export] Instance on_world_preorder R : PreOrder R → PreOrder (on_world R).
Proof.
  intros HR. split.
  - intros x. unfold on_world. reflexivity.
  - intros x y z H1 H2. unfold on_world in *. etransitivity; [exact H1|exact H2].
Qed.
Lemma within_svc {A} R (m : M A) : within R m → within (on_world R) (svc m).
Proof.
  intros Hm s r s' E. unfold svc in E. destruct (m (wk_world s)) as [r0 w] eqn:Em.
  injection E as <- <-. by eapply Hm.
Qed.
Lemma within_own R (f : Worker → Worker) : PreOrder R →
  (∀ s, wk_world (f s) = wk_world s) → within (on_world R) (modify f).
Proof. intros HR Hf. apply within_modify. intros s. unfold on_world. by rewrite Hf. Qed.
#[local] Hint Resolve within_svc : within.
#[local] Hint Extern 2 (within (on_world _) (modify _)) => apply within_own; [apply _|done] : within.

Lemma sends_sweep_pass pass :
  within (on_world (sends background)) (sweep_pass workspaceID owner has_gate pass).
Proof.
  unfold sweep_pass, inBackoff, isIncompatible, markPassIncompatible, noteFailure, clearFailure, projectPass.
  assert (within (sends background) (project_pages workspaceID owner has_gate maxPagesPerPass pass))
    by apply sends_project.
  repeat (first [solve [auto with within typeclass_instances]|apply within_svc; within_step|within_step]).
Qed.

Lemma sends_receipts : within (sends background) (verifyReceipts workspaceID has_receipt).
Proof.
  unfold verifyReceipts, verify_pass. destruct has_receipt; [|apply (within_ret _)].
  apply within_bind; [apply _|auto with within|intros passes]. apply within_each; [apply _|intros ?].
  sends_auto.
Qed.
Lemma sends_revocations : within (sends background) (reconcileRevocations workspaceID).
Proof.
  unfold reconcileRevocations. apply within_bind; [apply _|auto with within|intros il].
  apply within_each; [apply _|intros ?]. sends_auto.
Qed.
Lemma sends_expansions : within (sends background) (reconcileExpansions workspaceID has_expansion).
Proof.
  unfold reconcileExpansions. destruct has_expansion; [|apply (within_ret _)].
  apply within_bind; [apply _|auto with within|intros il]. apply within_each; [apply _|intros ?]. sends_auto.
Qed.
Lemma sends_publications : within (sends background) (reconcileCheckPublications workspaceID has_receipt).
Proof.
  unfold reconcileCheckPublications. destruct has_receipt; [|apply (within_ret _)].
  apply within_bind; [apply _|auto with within|intros il]. apply within_each; [apply _|intros ?]. sends_auto.
Qed.
#[local] Hint Resolve sends_receipts sends_revocations sends_expansions sends_publications
  sends_sweep_pass : within.

Lemma sends_poll :
  within (on_world (sends background)) (poll workspaceID owner has_gate has_receipt has_expansion).
Proof.
  unfold poll. repeat (first [apply within_each; [apply _|intros ?]
    |solve [auto with within typeclass_instances]|apply within_svc; within_step|within_step]).
Qed.

Lemma each_completes {S A} (body : A → SE S unit) l s r s' : each body l s = (r, s') → r = Ok tt.
Proof.
  revert s. induction l as [|x l IH]; intros s E; [by injection E as <- _|].
  cbn [each] in E. try_inv E Eb. by eapply IH.
Qed.

Lemma poll_completes s r s' :
  poll workspaceID owner has_gate has_receipt has_expansion s = (r, s') → r = Ok tt.
Proof.
  unfold poll. intros E. try_inv E El. destruct r0 as [passes|e]; [|by injection E as <- _].
  call_inv E Ee.
  2: { apply each_completes in Ee. discriminate Ee. }
  repeat (try_inv E Es; clear Es). by injection E as <- _.
Qed.

(** The worker never decides for the founder: whatever AuthScope answers,
    a sweep only reads events, receipts, keys and expansions, reconciles
    operations by their original key, and publishes checks rendered from
    verified receipts; it never creates, approves, revokes or decides
    anything. *)
Theorem poll_background s r s' :
  poll workspaceID owner has_gate has_receipt has_expansion s = (r, s') →
  r = Ok tt ∧ ∃ l, w_calls (wk_world s') = (l ++ w_calls (wk_world s))%list ∧ Forall background l.
Proof. intros E. split; [by eapply poll_completes|]. by eapply sends_poll in E. Qed.
End sweep.

(** ** Publications in flight are settled *)

(** Every publication sits at its key, in a valid state, and its key is that
    of the receipt stored for its pass; so a pass has one publication. *)
Record publications_ok (db : DB) : Prop := {
  po_key k c : db_check_publications db !! k = Some c →
    k = (cp_WorkspaceID c, cp_IdempotencyKey c) ∧ validCheckPublicationState (cp_State c);
  po_receipt k c : db_check_publications db !! k = Some c →
    ∃ row, receipt_row db (cp_WorkspaceID c) (cp_PassID c) = Some row ∧
      cp_IdempotencyKey c = publication_key (cp_WorkspaceID c) (recordToView row)
}.

Lemma po_pass db k1 k2 c1 c2 : publications_ok db →
  db_check_publications db !! k1 = Some c1 → db_check_publications db !! k2 = Some c2 →
  cp_WorkspaceID c1 = cp_WorkspaceID c2 → cp_PassID c1 = cp_PassID c2 → k1 = k2.
Proof.
  intros [H1 H2] Hk1 Hk2 Ew Ep. destruct (H1 _ _ Hk1) as [-> _], (H1 _ _ Hk2) as [-> _].
  destruct (H2 _ _ Hk1) as (r1 & Hr1 & E1), (H2 _ _ Hk2) as (r2 & Hr2 & E2). congruence.
Qed.

(** A row is left alone or moves from in flight to settled. *)
Definition row_settles (ws : string) (c c' : CheckPublicationRecord) : Prop :=
  c' = c ∨ cp_WorkspaceID c = ws ∧ cp_State c = CheckPublicationInFlight ∧
    ∃ t, c' = c <| cp_State := CheckPublicationSettled |> <| cp_UpdatedAt := t |>.
Definition pubs_settle (ws : string) (db db' : DB) : Prop :=
  db_receipt_views db' = db_receipt_views db ∧
  map_relation (λ _, row_settles ws) (λ _ _, False) (λ _ _, False)
    (db_check_publications db) (db_check_publications db').

#[export] Instance pubs_settle_preorder ws : PreOrder (pubs_settle ws).
Proof.
  split.
  - intros db. split; [done|]. intros k. destruct (db_check_publications db !! k); [by left|done].
  - intros a b c [E1 H1] [E2 H2]. split; [congruence|]. intros k. specialize (H1 k). specialize (H2 k).
    destruct (db_check_publications a !! k), (db_check_publications b !! k),
      (db_check_publications c !! k); cbn in *; try done.
    unfold row_settles in *. destruct H1 as [->|(Ew & Ef & t & ->)]; [done|].
    destruct H2 as [->|(_ & Ef2 & _)]; [right; by eauto|discriminate Ef2].
Qed.

Lemma row_settles_ids ws c c' : row_settles ws c c' →
  cp_WorkspaceID c' = cp_WorkspaceID c ∧ cp_PassID c' = cp_PassID c ∧
  cp_IdempotencyKey c' = cp_IdempotencyKey c.
Proof. by intros [->|(_ & _ & t & ->)]. Qed.

Lemma pubs_settle_back ws db db' k c' : pubs_settle ws db db' →
  db_check_publications db' !! k = Some c' →
  ∃ c, db_check_publications db !! k = Some c ∧ row_settles ws c c'.
Proof.
  intros [_ Hm] Hk. specialize (Hm k). rewrite Hk in Hm.
  destruct (db_check_publications db !! k) as [c|]; [by exists c|done].
Qed.

Lemma pubs_settle_ahead ws db db' k c : pubs_settle ws db db' →
  db_check_publications db !! k = Some c →
  ∃ c', db_check_publications db' !! k = Some c' ∧ row_settles ws c c'.
Proof.
  intros [_ Hm] Hk. specialize (Hm k). rewrite Hk in Hm.
  destruct (db_check_publications db' !! k) as [c'|]; [by exists c'|done].
Qed.

Lemma publications_ok_settle ws db db' : pubs_settle ws db db' → publications_ok db → publications_ok db'.
Proof.
  intros Hs [H1 H3]. constructor.
  - intros k c' Hk. destruct (pubs_settle_back _ _ _ _ _ Hs Hk) as (c & Hc & Hr).
    destruct (H1 k c Hc) as [-> Hv]. destruct (row_settles_ids _ _ _ Hr) as (-> & _ & ->).
    split; [done|]. destruct Hr as [->|(_ & _ & t & ->)]; [done|]. right; by left.
  - intros k c' Hk. destruct (pubs_settle_back _ _ _ _ _ Hs Hk) as (c & Hc & Hr).
    destruct (row_settles_ids _ _ _ Hr) as (-> & -> & ->). unfold receipt_row.
    destruct Hs as [-> _]. by eapply H3.
Qed.

(** The publication of a pass is the one [ReconcilePublication] finds. *)
Lemma getLatest_unique db k c : publications_ok db → db_check_publications db !! k = Some c →
  getLatestCheckPublicationForPass (cp_WorkspaceID c) (cp_PassID c) db = (Ok c, db).
Proof.
  intros Hok Hk. unfold getLatestCheckPublicationForPass. rewrite gets_then.
  set (l := rev _). assert (∀ x, x ∈ l ↔ (cp_WorkspaceID x = cp_WorkspaceID c ∧ cp_PassID x = cp_PassID c) ∧
    ∃ k', db_check_publications db !! k' = Some x) as Hl.
  { intros x. unfold l. rewrite list_elem_of_In, <- in_rev, <- list_elem_of_In, elem_of_order_by. by rewrite elem_of_table_rows. }
  destruct l as [|x l'].
  - exfalso. apply (not_elem_of_nil c), Hl. split; [done|]. by exists k.
  - destruct (proj1 (Hl x)) as [[Ew Ep] [k' Hk']]; [left|].
    assert (k' = k) as -> by by eapply po_pass. rewrite Hk in Hk'. by injection Hk' as ->.
Qed.

Section live.
Context `{Env}.

(** AuthScope reports every operation asked about as completed, and the other
    requests of the process leave publications and receipts alone. *)
Definition all_completed : Prop := ∀ h key id opts, ∃ op,
  reply_ReconcileOperation h key id opts = Ok op ∧ ToLower (or_Status op) = "completed".
Definition peers_keep : Prop := ∀ n db,
  db_check_publications (peers n db) = db_check_publications db ∧
  db_receipt_views (peers n db) = db_receipt_views db.

(** Publications are all that changes, apart from what other requests commit. *)
Definition publications_only : DB → DB → Prop := rtc (λ db db',
  db' = db <| db_check_publications := db_check_publications db' |> ∨ ∃ n, db' = peers n db).

Lemma settle_publication_total ws key state runID w old :
  publication_row (w_db w) ws key = Some old → validCheckPublicationState state →
  ∃ t w', settle_publication ws key state runID w = (Ok tt, w') ∧
    w_db w' = (w_db w) <| db_check_publications := <[(ws, key) := old <| cp_State := state |>
      <| cp_CheckRunID := runID |> <| cp_UpdatedAt := t |>]> (db_check_publications (w_db w)) |>.
Proof.
  intros Ho Hv. unfold settle_publication. rewrite now_then. eexists _, _. split.
  - apply tx_run. cbn [w_db upd]. unfold setCheckPublicationState.
    rewrite require_then by done. rewrite gets_then. unfold publication_row in Ho. rewrite Ho. done.
  - done.
Qed.

(** A publication whose operation completed is settled. *)
Lemma reconcile_settles w k c r w' :
  all_completed → peers_keep → publications_ok (w_db w) →
  db_check_publications (w_db w) !! k = Some c →
  ReconcilePublication (cp_WorkspaceID c) (cp_PassID c) w = (r, w') →
  pubs_settle (cp_WorkspaceID c) (w_db w) (w_db w') ∧ publications_only (w_db w) (w_db w') ∧
  ∃ c', db_check_publications (w_db w') !! k = Some c' ∧ cp_State c' ≠ CheckPublicationInFlight.
Proof.
  intros Hall Hpeers Hok Hk E. destruct (po_key _ Hok _ _ Hk) as [-> Hv].
  destruct (po_receipt _ Hok _ _ Hk) as (row & Hrow & _). unfold ReconcilePublication in E.
  assert (tx (open_publication (cp_WorkspaceID c) (cp_PassID c)) w =
    (Ok (if decide (cp_State c = CheckPublicationSettled ∨ cp_State c = CheckPublicationDisputed)
         then None else Some (c, recordToView row)), w)) as Eo.
  { apply tx_read. unfold open_publication.
    rewrite (try_then _ _ _ _ _ (getLatest_unique _ _ _ Hok Hk)).
    destruct (decide _); [done|]. unfold getReceiptView.
    by rewrite (bind_run _ _ _ _ _ (select_run _ _ _ _ Hrow)). }
  rewrite (bind_run _ _ _ _ _ Eo) in E.
  destruct (decide (cp_State c = CheckPublicationSettled ∨ cp_State c = CheckPublicationDisputed)) as [D|D].
  { injection E as _ <-. split; [reflexivity|]. split; [reflexivity|].
    exists c. split; [done|]. by destruct D as [->| ->]. }
  assert (cp_State c = CheckPublicationInFlight) as Hfl by (destruct Hv as [?|[?|?]]; tauto).
  try_inv E Er. unfold call_ReconcileOperation in Er. rewrite upstream_run in Er.
  injection Er as Er <-. destruct (Hall (w_calls w) (cp_IdempotencyKey c) ""
    (receipt_opts (cp_WorkspaceID c))) as (op & Eop & Est). rewrite Er in Eop. subst r0.
  rewrite Eop in E. unfold wait in E. rewrite modify_then in E. cbv zeta in E. rewrite Est in E.
  rewrite decide_True in E by done. set (w2 := _ <| w_db := peers _ _ |>) in E.
  assert (db_check_publications (w_db w2) = db_check_publications (w_db w) ∧
          db_receipt_views (w_db w2) = db_receipt_views (w_db w)) as [Ep Ev] by apply Hpeers.
  assert (∃ n, w_db w2 = peers n (w_db w)) as [n En] by by eexists. clearbody w2.
  destruct (settle_publication_total (cp_WorkspaceID c) (cp_IdempotencyKey c) CheckPublicationSettled
    (cp_CheckRunID c) w2 c) as (t & w3 & Es & Ew3).
  { unfold publication_row. by rewrite Ep. }
  { right; by left. }
  rewrite Es in E. injection E as _ <-. split_and!.
  2: { eapply rtc_l; [right; exists n; reflexivity|]. apply rtc_once. left. by rewrite Ew3, <- En. }
  all: rewrite Ew3, Ep; cbn [db_check_publications upd].
  - split; [exact Ev|]. intros k. cbn [db_check_publications upd].
    destruct (decide (k = (cp_WorkspaceID c, cp_IdempotencyKey c))) as [->|Hne].
    + rewrite lookup_insert_eq, Hk. cbn. right. split_and!; [done..|]. exists t. by destruct c.
    + rewrite lookup_insert_ne by done. destruct (db_check_publications (w_db w) !! k); [by left|done].
  - eexists. split; [apply lookup_insert_eq|done].
Qed.

(** Sweeping over rows of the table settles each of them. *)
Lemma sweep_settles ws l w r w' :
  all_completed → peers_keep → publications_ok (w_db w) →
  (∀ c, c ∈ l → cp_WorkspaceID c = ws ∧ ∃ k c0, db_check_publications (w_db w) !! k = Some c0 ∧
     cp_WorkspaceID c0 = cp_WorkspaceID c ∧ cp_PassID c0 = cp_PassID c ∧
     k = (cp_WorkspaceID c, cp_IdempotencyKey c)) →
  each (λ i, ReconcilePublication (cp_WorkspaceID i) (cp_PassID i)) l w = (r, w') →
  pubs_settle ws (w_db w) (w_db w') ∧ publications_only (w_db w) (w_db w') ∧
  ∀ c, c ∈ l → ∃ c', db_check_publications (w_db w') !! (cp_WorkspaceID c, cp_IdempotencyKey c) = Some c' ∧
    cp_State c' ≠ CheckPublicationInFlight.
Proof.
  intros Hall Hpeers. revert w. induction l as [|c l IH]; intros w Hok Hl E.
  { injection E as <- <-. split; [reflexivity|]. split; [reflexivity|]. intros c Hc. by apply not_elem_of_nil in Hc. }
  cbn [each] in E. try_inv E E1. destruct (Hl c) as (Hcw & k & c0 & Hk & Ew & Ep & ->); [left|].
  rewrite <- Ew, <- Ep in E1.
  destruct (reconcile_settles _ _ _ _ _ Hall Hpeers Hok Hk E1) as (Hs & Ho & c1 & Hc1 & Hn1).
  rewrite Ew, Hcw in Hs. apply IH in E as (Hs2 & Ho2 & Hrest).
  - split; [by etransitivity|]. split; [by etransitivity|]. intros c2 [->|Hc2]%elem_of_cons; [|by apply Hrest].
    destruct (pubs_settle_ahead _ _ _ _ _ Hs2 Hc1) as (c' & Hc' & Hr). exists c'. split; [done|].
    by destruct Hr as [->|(_ & _ & t & ->)].
  - by eapply publications_ok_settle.
  - intros c2 Hc2. destruct (Hl c2) as (Hw2 & k2 & d2 & Hk2 & Ew2 & Ep2 & ->); [by right|]. split; [done|].
    destruct (pubs_settle_ahead _ _ _ _ _ Hs Hk2) as (d' & Hd' & Hr).
    destruct (row_settles_ids _ _ _ Hr) as (? & ? & _). eexists _, d'. split_and!; [exact Hd'|congruence..|done].
Qed.

(** C16: a check in flight does not stay in flight: when AuthScope reports the
    operations as completed, and as long as the requests that run meanwhile
    leave publications and receipts alone, one reconciliation sweep moves
    every in-flight publication of the workspace to settled.  It changes the
    state and the time of those rows and nothing else: every other row of the
    table, and of every other workspace, stays as it is, and the rest of the
    database changes only by what those requests commit ([publications_ok] is
    kept by the receipt service: [publication_rows_linked]). *)
Theorem publications_are_settled ws w r w' :
  all_completed → peers_keep → publications_ok (w_db w) →
  reconcileCheckPublications ws true w = (r, w') →
  r = Ok tt ∧ pubs_settle ws (w_db w) (w_db w') ∧ publications_only (w_db w) (w_db w') ∧
  ∀ k c, db_check_publications (w_db w) !! k = Some c → cp_WorkspaceID c = ws →
    cp_State c = CheckPublicationInFlight →
    ∃ c', db_check_publications (w_db w') !! k = Some c' ∧ cp_State c' = CheckPublicationSettled.
Proof.
  intros Hall Hpeers Hok E. unfold reconcileCheckPublications in E.
  set (rows := order_by (λ r, formatTime (cp_UpdatedAt r)) (λ _, "")
    (table_rows (λ r, cp_WorkspaceID r = ws ∧ (CheckPublicationInFlight = "" ∨
       cp_State r = CheckPublicationInFlight)) (db_check_publications (w_db w)))).
  assert (tx (listCheckPublications ws CheckPublicationInFlight) w = (Ok rows, w)) as El.
  { apply tx_read. unfold listCheckPublications. rewrite require_then by (right; by left).
    by rewrite gets_then. }
  rewrite (bind_run _ _ _ _ _ El) in E. pose proof (each_completes _ _ _ _ _ E) as ->.
  assert (∀ c, c ∈ rows ↔ (cp_WorkspaceID c = ws ∧ (CheckPublicationInFlight = "" ∨
       cp_State c = CheckPublicationInFlight)) ∧ ∃ k, db_check_publications (w_db w) !! k = Some c) as Hrows.
  { intros c. unfold rows. rewrite elem_of_order_by. by rewrite elem_of_table_rows. }
  apply (sweep_settles ws) in E as (Hs & Ho & Hr); try done.
  2: { intros c [[Hw _] [k Hk]]%Hrows. split; [done|]. destruct (po_key _ Hok _ _ Hk) as [-> _]. by eexists _, c. }
  split_and!; [done|done|done|]. intros k c Hk Hw Hf.
  destruct (po_key _ Hok _ _ Hk) as [-> _].
  destruct (Hr c) as (c' & Hc' & Hn). { apply Hrows. split; [split; [done|by right]|by eexists]. }
  exists c'. split; [exact Hc'|]. destruct (pubs_settle_back _ _ _ _ _ Hs Hc') as (c0 & Hc0 & Hrs).
  rewrite Hk in Hc0. injection Hc0 as <-. by destruct Hrs as [->|(_ & _ & t & ->)].
Qed.
End live.

(** ** The receipt service keeps publications linked to receipts *)

Definition pubs_ok_kept (w w' : World) : Prop :=
  publications_ok (w_db w) → publications_ok (w_db w').
#[export] Instance pubs_ok_preorder : PreOrder pubs_ok_kept.
Proof. split; unfold pubs_ok_kept; [naive_solver|naive_solver]. Qed.

Section linked.
Context `{Env}.
Context (peers_ok : ∀ n db, publications_ok db → publications_ok (peers n db)).

Lemma kept_db m w w' : w_db w' = m → w_db w = m → pubs_ok_kept w w'.
Proof. unfold pubs_ok_kept. by intros -> ->. Qed.

Lemma kept_tx {A} (fn : Tx A) :
  (∀ db a db', fn db = (Ok a, db') → publications_ok db → publications_ok db') →
  within pubs_ok_kept (tx fn).
Proof.
  intros Hf w [a|e] w' E; [|by apply tx_Err in E as [_ ->]].
  apply tx_Ok in E as (db & E & ->). intros Hok. cbn. by eapply Hf.
Qed.

Lemma kept_keeps {A} (m : M A) : within (keeps w_db) m → within pubs_ok_kept m.
Proof. apply within_weaken. unfold keeps, pubs_ok_kept. by intros w w' ->. Qed.

Lemma kept_wait : within pubs_ok_kept wait.
Proof. apply within_modify. intros w Hok. by apply peers_ok. Qed.

Lemma moved_ok ws key state runID db db' :
  validCheckPublicationState state → publication_moved ws key state runID db db' →
  publications_ok db → publications_ok db'.
Proof.
  intros Hv (old & t & Ho & ->) [H1 H2]. unfold publication_row in Ho.
  destruct (H1 _ _ Ho) as [Ek _]. injection Ek as -> ->. constructor; cbn [db_check_publications upd].
  - intros k c [[<- <-]|[_ Hk]]%lookup_insert_Some; [by split|by apply H1].
  - intros k c [[<- <-]|[_ Hk]]%lookup_insert_Some; [exact (H2 _ _ Ho)|by eapply H2].
Qed.

Lemma kept_settle ws key state runID : validCheckPublicationState state →
  within pubs_ok_kept (settle_publication ws key state runID).
Proof.
  intros Hv w r w' E. apply settle_publication_run in E as (_ & [[_ Hm]|[_ Ed]]) ; intros Hok.
  - by eapply moved_ok.
  - by rewrite Ed.
Qed.

Lemma intend_ok t1 t2 ws passID db a db' :
  intend_publication t1 t2 ws passID db = (Ok a, db') → publications_ok db → publications_ok db'.
Proof.
  intros E Hok. destruct a as [[[view bindingID] key] settled].
  apply intend_publication_Ok in E as (_ & c & [(row & Hr & _ & ->) _ Hf] & _ & _).
  destruct Hf as [[_ ->]|(Hn & Hst & Hw & Hp & Hk & ->)]; [done|]. destruct Hok as [H1 H2].
  constructor; cbn [db_check_publications upd].
  - intros k c' [[<- <-]|[_ Hk']]%lookup_insert_Some; [|by apply H1]. rewrite Hw, Hk, Hst.
    split; [done|by left].
  - intros k c' [[<- <-]|[_ Hk']]%lookup_insert_Some; [|by eapply H2]. exists row.
    by rewrite Hw, Hp, Hk.
Qed.

(** Receipts are only added, publications kept. *)
Definition receipts_grow (db db' : DB) : Prop :=
  db_check_publications db' = db_check_publications db ∧
  db_receipt_views db ⊆ db_receipt_views db'.
#[export] Instance receipts_grow_preorder : PreOrder receipts_grow.
Proof.
  split; unfold receipts_grow; [done|]. intros a b c [E1 H1] [E2 H2]. split; [congruence|].
  by etransitivity.
Qed.

Lemma grow_ok db db' : receipts_grow db db' → publications_ok db → publications_ok db'.
Proof.
  intros [E Hs] [H1 H2]. constructor; rewrite E; [done|]. intros k c Hk.
  destruct (H2 _ _ Hk) as (row & Hr & Ek). exists row. split; [|done].
  unfold receipt_row in *. by eapply lookup_weaken.
Qed.

Lemma grow_putMissionPass t rec rev : within receipts_grow (putMissionPass t rec rev).
Proof.
  intros db r db' E. unfold putMissionPass in E. op_inv E; try done; by split.
Qed.

Lemma settle_verdict_grows t ws passID verdict : within receipts_grow (settle_verdict t ws passID verdict).
Proof.
  intros db r db' E. unfold settle_verdict in E.
  rewrite (bind_run _ _ _ _ _ (stored_verdict_run ws passID db)) in E.
  destruct (verdict_of <$> receipt_row db ws passID) eqn:Er; [by injection E as _ <-|].
  call_inv E Ep.
  - assert (receipts_grow db d) as Hg.
    { unfold putReceiptView in Ep. do 2 (op_inv_step Ep; [|discriminate Ep]). cbv zeta in Ep.
      rewrite gets_then in Ep. cbn [rv_WorkspaceID rv_PassID viewToRecord] in Ep.
      unfold receipt_row in Er. destruct (db_receipt_views db !! (ws, passID)) eqn:Ek; [discriminate Er|].
      injection Ep as _ <-. split; [done|]. by apply insert_subseteq. }
    etransitivity; [exact Hg|]. clear Hg Ep Er.
    match type of E with ?m _ = _ => assert (within receipts_grow m) as Hm; [|by eapply Hm] end.
    unfold getMissionPass.
    repeat (first [solve [auto using grow_putMissionPass with within typeclass_instances]
      |apply within_weaken with eq; [by intros ?? ->|apply within_select]|within_step]).
  - injection E as _ <-. unfold putReceiptView in Ep. op_inv Ep; try done; by split.
Qed.

Lemma kept_VerifyReceipt ws passID : within pubs_ok_kept (VerifyReceipt ws passID).
Proof.
  unfold VerifyReceipt, call_GetReceipt, verdict_result.
  repeat (first
    [apply kept_tx; intros ??? E; first [destruct a; by apply read_pending_Ok in E as [-> _]
      |apply grow_ok; by eapply settle_verdict_grows]
    |apply kept_wait
    |apply kept_keeps; intros ??? E; by eapply verify_refreshing_run in E as [? _]
    |apply kept_keeps; solve [keeps_auto]
    |solve [auto with within typeclass_instances]|within_step]).
Qed.

Lemma kept_PublishVerifiedCheck ws passID : within pubs_ok_kept (PublishVerifiedCheck ws passID).
Proof.
  unfold PublishVerifiedCheck, call_PublishGitHubCheck.
  repeat (first
    [apply kept_tx; intros ????; by eapply intend_ok
    |apply kept_settle; unfold validCheckPublicationState; tauto
    |apply kept_wait|apply kept_keeps; solve [keeps_auto]
    |solve [auto with within typeclass_instances]|within_step]).
Qed.

Lemma open_publication_reads ws passID : within eq (open_publication ws passID).
Proof.
  unfold open_publication, getLatestCheckPublicationForPass, getReceiptView.
  repeat (first [apply within_select|solve [auto with within typeclass_instances]|within_step]).
Qed.

Lemma kept_ReconcilePublication ws passID : within pubs_ok_kept (ReconcilePublication ws passID).
Proof.
  unfold ReconcilePublication, republish, call_PublishGitHubCheck, call_ReconcileOperation.
  repeat (first
    [apply kept_tx; intros ??? E; by eapply open_publication_reads in E as <-
    |apply kept_settle; unfold validCheckPublicationState; tauto
    |apply kept_wait|apply kept_keeps; solve [keeps_auto]
    |solve [auto with within typeclass_instances]|within_step]).
Qed.

(** C17: publications stay linked to their receipts: in every state the receipt
    service reaches, however its operations interleave with each other and
    with requests that keep the link, each publication sits at the key derived
    from the receipt stored for its pass and is in a valid state, so a pass
    never has two. *)
Theorem publication_rows_linked ws w w' :
  publications_ok (w_db w) →
  rtc (λ w1 w2, ∃ passID, (∃ r, VerifyReceipt ws passID w1 = (r, w2)) ∨
    (∃ r, PublishVerifiedCheck ws passID w1 = (r, w2)) ∨
    (∃ r, ReconcilePublication ws passID w1 = (r, w2))) w w' →
  publications_ok (w_db w') ∧
  ∀ k1 k2 c1 c2, db_check_publications (w_db w') !! k1 = Some c1 →
    db_check_publications (w_db w') !! k2 = Some c2 →
    cp_WorkspaceID c1 = cp_WorkspaceID c2 → cp_PassID c1 = cp_PassID c2 → k1 = k2.
Proof.
  intros Hok Hs. assert (publications_ok (w_db w')) as Hok'; [|split; [done|by eauto using po_pass]].
  induction Hs as [w|w1 w2 w3 (passID & [[r E]|[[r E]|[r E]]]) _ IH]; [done|..]; apply IH.
  - by eapply kept_VerifyReceipt.
  - by eapply kept_PublishVerifiedCheck.
  - by eapply kept_ReconcilePublication.
Qed.
End linked.

(** ** The lease *)

Section lease.
Context `{Env}.

Lemma releaseLease_run instanceID owner w :
  ∃ w', releaseLease instanceID owner w = (Ok tt, w') ∧
    ∀ l, db_worker_leases (w_db w') !! instanceID = Some l → wl_Owner l ≠ owner.
Proof.
  unfold releaseLease. destruct (tx (releaseWorkerLease instanceID owner) w) as [r w'] eqn:E.
  rewrite (try_then _ _ _ _ _ E). exists w'. split; [done|].
  unfold releaseWorkerLease in E. unfold tx, WithTx in E. rewrite gets_then in E.
  destruct (db_worker_leases (w_db w) !! instanceID) as [l0|] eqn:El; [destruct (decide _) as [D|D] in E|];
    injection E as <- <-; cbn; intros l Hl; [by rewrite lookup_delete_eq in Hl|congruence|congruence].
Qed.

(** C37: a worker that stops gives up its lease: once [Run] has acquired the
    lease, it releases it however it ends, whatever sweeps, heartbeats and
    lost leases come in between, so that a successor can acquire it at
    once. *)
Theorem Run_releases_lease ws instanceID owner ttl g hr he attempts ticks s s1 r s' :
  svc (acquireLease instanceID owner ttl attempts) s = (Ok tt, s1) →
  Run ws instanceID owner ttl g hr he attempts ticks s = (r, s') →
  ∀ l, db_worker_leases (w_db (wk_world s')) !! instanceID = Some l → wl_Owner l ≠ owner.
Proof.
  intros Ha E. unfold Run in E. rewrite (bind_run _ _ _ _ _ Ha) in E. try_inv E El.
  destruct (releaseLease_run instanceID owner (wk_world w)) as (w' & Er & Hl).
  assert (svc (releaseLease instanceID owner) w = (Ok tt, w <| wk_world := w' |>)) as Es.
  { unfold svc. by rewrite Er. }
  rewrite (bind_run _ _ _ _ _ Es) in E. by injection E as <- <-.
Qed.
End lease.

(** ** Runs *)

(** A pass awaiting its receipt, an active pass, and nothing else. *)
Definition bench_active_pass : MissionPassRecord :=
  bench_pass <| mp_PassID := "pass-2" |> <| mp_State := PassRunning |>
    <| mp_MissionRef := "mission-2" |>.
Definition bench_sweep_DB : DB :=
  bench_done_DB <| db_mission_passes := {[ ("ws", "pass-1") := bench_done_pass;
                                           ("ws", "pass-2") := bench_active_pass ]} |>.
Definition bench_worker : Worker :=
  idle ((start bench_sweep_DB) <| w_keys := bench_keys |>).
Definition bench_poll : W unit := @poll bench_env "ws" "owner" true true true.

Lemma backoff_delay_exact_witness : 1 ≤ 40 ∧ backoff_delay 40 = maxBackoff ∧ backoff_delay 3 = 2 * Minute.
Proof.
  split; [lia|]. split.
  - rewrite (backoff_delay_exact 40) by lia. reflexivity.
  - rewrite (backoff_delay_exact 3) by lia. reflexivity.
Defined.

Lemma poll_background_witness :
  let run := bench_poll bench_worker in
  run.1 = Ok tt ∧ length (w_calls (wk_world run.2)) = 4%nat ∧
  (mp_State <$> db_mission_passes (w_db (wk_world run.2)) !! ("ws", "pass-1")) = Some PassCompleted ∧
  ∃ l, w_calls (wk_world run.2) = (l ++ w_calls (wk_world bench_worker))%list ∧ Forall background l.
Proof.
  intros run. split; [|split; [vm_compute; reflexivity|split; [vm_compute; reflexivity|]]];
    apply (@poll_background bench_env "ws" "owner" true true true bench_worker run.1 run.2
             (surjective_pairing run)).
Defined.

(** The same database after the crash of a worker: the check was being
    published, or the receipt had only been verified. *)
Definition bench_receipt_row : ReceiptViewRecord := viewToRecord "ws" "pass-1" bench_view bench_time.
Definition bench_publication : CheckPublicationRecord :=
  zero_CheckPublicationRecord <| cp_WorkspaceID := "ws" |> <| cp_PassID := "pass-1" |>
    <| cp_IdempotencyKey := publication_key "ws" (recordToView bench_receipt_row) |>
    <| cp_BindingID := "binding-1" |> <| cp_State := CheckPublicationInFlight |>
    <| cp_CreatedAt := bench_time |> <| cp_UpdatedAt := bench_time |>.
Definition bench_open_DB : DB :=
  bench_verified_DB <| db_check_publications :=
    {[ ("ws", cp_IdempotencyKey bench_publication) := bench_publication ]} |>.

Lemma bench_open_ok : publications_ok bench_open_DB.
Proof.
  constructor; intros k c Hk; unfold bench_open_DB in Hk; cbn [db_check_publications upd] in Hk;
    apply lookup_singleton_Some in Hk as [<- <-].
  - split; [done|by left].
  - exists bench_receipt_row. by split.
Qed.

Lemma publications_are_settled_witness :
  let run := @reconcileCheckPublications bench_env "ws" true (start bench_open_DB) in
  run.1 = Ok tt ∧
  ∃ c', db_check_publications (w_db run.2) !! ("ws", cp_IdempotencyKey bench_publication) = Some c' ∧
    cp_State c' = CheckPublicationSettled.
Proof.
  intros run.
  destruct (@publications_are_settled bench_env "ws" (start bench_open_DB) run.1 run.2
    ltac:(intros h key id opts; by eexists) ltac:(by intros n db) bench_open_ok
    (surjective_pairing run)) as (Hr & _ & _ & Hs).
  split; [exact Hr|]. apply (Hs _ bench_publication); [apply lookup_singleton_eq|done..].
Defined.

Lemma publication_rows_linked_witness :
  let run := @VerifyReceipt bench_env "ws" "pass-1" bench_done_world in
  let run2 := @PublishVerifiedCheck bench_env "ws" "pass-1" run.2 in
  (∃ key c, db_check_publications (w_db run2.2) !! key = Some c ∧ cp_State c = CheckPublicationSettled) ∧
  publications_ok (w_db run2.2).
Proof.
  intros run run2. split.
  - exists ("ws", cp_IdempotencyKey bench_publication). vm_compute. eexists. split; reflexivity.
  - eapply (@publication_rows_linked bench_env ltac:(by intros n db) "ws" bench_done_world).
    + constructor; intros k c Hk; discriminate Hk.
    + eapply rtc_l; [exists "pass-1"; left; exists run.1; apply surjective_pairing|].
      eapply rtc_l; [exists "pass-1"; right; left; exists run2.1; apply surjective_pairing|].
      apply rtc_refl.
Defined.

Definition bench_lease_run : res unit * Worker :=
  @Run bench_env "ws" "instance" "owner" Minute true true true 2
    [HeartbeatTick 1; PollTick; HeartbeatTick 1] bench_worker.

Lemma Run_releases_lease_witness :
  bench_lease_run.1 = Ok tt ∧
  db_worker_leases (w_db (wk_world bench_lease_run.2)) = ∅ ∧
  match db_worker_leases (w_db (wk_world bench_lease_run.2)) !! "instance" with
  | Some l => wl_Owner l ≠ "owner"
  | None => True
  end.
Proof.
  split; [vm_compute; reflexivity|]. split; [vm_compute; reflexivity|].
  destruct (_ !! _) as [l|] eqn:E; [|exact I].
  eapply (@Run_releases_lease bench_env "ws" "instance" "owner" Minute true true true 2
    [HeartbeatTick 1; PollTick; HeartbeatTick 1] bench_worker); [vm_compute; reflexivity
    |apply surjective_pairing|exact E].
Defined.

(** A receipt verified just before a crash is never published: later sweeps
    only look at passes still awaiting their receipt and at publications
    already intended. *)
Example verified_not_published :
  let run := bench_poll (bench_poll (idle (start bench_verified_DB))).2 in
  run.1 = Ok tt ∧ w_calls (wk_world run.2) = [] ∧
  db_check_publications (w_db (wk_world run.2)) = ∅.
Proof. vm_compute. split_and!; reflexivity. Qed.
