(* ===== verification/Enroll.v ===== *)
(** * Enrollment, passkeys and sessions (src/internal/authn/bootstrap.go,
      session.go, passkey.go)

    The one-use bootstrap ceremony that enrolls the founder, the passkey
    registrations and logins, and the session tokens.  The WebAuthn
    cryptography is the environment's verifier; the decision ceremonies of
    passkey.go are in Ceremony.v. *)

From S2P Require Import Prelude GoTime Sha256 Base64 StoreModel StoreAuth PassModel World Attestor Bench.
From S2P Require Import Ceremony Source Settle.

(** ** Text helpers *)

(** [hex.DecodeString]: either case, an even number of digits. *)
Definition hex_value (c : ascii) : option Z :=
  let b := byte_val c in
  if decide (48 ≤ b ≤ 57) then Some (b - 48)
  else if decide (97 ≤ b ≤ 102) then Some (b - 87)
  else if decide (65 ≤ b ≤ 70) then Some (b - 55)
  else None.
Fixpoint hexDecode (s : string) : option string :=
  match s with
  | EmptyString => Some ""
  | String c1 (String c2 s') =>
      v1 ← hex_value c1; v2 ← hex_value c2; r ← hexDecode s';
      Some (String (byte_of (16 * v1 + v2)) r)
  | String _ EmptyString => None
  end.

Fixpoint joinTransports (transports : list string) : string :=
  match transports with
  | [] => ""
  | [tr] => tr
  | tr :: rest => tr +:+ "," +:+ joinTransports rest
  end.

(** A token of [n] bytes behind base64url. *)
Definition decode_token (n : nat) (s : string) : option string :=
  raw ← RawURLDecode s; if decide (String.length raw = n) then Some raw else None.

(** ** Constants and errors *)

Definition bootstrapCodeTTL : Z := 10 * Minute.
Definition bootstrapCeremonyTTL : Z := 15 * Minute.
Definition registrationCeremonyTTL : Z := 5 * Minute.
Definition loginCeremonyTTL : Z := 5 * Minute.
Definition sessionTTL : Z := 12 * Hour.

Definition RecoveryMethodPasskey : string := "passkey".
Definition RecoveryMethodOfflineKey : string := "offline_key".

Definition ErrAlreadyEnrolled : err := ErrOther "authn: founder already enrolled".
Definition ErrBootstrapCode : err := ErrOther "authn: invalid bootstrap code".
Definition ErrBootstrapCodeExpired : err := ErrOther "authn: bootstrap code expired".
Definition ErrRecoveryRequired : err := ErrOther "authn: independent recovery method required".
Definition ErrRecoveryNotVerified : err := ErrOther "authn: recovery method not verified".
Definition ErrDuplicateCredential : err := ErrOther "authn: credential already registered".
Definition ErrSessionNotFound : err := ErrOther "authn: session not found".
Definition ErrSessionExpired : err := ErrOther "authn: session expired".
Definition ErrSessionRevoked : err := ErrOther "authn: session revoked".
Definition ErrCSRFMismatch : err := ErrOther "authn: CSRF token mismatch".
(** [authn.ErrConflict], distinct from the store's. *)
Definition ErrCeremonyConflict : err := ErrOther "authn: conflict".

(** ** Bootstrap codes *)

(** The raw code is drawn by the caller. *)
Definition IssueRecoveryBootstrapCodeTx (raw workspaceID : string) (now : time) : Tx time :=
  _ ← require (workspaceID ≠ "") (ErrOther "authn: workspace ID is required");
  _ ← putBootstrapCode (MkBootstrapCodeRecord workspaceID (hex (Sum256 raw)) now
        (now + bootstrapCodeTTL) None);
  mret (now + bootstrapCodeTTL).

Section enroll.
Context `{Env}.

Definition IssueRecoveryBootstrapCode (workspaceID : string) : M (string * time) :=
  t ← now;
  raw ← randomBytes 16;
  expiresAt ← tx (IssueRecoveryBootstrapCodeTx raw workspaceID t);
  mret (raw, expiresAt).

Definition enrolled : M bool :=
  n ← tx (countFounders instance_WorkspaceID);
  mret (bool_decide (0 < n)).

Definition EnsureBootstrapCode : M string :=
  n ← tx (countFounders instance_WorkspaceID);
  if decide (0 < n) then mret ""
  else
    raw ← randomBytes 16;
    t ← now;
    _ ← tx (putBootstrapCode (MkBootstrapCodeRecord instance_WorkspaceID (hex (Sum256 raw)) t
              (t + bootstrapCodeTTL) None));
    mret (RawURLEncode raw).

(** ** The bootstrap ceremony *)

Definition put_bootstrap (c : bootstrapCeremony) : M unit :=
  modify (λ w, w <| w_bootstrap := <[bo_id c := c]> (w_bootstrap w) |>).

Definition Begin (code : string) : M (string * time) :=
  e ← enrolled;
  _ ← require (e = false) ErrAlreadyEnrolled;
  raw ← lift (opt_res ErrBootstrapCode (decode_token 16 code));
  r ← try (tx (getBootstrapCode instance_WorkspaceID));
  match r with
  | Err _ => fail ErrBootstrapCode
  | Ok rec =>
      _ ← require (hex (Sum256 raw) = bc_CodeHash rec) ErrBootstrapCode;
      t ← now;
      _ ← require (After (bc_ExpiresAt rec) t) ErrBootstrapCodeExpired;
      token ← randomBytes 32;
      userHandle ← randomBytes 32;
      id ← newCeremonyID;
      let c := Mk_bootstrapCeremony id (Sum256 token) (bc_CodeHash rec) userHandle "" "" "" ""
                 false false [] t (t + bootstrapCeremonyTTL) false in
      _ ← put_bootstrap c;
      _ ← modify (λ w, w <| w_bootstrapByToken := <[bo_tokenHash c := id]> (w_bootstrapByToken w) |>);
      mret (RawURLEncode token, bo_expiresAt c)
  end.

(** An expired ceremony stays in the maps. *)
Definition liveBootstrapCeremony (ceremonyToken : string) : M bootstrapCeremony :=
  raw ← lift (opt_res ErrCeremonyNotFound (decode_token 32 ceremonyToken));
  byToken ← gets w_bootstrapByToken;
  bootstrap ← gets w_bootstrap;
  match byToken !! Sum256 raw with
  | None => fail ErrCeremonyNotFound
  | Some id =>
      match bootstrap !! id with
      | None => fail ErrCeremonyConsumed
      | Some c =>
          _ ← require (bo_consumed c = false) ErrCeremonyConsumed;
          t ← now;
          _ ← require (After (bo_expiresAt c) t) ErrCeremonyExpired;
          mret c
      end
  end.

(** The ceremony ID and the creation options. *)
Definition beginRegistrationLocked (c : bootstrapCeremony) (displayName : string) (recovery : bool)
    (excludeIDs : list string) : M (string * string) :=
  t ← now;
  let left := bo_expiresAt c - t in
  let ttl := if recovery then (if decide (left < registrationCeremonyTTL) then left
                               else registrationCeremonyTTL) else registrationCeremonyTTL in
  id ← newCeremonyID;
  let name := if decide (displayName = "") then "Founder" else displayName in
  options ← match verifier_BeginRegistration (bo_userHandle c) name instance_RPID instance_Origin
                    excludeIDs with
            | Ok o => mret o
            | Err _ => fail ErrVerificationFailed
            end;
  _ ← modify (λ w, w <| w_ceremonies :=
        <[id := Mk_webauthnCeremony id ceremonyRegistration options.2 (bo_userHandle c) (bo_id c) ""
                  "" recovery None t (t + ttl) false]> (w_ceremonies w) |>);
  mret (id, options.1).

Definition BeginBootstrapRegistration (bootstrapToken displayName : string) : M (string * string) :=
  c ← liveBootstrapCeremony bootstrapToken;
  let c := if decide (displayName ≠ "") then c <| bo_displayName := displayName |> else c in
  _ ← put_bootstrap c;
  beginRegistrationLocked c displayName false [].

(** The registration of a second passkey, or the offline key itself. *)
Inductive RecoveryBeginResult :=
  | RecoveryPasskey (ceremonyID optionsJSON : string)
  | RecoveryKey (key : string).

Definition BeginRecovery (ceremonyToken method : string) : M RecoveryBeginResult :=
  _ ← require (method = RecoveryMethodPasskey ∨ method = RecoveryMethodOfflineKey) ErrInvalidPurpose;
  c ← liveBootstrapCeremony ceremonyToken;
  _ ← require (bo_firstCredentialID c ≠ "") ErrRecoveryRequired;
  _ ← require (bo_recoveryMethod c = "") ErrCeremonyConflict;
  if decide (method = RecoveryMethodPasskey) then
    _ ← put_bootstrap (c <| bo_recoveryMethod := RecoveryMethodPasskey |>);
    r ← try (beginRegistrationLocked c "Founder" true
               match RawURLDecode (bo_firstCredentialID c) with Some id => [id] | None => [] end);
    match r with
    | Ok (id, options) => mret (RecoveryPasskey id options)
    | Err e => _ ← put_bootstrap (c <| bo_recoveryMethod := "" |>); fail e
    end
  else
    raw ← randomBytes 32;
    _ ← put_bootstrap (c <| bo_recoveryMethod := RecoveryMethodOfflineKey |>
           <| bo_recoveryKeyHash := Sum256 raw |> <| bo_recoveryIssued := true |>);
    mret (RecoveryKey (RawURLEncode raw)).

(** ** Passkey registration *)

Definition BeginSessionRegistration (p : Principal) (displayName : string) : M (string * string) :=
  _ ← require (p_WorkspaceID p = instance_WorkspaceID) ErrDecisionBinding;
  creds ← founderCredentials (p_FounderID p);
  let name := if decide (displayName = "") then "Founder" else displayName in
  options ← match verifier_BeginRegistration (p_FounderID p) name instance_RPID instance_Origin
                    (sc_ID <$> creds) with
            | Ok o => mret o
            | Err _ => fail ErrVerificationFailed
            end;
  t ← now;
  id ← newCeremonyID;
  _ ← modify (λ w, w <| w_ceremonies :=
        <[id := Mk_webauthnCeremony id ceremonyRegistration options.2 (p_FounderID p) ""
                  (p_SessionID p) (p_FounderID p) false None t (t + registrationCeremonyTTL) false]>
          (w_ceremonies w) |>);
  mret (id, options.1).

Record FinishRegistrationRequest := MkFinishRegistrationRequest {
  fr_CeremonyID : string;
  fr_ResponseBody : string;
  fr_BootstrapToken : string;
  fr_Principal : option Principal
}.

Definition checkRegistrationScope (req : FinishRegistrationRequest) (c : webauthnCeremony) : M unit :=
  if decide (ce_bootstrapCeremonyID c ≠ "") then
    _ ← require (¬ (fr_BootstrapToken req = "" ∨ is_Some (fr_Principal req))) ErrCeremonyNotFound;
    bc ← liveBootstrapCeremony (fr_BootstrapToken req);
    require (bo_id bc = ce_bootstrapCeremonyID c) ErrCeremonyNotFound
  else
    match fr_Principal req with
    | Some p =>
        _ ← require (fr_BootstrapToken req = "") ErrCeremonyNotFound;
        require (¬ (p_SessionID p ≠ ce_sessionID c ∨ p_FounderID p ≠ ce_founderID c)) ErrCeremonyNotFound
    | None => fail ErrCeremonyNotFound
    end.

Definition credential_record (founderID credentialID : string) (r : RegisteredCredential) (t : time)
    : WebAuthnCredentialRecord :=
  MkWebAuthnCredentialRecord instance_WorkspaceID credentialID founderID (rg_PublicKey r)
    (rg_SignCount r) (joinTransports (rg_Transports r)) t.

(** The credential is staged: its founder row comes with [Complete]. *)
Definition stage (c : webauthnCeremony) (credentialID : string) (r : RegisteredCredential) (t : time)
    : M unit :=
  bootstrap ← gets w_bootstrap;
  match bootstrap !! ce_bootstrapCeremonyID c with
  | None => fail ErrCeremonyConsumed
  | Some bc =>
      _ ← require (bo_consumed bc = false) ErrCeremonyConsumed;
      _ ← require (credentialID ∉ (wc_CredentialID <$> bo_stagedCredentials bc)) ErrDuplicateCredential;
      let bc := if ce_isRecovery c
                then bc <| bo_recoveryMethod := RecoveryMethodPasskey |> <| bo_recoveryVerified := true |>
                else bc <| bo_firstCredentialID := credentialID |> in
      put_bootstrap (bc <| bo_stagedCredentials :=
        (bo_stagedCredentials bc ++ [credential_record "" credentialID r t])%list |>)
  end.

Definition FinishRegistration (req : FinishRegistrationRequest) : M string :=
  c ← consumeCeremony (fr_CeremonyID req) ceremonyRegistration;
  _ ← checkRegistrationScope req c;
  r ← match verifier_FinishRegistration (ce_userID c) (ce_sessionJSON c) (fr_ResponseBody req) with
      | Ok r => mret r
      | Err _ => fail ErrVerificationFailed
      end;
  _ ← require (rg_UserVerified r = true) ErrUserVerification;
  _ ← require (rg_ID r ≠ "" ∧ rg_PublicKey r ≠ "") ErrVerificationFailed;
  let credentialID := RawURLEncode (rg_ID r) in
  t ← now;
  if decide (ce_bootstrapCeremonyID c ≠ "") then
    _ ← stage c credentialID r t;
    mret credentialID
  else
    x ← try (tx (putWebAuthnCredential (credential_record (ce_founderID c) credentialID r t)));
    match x with
    | Ok _ => mret credentialID
    | Err e => fail (if decide (e = ErrConflict) then ErrDuplicateCredential else e)
    end.

(** ** Sessions *)

(** The session ID, the token and the CSRF token. *)
Definition newSessionMaterial : M (string * string * string) :=
  id ← newCeremonyID;
  token ← randomBytes 32;
  csrf ← randomBytes 32;
  mret (id, RawURLEncode token, RawURLEncode csrf).

Definition session_record (sessionID founderID sessionRaw csrfRaw : string) (t : time) : SessionRecord :=
  MkSessionRecord instance_WorkspaceID sessionID (hex (Sum256 sessionRaw)) founderID
    (hex (Sum256 csrfRaw)) t (t + sessionTTL) false.

(** The raw bytes of a fresh token. *)
Definition decode_fresh (token : string) : M string :=
  lift (opt_res (ErrOther "illegal base64 data") (RawURLDecode token)).

Definition AuthenticateSessionToken (token : string) : M (Principal * SessionRecord) :=
  raw ← lift (opt_res ErrSessionNotFound (decode_token 32 (TrimSpace token)));
  r ← try (tx (getSessionByHash instance_WorkspaceID (hex (Sum256 raw))));
  match r with
  | Err _ => fail ErrSessionNotFound
  | Ok rec =>
      t ← now;
      _ ← require (se_Revoked rec = false) ErrSessionRevoked;
      _ ← require (After (se_ExpiresAt rec) t) ErrSessionExpired;
      csrf ← lift (opt_res (ErrOther "authn: corrupt CSRF hash") (hexDecode (se_CSRFTokenHash rec)));
      _ ← require (String.length csrf = 32%nat) (ErrOther "authn: corrupt CSRF hash");
      mret (MkPrincipal (se_FounderID rec) (se_WorkspaceID rec) (se_SessionID rec)
              (se_CreatedAt rec) csrf, rec)
  end.

Definition VerifyCSRFToken (rec : SessionRecord) (presented : string) : res unit :=
  raw ← opt_res ErrCSRFMismatch (decode_token 32 (TrimSpace presented));
  stored ← opt_res ErrCSRFMismatch (hexDecode (se_CSRFTokenHash rec));
  _ ← require_res (String.length stored = 32%nat) ErrCSRFMismatch;
  require_res (Sum256 raw = stored) ErrCSRFMismatch.

(** ** Completing the bootstrap *)

Record SessionResult := MkSessionResult {
  sr_FounderID : string;
  sr_SessionToken : string;
  sr_CSRFToken : string
}.

(** The recovery method of the ceremony is confirmed. *)
Definition confirmRecovery (c : bootstrapCeremony) (recoveryConfirmation : string) : res unit :=
  if decide (bo_recoveryMethod c = RecoveryMethodPasskey) then
    require_res (bo_recoveryVerified c = true) ErrRecoveryNotVerified
  else if decide (bo_recoveryMethod c = RecoveryMethodOfflineKey) then
    _ ← require_res (bo_recoveryIssued c = true) ErrRecoveryNotVerified;
    raw ← opt_res ErrRecoveryNotVerified (decode_token 32 recoveryConfirmation);
    require_res (Sum256 raw = bo_recoveryKeyHash c) ErrRecoveryNotVerified
  else Err ErrRecoveryRequired.

Fixpoint put_staged (founderID : string) (staged : list WebAuthnCredentialRecord) : Tx unit :=
  match staged with
  | [] => mret tt
  | r :: rest =>
      _ ← putWebAuthnCredential (r <| wc_FounderID := founderID |>);
      put_staged founderID rest
  end.

Definition complete_tx (c : bootstrapCeremony) (founderID sessionID sessionRaw csrfRaw : string)
    (t : time) : Tx unit :=
  _ ← createFounder (MkFounderRecord instance_WorkspaceID founderID (bo_displayName c) t);
  _ ← put_staged founderID (bo_stagedCredentials c);
  _ ← if decide (bo_recoveryMethod c = RecoveryMethodOfflineKey) then
        putOfflineRecoveryKey (MkOfflineRecoveryKeyRecord instance_WorkspaceID founderID
          (hex (bo_recoveryKeyHash c)) t)
      else mret tt;
  _ ← consumeBootstrapCode instance_WorkspaceID (bo_codeHash c) t;
  createSession (session_record sessionID founderID sessionRaw csrfRaw t).

(** The founder written into a staged record by a failed attempt is
    overwritten by the next one, so the staged records are kept as they are. *)
Definition Complete (ceremonyToken recoveryConfirmation : string) : M SessionResult :=
  c ← liveBootstrapCeremony ceremonyToken;
  _ ← require (bo_firstCredentialID c ≠ "") ErrRecoveryRequired;
  _ ← lift (confirmRecovery c recoveryConfirmation);
  t ← now;
  founderID ← newCeremonyID;
  material ← newSessionMaterial;
  sessionRaw ← decode_fresh material.1.2;
  csrfRaw ← decode_fresh material.2;
  _ ← tx (complete_tx c founderID material.1.1 sessionRaw csrfRaw t);
  _ ← modify (λ w, w <| w_bootstrap := delete (bo_id c) (w_bootstrap w) |>
                     <| w_bootstrapByToken := delete (bo_tokenHash c) (w_bootstrapByToken w) |>);
  mret (MkSessionResult founderID material.1.2 material.2).

(** ** Login *)

Definition singleFounder : M FounderRecord :=
  founders ← tx (listFounders instance_WorkspaceID);
  match founders with [] => fail ErrNotEnrolled | f :: _ => mret f end.

Definition BeginLogin : M (string * string) :=
  founder ← singleFounder;
  creds ← founderCredentials (fo_FounderID founder);
  _ ← require (creds ≠ []) ErrNotEnrolled;
  options ← match verifier_BeginAssertion (fo_FounderID founder) instance_RPID instance_Origin
                    (sc_ID <$> creds) with
            | Ok o => mret o
            | Err _ => fail ErrVerificationFailed
            end;
  t ← now;
  id ← newCeremonyID;
  _ ← modify (λ w, w <| w_ceremonies :=
        <[id := Mk_webauthnCeremony id ceremonyLogin options.2 (fo_FounderID founder) "" ""
                  (fo_FounderID founder) false None t (t + loginCeremonyTTL) false]>
          (w_ceremonies w) |>);
  mret (id, options.1).

Definition login_tx (verified : VerifiedAssertion) (sessionID founderID sessionRaw csrfRaw : string)
    (t : time) : Tx unit :=
  _ ← if decide (0 < va_NewSignCount verified) then
        updateWebAuthnCredentialSignCount instance_WorkspaceID
          (RawURLEncode (va_CredentialID verified)) (va_NewSignCount verified)
      else mret tt;
  createSession (session_record sessionID founderID sessionRaw csrfRaw t).

Definition FinishLogin (ceremonyID responseBody : string) : M SessionResult :=
  c ← consumeCeremony ceremonyID ceremonyLogin;
  verified ← verifyAssertion c responseBody;
  material ← newSessionMaterial;
  sessionRaw ← decode_fresh material.1.2;
  csrfRaw ← decode_fresh material.2;
  t ← now;
  _ ← tx (login_tx verified material.1.1 (ce_founderID c) sessionRaw csrfRaw t);
  mret (MkSessionResult (ce_founderID c) material.1.2 material.2).

(** ** Enrollment status *)

Inductive EnrollmentState :=
  | EnrollmentNeedsBootstrap | EnrollmentNeedsRecovery | EnrollmentLocked | EnrollmentAuthenticated.
#[export] Instance EnrollmentState_eq_dec : EqDecision EnrollmentState.
Proof. solve_decision. Defined.

(** With the workspace and the hostname of the instance, which never change. *)
Record EnrollmentStatusReport := MkEnrollmentStatus {
  es_Enrolled : bool;
  es_State : EnrollmentState
}.

Definition EnrollmentStatus (bootstrapToken sessionToken : string) : M EnrollmentStatusReport :=
  e ← enrolled;
  if decide (e = false) then
    state ← if decide (bootstrapToken ≠ "") then
              r ← try (liveBootstrapCeremony bootstrapToken);
              mret match r with
                   | Ok c => if decide (bo_firstCredentialID c ≠ "") then EnrollmentNeedsRecovery
                             else EnrollmentNeedsBootstrap
                   | Err _ => EnrollmentNeedsBootstrap
                   end
            else mret EnrollmentNeedsBootstrap;
    mret (MkEnrollmentStatus false state)
  else
    state ← if decide (sessionToken ≠ "") then
              r ← try (AuthenticateSessionToken sessionToken);
              mret match r with Ok _ => EnrollmentAuthenticated | Err _ => EnrollmentLocked end
            else mret EnrollmentLocked;
    mret (MkEnrollmentStatus true state).
End enroll.

(** ** Text lemmas *)

Lemma hexDecode_hex s : hexDecode (hex s) = Some s.
Proof.
  induction s as [|c s IH]; [done|]. cbn [hex hexDecode]. rewrite IH.
  by destruct c as [[] [] [] [] [] [] [] []].
Qed.

Lemma decode_token_encode n s : String.length s = n → decode_token n (RawURLEncode s) = Some s.
Proof. intros <-. unfold decode_token. rewrite RawURLDecode_encode. cbn. by rewrite decide_True. Qed.

Lemma decode_token_Some n s raw : decode_token n s = Some raw ↔
  RawURLDecode s = Some raw ∧ String.length raw = n.
Proof.
  unfold decode_token. destruct (RawURLDecode s) as [r|]; cbn; [|naive_solver].
  case_decide; naive_solver.
Qed.

(** base64url text holds no white space. *)
Lemma sextet_no_space n : 0 ≤ n < 64 →
  forallb (λ p, negb (bool_decide (head p = Some (byte_val (sextet true n)))))
    (space_runes ++ ((λ r, rev r) <$> space_runes)) = true.
Proof.
  intros Hn.
  assert (forallb (λ k, forallb (λ p, negb (bool_decide (head p = Some (byte_val (sextet true (Z.of_nat k))))))
    (space_runes ++ ((λ r, rev r) <$> space_runes))) (seq 0 64) = true) as T by (vm_compute; reflexivity).
  rewrite forallb_forall in T. specialize (T (Z.to_nat n)). rewrite Z2Nat.id in T by lia.
  apply T, in_seq. lia.
Qed.

Lemma strip_any_None runes b l :
  (∀ p, p ∈ runes → p ≠ [] ∧ head p ≠ Some b) → strip_any runes (b :: l) = None.
Proof.
  induction runes as [|p runes IH]; intros Hp; [done|]. unfold strip_any in *. cbn [foldr].
  destruct (Hp p) as [Hne Hh]; [by left|]. destruct p as [|a p]; [done|]. cbn [strip].
  rewrite decide_False by (intros ->; by apply Hh). apply IH. intros q Hq. apply Hp. by right.
Qed.

Definition text64 (l : list Z) : Prop :=
  Forall (λ b, ∃ n, 0 ≤ n < 64 ∧ b = byte_val (sextet true n)) l.

Lemma trim_text64 runes fuel l : runes = space_runes ∨ runes = ((λ r, rev r) <$> space_runes) →
  text64 l → trim_with runes fuel l = l.
Proof.
  intros Hr Hl. destruct fuel as [|n]; [done|]. cbn [trim_with].
  destruct l as [|b l]; [destruct Hr as [->| ->]; vm_compute; by destruct n|].
  rewrite strip_any_None; [done|]. apply Forall_inv in Hl as (k & Hk & ->).
  pose proof (sextet_no_space k Hk) as T. rewrite forallb_forall in T. intros p Hp. split.
  - intros ->. destruct Hr as [->| ->]; revert Hp; by_decide.
  - intros E. specialize (T p). rewrite E, bool_decide_eq_true_2 in T by done.
    discriminate T. apply in_or_app.
    destruct Hr as [->| ->]; [left|right]; by apply list_elem_of_In.
Qed.

Lemma TrimSpace_encode s : TrimSpace (RawURLEncode s) = RawURLEncode s.
Proof.
  assert (text64 (bytes_of (RawURLEncode s))) as Ht.
  { unfold RawURLEncode, encode, bytes_of. rewrite String.list_ascii_of_string_of_list_ascii.
    rewrite <- list_fmap_compose. apply Forall_fmap.
    eapply Forall_impl; [apply sextets_range, bytes_of_range|]. intros n Hn. by exists n. }
  unfold TrimSpace, trim_bytes. rewrite (trim_text64 space_runes); [|by left|done].
  rewrite trim_text64; [|by right|by apply Forall_rev]. by rewrite rev_involutive, of_bytes_of.
Qed.

(** ** Sessions *)

Lemma createSession_Ok rec db db' :
  createSession rec db = (Ok tt, db') ↔
  (se_WorkspaceID rec ≠ "" ∧ se_SessionID rec ≠ "" ∧ se_SessionHash rec ≠ "" ∧ se_FounderID rec ≠ "") ∧
  se_CSRFTokenHash rec ≠ "" ∧
  db_sessions db !! (se_WorkspaceID rec, se_SessionID rec) = None ∧
  ¬ session_hash_taken (se_WorkspaceID rec) (se_SessionHash rec) (db_sessions db) ∧
  db' = db <| db_sessions := <[(se_WorkspaceID rec, se_SessionID rec) := rec <| se_Revoked := false |>]>
          (db_sessions db) |>.
Proof.
  unfold createSession. split.
  - intros E. do 2 (op_inv_step E; [|discriminate E]). rewrite gets_then in E. cbv zeta in E.
    op_inv_step E; [|discriminate E]. unfold modify in E. injection E as <-. naive_solver.
  - intros (H1 & H2 & H3 & H4 & ->). do 2 rewrite require_then by done. rewrite gets_then. cbv zeta.
    by rewrite require_then.
Qed.

(** The hash finds the one session it was issued for. *)
Lemma table_rows_single {K V} `{Countable K} (P : V → Prop) `{∀ v, Decision (P v)} (m : gmap K V) k r :
  m !! k = Some r → P r → (∀ k' r', m !! k' = Some r' → P r' → r' = r) →
  ∃ rest, table_rows P m = r :: rest.
Proof.
  intros Hk Hr Hu. destruct (table_rows P m) as [|r' rest] eqn:E.
  - exfalso. by eapply (proj1 (table_rows_nil P m) E).
  - assert (r' ∈ table_rows P m) as Hin by (rewrite E; by left).
    apply elem_of_table_rows in Hin as [HP [k' Hk']]. exists rest. by rewrite (Hu k' r').
Qed.

Section sessions.
Context `{Env}.
Context (rand_length : ∀ n len, String.length (rand n len) = len).

Definition tick (w : World) : World := w <| w_ticks := S (w_ticks w) |>.

(** What [AuthenticateSessionToken] decides, with the stored session the
    token's hash names. *)
Definition session_verdict (rec : SessionRecord) (t : time) : res (Principal * SessionRecord) :=
  _ ← require_res (se_Revoked rec = false) ErrSessionRevoked;
  _ ← require_res (t < se_ExpiresAt rec) ErrSessionExpired;
  csrf ← opt_res (ErrOther "authn: corrupt CSRF hash") (hexDecode (se_CSRFTokenHash rec));
  _ ← require_res (String.length csrf = 32%nat) (ErrOther "authn: corrupt CSRF hash");
  Ok (MkPrincipal (se_FounderID rec) (se_WorkspaceID rec) (se_SessionID rec) (se_CreatedAt rec) csrf, rec).

Definition session_by_hash (db : DB) (hash : string) : option SessionRecord :=
  head (table_rows (λ r, se_WorkspaceID r = instance_WorkspaceID ∧ se_SessionHash r = hash)
          (db_sessions db)).

Lemma getSessionByHash_run hash db :
  getSessionByHash instance_WorkspaceID hash db =
    (opt_res ErrNotFound (session_by_hash db hash), db).
Proof. unfold getSessionByHash, session_by_hash. rewrite gets_then. by destruct (table_rows _ _). Qed.

(** A check of a handler against the same check of a pure verdict. *)
Lemma require_verdict {A} (P : Prop) `{Decision P} e (f : unit → M A) (g : unit → res A) w w' :
  (P → f tt w = (g tt, w')) → (¬ P → w = w') →
  (require P e ≫= f) w = (require_res P e ≫= g, w').
Proof.
  intros Hf Hw. unfold require_res. destruct (decide P) as [D|D].
  - rewrite require_then by done. by rewrite Hf.
  - rewrite require_else by done. by rewrite Hw.
Qed.
Lemma lift_verdict {A B} (r : res A) (f : A → M B) (g : A → res B) w :
  (∀ a, f a w = (g a, w)) → (lift r ≫= f) w = (r ≫= g, w).
Proof. intros Hf. destruct r as [a|e]; [apply Hf|done]. Qed.

Lemma authenticate_run token w :
  AuthenticateSessionToken token w =
  match decode_token 32 (TrimSpace token) with
  | None => (Err ErrSessionNotFound, w)
  | Some raw =>
      match session_by_hash (w_db w) (hex (Sum256 raw)) with
      | None => (Err ErrSessionNotFound, w)
      | Some rec => (session_verdict rec (clock (w_ticks w)), tick w)
      end
  end.
Proof.
  unfold AuthenticateSessionToken. destruct (decode_token 32 (TrimSpace token)) as [raw|]; [|done].
  erewrite bind_run by reflexivity.
  rewrite (try_then _ _ _ _ _ (tx_read _ _ _ (getSessionByHash_run (hex (Sum256 raw)) (w_db w)))).
  destruct (session_by_hash (w_db w) (hex (Sum256 raw))) as [rec|]; [|done]. cbn [opt_res].
  unfold session_verdict. erewrite bind_run by reflexivity. fold (tick w).
  apply require_verdict; [intros _|done]. apply require_verdict; [intros _|done].
  apply lift_verdict. intros csrf. by apply require_verdict.
Qed.

(** A session just created is found by its token. *)
Lemma fresh_session_found rec db db' :
  createSession rec db = (Ok tt, db') → se_WorkspaceID rec = instance_WorkspaceID →
  session_by_hash db' (se_SessionHash rec) = Some (rec <| se_Revoked := false |>).
Proof.
  intros (_ & _ & _ & Ht & ->)%createSession_Ok Hw. unfold session_by_hash. cbn [db_sessions upd].
  set (rec' := rec <| se_Revoked := false |>). set (k0 := (se_WorkspaceID rec, se_SessionID rec)).
  destruct (table_rows_single (λ r, se_WorkspaceID r = instance_WorkspaceID ∧
    se_SessionHash r = se_SessionHash rec) (<[k0 := rec']> (db_sessions db)) k0 rec')
    as [rest ->]; [apply lookup_insert_eq|done| |done].
  intros k r' Hk [H1 H2]. apply lookup_insert_Some in Hk as [[_ <-]|[_ Hk]]; [done|].
  exfalso. apply Ht. unfold session_hash_taken. intros E.
  eapply (proj1 (table_rows_nil _ _) E); [exact Hk|]. by rewrite Hw.
Qed.

Definition issued (sr : SessionResult) (rec : SessionRecord) (db : DB) : Prop :=
  ∃ raw csrf, decode_token 32 (TrimSpace (sr_SessionToken sr)) = Some raw ∧
    decode_token 32 (TrimSpace (sr_CSRFToken sr)) = Some csrf ∧
    session_by_hash db (hex (Sum256 raw)) = Some rec ∧ se_FounderID rec = sr_FounderID sr ∧
    se_CSRFTokenHash rec = hex (Sum256 csrf) ∧ se_Revoked rec = false ∧
    se_ExpiresAt rec = se_CreatedAt rec + sessionTTL.

Lemma newSessionMaterial_run w : ∃ id token csrf w', 
  newSessionMaterial w = (Ok (id, RawURLEncode token, RawURLEncode csrf), w') ∧ w_db w' = w_db w ∧
  String.length token = 32%nat ∧ String.length csrf = 32%nat.
Proof. eexists _, _, _, _. split; [reflexivity|]. by rewrite !rand_length. Qed.

Lemma decode_fresh_run token w : decode_fresh (RawURLEncode token) w = (Ok token, w).
Proof. unfold decode_fresh. by rewrite RawURLDecode_encode. Qed.

Lemma session_issued id founderID token csrf t db db' :
  String.length token = 32%nat → String.length csrf = 32%nat →
  createSession (session_record id founderID token csrf t) db = (Ok tt, db') →
  issued (MkSessionResult founderID (RawURLEncode token) (RawURLEncode csrf))
    (session_record id founderID token csrf t) db'.
Proof.
  intros Ht Hc E. apply fresh_session_found in E; [|done]. exists token, csrf.
  cbn [sr_SessionToken sr_CSRFToken]. rewrite !TrimSpace_encode, !decode_token_encode by done.
  by split_and!.
Qed.

Lemma FinishLogin_issued cid body w sr w' :
  FinishLogin cid body w = (Ok sr, w') → ∃ rec, issued sr rec (w_db w').
Proof.
  unfold FinishLogin. intros E. call_inv E E1; [|discriminate E]. call_inv E E2; [|discriminate E].
  destruct (newSessionMaterial_run w1) as (id & token & csrf & w2 & Em & _ & Ht & Hc).
  rewrite (bind_run _ _ _ _ _ Em) in E. cbn [fst snd] in E.
  rewrite (bind_run _ _ _ _ _ (decode_fresh_run token w2)) in E.
  rewrite (bind_run _ _ _ _ _ (decode_fresh_run csrf w2)) in E.
  call_inv E E3; [|discriminate E]. call_inv E E4; [|discriminate E]. injection E as <- <-.
  apply tx_Ok in E4 as (db & E4 & ->). unfold login_tx in E4. call_inv E4 E5; [|discriminate E4].
  destruct a2. eexists. by eapply session_issued.
Qed.

Lemma Complete_issued token conf w sr w' :
  Complete token conf w = (Ok sr, w') → ∃ rec, issued sr rec (w_db w').
Proof.
  unfold Complete. intros E. call_inv E E1; [|discriminate E]. op_inv_step E; [|discriminate E].
  call_inv E E2; [|discriminate E]. call_inv E E3; [|discriminate E]. call_inv E E4; [|discriminate E].
  destruct (newSessionMaterial_run w3) as (id & tok & csrf & w4 & Em & _ & Ht & Hc).
  rewrite (bind_run _ _ _ _ _ Em) in E. cbn [fst snd] in E.
  rewrite (bind_run _ _ _ _ _ (decode_fresh_run tok w4)) in E.
  rewrite (bind_run _ _ _ _ _ (decode_fresh_run csrf w4)) in E.
  call_inv E E5; [|discriminate E]. rewrite modify_then in E. injection E as <- <-.
  apply tx_Ok in E5 as (db & E5 & ->). unfold complete_tx in E5.
  do 4 (call_inv E5 E6; [clear E6|discriminate E5]). destruct a3. eexists. by eapply session_issued.
Qed.

(** C13: The tokens a login or a completed enrollment hands out work, and only
    until the session ends: as long as the sessions are left as they are, the
    session token authenticates the founder it was issued to and the CSRF
    token is accepted for that session, up to twelve hours after the issue,
    and from then on it is refused as expired. *)
Theorem issued_tokens_work sr w w' :
  (∃ cid body, FinishLogin cid body w = (Ok sr, w')) ∨
  (∃ token conf, Complete token conf w = (Ok sr, w')) →
  ∃ rec, se_FounderID rec = sr_FounderID sr ∧ se_ExpiresAt rec = se_CreatedAt rec + 12 * Hour ∧
    VerifyCSRFToken rec (sr_CSRFToken sr) = Ok tt ∧
    ∀ w2, db_sessions (w_db w2) = db_sessions (w_db w') →
      if decide (clock (w_ticks w2) < se_ExpiresAt rec)
      then ∃ p, AuthenticateSessionToken (sr_SessionToken sr) w2 = (Ok (p, rec), tick w2) ∧
                p_FounderID p = sr_FounderID sr ∧ p_SessionID p = se_SessionID rec ∧
                p_AuthTime p = se_CreatedAt rec
      else AuthenticateSessionToken (sr_SessionToken sr) w2 = (Err ErrSessionExpired, tick w2).
Proof.
  intros Hi. assert (∃ rec, issued sr rec (w_db w')) as (rec & raw & csrf & H1 & H2 & H3 & H4 & H5 & H6 & H7).
  { destruct Hi as [(cid & body & E)|(token & conf & E)];
      [by eapply FinishLogin_issued|by eapply Complete_issued]. }
  exists rec. split_and!; [done|done| |].
  - unfold VerifyCSRFToken. rewrite H2, H5, hexDecode_hex. cbn [opt_res].
    change (Ok csrf ≫= ?f) with (f csrf). cbv beta. change (Ok ?a ≫= ?f) with (f a). cbv beta.
    rewrite require_res_then by apply length_Sum256. unfold require_res. by rewrite decide_True.
  - intros w2 E2. rewrite !authenticate_run, H1. unfold session_by_hash in *. rewrite E2, H3.
    unfold session_verdict. rewrite H5, hexDecode_hex, require_res_then by done. cbn [opt_res].
    case_decide as Hx.
    + rewrite require_res_then by done. change (Ok (Sum256 csrf) ≫= ?f) with (f (Sum256 csrf)). cbv beta.
      rewrite require_res_then by apply length_Sum256. eexists. by split_and!.
    + unfold require_res. by rewrite decide_False.
Qed.
End sessions.

(** ** Effect of a completed enrollment *)

Section effect.
Context `{Env}.

Definition credentials_put (founderID : string) (staged : list WebAuthnCredentialRecord)
    (m : gmap (string * string) WebAuthnCredentialRecord) :=
  foldl (λ m r, <[(wc_WorkspaceID r, wc_CredentialID r) := r <| wc_FounderID := founderID |>]> m)
    m staged.

Definition complete_db (c : bootstrapCeremony) (founderID sessionID sessionRaw csrfRaw : string)
    (t : time) (code : BootstrapCodeRecord) (db : DB) : DB :=
  let ws := instance_WorkspaceID in
  db <| db_founders := <[(ws, founderID) := MkFounderRecord ws founderID (bo_displayName c) t]>
          (db_founders db) |>
     <| db_webauthn_credentials := credentials_put founderID (bo_stagedCredentials c)
          (db_webauthn_credentials db) |>
     <| db_offline_recovery_keys :=
          if decide (bo_recoveryMethod c = RecoveryMethodOfflineKey) then
            <[(ws, founderID) := MkOfflineRecoveryKeyRecord ws founderID (hex (bo_recoveryKeyHash c)) t]>
              (db_offline_recovery_keys db)
          else db_offline_recovery_keys db |>
     <| db_bootstrap_codes := <[(ws, bo_codeHash c) := code <| bc_ConsumedAt := Some t |>]>
          (db_bootstrap_codes db) |>
     <| db_sessions := <[(ws, sessionID) := session_record sessionID founderID sessionRaw csrfRaw t]>
          (db_sessions db) |>.

Lemma createFounder_Ok rec db db' :
  createFounder rec db = (Ok tt, db') ↔
  (fo_WorkspaceID rec ≠ "" ∧ fo_FounderID rec ≠ "") ∧
  db_founders db !! (fo_WorkspaceID rec, fo_FounderID rec) = None ∧
  db' = db <| db_founders := <[(fo_WorkspaceID rec, fo_FounderID rec) := rec]> (db_founders db) |>.
Proof.
  unfold createFounder. split.
  - intros E. op_inv_step E; [|discriminate E]. rewrite gets_then in E. cbv zeta in E.
    op_inv_step E; [|discriminate E]. unfold modify in E. by injection E as <-.
  - intros (H1 & H2 & ->). rewrite require_then by done. rewrite gets_then. cbv zeta.
    by rewrite require_then.
Qed.

Lemma putOfflineRecoveryKey_Ok rec db db' :
  putOfflineRecoveryKey rec db = (Ok tt, db') ↔
  (rk_WorkspaceID rec ≠ "" ∧ rk_FounderID rec ≠ "" ∧ rk_KeyHash rec ≠ "") ∧
  db_offline_recovery_keys db !! (rk_WorkspaceID rec, rk_FounderID rec) = None ∧
  db' = db <| db_offline_recovery_keys := <[(rk_WorkspaceID rec, rk_FounderID rec) := rec]>
          (db_offline_recovery_keys db) |>.
Proof.
  unfold putOfflineRecoveryKey. split.
  - intros E. op_inv_step E; [|discriminate E]. rewrite gets_then in E. cbv zeta in E.
    op_inv_step E; [|discriminate E]. unfold modify in E. by injection E as <-.
  - intros (H1 & H2 & ->). rewrite require_then by done. rewrite gets_then. cbv zeta.
    by rewrite require_then.
Qed.

Lemma putWebAuthnCredential_Ok rec db db' :
  putWebAuthnCredential rec db = (Ok tt, db') →
  db_webauthn_credentials db !! (wc_WorkspaceID rec, wc_CredentialID rec) = None ∧
  db' = db <| db_webauthn_credentials := <[(wc_WorkspaceID rec, wc_CredentialID rec) := rec]>
          (db_webauthn_credentials db) |>.
Proof.
  unfold putWebAuthnCredential. intros E. do 2 (op_inv_step E; [|discriminate E]).
  rewrite !gets_then in E. cbv zeta in E. do 2 (op_inv_step E; [|discriminate E]).
  unfold modify in E. by injection E as <-.
Qed.

Lemma put_staged_Ok f staged db db' :
  put_staged f staged db = (Ok tt, db') →
  db' = db <| db_webauthn_credentials := credentials_put f staged (db_webauthn_credentials db) |>.
Proof.
  revert db. induction staged as [|r rest IH]; intros db E; cbn [put_staged] in E.
  - injection E as <-. by destruct db.
  - call_inv E E1; [|discriminate E]. destruct a. apply putWebAuthnCredential_Ok in E1 as [_ ->].
    by apply IH in E.
Qed.

Lemma consumeBootstrapCode_Ok ws h t db db' :
  consumeBootstrapCode ws h t db = (Ok tt, db') ↔
  ∃ old, db_bootstrap_codes db !! (ws, h) = Some old ∧ bc_ConsumedAt old = None ∧
    sql_time_lt t (bc_ExpiresAt old) ∧
    db' = db <| db_bootstrap_codes := <[(ws, h) := old <| bc_ConsumedAt := Some t |>]>
            (db_bootstrap_codes db) |>.
Proof.
  unfold consumeBootstrapCode. rewrite gets_then. cbv zeta.
  set (miss := getBootstrapCode ws ≫= _).
  assert (∀ d, miss db ≠ (Ok tt, d)) as Hm.
  { intros d E. unfold miss in E. call_inv E E1; [|discriminate E]. cbv beta in E.
    by case_decide. }
  destruct (db_bootstrap_codes db !! (ws, h)) as [old|].
  - case_decide as Hd.
    + split; [intros [= <-]; exists old; naive_solver|intros (? & [= <-] & _ & _ & ->); done].
    + split; [by intros ?%Hm|]. intros (? & [= <-] & H1 & H2 & _). naive_solver.
  - split; [by intros ?%Hm|]. by intros (? & ? & _).
Qed.

Lemma complete_tx_Ok c f sid sraw craw t db db' :
  complete_tx c f sid sraw craw t db = (Ok tt, db') →
  ∃ code, db_founders db !! (instance_WorkspaceID, f) = None ∧
    db_bootstrap_codes db !! (instance_WorkspaceID, bo_codeHash c) = Some code ∧
    bc_ConsumedAt code = None ∧ sql_time_lt t (bc_ExpiresAt code) ∧
    db' = complete_db c f sid sraw craw t code db.
Proof.
  unfold complete_tx. intros E.
  call_inv E E1; [|discriminate E]. destruct a. apply createFounder_Ok in E1 as (_ & Hf & E1).
  call_inv E E2; [|discriminate E]. destruct a. apply put_staged_Ok in E2.
  call_inv E E3; [|discriminate E]. destruct a.
  assert (d1 = d0 <| db_offline_recovery_keys :=
    if decide (bo_recoveryMethod c = RecoveryMethodOfflineKey) then
      <[(instance_WorkspaceID, f) := MkOfflineRecoveryKeyRecord instance_WorkspaceID f
          (hex (bo_recoveryKeyHash c)) t]> (db_offline_recovery_keys d0)
    else db_offline_recovery_keys d0 |>) as E3'.
  { case_decide; [by apply putOfflineRecoveryKey_Ok in E3 as (_ & _ & E3)|].
    injection E3 as <-. by destruct d0. }
  clear E3. call_inv E E4; [|discriminate E]. destruct a.
  apply consumeBootstrapCode_Ok in E4 as (code & Hc & Hn & Ht & E4).
  apply createSession_Ok in E as (_ & _ & _ & _ & E).
  rewrite E3', E2, E1 in Hc. cbn [db_bootstrap_codes upd] in Hc.
  exists code. split_and!; [done|done|done|done|].
  rewrite E, E4, E3', E2, E1. reflexivity.
Qed.

(** The ceremony a token names while it lives. *)
Lemma live_Ok token w c w' :
  liveBootstrapCeremony token w = (Ok c, w') →
  w' = tick w ∧ ∃ raw id, decode_token 32 token = Some raw ∧
    w_bootstrapByToken w !! Sum256 raw = Some id ∧ w_bootstrap w !! id = Some c ∧
    bo_consumed c = false ∧ clock (w_ticks w) < bo_expiresAt c.
Proof.
  unfold liveBootstrapCeremony. intros E. call_inv E E1; [|discriminate E].
  apply lift_inv in E1 as [E1 ->]. apply opt_res_Ok in E1. rewrite !gets_then in E.
  destruct (w_bootstrapByToken w !! Sum256 a) as [id|] eqn:Ei; [|discriminate E].
  destruct (w_bootstrap w !! id) as [c'|] eqn:Eb; [|discriminate E].
  op_inv_step E; [|discriminate E]. call_inv E E2; [|discriminate E2]. injection E2 as <- <-.
  op_inv_step E; [|discriminate E]. injection E as <- <-. split; [done|]. by exists a, id.
Qed.

Lemma keeps_live {A} (f : World → A) token :
  (∀ w n, f (w <| w_ticks := n |>) = f w) → within (keeps f) (liveBootstrapCeremony token).
Proof.
  intros Hf. unfold liveBootstrapCeremony.
  repeat (first [by apply keeps_now|solve [auto with within typeclass_instances]|within_step]).
Qed.

(** A passkey was registered as the recovery method, or the founder presented
    the offline key that was issued. *)
Definition recovery_confirmed (confirmation : string) (c : bootstrapCeremony) : Prop :=
  (bo_recoveryMethod c = RecoveryMethodPasskey ∧ bo_recoveryVerified c = true) ∨
  (bo_recoveryMethod c = RecoveryMethodOfflineKey ∧ bo_recoveryIssued c = true ∧
   ∃ raw, decode_token 32 confirmation = Some raw ∧ Sum256 raw = bo_recoveryKeyHash c).

Lemma confirmRecovery_Ok c confirmation :
  confirmRecovery c confirmation = Ok tt → recovery_confirmed confirmation c.
Proof.
  unfold confirmRecovery. case_decide as Hp; [intros Hr; apply require_res_inv in Hr; by left|].
  case_decide as Ho; [|discriminate 1]. intros Hr. right.
  apply require_res_bind_Ok in Hr as [Hi Hr]. apply res_bind_Ok in Hr as (raw & Hraw & Hr).
  apply opt_res_Ok in Hraw. apply require_res_inv in Hr. eauto.
Qed.

(** Why [Complete] accepted the ceremony [c] of a token. *)
Record completable (token confirmation : string) (c : bootstrapCeremony) (w : World) : Prop := {
  cp_live : ∃ raw id, decode_token 32 token = Some raw ∧
    w_bootstrapByToken w !! Sum256 raw = Some id ∧ w_bootstrap w !! id = Some c ∧
    bo_consumed c = false ∧ clock (w_ticks w) < bo_expiresAt c;
  cp_first : bo_firstCredentialID c ≠ "";
  cp_recovery : recovery_confirmed confirmation c
}.

Lemma Complete_run token conf w r w' :
  Complete token conf w = (r, w') →
  match r with
  | Err _ => w_db w' = w_db w ∧ w_bootstrap w' = w_bootstrap w ∧
             w_bootstrapByToken w' = w_bootstrapByToken w ∧ w_ceremonies w' = w_ceremonies w ∧
             (w_draws w ≤ w_draws w')%nat
  | Ok sr => ∃ c code sid sraw craw t, completable token conf c w ∧
      db_founders (w_db w) !! (instance_WorkspaceID, sr_FounderID sr) = None ∧
      db_bootstrap_codes (w_db w) !! (instance_WorkspaceID, bo_codeHash c) = Some code ∧
      bc_ConsumedAt code = None ∧ sql_time_lt t (bc_ExpiresAt code) ∧
      w_db w' = complete_db c (sr_FounderID sr) sid sraw craw t code (w_db w) ∧
      w_bootstrap w' = delete (bo_id c) (w_bootstrap w) ∧
      w_bootstrapByToken w' = delete (bo_tokenHash c) (w_bootstrapByToken w) ∧
      w_ceremonies w' = w_ceremonies w ∧ (w_draws w ≤ w_draws w')%nat
  end.
Proof.
  unfold Complete. intros E. call_inv E E1.
  2: { injection E as <- <-. split_and!; try (by eapply keeps_live in E1).
       eapply (keeps_live w_draws) in E1; [|done]. by rewrite E1. }
  apply live_Ok in E1 as (-> & Hlive).
  op_inv_step E; [|injection E as <- <-; by split_and!].
  call_inv E E2; apply lift_inv in E2 as [E2 ->]; [destruct a0|injection E as <- <-; by split_and!].
  call_inv E E3; [|discriminate E3]. injection E3 as <- <-.
  call_inv E E4; [|discriminate E4]. injection E4 as <- <-.
  call_inv E E5; [|discriminate E5]. injection E5 as <- <-. cbn [fst snd] in E.
  rewrite !(bind_run _ _ _ _ _ (decode_fresh_run _ _)) in E. cbn [w_draws upd tick] in E.
  call_inv E E6.
  - rewrite modify_then in E. injection E as <- <-. apply tx_Ok in E6 as (db & E6 & ->). destruct a0.
    apply complete_tx_Ok in E6 as (code & Hf & Hc & Hn & Ht & ->).
    eexists a, code, _, _, _, _. split_and!; [constructor; try done; by apply confirmRecovery_Ok|done..|cbn; lia].
  - apply tx_Err in E6 as [_ ->]. injection E as <- <-. split_and!; try done. cbn. lia.
Qed.

(** C12: Completing an enrollment is all or nothing: a failure changes nothing
    durable; a success needs the token of a live ceremony with a first passkey
    and a confirmed recovery method, and the still unconsumed, unexpired code
    that opened it; in one transaction it creates the founder with the staged
    passkeys and the offline key, consumes the code and creates the first
    session, and the token is dead from then on. *)
Theorem Complete_sound token conf w r w' :
  Complete token conf w = (r, w') →
  match r with
  | Err _ => w_db w' = w_db w
  | Ok sr => ∃ c code sid sraw craw t, completable token conf c w ∧
      db_founders (w_db w) !! (instance_WorkspaceID, sr_FounderID sr) = None ∧
      db_bootstrap_codes (w_db w) !! (instance_WorkspaceID, bo_codeHash c) = Some code ∧
      bc_ConsumedAt code = None ∧ sql_time_lt t (bc_ExpiresAt code) ∧
      w_db w' = complete_db c (sr_FounderID sr) sid sraw craw t code (w_db w) ∧
      w_bootstrap w' !! bo_id c = None ∧ w_bootstrapByToken w' !! bo_tokenHash c = None
  end.
Proof.
  intros E. apply Complete_run in E. destruct r as [sr|e]; [|by destruct E].
  destruct E as (c & code & sid & sraw & craw & t & H1 & H2 & H3 & H4 & H5 & H6 & H7 & H8 & _).
  exists c, code, sid, sraw, craw, t. rewrite H7, H8. split_and!; try done; apply lookup_delete_eq.
Qed.
End effect.
