(* ===== verification/Recovery.v ===== *)
(** * Offline recovery (src/internal/recovery/service.go)

    After the founder lost every passkey, the operator presents the offline
    recovery key: the workspace is contained upstream, AuthScope must report
    no active mission, and only then are the local sessions, passkeys and
    one-use handoffs reset and a bootstrap code issued, in one transaction.
    A durable intent lets a retry resume after a crash. *)

From S2P Require Import Prelude GoTime Sha256 Base64 Json StoreModel StoreAuth PassModel World Attestor Settle Bench Enroll.

Definition ErrInvalidRecoveryKey : err := ErrOther "recovery: invalid offline recovery key".
Definition ErrWorkspaceConfirmationMismatch : err :=
  ErrOther "recovery: workspace confirmation does not match the bound workspace".
Definition ErrRecoveryInProgress : err :=
  ErrOther "recovery: another reset is already in progress for this recovery key".
Definition ErrRecoveryNotEnrolled : err := ErrOther "recovery: no founder enrolled".
Definition ErrNoWorkloadIdentity : err :=
  ErrOther "recovery: workload identity not attached to the instance record".
Definition ErrIdentityNotVerified : err :=
  ErrOther "recovery: workload identity verification failed".
Definition ErrContainmentNotAcknowledged : err :=
  ErrOther "recovery: workspace containment not acknowledged".
Definition ErrActiveMissionsRemain : err :=
  ErrOther "recovery: active missions remain; authentication state unchanged".
Definition ErrUnverifiableUpstream : err := ErrOther "recovery: upstream result is not verifiable".
Definition ErrRecoveryStateCorrupt : err :=
  ErrOther "recovery: durable intent does not match the recovery decision".

Record RecoveryRequest := MkRecoveryRequest {
  rq_WorkspaceID : string;
  rq_RecoveryKey : string;
  rq_ConfirmWorkspace : string
}.

Record RecoveryResult := MkRecoveryResult {
  ro_RecoveryEventID : string;
  ro_RevokedSessionCount : Z;
  ro_ContainedMissionCount : Z;
  ro_BootstrapExpiresAt : time
}.

(** ** The decision *)

Definition recoveryRecord_json (stored : OfflineRecoveryKeyRecord) : json :=
  JObj [("workspace_id", JStr (rk_WorkspaceID stored)); ("founder_id", JStr (rk_FounderID stored));
        ("key_hash", JStr (rk_KeyHash stored)); ("created_at", JStr (formatTime (rk_CreatedAt stored)))].
Definition recovery_proof_digest (stored : OfflineRecoveryKeyRecord) : string :=
  tagged_digest (canonicalJSON (recoveryRecord_json stored)).

Definition containmentDecision_json (workspaceID proofDigest : string) : json :=
  JObj [("decision", JStr "contain_workspace"); ("workspace_id", JStr workspaceID);
        ("recovery_proof_digest", JStr proofDigest)].
Definition containment_decision_digest (workspaceID proofDigest : string) : string :=
  tagged_digest (canonicalJSON (containmentDecision_json workspaceID proofDigest)).

Definition idempotencyKey (workspaceID keyHash : string) : string :=
  "offline-recovery-contain/" +:+ workspaceID +:+ "/" +:+ String.substring 0 16 keyHash.

(** Timeouts, transport failures, 429 and 5xx; a 4xx denial is definitive. *)
Definition isAmbiguous (e : err) : Prop :=
  match e with
  | ErrUpstreamStatus n => n = 429 ∨ 500 ≤ n
  | _ => True
  end.
#[export] Instance isAmbiguous_dec e : Decision (isAmbiguous e).
Proof. destruct e; cbn; apply _. Defined.

Definition checkContainment (workspaceID : string) (out : WorkspaceContainment) : res Z :=
  _ ← require_res (wn_WorkspaceID out = workspaceID) ErrUnverifiableUpstream;
  _ ← require_res (wn_Contained out = true) ErrContainmentNotAcknowledged;
  Ok (wn_Generation out).

(** A conflict means that another reset moved the intent first. *)
Definition own_step {A} (m : M A) : M A :=
  r ← try m;
  match r with
  | Ok a => mret a
  | Err e => fail (if decide (e = ErrConflict) then ErrRecoveryInProgress else e)
  end.

(** ** The local reset *)

Definition reset_tx (raw eventID workspaceID founderID key : string) (now : time)
    (intent : RecoveryIntentRecord) (proofDigest attestationDigest : string) : Tx (time * Z) :=
  expiresAt ← IssueRecoveryBootstrapCodeTx raw workspaceID now;
  revoked ← revokeAllSessions workspaceID;
  _ ← resetLaunchHandoffs workspaceID;
  _ ← deleteAllWebAuthnCredentials workspaceID;
  _ ← consumeOfflineRecoveryKey workspaceID founderID;
  _ ← deleteFounder workspaceID founderID;
  _ ← putRecoveryEvent (MkRecoveryEventRecord workspaceID eventID founderID key
        (rc_ContainedMissionCount intent) (rc_ContainmentGeneration intent)
        attestationDigest proofDigest (hex (Sum256 raw)) now);
  _ ← SetRecoveryIntentCompleted workspaceID key eventID revoked
        (rc_ContainedMissionCount intent) expiresAt now;
  mret (expiresAt, revoked).

Section recovery.
Context `{Env}.
Context (containmentTimeout emptyListTimeout : Z).

Definition recovery_opts (workspaceID : string) : RequestOptions :=
  no_opts <| op_WorkspaceID := workspaceID |> <| op_Timeout := containmentTimeout |>.

Definition randHex (n : nat) : M string := b ← randomBytes n; mret (hex b).

Definition signContainmentAttestation (workspaceID founderID decisionDigest proofDigest : string)
    : M SignedDecisionAttestation :=
  nonce ← randomBytes 32;
  t ← now;
  Attest (MkDecisionClaims workspaceID founderID AudienceWorkspaceContain
    PurposeOfflineRecoveryContain workspaceID decisionDigest "" AuthMethodOfflineRecovery
    proofDigest nonce t (t + 15 * Minute)).

(** [attestationDigest] of the recovery service: of the canonical claims. *)
Definition claims_digest (att : SignedDecisionAttestation) : M string :=
  t ← now;
  raw ← lift (CanonicalClaimsJSON (sa_Claims att) (sa_KeyID att) (sa_IdentityDigest att) t);
  mret (tagged_digest raw).

Definition authoritativeActiveMissions (workspaceID : string) : M (list ActiveMission) :=
  r ← try (call_ListActiveMissions (recovery_opts workspaceID));
  _ ← wait;
  match r with
  | Err _ => fail ErrUnverifiableUpstream
  | Ok missions =>
      _ ← require (Forall (λ m, am_WorkspaceID m = workspaceID) missions) ErrUnverifiableUpstream;
      mret missions
  end.

Definition call_contain (workspaceID founderID key : string) (att : SignedDecisionAttestation)
    : M (res WorkspaceContainment) :=
  r ← try (call_ContainWorkspace (MkWorkspaceContainmentRequest founderID key) att
             (recovery_opts workspaceID));
  _ ← wait;
  mret r.

Definition contain (workspaceID founderID key decisionDigest proofDigest : string)
    (att : SignedDecisionAttestation) : M Z :=
  r ← call_contain workspaceID founderID key att;
  match r with
  | Ok out => lift (checkContainment workspaceID out)
  | Err e =>
      if decide (¬ isAmbiguous e) then fail e
      else
        retry ← signContainmentAttestation workspaceID founderID decisionDigest proofDigest;
        r2 ← call_contain workspaceID founderID key retry;
        match r2 with
        | Ok out => lift (checkContainment workspaceID out)
        | Err e2 => fail e2
        end
  end.

(** [polls] more polls are made before the context is cancelled. *)
Fixpoint await_empty (polls : nat) (workspaceID : string) (deadline : time) : M unit :=
  missions ← authoritativeActiveMissions workspaceID;
  if decide (length missions = 0%nat) then mret tt
  else
    t ← now;
    _ ← require (Before t deadline) ErrActiveMissionsRemain;
    match polls with
    | O => fail ErrCancelled
    | S polls' => _ ← wait; await_empty polls' workspaceID deadline
    end.

Definition awaitEmptyActiveMissions (polls : nat) (workspaceID : string) : M unit :=
  t ← now;
  await_empty polls workspaceID (t + emptyListTimeout).

(** The second component is what the bootstrap code sink receives. *)
Definition resetLocalState (workspaceID founderID key : string) (intent : RecoveryIntentRecord)
    (proofDigest attestationDigest : string) : M (RecoveryResult * option (string * time)) :=
  eventID ← randHex 16;
  t ← now;
  raw ← randomBytes 16;
  r ← try (tx (reset_tx raw eventID workspaceID founderID key t intent proofDigest attestationDigest));
  match r with
  | Err e => fail (if decide (e = ErrConflict ∨ e = ErrNotFound) then ErrRecoveryInProgress else e)
  | Ok (expiresAt, revoked) =>
      mret (MkRecoveryResult eventID revoked (rc_ContainedMissionCount intent) expiresAt,
            Some (RawURLEncode raw, expiresAt))
  end.

(** ** The steps of a recovery *)

Definition verify_identity (inst : InstanceRecord) : M unit :=
  r ← try (call_VerifyWorkspaceIdentity (in_WorkspaceID inst));
  _ ← wait;
  match r with
  | Err _ => fail ErrIdentityNotVerified
  | Ok wid =>
      _ ← require (wi_WorkspaceID wid = in_WorkspaceID inst) ErrIdentityNotVerified;
      _ ← require (HasRole wid DecisionAttestorRole) ErrIdentityNotVerified;
      require (wi_IdentityDigest wid = in_WorkloadIdentityDigest inst) ErrIdentityNotVerified
  end.

Definition open_intent (workspaceID key decisionDigest : string) : M RecoveryIntentRecord :=
  nonce ← randHex 32;
  intentID ← randHex 16;
  t ← now;
  let intent := zero_RecoveryIntentRecord <| rc_WorkspaceID := workspaceID |>
    <| rc_IdempotencyKey := key |> <| rc_IntentID := intentID |>
    <| rc_CanonicalDigest := decisionDigest |> <| rc_Nonce := nonce |>
    <| rc_State := RecoveryIntentPending |> <| rc_CreatedAt := t |> <| rc_UpdatedAt := t |> in
  _ ← own_step (tx (putRecoveryIntent intent));
  mret intent.

Definition record_attestation (workspaceID key attestationDigest : string)
    (intent : RecoveryIntentRecord) : M RecoveryIntentRecord :=
  if decide (rc_State intent = RecoveryIntentPending ∧ rc_AttestationDigest intent = "") then
    t ← now;
    _ ← own_step (tx (SetRecoveryIntentAttestation workspaceID key attestationDigest t));
    mret (intent <| rc_AttestationDigest := attestationDigest |>)
  else mret intent.

Definition contain_step (workspaceID founderID key decisionDigest proofDigest : string)
    (att : SignedDecisionAttestation) (intent : RecoveryIntentRecord) : M RecoveryIntentRecord :=
  if decide (rc_State intent = RecoveryIntentPending) then
    contained ← authoritativeActiveMissions workspaceID;
    generation ← contain workspaceID founderID key decisionDigest proofDigest att;
    t ← now;
    _ ← own_step (tx (SetRecoveryIntentContained workspaceID key generation t));
    mret (intent <| rc_ContainedMissionCount := Z.of_nat (length contained) |>
                 <| rc_State := RecoveryIntentContained |>
                 <| rc_ContainmentGeneration := generation |>)
  else mret intent.

Definition empty_step (polls : nat) (workspaceID key : string) (intent : RecoveryIntentRecord)
    : M RecoveryIntentRecord :=
  if decide (rc_State intent = RecoveryIntentContained) then
    _ ← awaitEmptyActiveMissions polls workspaceID;
    t ← now;
    _ ← own_step (tx (SetRecoveryIntentVerifiedEmpty workspaceID key t));
    mret (intent <| rc_State := RecoveryIntentVerifiedEmpty |>)
  else mret intent.

Definition resume (polls : nat) (workspaceID founderID key decisionDigest proofDigest : string)
    (intent : RecoveryIntentRecord) : M (RecoveryResult * option (string * time)) :=
  att ← signContainmentAttestation workspaceID founderID decisionDigest proofDigest;
  attDigest ← claims_digest att;
  intent ← record_attestation workspaceID key attDigest intent;
  intent ← contain_step workspaceID founderID key decisionDigest proofDigest att intent;
  intent ← empty_step polls workspaceID key intent;
  _ ← require (rc_State intent = RecoveryIntentVerifiedEmpty)
        (ErrOther "recovery: unexpected intent state");
  resetLocalState workspaceID founderID key intent proofDigest attDigest.

(** The founder and the stored key, once everything local and the transport
    identity is checked. *)
Definition authorize (req : RecoveryRequest) : M (string * string * OfflineRecoveryKeyRecord) :=
  _ ← require (rq_WorkspaceID req ≠ "") ErrWorkspaceConfirmationMismatch;
  inst ← tx getInstance;
  _ ← require (rq_WorkspaceID req = in_WorkspaceID inst) ErrWorkspaceConfirmationMismatch;
  _ ← require (rq_ConfirmWorkspace req = in_WorkspaceID inst) ErrWorkspaceConfirmationMismatch;
  _ ← require (HasWorkloadIdentity inst) ErrNoWorkloadIdentity;
  founders ← tx (listFounders (in_WorkspaceID inst));
  founderID ← lift (match founders with
                    | [] => Err ErrRecoveryNotEnrolled
                    | f :: _ => Ok (fo_FounderID f)
                    end);
  _ ← verify_identity inst;
  r ← try (tx (getOfflineRecoveryKey (in_WorkspaceID inst) founderID));
  match r with
  | Err _ => fail ErrInvalidRecoveryKey
  | Ok stored =>
      _ ← require (hex (Sum256 (rq_RecoveryKey req)) = rk_KeyHash stored) ErrInvalidRecoveryKey;
      mret (in_WorkspaceID inst, founderID, stored)
  end.

Definition replay_result (intent : RecoveryIntentRecord) : RecoveryResult :=
  MkRecoveryResult (rc_RecoveryEventID intent) (rc_RevokedSessionCount intent)
    (rc_ContainedMissionCount intent) (rc_BootstrapExpiresAt intent).

Definition ResetOffline (polls : nat) (req : RecoveryRequest)
    : M (RecoveryResult * option (string * time)) :=
  '(workspaceID, founderID, stored) ← authorize req;
  let proofDigest := recovery_proof_digest stored in
  let decisionDigest := containment_decision_digest workspaceID proofDigest in
  let key := idempotencyKey workspaceID (rk_KeyHash stored) in
  r ← try (tx (getRecoveryIntent workspaceID key));
  match r with
  | Ok intent =>
      _ ← require (¬ (rc_CanonicalDigest intent ≠ "" ∧ rc_CanonicalDigest intent ≠ decisionDigest))
            ErrRecoveryStateCorrupt;
      if decide (rc_State intent = RecoveryIntentCompleted) then mret (replay_result intent, None)
      else resume polls workspaceID founderID key decisionDigest proofDigest intent
  | Err e =>
      _ ← require (e = ErrNotFound) e;
      intent ← open_intent workspaceID key decisionDigest;
      resume polls workspaceID founderID key decisionDigest proofDigest intent
  end.
End recovery.

(** ** Effect of the local reset *)

(** The tables after [reset_tx]; everything else is kept. *)
Definition reset_db (raw eventID ws founderID key : string) (now : time)
    (intent row : RecoveryIntentRecord) (proofDigest attDigest : string) (db : DB) : DB :=
  let code := MkBootstrapCodeRecord ws (hex (Sum256 raw)) now (now + bootstrapCodeTTL) None in
  let revoked := Z.of_nat (length (table_rows
    (λ r, se_WorkspaceID r = ws ∧ se_Revoked r = false) (db_sessions db))) in
  db <| db_bootstrap_codes := <[(ws, hex (Sum256 raw)) := code]>
          (filter (λ kv, ¬ (bc_WorkspaceID kv.2 = ws ∧ bc_ConsumedAt kv.2 = None))
             (db_bootstrap_codes db)) |>
     <| db_sessions := revoke_if ws <$> db_sessions db |>
     <| db_cli_authorizations :=
          filter (λ kv, ca_WorkspaceID kv.2 ≠ ws) (db_cli_authorizations db) |>
     <| db_cli_revocations := filter (λ kv, cr_WorkspaceID kv.2 ≠ ws) (db_cli_revocations db) |>
     <| db_launch_exchange_intents :=
          filter (λ kv, le_WorkspaceID kv.2 ≠ ws) (db_launch_exchange_intents db) |>
     <| db_webauthn_credentials :=
          filter (λ kv, wc_WorkspaceID kv.2 ≠ ws) (db_webauthn_credentials db) |>
     <| db_offline_recovery_keys := delete (ws, founderID) (db_offline_recovery_keys db) |>
     <| db_founders := delete (ws, founderID) (db_founders db) |>
     <| db_recovery_events := <[(ws, eventID) := MkRecoveryEventRecord ws eventID founderID key
          (rc_ContainedMissionCount intent) (rc_ContainmentGeneration intent) attDigest
          proofDigest (hex (Sum256 raw)) now]> (db_recovery_events db) |>
     <| db_recovery_intents := <[(ws, key) := row <| rc_State := RecoveryIntentCompleted |>
          <| rc_UpdatedAt := now |> <| rc_RecoveryEventID := eventID |>
          <| rc_RevokedSessionCount := revoked |>
          <| rc_ContainedMissionCount := rc_ContainedMissionCount intent |>
          <| rc_BootstrapExpiresAt := now + bootstrapCodeTTL |>]> (db_recovery_intents db) |>.

(** What the reset needs of the database. *)
Record resettable (raw eventID ws founderID key : string) (row : RecoveryIntentRecord) (db : DB)
    : Prop := {
  rs_intent : db_recovery_intents db !! (ws, key) = Some row ∧
    rc_State row = RecoveryIntentVerifiedEmpty;
  rs_key : is_Some (db_offline_recovery_keys db !! (ws, founderID));
  rs_founder : is_Some (db_founders db !! (ws, founderID));
  rs_event : db_recovery_events db !! (ws, eventID) = None;
  rs_code : ∀ c, db_bootstrap_codes db !! (ws, hex (Sum256 raw)) = Some c →
    bc_WorkspaceID c = ws ∧ bc_ConsumedAt c = None
}.


Lemma resetLaunchHandoffs_run ws db :
  resetLaunchHandoffs ws db =
    (Ok tt, db <| db_cli_authorizations :=
                    filter (λ kv, ca_WorkspaceID kv.2 ≠ ws) (db_cli_authorizations db) |>
               <| db_cli_revocations :=
                    filter (λ kv, cr_WorkspaceID kv.2 ≠ ws) (db_cli_revocations db) |>
               <| db_launch_exchange_intents :=
                    filter (λ kv, le_WorkspaceID kv.2 ≠ ws) (db_launch_exchange_intents db) |>).
Proof. done. Qed.

Lemma deleteAllWebAuthnCredentials_run ws db :
  deleteAllWebAuthnCredentials ws db =
    (Ok (Z.of_nat (length (table_rows (λ r, wc_WorkspaceID r = ws) (db_webauthn_credentials db)))),
     db <| db_webauthn_credentials :=
             filter (λ kv, wc_WorkspaceID kv.2 ≠ ws) (db_webauthn_credentials db) |>).
Proof. done. Qed.

Lemma consumeOfflineRecoveryKey_Ok ws f db db' :
  consumeOfflineRecoveryKey ws f db = (Ok tt, db') ↔
  is_Some (db_offline_recovery_keys db !! (ws, f)) ∧
  db' = db <| db_offline_recovery_keys := delete (ws, f) (db_offline_recovery_keys db) |>.
Proof.
  unfold consumeOfflineRecoveryKey. rewrite gets_then.
  destruct (db_offline_recovery_keys db !! (ws, f)) as [r|].
  - unfold modify. split; [intros [= <-]|intros [_ ->]]; [split; [by eexists|done]|done].
  - split; [done|by intros [[? ?] _]].
Qed.

(** The passkeys are deleted first, so no foreign key refers to the founder. *)
Lemma deleteFounder_Ok ws f db db' :
  (∀ k r, db_webauthn_credentials db !! k = Some r → wc_WorkspaceID r ≠ ws) →
  deleteFounder ws f db = (Ok tt, db') ↔
  is_Some (db_founders db !! (ws, f)) ∧ db' = db <| db_founders := delete (ws, f) (db_founders db) |>.
Proof.
  intros Hc. unfold deleteFounder. rewrite !gets_then. cbv zeta.
  destruct (db_founders db !! (ws, f)) as [r|].
  - rewrite require_then.
    + unfold modify. split; [intros [= <-]|intros [_ ->]]; [split; [by eexists|done]|done].
    + apply table_rows_nil. intros k r' Hk [E _]. by apply (Hc k r').
  - split; [done|by intros [[? ?] _]].
Qed.

Lemma putRecoveryEvent_Ok rec db db' :
  putRecoveryEvent rec db = (Ok tt, db') ↔
  (re_WorkspaceID rec ≠ "" ∧ re_EventID rec ≠ "" ∧ re_FounderID rec ≠ "") ∧
  (re_AttestationDigest rec ≠ "" ∧ re_RecoveryProofDigest rec ≠ "" ∧ re_BootstrapCodeHash rec ≠ "") ∧
  db_recovery_events db !! (re_WorkspaceID rec, re_EventID rec) = None ∧
  db' = db <| db_recovery_events := <[(re_WorkspaceID rec, re_EventID rec) := rec]>
          (db_recovery_events db) |>.
Proof.
  unfold putRecoveryEvent. split.
  - intros E. do 2 (op_inv_step E; [|discriminate E]). rewrite gets_then in E. cbv zeta in E.
    op_inv_step E; [|discriminate E]. unfold modify in E. injection E as <-. by split; [|split; [|split]].
  - intros (H1 & H2 & H3 & ->). do 2 rewrite require_then by done. rewrite gets_then. cbv zeta.
    by rewrite require_then.
Qed.

Lemma transitionRecoveryIntent_Ok ws key from to extra t db db' :
  transitionRecoveryIntent ws key from to extra t db = (Ok tt, db') ↔
  ∃ row, db_recovery_intents db !! (ws, key) = Some row ∧ rc_State row = from ∧
    db' = db <| db_recovery_intents :=
      <[(ws, key) := extra (row <| rc_State := to |> <| rc_UpdatedAt := t |>)]>
        (db_recovery_intents db) |>.
Proof.
  unfold transitionRecoveryIntent. rewrite gets_then.
  destruct (db_recovery_intents db !! (ws, key)) as [row|]; [|by split; [|intros (? & ? & _)]].
  split.
  - intros E. op_inv_step E; [|discriminate E]. unfold modify in E. injection E as <-. by exists row.
  - intros (r & [= ->] & Hs & ->). by rewrite require_then.
Qed.

Lemma hash_ne s : hex (Sum256 s) ≠ "".
Proof. intros E. apply (f_equal String.length) in E. by rewrite length_hex, length_Sum256 in E. Qed.

Lemma IssueRecoveryBootstrapCodeTx_Ok raw ws t db exp db' :
  IssueRecoveryBootstrapCodeTx raw ws t db = (Ok exp, db') ↔
  ws ≠ "" ∧ exp = t + bootstrapCodeTTL ∧
  (∀ c, db_bootstrap_codes db !! (ws, hex (Sum256 raw)) = Some c →
     bc_WorkspaceID c = ws ∧ bc_ConsumedAt c = None) ∧
  db' = db <| db_bootstrap_codes :=
    <[(ws, hex (Sum256 raw)) :=
        MkBootstrapCodeRecord ws (hex (Sum256 raw)) t (t + bootstrapCodeTTL) None]>
      (filter (λ kv, ¬ (bc_WorkspaceID kv.2 = ws ∧ bc_ConsumedAt kv.2 = None))
         (db_bootstrap_codes db)) |>.
Proof.
  unfold IssueRecoveryBootstrapCodeTx, putBootstrapCode.
  set (kept := filter _ (db_bootstrap_codes db)).
  assert (kept !! (ws, hex (Sum256 raw)) = None ↔
    ∀ c, db_bootstrap_codes db !! (ws, hex (Sum256 raw)) = Some c →
      bc_WorkspaceID c = ws ∧ bc_ConsumedAt c = None) as Hkept.
  { unfold kept. rewrite map_lookup_filter_None. split.
    - intros [Hn|Hn] c Hc; [congruence|]. by apply dec_stable, (Hn c Hc).
    - intros Hc. right. intros c Hl D. by apply D, (Hc c). }
  split.
  - intros E. op_inv_step E; [|discriminate E]. call_inv E Ep; [|discriminate E].
    injection E as <- <-. op_inv_step Ep; [|discriminate Ep]. rewrite gets_then in Ep.
    cbv zeta in Ep. cbn [bc_WorkspaceID bc_CodeHash] in Ep. fold kept in Ep.
    op_inv_step Ep; [|discriminate Ep]. unfold modify in Ep. injection Ep as <-.
    split_and!; [done|done|by apply Hkept|done].
  - intros (Hw & -> & Hc & ->). rewrite require_then by done. cbn [bc_WorkspaceID bc_CodeHash].
    erewrite bind_run; [reflexivity|]. rewrite require_then by (split; [done|apply hash_ne]).
    rewrite gets_then. cbv zeta.
    fold kept. rewrite require_then by by apply Hkept. done.
Qed.

(** Runs a call whose equation is known, naming the state after it. *)
Ltac call_state H run d E :=
  rewrite (bind_run _ _ _ _ _ run) in H;
  match type of H with _ ?s = _ => remember s as d eqn:E end.

(** A table that the updates since [db] left alone. *)
Ltac same_table := repeat match goal with
  | E : ?d = upd _ _ ?d0 |- _ ?d = _ => rewrite E
  | |- ?f (upd _ _ ?d0) = _ => transitivity (f d0); [reflexivity|]
  end; reflexivity.

Lemma reset_tx_Ok raw ev ws f key t intent pd ad db x db' :
  reset_tx raw ev ws f key t intent pd ad db = (Ok x, db') →
  ∃ row, resettable raw ev ws f key row db ∧ db' = reset_db raw ev ws f key t intent row pd ad db ∧
    x = (t + bootstrapCodeTTL, Z.of_nat (length (table_rows
      (λ r, se_WorkspaceID r = ws ∧ se_Revoked r = false) (db_sessions db)))).
Proof.
  unfold reset_tx. intros E. call_inv E E1; [|discriminate E].
  apply IssueRecoveryBootstrapCodeTx_Ok in E1 as (Hw & -> & Hcode & E1).
  call_state E (revokeAllSessions_run ws d) d2 E2.
  call_state E (resetLaunchHandoffs_run ws d2) d3 E3.
  call_state E (deleteAllWebAuthnCredentials_run ws d3) d4 E4.
  call_inv E E5; [|discriminate E]. destruct a.
  apply consumeOfflineRecoveryKey_Ok in E5 as (Hkey & E5).
  call_inv E E6; [|discriminate E]. destruct a.
  apply deleteFounder_Ok in E6 as (Hf & E6).
  2: { intros k r Hk. rewrite E5, E4 in Hk. cbn [db_webauthn_credentials upd] in Hk.
       by apply map_lookup_filter_Some in Hk as [_ ?]. }
  call_inv E E7; [|discriminate E]. destruct a.
  apply putRecoveryEvent_Ok in E7 as (_ & _ & Hev & E7).
  call_inv E E8; [|discriminate E]. destruct a.
  apply transitionRecoveryIntent_Ok in E8 as (row & Hrow & Hst & E8). injection E as <- <-.
  cbn [re_WorkspaceID re_EventID] in *.
  assert (db_sessions d = db_sessions db) as F1 by same_table.
  assert (db_cli_authorizations d2 = db_cli_authorizations db) as F2 by same_table.
  assert (db_cli_revocations d2 = db_cli_revocations db) as F3 by same_table.
  assert (db_launch_exchange_intents d2 = db_launch_exchange_intents db) as F4 by same_table.
  assert (db_webauthn_credentials d3 = db_webauthn_credentials db) as F5 by same_table.
  assert (db_offline_recovery_keys d4 = db_offline_recovery_keys db) as F6 by same_table.
  assert (db_founders d0 = db_founders db) as F7 by same_table.
  assert (db_recovery_events d1 = db_recovery_events db) as F8 by same_table.
  assert (db_recovery_intents d5 = db_recovery_intents db) as F9 by same_table.
  rewrite F1, F2, F3, F4, F5, F6, F7, F8, F9 in *. exists row. split_and!; [by constructor| |done].
  rewrite E8, E7, E6, E5, E4, E3, E2, E1. reflexivity.
Qed.

(** ** Evidence

    The intent of a recovery only advances on answers of AuthScope: behind a
    contained intent there is an acknowledged containment in the log, behind a
    verified or completed one an empty list received after it. *)

Section evidence.
Context `{Env}.

Definition acked (ws : string) (log : list call) : Prop :=
  ∃ l h req att opts out, log = (l ++ ContainWorkspace req att opts :: h)%list ∧
    reply_ContainWorkspace h req att opts = Ok out ∧
    wn_WorkspaceID out = ws ∧ wn_Contained out = true.
Definition emptied (ws : string) (log : list call) : Prop :=
  ∃ l h opts, log = (l ++ ListActiveMissions opts :: h)%list ∧ op_WorkspaceID opts = ws ∧
    reply_ListActiveMissions h opts = Ok [] ∧ acked ws h.

Definition backed (ws state : string) (log : list call) : Prop :=
  (state = RecoveryIntentContained → acked ws log) ∧
  (state = RecoveryIntentVerifiedEmpty ∨ state = RecoveryIntentCompleted → emptied ws log).
Definition evidence (w : World) : Prop :=
  ∀ k row, db_recovery_intents (w_db w) !! k = Some row → backed k.1 (rc_State row) (w_calls w).

Lemma evidence_none w : db_recovery_intents (w_db w) = ∅ → evidence w.
Proof. intros E k row Hk. by rewrite E in Hk. Qed.

Lemma acked_more ws l h : acked ws h → acked ws (l ++ h).
Proof.
  intros (l1 & h1 & req & att & opts & out & -> & Hr). exists (l ++ l1)%list, h1, req, att, opts, out.
  by rewrite app_assoc.
Qed.
Lemma emptied_more ws l h : emptied ws h → emptied ws (l ++ h).
Proof.
  intros (l1 & h1 & opts & -> & Hr). exists (l ++ l1)%list, h1, opts. by rewrite app_assoc.
Qed.
Lemma backed_more ws state l h : backed ws state h → backed ws state (l ++ h).
Proof. intros [H1 H2]. split; intros Hs; [by apply acked_more, H1|by apply emptied_more, H2]. Qed.

(** What a run does to the database before the reset: it edits its intent,
    while other requests go on. *)
Definition quiet_step (db db' : DB) : Prop :=
  (∃ n, db' = peers n db) ∨ ∃ m, db' = db <| db_recovery_intents := m |>.
Definition untouched : relation DB := rtc quiet_step.

(** The steps before the reset keep the evidence; the log grows. *)
Definition advances (w w' : World) : Prop :=
  (∃ l, w_calls w' = (l ++ w_calls w)%list) ∧ untouched (w_db w) (w_db w') ∧
  (evidence w → evidence w').
#[export] Instance advances_preorder : PreOrder advances.
Proof.
  split.
  - intros w. split_and!; [by exists []|apply rtc_refl|done].
  - intros w1 w2 w3 ([l1 E1] & Q1 & H1) ([l2 E2] & Q2 & H2). split_and!; [|by etransitivity|by auto].
    exists (l2 ++ l1)%list. by rewrite E2, E1, app_assoc.
Qed.

Lemma advances_calls w w' l :
  w_calls w' = (l ++ w_calls w)%list → w_db w' = w_db w ∨ (∃ n, w_db w' = peers n (w_db w)) →
  db_recovery_intents (w_db w') = db_recovery_intents (w_db w) → advances w w'.
Proof.
  intros Ec Hd Ed. split_and!; [by exists l| |].
  - destruct Hd as [->|Hp]; [apply rtc_refl|apply rtc_once; by left].
  - intros Hw k row Hk. rewrite Ed in Hk. rewrite Ec. by apply backed_more, Hw.
Qed.

Lemma advances_read {A} (fn : Tx A) : within eq fn → within advances (tx fn).
Proof.
  intros Hf w [a|e] w' E; [|by apply tx_Err in E as [_ ->]].
  apply tx_Ok in E as (db & E & ->). apply Hf in E as <-. by apply (advances_calls _ _ []); [|left|].
Qed.

(** A new row for one intent, in a backed state. *)
Lemma advances_row w ws key row :
  backed ws (rc_State row) (w_calls w) →
  advances w (w <| w_db := (w_db w) <| db_recovery_intents :=
    <[(ws, key) := row]> (db_recovery_intents (w_db w)) |> |>).
Proof.
  intros Hb. split_and!; [by exists []|apply rtc_once; right; by eexists|].
  intros Hw k r Hk. cbn in *. apply lookup_insert_Some in Hk as [[<- <-]|[_ Hk]]; [done|by apply Hw].
Qed.

Lemma advances_transition ws key from to extra t w r w' :
  (∀ x, rc_State (extra x) = rc_State x) → backed ws to (w_calls w) →
  tx (transitionRecoveryIntent ws key from to extra t) w = (r, w') → advances w w'.
Proof.
  intros Hx Hb E. destruct r as [[]|e]; [|by apply tx_Err in E as [_ ->]].
  apply tx_Ok in E as (db & E & ->). apply transitionRecoveryIntent_Ok in E as (row & _ & _ & ->).
  apply advances_row. by rewrite Hx.
Qed.

Lemma backed_pending ws log : backed ws RecoveryIntentPending log.
Proof. split; [discriminate|by intros [?|?]]. Qed.

Lemma own_step_run {A} (m : M A) w r w' :
  own_step m w = (r, w') → ∃ r0, m w = (r0, w') ∧ (∀ a, r = Ok a → r0 = Ok a).
Proof.
  unfold own_step. intros E. try_inv E Em. exists r0. destruct r0; injection E as <- <-; by split.
Qed.

Context (peers_leave : ∀ n db, db_recovery_intents (peers n db) = db_recovery_intents db).

Lemma advances_wait : within advances wait.
Proof.
  apply within_modify. intros w. apply (advances_calls _ _ []); [done|right; by eexists|apply peers_leave].
Qed.
Lemma advances_upstream {A} c (reply : list call → res A) : within advances (upstream c reply).
Proof. intros w r w' E. injection E as <- <-. by apply (advances_calls _ _ [c]); [|left|]. Qed.
Lemma advances_now : within advances now.
Proof. intros w r w' E. injection E as <- <-. by apply (advances_calls _ _ []); [|left|]. Qed.
Lemma advances_random n : within advances (randomBytes n).
Proof. intros w r w' E. injection E as <- <-. by apply (advances_calls _ _ []); [|left|]. Qed.
#[local] Hint Resolve advances_wait advances_upstream advances_now advances_random : within.

Lemma advances_randHex n : within advances (randHex n).
Proof. unfold randHex. within_auto. Qed.

Lemma advances_Attest claims : within advances (Attest claims).
Proof. unfold Attest. within_auto. Qed.
#[local] Hint Resolve advances_Attest : within.

Lemma advances_authorize req : within advances (authorize req).
Proof.
  unfold authorize, verify_identity, call_VerifyWorkspaceIdentity, getInstance, listFounders,
    getOfflineRecoveryKey.
  repeat (first [apply advances_read; solve [within_auto]
    |solve [auto with within typeclass_instances]|within_step]).
Qed.

Context (containmentTimeout emptyListTimeout : Z).

Lemma advances_sign ws f d p : within advances (signContainmentAttestation ws f d p).
Proof. unfold signContainmentAttestation. within_auto. Qed.
Lemma advances_claims att : within advances (claims_digest att).
Proof. unfold claims_digest. within_auto. Qed.
Lemma advances_missions ws : within advances (authoritativeActiveMissions containmentTimeout ws).
Proof. unfold authoritativeActiveMissions, call_ListActiveMissions. within_auto. Qed.
Lemma advances_call_contain ws f k att : within advances (call_contain containmentTimeout ws f k att).
Proof. unfold call_contain, call_ContainWorkspace. within_auto. Qed.
#[local] Hint Resolve advances_sign advances_claims advances_missions advances_call_contain : within.
Lemma advances_contain ws f k d p att : within advances (contain containmentTimeout ws f k d p att).
Proof. unfold contain. within_auto. Qed.
Lemma advances_await polls ws t : within advances (await_empty containmentTimeout polls ws t).
Proof. revert t. induction polls as [|n IH]; intros t; cbn [await_empty]; within_auto. Qed.
#[local] Hint Resolve advances_contain advances_await : within.

Lemma missions_run ws w r w' :
  authoritativeActiveMissions containmentTimeout ws w = (r, w') →
  w_calls w' = ListActiveMissions (recovery_opts containmentTimeout ws) :: w_calls w ∧
  ∀ ms, r = Ok ms →
    reply_ListActiveMissions (w_calls w) (recovery_opts containmentTimeout ws) = Ok ms.
Proof.
  unfold authoritativeActiveMissions, call_ListActiveMissions. intros E.
  try_inv E Eu. injection Eu as Er <-. call_inv E Ew; [|discriminate Ew].
  injection Ew as <- <-. destruct r0 as [l|e].
  - op_inv E; split; try done; by intros ms [= <-].
  - injection E as <- <-. by split.
Qed.

Lemma call_contain_run ws f k att w r w' :
  call_contain containmentTimeout ws f k att w = (r, w') →
  let req := MkWorkspaceContainmentRequest f k in
  let opts := recovery_opts containmentTimeout ws in
  w_calls w' = ContainWorkspace req att opts :: w_calls w ∧
  r = Ok (reply_ContainWorkspace (w_calls w) req att opts).
Proof.
  unfold call_contain, call_ContainWorkspace. intros E. try_inv E Eu. injection Eu as Er <-.
  call_inv E Ew; [|discriminate Ew]. injection Ew as <- <-. injection E as <- <-. by subst.
Qed.

Lemma checkContainment_Ok ws out g :
  checkContainment ws out = Ok g →
  wn_WorkspaceID out = ws ∧ wn_Contained out = true ∧ g = wn_Generation out.
Proof.
  unfold checkContainment, require_res. repeat case_decide; cbn; try done. by intros [= <-].
Qed.

Lemma contain_acked ws f k d p att w g w' :
  contain containmentTimeout ws f k d p att w = (Ok g, w') → acked ws (w_calls w').
Proof.
  assert (∀ att w out w1 r w2,
    call_contain containmentTimeout ws f k att w = (Ok (Ok out), w1) →
    lift (checkContainment ws out) w1 = (Ok r, w2) → acked ws (w_calls w2)) as Hack.
  { intros att0 w0 out w1 r w2 [Ec Er]%call_contain_run [Eg ->]%lift_inv.
    apply checkContainment_Ok in Eg as (Hw & Hc & _). injection Er as Er.
    eexists [], (w_calls w0), _, _, _, out. by rewrite Ec. }
  unfold contain. intros E. call_inv E E1; [|discriminate E].
  destruct a as [out|e]; [by eapply Hack|]. case_decide; [discriminate E|].
  call_inv E E2; [|discriminate E]. call_inv E E3; [|discriminate E].
  destruct a0 as [out|e2]; [by eapply Hack|discriminate E].
Qed.

Lemma await_emptied polls ws t w w' :
  await_empty containmentTimeout polls ws t w = (Ok tt, w') →
  acked ws (w_calls w) → emptied ws (w_calls w').
Proof.
  revert t w. induction polls as [|n IH]; intros t w E Ha; cbn [await_empty] in E;
    call_inv E E1; try discriminate E;
    apply missions_run in E1 as [Ec Er]; specialize (Er _ eq_refl);
    cbv beta in E; destruct (decide (length a = 0%nat)) as [Hl|Hl].
  1, 3: injection E as <-; apply nil_length_inv in Hl as ->;
    exists [], (w_calls w), (recovery_opts containmentTimeout ws); by rewrite Ec.
  all: call_inv E E2; [|discriminate E]; injection E2 as _ <-; op_inv_step E; [|discriminate E].
  - discriminate E.
  - call_inv E E3; [|discriminate E]. injection E3 as _ <-. apply IH in E; [done|].
    cbn [w_calls upd]. rewrite Ec. by apply (acked_more ws [_]).
Qed.

(** What a step of the recovery promises on the intent it returns. *)
Definition step_backed (ws : string) (w : World) (r : res RecoveryIntentRecord) (w' : World) : Prop :=
  advances w w' ∧ ∀ i, r = Ok i → backed ws (rc_State i) (w_calls w').

Lemma advances_log w w' : advances w w' → ∃ l, w_calls w' = (l ++ w_calls w)%list.
Proof. by intros [? _]. Qed.
Lemma backed_advances ws st w w' : advances w w' → backed ws st (w_calls w) → backed ws st (w_calls w').
Proof. intros [l ->]%advances_log. apply backed_more. Qed.

Lemma advances_own_transition ws key from to extra t w r w' :
  own_step (tx (transitionRecoveryIntent ws key from to extra t)) w = (r, w') →
  (∀ x, rc_State (extra x) = rc_State x) → backed ws to (w_calls w) → advances w w'.
Proof. intros (r0 & E & _)%own_step_run Hx Hb. by eapply advances_transition. Qed.

Lemma step_then ws w1 w2 r w' : advances w1 w2 → step_backed ws w2 r w' → step_backed ws w1 r w'.
Proof. intros Ha [Hb Hi]. split; [by etransitivity|done]. Qed.

Lemma record_attestation_backed ws key d i w r w' :
  record_attestation ws key d i w = (r, w') → backed ws (rc_State i) (w_calls w) →
  step_backed ws w r w'.
Proof.
  unfold record_attestation. intros E Hb. case_decide as Hs; [|injection E as <- <-].
  2: { split; [done|by intros ? [= <-]]. }
  call_inv E E1; [|discriminate E1].
  apply advances_now in E1. eapply step_then; [exact E1|].
  call_inv E E2; pose proof (advances_own_transition _ _ _ _ _ _ _ _ _ E2
    (λ _, eq_refl) (backed_pending ws _)) as Ha; injection E as <- <-; (split; [done|]).
  - intros ? [= <-]. eapply backed_advances; [exact Ha|]. eapply backed_advances; [exact E1|done].
  - done.
Qed.

Lemma contain_step_backed ws f key d p att i w r w' :
  contain_step containmentTimeout ws f key d p att i w = (r, w') →
  backed ws (rc_State i) (w_calls w) → step_backed ws w r w'.
Proof.
  unfold contain_step. intros E Hb. case_decide as Hs; [|injection E as <- <-].
  2: { split; [done|by intros ? [= <-]]. }
  call_inv E E1; apply advances_missions in E1; (eapply step_then; [exact E1|]).
  2: { injection E as <- <-. by split. }
  call_inv E E2; [pose proof (contain_acked _ _ _ _ _ _ _ _ _ E2) as Hack|];
    apply advances_contain in E2; (eapply step_then; [exact E2|]).
  2: { injection E as <- <-. by split. }
  call_inv E E3; apply advances_now in E3 as Ha; (eapply step_then; [exact Ha|]).
  2: { injection E as <- <-. by split. }
  assert (backed ws RecoveryIntentContained (w_calls w2)) as Hc.
  { split; [intros _|by intros [?|?]]. destruct (advances_log _ _ Ha) as [l ->]. by apply acked_more. }
  call_inv E E4; pose proof (advances_own_transition _ _ _ _ _ _ _ _ _ E4 (λ _, eq_refl) Hc) as Hd;
    injection E as <- <-; (split; [done|]).
  - intros ? [= <-]. by eapply backed_advances.
  - done.
Qed.

Lemma empty_step_backed polls ws key i w r w' :
  empty_step containmentTimeout emptyListTimeout polls ws key i w = (r, w') →
  backed ws (rc_State i) (w_calls w) → step_backed ws w r w'.
Proof.
  unfold empty_step, awaitEmptyActiveMissions. intros E Hb.
  case_decide as Hs; [|injection E as <- <-; by split; [|intros ? [= <-]]].
  assert (acked ws (w_calls w)) as Hack by by apply Hb.
  call_inv E E0.
  - call_inv E0 E1; [|discriminate E0]. apply advances_now in E1. destruct a.
    eapply step_then; [exact E1|]. pose proof E0 as Hem. apply await_emptied in Hem.
    2: { destruct (advances_log _ _ E1) as [l ->]. by apply acked_more. }
    apply advances_await in E0. eapply step_then; [exact E0|].
    call_inv E E3; apply advances_now in E3 as Ha; (eapply step_then; [exact Ha|]).
    2: { injection E as <- <-. by split. }
    assert (backed ws RecoveryIntentVerifiedEmpty (w_calls w2)) as Hc.
    { split; [discriminate|intros _]. destruct (advances_log _ _ Ha) as [l ->]. by apply emptied_more. }
    call_inv E E4; pose proof (advances_own_transition _ _ _ _ _ _ _ _ _ E4 (λ _, eq_refl) Hc) as Hd;
      injection E as <- <-; (split; [done|]).
    + intros ? [= <-]. by eapply backed_advances.
    + done.
  - injection E as <- <-. split; [|done]. call_inv E0 E1; [|discriminate E1].
    apply advances_now in E1. apply advances_await in E0. by etransitivity.
Qed.

Lemma advances_putRecoveryIntent i : within advances (own_step (tx (putRecoveryIntent i))).
Proof.
  intros w r w' (r1 & Ep & _)%own_step_run. destruct r1 as [[]|]; [|by apply tx_Err in Ep as [_ ->]].
  apply tx_Ok in Ep as (db & Ep & ->). unfold putRecoveryIntent in Ep.
  do 3 (op_inv_step Ep; [|discriminate Ep]). rewrite gets_then in Ep. cbv zeta in Ep.
  op_inv_step Ep; [|discriminate Ep]. unfold modify in Ep. injection Ep as <-.
  apply advances_row. cbn. rewrite D1. apply backed_pending.
Qed.

Lemma open_intent_backed ws key d w r w' :
  open_intent ws key d w = (r, w') → step_backed ws w r w'.
Proof.
  unfold open_intent. intros E.
  call_inv E E1; [|discriminate E1]. apply advances_randHex in E1. eapply step_then; [exact E1|].
  call_inv E E2; [|discriminate E2]. apply advances_randHex in E2. eapply step_then; [exact E2|].
  call_inv E E3; [|discriminate E3]. apply advances_now in E3. eapply step_then; [exact E3|].
  clear E1 E2 E3. cbv zeta in E. set (i := _ <| rc_UpdatedAt := _ |>) in E.
  call_inv E E4; apply advances_putRecoveryIntent in E4; injection E as <- <-; (split; [done|]); [|done].
  intros ? [= <-]. apply backed_pending.
Qed.

(** The whole local reset from [db], and what the caller is given. *)
Record reset_done (ws f key pd ad : string) (i : RecoveryIntentRecord) (db : DB)
    (x : RecoveryResult * option (string * time)) (db' : DB) : Prop := {
  rd_reset : ∃ n raw ev t row, raw = rand n 16 ∧ resettable raw ev ws f key row db ∧
    db' = reset_db raw ev ws f key t i row pd ad db ∧
    x = (MkRecoveryResult ev (Z.of_nat (length (table_rows
           (λ r, se_WorkspaceID r = ws ∧ se_Revoked r = false) (db_sessions db))))
           (rc_ContainedMissionCount i) (t + bootstrapCodeTTL),
         Some (RawURLEncode raw, t + bootstrapCodeTTL))
}.

Lemma resetLocalState_run ws f key i pd ad w r w' :
  resetLocalState ws f key i pd ad w = (r, w') →
  match r with
  | Err _ => advances w w'
  | Ok x => w_calls w' = w_calls w ∧ reset_done ws f key pd ad i (w_db w) x (w_db w')
  end.
Proof.
  unfold resetLocalState. intros E.
  call_inv E E1; [|discriminate E1]. pose proof (advances_randHex _ _ _ _ E1) as H1. injection E1 as <- <-.
  call_inv E E2; [|discriminate E2]. pose proof (advances_now _ _ _ E2) as H2. injection E2 as <- <-.
  call_inv E E3; [|discriminate E3]. pose proof (advances_random _ _ _ _ E3) as H3. injection E3 as <- <-.
  assert (advances w _) as Ha by (etransitivity; [exact H1|etransitivity; [exact H2|exact H3]]).
  clear H1 H2 H3. try_inv E Et. cbv beta in E. destruct r0 as [[exp rev]|e].
  - injection E as <- <-. apply tx_Ok in Et as (db & Et & ->). split; [done|].
    apply reset_tx_Ok in Et as (row & Hr & -> & [= -> ->]).
    constructor. by eexists _, _, _, _, row.
  - apply tx_Err in Et as [_ ->]. by injection E as <- <-.
Qed.

(** A resumed recovery either stops before the reset, or reaches it with the
    empty list of the contained workspace in the log. *)
Lemma resume_run polls ws f key d pd i w r w' :
  resume containmentTimeout emptyListTimeout polls ws f key d pd i w = (r, w') →
  backed ws (rc_State i) (w_calls w) →
  match r with
  | Err _ => advances w w'
  | Ok x => ∃ w1 i1 ad, advances w w1 ∧ emptied ws (w_calls w1) ∧ w_calls w' = w_calls w1 ∧
      reset_done ws f key pd ad i1 (w_db w1) x (w_db w')
  end.
Proof.
  unfold resume. intros E Hb.
  call_inv E E1; apply advances_sign in E1; [|by injection E as <- <-].
  call_inv E E2; apply advances_claims in E2; [|injection E as <- <-; by etransitivity].
  assert (advances w w1) as H2 by by etransitivity. clear E1 E2.
  call_inv E E3; apply record_attestation_backed in E3 as [H3 Hb3];
    [|by eapply backed_advances| |by eapply backed_advances].
  all: assert (advances w w2) as H3' by (by etransitivity); clear H2 H3.
  2: by injection E as <- <-.
  specialize (Hb3 _ eq_refl).
  call_inv E E4; apply contain_step_backed in E4 as [H4 Hb4]; [|done| |done].
  all: assert (advances w w3) as H4' by (by etransitivity); clear H3' H4.
  2: by injection E as <- <-.
  specialize (Hb4 _ eq_refl).
  call_inv E E5; apply empty_step_backed in E5 as [H5 Hb5]; [|done| |done].
  all: assert (advances w w4) as H5' by (by etransitivity); clear H4' H5.
  2: by injection E as <- <-.
  specialize (Hb5 _ eq_refl). op_inv_step E; [|by injection E as <- <-].
  apply resetLocalState_run in E. destruct r as [x|e]; [|by etransitivity].
  destruct E as [Ec Hd]. exists w4, a3, a0. split_and!; [done| |done|done]. apply Hb5. by left.
Qed.

(** Everything checked before the intent is looked up: the request names the
    bound workspace twice, the authority vouches for the attached workload
    identity in its role, and the presented key hashes to the stored one. *)
Record authorized (req : RecoveryRequest) (ws f : string) (stored : OfflineRecoveryKeyRecord)
    (w w' : World) : Prop := {
  au_workspace : rq_WorkspaceID req = ws ∧ rq_ConfirmWorkspace req = ws;
  au_identity : ∃ inst wid, db_instance (w_db w) = Some inst ∧ in_WorkspaceID inst = ws ∧
    w_calls w' = VerifyWorkspaceIdentity ws :: w_calls w ∧
    reply_VerifyWorkspaceIdentity (w_calls w) ws = Ok wid ∧ wi_WorkspaceID wid = ws ∧
    HasRole wid DecisionAttestorRole ∧ wi_IdentityDigest wid = in_WorkloadIdentityDigest inst ∧
    in_WorkloadIdentityDigest inst ≠ "";
  au_key : db_offline_recovery_keys (w_db w') !! (ws, f) = Some stored ∧
    hex (Sum256 (rq_RecoveryKey req)) = rk_KeyHash stored
}.

Lemma verify_identity_Ok inst w w' :
  verify_identity inst w = (Ok tt, w') →
  let ws := in_WorkspaceID inst in
  w_calls w' = VerifyWorkspaceIdentity ws :: w_calls w ∧
  ∃ wid, reply_VerifyWorkspaceIdentity (w_calls w) ws = Ok wid ∧ wi_WorkspaceID wid = ws ∧
    HasRole wid DecisionAttestorRole ∧ wi_IdentityDigest wid = in_WorkloadIdentityDigest inst.
Proof.
  unfold verify_identity, call_VerifyWorkspaceIdentity. intros E. try_inv E Eu.
  injection Eu as Er <-. call_inv E Ew; [|discriminate Ew]. injection Ew as <- <-.
  cbv beta in E. destruct r as [wid|e]; [|discriminate E].
  do 2 (op_inv_step E; [|discriminate E]). unfold require in E. case_decide; [|discriminate E].
  injection E as <-. split; [done|]. by exists wid.
Qed.

Lemma getInstance_run db : getInstance db = (match db_instance db with
  Some i => Ok i | None => Err ErrNotFound end, db).
Proof. unfold getInstance. rewrite gets_then. by destruct (db_instance db). Qed.

Lemma authorize_Ok req w ws f stored w' :
  authorize req w = (Ok (ws, f, stored), w') → authorized req ws f stored w w'.
Proof.
  unfold authorize. intros E. op_inv_step E; [|discriminate E].
  call_inv E E1; [|discriminate E]. apply tx_Ok in E1 as (db & E1 & E1w).
  rewrite getInstance_run in E1. destruct (db_instance (w_db w)) as [inst|] eqn:Ei; [|discriminate E1].
  injection E1 as -> <-. assert (w0 = w) as -> by (rewrite E1w; by destruct w). clear E1w.
  do 3 (op_inv_step E; [|discriminate E]).
  call_inv E E2; [|discriminate E]. unfold listFounders in E2.
  apply tx_Ok in E2 as (db & E2 & E2w). rewrite gets_then in E2. injection E2 as <- <-.
  assert (w0 = w) as -> by (rewrite E2w; by destruct w). clear E2w.
  call_inv E E3; [|discriminate E]. apply lift_inv in E3 as [_ ->].
  call_inv E E4; [|discriminate E]. destruct a1. apply verify_identity_Ok in E4 as (Ec & wid & Hw).
  try_inv E E5. destruct r as [st|e]; [|discriminate E].
  op_inv_step E; [|discriminate E]. injection E as <- <- <- <-.
  apply tx_Ok in E5 as (db & [Hs ->]%select_Ok & ->).
  constructor; [done| |done]. exists a, wid. naive_solver.
Qed.

(** How an offline reset ends: stopped, or replaying a completed intent, with
    only its recovery intent touched; or with the whole reset done in one
    transaction after the request was authorized, the log holding an
    acknowledged containment of the workspace and an empty list after it. *)
Inductive recovery_outcome (req : RecoveryRequest) (w : World) :
    res (RecoveryResult * option (string * time)) → World → Prop :=
  | stopped e w' : advances w w' → recovery_outcome req w (Err e) w'
  | replayed ro w' : advances w w' → recovery_outcome req w (Ok (ro, None)) w'
  | recovered ws f stored w1 w2 i ad ro code w' :
      authorized req ws f stored w w1 → advances w w2 → emptied ws (w_calls w2) →
      w_calls w' = w_calls w2 →
      reset_done ws f (idempotencyKey ws (rk_KeyHash stored)) (recovery_proof_digest stored) ad i
        (w_db w2) (ro, Some code) (w_db w') →
      recovery_outcome req w (Ok (ro, Some code)) w'.

Lemma resume_outcome polls req ws f stored d i w w1 w2 r w' :
  resume containmentTimeout emptyListTimeout polls ws f (idempotencyKey ws (rk_KeyHash stored)) d
    (recovery_proof_digest stored) i w2 = (r, w') →
  authorized req ws f stored w w1 → advances w w2 → backed ws (rc_State i) (w_calls w2) →
  recovery_outcome req w r w'.
Proof.
  intros E Hau Ha Hb. apply resume_run in E; [|done]. destruct r as [[ro code]|e].
  - destruct E as (w3 & i1 & ad & H3 & He & Hc & Hd).
    assert (∃ c, code = Some c) as [c ->].
    { destruct Hd as [(? & ? & ? & ? & ? & _ & _ & _ & [= _ ->])]. by eexists. }
    eapply recovered; [exact Hau| |exact He|done|exact Hd]. by etransitivity.
  - apply stopped. by etransitivity.
Qed.

Lemma ResetOffline_outcome polls req w r w' :
  ResetOffline containmentTimeout emptyListTimeout polls req w = (r, w') → evidence w →
  recovery_outcome req w r w'.
Proof.
  unfold ResetOffline. intros E Hev. call_inv E Ea; [pose proof (authorize_Ok) as Hau|].
  2: { apply advances_authorize in Ea. injection E as <- <-. by apply stopped. }
  destruct a as [[ws f] stored]. apply Hau in Ea as Hauth. apply advances_authorize in Ea. clear Hau.
  assert (evidence w0) as Hev0 by by apply Ea. cbv beta zeta in E.
  try_inv E Eg. unfold getRecoveryIntent in Eg. destruct r0 as [i|e].
  - apply tx_Ok in Eg as (db & [Hi ->]%select_Ok & Ew). assert (w1 = w0) as -> by (rewrite Ew; by destruct w0).
    op_inv_step E; [|injection E as <- <-; by apply stopped].
    destruct (decide _) in E; [injection E as <- <-; by apply replayed|].
    eapply resume_outcome; [exact E|done|done|]. by apply (Hev0 _ _ Hi).
  - apply tx_Err in Eg as [_ ->]. op_inv_step E; [|injection E as <- <-; by apply stopped].
    call_inv E Eo; apply open_intent_backed in Eo as [Ho Hb].
    2: { injection E as <- <-. apply stopped. by etransitivity. }
    eapply resume_outcome; [exact E|done|by etransitivity|by apply Hb].
Qed.

Lemma reset_done_evidence ws f key pd ad i w x w' :
  reset_done ws f key pd ad i (w_db w) x (w_db w') → w_calls w' = w_calls w →
  emptied ws (w_calls w) → evidence w → evidence w'.
Proof.
  intros [(n & raw & ev & t & row & _ & _ & Ed & _)] Ec He Hev k r Hk. rewrite Ed in Hk. rewrite Ec.
  unfold reset_db in Hk. cbn [db_recovery_intents upd] in Hk.
  apply lookup_insert_Some in Hk as [[<- <-]|[_ Hk]]; [|by apply Hev].
  split; [discriminate|done].
Qed.

Lemma outcome_evidence req w r w' : recovery_outcome req w r w' → evidence w → evidence w'.
Proof.
  intros [e w'' [_ [_ H1]]|ro w'' [_ [_ H1]]|ws f stored w1 w2 i ad ro code w'' _ [_ [_ H1]] He Hc Hd] Hev;
    [by apply H1..|]. eapply reset_done_evidence; [exact Hd|done|done|by apply H1].
Qed.

(** C6: Nothing of the workspace's authentication is reset, and no bootstrap code
    is delivered, before the authority vouched for the workload identity, the
    presented key matched, and AuthScope acknowledged the containment of the
    workspace and then reported no active mission; and the evidence behind
    every recorded step of a recovery survives the run, however it ends. *)
Theorem ResetOffline_sound polls req w r w' :
  ResetOffline containmentTimeout emptyListTimeout polls req w = (r, w') → evidence w →
  recovery_outcome req w r w' ∧ evidence w'.
Proof.
  intros E Hev. apply ResetOffline_outcome in E; [|done]. split; [done|]. by eapply outcome_evidence.
Qed.

Definition attempt (w w' : World) : Prop :=
  ∃ polls req r, ResetOffline containmentTimeout emptyListTimeout polls req w = (r, w').

Lemma recovery_outcome_log req w r w' : recovery_outcome req w r w' →
  ∃ l, w_calls w' = (l ++ w_calls w)%list.
Proof.
  intros [e w'' [H1 _]|ro w'' [H1 _]|ws f stored w1 w2 i ad ro code w'' _ [H1 _] _ Hc _]; [done..|].
  by rewrite Hc.
Qed.

Context (peers_leave_keys :
  ∀ n db, db_offline_recovery_keys (peers n db) = db_offline_recovery_keys db).

Lemma untouched_keys db db' :
  untouched db db' → db_offline_recovery_keys db' = db_offline_recovery_keys db.
Proof. induction 1 as [|x y z [[n ->]|[m ->]] _ IH]; [done|by rewrite IH, peers_leave_keys|by rewrite IH]. Qed.

(** The key of a founder, until the workspace was contained and empty. *)
Definition key_or_contained (ws f : string) (w : World) : Prop :=
  is_Some (db_offline_recovery_keys (w_db w) !! (ws, f)) ∨ emptied ws (w_calls w).

Lemma outcome_key ws f req w r w' :
  recovery_outcome req w r w' → key_or_contained ws f w → key_or_contained ws f w'.
Proof.
  intros Ho [[k Hk]|He].
  2: { right. apply recovery_outcome_log in Ho as [l ->]. by apply emptied_more. }
  destruct Ho as [e w' [_ [Hu _]]|ro w' [_ [Hu _]]|ws0 f0 stored w1 w2 i ad ro code w' _ [_ [Hu _]] He Hc Hd].
  1, 2: left; rewrite (untouched_keys _ _ Hu), Hk; by eexists.
  destruct Hd as [(n & raw & ev & t & row & _ & _ & Ed & _)].
  destruct (decide ((ws0, f0) = (ws, f))) as [[= -> ->]|Hne]; [right; by rewrite Hc|left].
  rewrite Ed. unfold reset_db. cbn [db_offline_recovery_keys upd].
  rewrite lookup_delete_ne by done. rewrite (untouched_keys _ _ Hu), Hk. by eexists.
Qed.

(** C11: Over any history of offline resets, retries after crashes included, the
    offline key of a founder disappears only after AuthScope acknowledged the
    containment of the workspace and then reported no active mission. *)
Theorem recovery_history_contained w w' ws f :
  db_recovery_intents (w_db w) = ∅ → rtc attempt w w' →
  is_Some (db_offline_recovery_keys (w_db w) !! (ws, f)) →
  db_offline_recovery_keys (w_db w') !! (ws, f) = None → emptied ws (w_calls w').
Proof.
  intros H0 Hs Hk Hn.
  assert (evidence w ∧ key_or_contained ws f w) as Hi.
  { split; [by apply evidence_none|by left]. }
  assert (evidence w' ∧ key_or_contained ws f w') as [_ [[? Hk']|He]]; [|congruence|done].
  clear H0 Hk Hn. induction Hs as [|x y z (polls & req & r & E) _ IH]; [done|].
  destruct Hi as [Hev Hi]. apply IH. apply ResetOffline_outcome in E as Ho; [|done].
  split; [by eapply outcome_evidence|by eapply outcome_key].
Qed.
End evidence.

(** ** On the bench *)

Definition bench_recovery_request : RecoveryRequest := MkRecoveryRequest "ws" "offline-key" "ws".
Definition bench_recovery_run : res (RecoveryResult * option (string * time)) * World :=
  @ResetOffline bench_env Minute Minute 3 bench_recovery_request (start bench_enrolled_DB).

Lemma ResetOffline_sound_witness :
  let w := start bench_enrolled_DB in
  @recovery_outcome bench_env bench_recovery_request w bench_recovery_run.1 bench_recovery_run.2 ∧
  (∃ x, bench_recovery_run.1 = Ok x).
Proof.
  intros w. split.
  - apply (@ResetOffline_sound bench_env (λ _ _, eq_refl) Minute Minute 3
      bench_recovery_request w); [apply surjective_pairing|].
    by apply evidence_none.
  - eexists. vm_compute. reflexivity.
Defined.

Lemma recovery_history_contained_witness :
  @emptied bench_env "ws" (w_calls bench_recovery_run.2).
Proof.
  apply (@recovery_history_contained bench_env (λ _ _, eq_refl) Minute Minute (λ _ _, eq_refl)
    (start bench_enrolled_DB) bench_recovery_run.2 "ws" "founder").
  - reflexivity.
  - apply rtc_once. exists 3%nat, bench_recovery_request, bench_recovery_run.1.
    apply surjective_pairing.
  - eexists. vm_compute. reflexivity.
  - vm_compute. reflexivity.
Defined.
