(* ===== verification/RecoveryLive.v ===== *)
(** * An offline recovery completes (src/internal/recovery/service.go)

    When the authority answers, the missions drain once the workspace is
    contained, and no other process touches the database, a reset with the
    right key completes from whatever recorded step an earlier run reached:
    nothing recorded, pending, contained or verified empty. *)

From S2P Require Import Prelude GoTime Sha256 Base64 Json StoreModel StoreAuth PassModel World Attestor.
From S2P Require Import Settle Bench Recovery.

Section live.
Context `{Env}.
Context (containmentTimeout emptyListTimeout : Z).
Context (ws f : string) (stored : OfflineRecoveryKeyRecord).

(** Polls since the last containment. *)
Fixpoint polled (log : list call) : nat :=
  match log with
  | ListActiveMissions _ :: h => S (polled h)
  | _ => 0
  end.

(** The environment of a recovery that can complete: the clock runs on and
    stays within the poll deadline, randomness is usable, the signer signs, and
    the authority vouches, contains, and lists no mission after [drain]
    polls that follow a containment. *)
Record cooperative (drain : nat) (digest : string) : Prop := {
  co_clock : ∀ n m, (n ≤ m)%nat → clock n ≤ clock m;
  co_epoch : ∀ n, ¬ IsZero (clock n);
  co_deadline : ∀ n j, (j ≤ S drain)%nat → clock (n + j) < clock n + emptyListTimeout;
  co_peers : ∀ n db, peers n db = db;
  co_rand : ∀ n, rand n 32 ≠ zero_nonce ∧ hex (rand n 16) ≠ "" ∧ hex (rand n 32) ≠ "";
  co_signer : signer_KeyID ≠ "" ∧ canonicalDigest signer_IdentityDigest;
  co_sign : ∀ m, ∃ sig, signer_Sign m = Ok sig ∧ String.length sig = 64%nat;
  co_identity : ∀ h, ∃ wid, reply_VerifyWorkspaceIdentity h ws = Ok wid ∧
    wi_WorkspaceID wid = ws ∧ HasRole wid DecisionAttestorRole ∧ wi_IdentityDigest wid = digest;
  co_contain : ∀ h req att opts, ∃ out, reply_ContainWorkspace h req att opts = Ok out ∧
    wn_WorkspaceID out = ws ∧ wn_Contained out = true;
  co_list : ∀ h opts, op_WorkspaceID opts = ws → ∃ ms, reply_ListActiveMissions h opts = Ok ms ∧
    Forall (λ m, am_WorkspaceID m = ws) ms ∧ (acked ws h → (drain ≤ polled h)%nat → ms = [])
}.

Context (drain : nat) (inst : InstanceRecord).
Context (coop : cooperative drain (in_WorkloadIdentityDigest inst)).

(** A database where the key can still be used. *)
Record usable (db : DB) : Prop := {
  us_instance : db_instance db = Some inst ∧ in_WorkspaceID inst = ws ∧ HasWorkloadIdentity inst;
  us_names : ws ≠ "" ∧ f ≠ "";
  us_founder : ∃ fr rest, listFounders ws db = (Ok (fr :: rest), db) ∧ fo_FounderID fr = f ∧
    is_Some (db_founders db !! (ws, f));
  us_key : db_offline_recovery_keys db !! (ws, f) = Some stored;
  us_events : ∀ n, db_recovery_events db !! (ws, hex (rand n 16)) = None;
  us_codes : ∀ n c, db_bootstrap_codes db !! (ws, hex (Sum256 (rand n 16))) = Some c →
    bc_WorkspaceID c = ws ∧ bc_ConsumedAt c = None
}.

Lemma usable_intents db m : usable db → usable (db <| db_recovery_intents := m |>).
Proof.
  intros [H1 H2 (fr & rest & E & Ef & Hf) H4 H5 H6]. constructor; [done|done| |done|done|done].
  exists fr, rest. split; [|done]. unfold listFounders in *. rewrite gets_then in *.
  injection E as E. by rewrite <- E.
Qed.

(** Time passes, the log grows, the database stays. *)
Definition still (w w' : World) : Prop :=
  w_db w' = w_db w ∧ (w_ticks w ≤ w_ticks w')%nat ∧ w_calls w' = w_calls w.
#[export] Instance still_preorder : PreOrder still.
Proof.
  split; [done|]. intros a b c (E1 & H1 & F1) (E2 & H2 & F2).
  split_and!; [congruence|lia|congruence].
Qed.

Lemma runs_now w (Q : time → World → Prop) :
  Q (clock (w_ticks w)) (w <| w_ticks := S (w_ticks w) |>) → runs now w Q.
Proof. intros HQ. by eapply runs_eq. Qed.
Lemma runs_random n w (Q : string → World → Prop) :
  Q (rand (w_draws w) n) (w <| w_draws := S (w_draws w) |>) → runs (randomBytes n) w Q.
Proof. intros HQ. by eapply runs_eq. Qed.
Lemma runs_wait w (Q : unit → World → Prop) : Q tt w → runs wait w Q.
Proof.
  intros HQ. eapply runs_eq; [unfold wait, modify; reflexivity|].
  rewrite (co_peers _ _ coop). by destruct w.
Qed.
Lemma runs_tx {A} (fn : Tx A) w a db (Q : A → World → Prop) :
  fn (w_db w) = (Ok a, db) → Q a (w <| w_db := db |>) → runs (tx fn) w Q.
Proof. intros E HQ. eapply runs_eq; [by apply tx_run|done]. Qed.

Lemma runs_sign d p w (Q : SignedDecisionAttestation → World → Prop) :
  ws ≠ "" → f ≠ "" → canonicalDigest d → canonicalDigest p →
  (∀ att w', still w w' → (∀ n, (w_ticks w' ≤ n)%nat → ∃ b, validateClaims (sa_Claims att) (clock n) = Ok b) →
    Q att w') →
  runs (signContainmentAttestation ws f d p) w Q.
Proof.
  intros Hw Hf Hd Hp HQ. unfold signContainmentAttestation.
  apply runs_bind, runs_random. apply runs_bind, runs_now. cbn [w_ticks upd].
  set (claims := MkDecisionClaims _ _ _ _ _ _ _ _ _ _ _ _).
  assert (∀ n, (w_ticks w ≤ n)%nat → ∃ b, validateClaims claims (clock n) = Ok b) as Hv.
  { intros n Hn. exists (Mk_purposeBinding AudienceWorkspaceContain "workspace"
      AuthMethodOfflineRecovery invocationForbidden).
    apply validateClaims_Ok. unfold claims_valid, claims, maxAttestationTTL, maxClockSkew; cbn.
    pose proof (co_clock _ _ coop _ _ Hn). pose proof (co_epoch _ _ coop (w_ticks w)).
    split_and!; try done; try apply (co_rand _ _ coop (w_draws w)); unfold Minute, Second; lia. }
  unfold Attest. apply runs_bind, runs_now. cbn [w_ticks upd].
  destruct (Hv (S (w_ticks w))) as [b Eb]; [lia|]. apply runs_bind. eapply runs_lift; [exact Eb|].
  destruct (co_signer _ _ coop) as [Hk Hi].
  pose proof (canonicalDigest_ne _ Hi) as Hi'.
  apply runs_bind, runs_require; [done|]. apply runs_bind, runs_require; [done|]. cbv zeta.
  destruct (co_sign _ _ coop (signedMessage (canonicalJSON (toWireClaims claims b signer_KeyID
    signer_IdentityDigest)))) as (sig & Es & El).
  apply runs_bind. eapply runs_lift; [exact Es|]. apply runs_bind, runs_require; [done|].
  apply runs_ret, HQ.
  - split_and!; [done|cbn; lia|done].
  - intros n Hn. apply Hv. cbn in Hn. lia.
Qed.

Lemma runs_claims att w (Q : string → World → Prop) :
  (∀ n, (w_ticks w ≤ n)%nat → ∃ b, validateClaims (sa_Claims att) (clock n) = Ok b) →
  (∀ d w', d ≠ "" → still w w' → Q d w') → runs (claims_digest att) w Q.
Proof.
  intros Hv HQ. unfold claims_digest. apply runs_bind, runs_now. destruct (Hv _ (le_n _)) as [b Eb].
  apply runs_bind. eapply runs_lift; [unfold CanonicalClaimsJSON; rewrite Eb; reflexivity|].
  apply runs_ret, HQ; [by unfold tagged_digest|]. split_and!; [done|cbn; lia|done].
Qed.

Lemma runs_missions w (Q : list ActiveMission → World → Prop) :
  (∀ ms w', w_db w' = w_db w → w_ticks w' = w_ticks w →
    w_calls w' = ListActiveMissions (recovery_opts containmentTimeout ws) :: w_calls w →
    reply_ListActiveMissions (w_calls w) (recovery_opts containmentTimeout ws) = Ok ms →
    (acked ws (w_calls w) → (drain ≤ polled (w_calls w))%nat → ms = []) → Q ms w') →
  runs (authoritativeActiveMissions containmentTimeout ws) w Q.
Proof.
  intros HQ. destruct (co_list _ _ coop (w_calls w) (recovery_opts containmentTimeout ws))
    as (ms & Er & Hms & Hd); [done|].
  unfold authoritativeActiveMissions, call_ListActiveMissions.
  apply runs_bind. eapply runs_try; [apply upstream_run|]. apply runs_bind, runs_wait. rewrite Er.
  apply runs_bind, runs_require; [done|]. by apply runs_ret, HQ.
Qed.

(** The first containment answer is taken. *)
Lemma runs_contain key d p att w (Q : Z → World → Prop) :
  (∀ g w', w_db w' = w_db w → w_ticks w' = w_ticks w → (∃ l, w_calls w' = (l ++ w_calls w)%list) →
    acked ws (w_calls w') → Q g w') →
  runs (contain containmentTimeout ws f key d p att) w Q.
Proof.
  intros HQ. set (req := MkWorkspaceContainmentRequest f key).
  destruct (co_contain _ _ coop (w_calls w) req att (recovery_opts containmentTimeout ws))
    as (out & Er & Hw & Hc).
  unfold contain, call_contain, call_ContainWorkspace. fold req.
  apply runs_bind. apply runs_bind. eapply runs_try; [apply upstream_run|].
  apply runs_bind, runs_wait. apply runs_ret. rewrite Er.
  eapply runs_lift; [unfold checkContainment; by rewrite !require_res_then|].
  apply HQ; [done|done|by exists [ContainWorkspace req att (recovery_opts containmentTimeout ws)]|].
  exists [], (w_calls w). by repeat eexists.
Qed.

Lemma runs_await k polls w D (Q : unit → World → Prop) :
  (k ≤ polls)%nat → acked ws (w_calls w) → (drain ≤ polled (w_calls w) + k)%nat →
  (∀ j, (j ≤ k)%nat → clock (w_ticks w + j) < D) →
  (∀ w', w_db w' = w_db w → (∃ l, w_calls w' = (l ++ w_calls w)%list) → emptied ws (w_calls w') →
    Q tt w') →
  runs (await_empty containmentTimeout polls ws D) w Q.
Proof.
  revert polls w. induction k as [|k IH]; intros polls w Hk Ha Hd Ht HQ;
    assert (Before (clock (w_ticks w)) D) as Hb by (by rewrite <- (Nat.add_0_r (w_ticks w)); apply Ht; lia);
    destruct polls as [|polls]; try lia; cbn [await_empty];
    apply runs_bind, runs_missions; intros ms w1 E1 E2 E3 Er Hms; cbv beta;
    (case_decide as Hl;
      [apply nil_length_inv in Hl as ->; apply runs_ret, HQ; [done|rewrite E3; by eexists [_]|];
       exists [], (w_calls w), (recovery_opts containmentTimeout ws); by rewrite E3|]).
  1, 2: destruct Hl; rewrite Hms; [done|done|lia].
  apply runs_bind, runs_now. rewrite E2. apply runs_bind, runs_require; [done|].
  apply runs_bind, runs_wait. apply IH; cbn [w_calls w_ticks w_db upd]; rewrite ?E3.
  - lia.
  - by apply (acked_more ws [_]).
  - cbn [polled]. lia.
  - intros j Hj. replace (S (w_ticks w) + j)%nat with (w_ticks w + S j)%nat by lia. apply Ht. lia.
  - intros w' Ed [l El] Hem. apply HQ; [by rewrite Ed, E1| |done].
    exists (l ++ [ListActiveMissions (recovery_opts containmentTimeout ws)])%list.
    by rewrite <- app_assoc.
Qed.

(** ** The steps *)

Definition progress (key st : string) (w : World) : Prop :=
  usable (w_db w) ∧ backed ws st (w_calls w) ∧
  ∃ row, db_recovery_intents (w_db w) !! (ws, key) = Some row ∧ rc_State row = st.

Lemma progress_log key st w w' :
  progress key st w → w_db w' = w_db w → (∃ l, w_calls w' = (l ++ w_calls w)%list) →
  progress key st w'.
Proof. intros (Hu & Hb & Hr) E [l El]. unfold progress. rewrite E, El. split_and!; [done|by apply backed_more|done]. Qed.

Lemma runs_transition key st to extra t w (Q : unit → World → Prop) :
  progress key st w → (∀ x, rc_State (extra x) = rc_State x) → backed ws to (w_calls w) →
  (∀ w', progress key to w' → w_calls w' = w_calls w → Q tt w') →
  runs (own_step (tx (transitionRecoveryIntent ws key st to extra t))) w Q.
Proof.
  intros (Hu & _ & row & Hr & Hs) Hx Hb HQ. unfold own_step.
  apply runs_bind. eapply runs_try.
  - apply tx_run, transitionRecoveryIntent_Ok. by exists row.
  - apply runs_ret, HQ; [|done]. split_and!; [by apply usable_intents|done|].
    eexists. cbn. rewrite lookup_insert_eq. split; [done|]. by rewrite Hx.
Qed.

Definition in_state (key : string) (sts : list string) (i : RecoveryIntentRecord) (w : World) : Prop :=
  progress key (rc_State i) w ∧ rc_State i ∈ sts.

Lemma runs_record key d i w sts :
  in_state key sts i w → runs (record_attestation ws key d i) w (in_state key sts).
Proof.
  intros [Hp Hi]. unfold record_attestation. case_decide as Hs; [|by apply runs_ret].
  apply runs_bind, runs_now. destruct Hs as [Hs _]. rewrite Hs in Hp.
  assert (progress key RecoveryIntentPending (w <| w_ticks := S (w_ticks w) |>)) as Hp'
    by (eapply progress_log; [exact Hp|done|by exists []]).
  apply runs_bind, (runs_transition _ _ _ _ _ _ _ Hp'); [done|apply backed_pending|].
  intros w' Hw _. apply runs_ret. split; [|done]. cbn. by rewrite Hs.
Qed.

Lemma runs_contain_step key d p att i w sts :
  in_state key (RecoveryIntentPending :: sts) i w → RecoveryIntentContained ∈ sts →
  runs (contain_step containmentTimeout ws f key d p att i) w (in_state key sts).
Proof.
  intros [Hp Hi] Hc. unfold contain_step. case_decide as Hs.
  2: { apply runs_ret. split; [done|]. by apply elem_of_cons in Hi as [?|?]. }
  rewrite Hs in Hp. apply runs_bind, runs_missions. intros ms w1 E1 _ E3 _ _.
  apply runs_bind, runs_contain. intros g w2 F1 _ [l El] Hack. apply runs_bind, runs_now.
  assert (progress key RecoveryIntentPending (w2 <| w_ticks := S (w_ticks w2) |>)) as Hp'.
  { eapply progress_log; [exact Hp|cbn; by rewrite F1, E1|]. cbn. rewrite El, E3.
    exists (l ++ [ListActiveMissions (recovery_opts containmentTimeout ws)])%list. by rewrite <- app_assoc. }
  apply runs_bind, (runs_transition _ _ _ _ _ _ _ Hp'); [done|by split; [|intros [?|?]]|].
  intros w' Hw _. by apply runs_ret.
Qed.

Lemma runs_empty_step polls key i w sts :
  (drain ≤ polls)%nat →
  in_state key (RecoveryIntentContained :: sts) i w → RecoveryIntentVerifiedEmpty ∈ sts →
  runs (empty_step containmentTimeout emptyListTimeout polls ws key i) w (in_state key sts).
Proof.
  intros Hk [Hp Hi] Hc. unfold empty_step. case_decide as Hs.
  2: { apply runs_ret. split; [done|]. by apply elem_of_cons in Hi as [?|?]. }
  rewrite Hs in Hp. assert (acked ws (w_calls w)) as Hack by by apply Hp.
  apply runs_bind. unfold awaitEmptyActiveMissions. apply runs_bind, runs_now.
  apply (runs_await drain); [done|done|lia| |].
  - intros j Hj. cbn [w_ticks upd]. replace (S (w_ticks w) + j)%nat with (w_ticks w + S j)%nat by lia.
    apply (co_deadline _ _ coop). lia.
  - intros w1 E1 El Hem. apply runs_bind, runs_now.
    assert (progress key RecoveryIntentContained (w1 <| w_ticks := S (w_ticks w1) |>)) as Hp'
      by by eapply progress_log.
    apply runs_bind, (runs_transition _ _ _ _ _ _ _ Hp'); [done|by split|].
    intros w' Hw _. by apply runs_ret.
Qed.

Lemma reset_tx_runs raw ev key t i pd ad row db :
  ws ≠ "" → f ≠ "" → ev ≠ "" → pd ≠ "" → ad ≠ "" → resettable raw ev ws f key row db →
  ∃ x db', reset_tx raw ev ws f key t i pd ad db = (Ok x, db').
Proof.
  intros Hw Hf He Hp Ha [[Hr Hst] Hk Hfo Hev Hc].
  cut (runs (reset_tx raw ev ws f key t i pd ad) db (λ _ _, True)).
  { intros (x & db' & E & _). by exists x, db'. }
  unfold reset_tx. apply runs_bind. eapply runs_eq; [by apply IssueRecoveryBootstrapCodeTx_Ok|].
  set (d1 := upd _ _ _). apply runs_bind. eapply runs_eq; [apply revokeAllSessions_run|].
  set (d2 := upd _ _ _). apply runs_bind. eapply runs_eq; [apply resetLaunchHandoffs_run|].
  set (d3 := upd _ _ _). apply runs_bind. eapply runs_eq; [apply deleteAllWebAuthnCredentials_run|].
  set (d4 := upd _ _ _). apply runs_bind. eapply runs_eq; [by apply consumeOfflineRecoveryKey_Ok|].
  set (d5 := upd _ _ _). apply runs_bind. eapply runs_eq.
  { apply deleteFounder_Ok; [|by split]. intros k r Hl. by apply map_lookup_filter_Some in Hl as [_ ?]. }
  set (d6 := upd _ _ _). apply runs_bind. eapply runs_eq.
  { apply putRecoveryEvent_Ok. split_and!; try done. apply hash_ne. }
  set (d7 := upd _ _ _). apply runs_bind. eapply runs_eq.
  { apply transitionRecoveryIntent_Ok. by exists row. }
  by apply runs_ret.
Qed.

Lemma runs_reset key i pd ad w :
  progress key RecoveryIntentVerifiedEmpty w → pd ≠ "" → ad ≠ "" →
  runs (resetLocalState ws f key i pd ad) w (λ x _, is_Some x.2).
Proof.
  intros ([H1 [Hw Hf] (fr & rest & _ & _ & Hfo) Hk He Hc] & _ & row & Hr & Hs) Hp Ha.
  unfold resetLocalState, randHex. apply runs_bind, runs_bind, runs_random, runs_ret.
  apply runs_bind, runs_now. apply runs_bind, runs_random. cbn [w_draws upd].
  set (w1 := upd _ _ _). apply runs_bind.
  destruct (reset_tx_runs (rand (S (w_draws w)) 16) (hex (rand (w_draws w) 16)) key
    (clock (w_ticks w)) i pd ad row (w_db w)) as (x & db' & E); [done..| | | | |].
  { apply (co_rand _ _ coop). } 
  { done. }
  { done. }
  { constructor; [done|by eexists|done|apply He|apply Hc]. }
  eapply runs_try; [apply tx_run; exact E|]. destruct x as [exp rev]. by apply runs_ret; eexists.
Qed.

Lemma runs_resume polls key d pd i w :
  (drain ≤ polls)%nat → canonicalDigest d → canonicalDigest pd →
  in_state key [RecoveryIntentPending; RecoveryIntentContained; RecoveryIntentVerifiedEmpty] i w →
  runs (resume containmentTimeout emptyListTimeout polls ws f key d pd i) w (λ x _, is_Some x.2).
Proof.
  intros Hk Hd Hpd [Hp Hi]. pose proof (us_names _ (proj1 Hp)) as [Hw Hf]. unfold resume.
  apply runs_bind, runs_sign; [done..|]. intros att w1 S1 Hv.
  apply runs_bind, runs_claims; [done|]. intros ad w2 Had S2.
  assert (still w w2) as (E1 & _ & E2) by by etransitivity.
  assert (in_state key [RecoveryIntentPending; RecoveryIntentContained; RecoveryIntentVerifiedEmpty]
    i w2) as Hin by (split; [|done]; eapply progress_log; [done|done|by exists []]).
  eapply runs_then; [by apply runs_record|]. clear Hin. intros i3 w3 Hin.
  eapply runs_then; [apply runs_contain_step; [exact Hin|by left]|]. clear Hin. intros i4 w4 Hin.
  eapply runs_then; [apply runs_empty_step; [exact Hk|exact Hin|by left]|]. clear Hin.
  intros i5 w5 [Hp5 Hs5]. apply list_elem_of_singleton in Hs5. rewrite Hs5 in Hp5.
  apply runs_bind, runs_require; [done|]. apply runs_reset; [done| |done].
  by apply canonicalDigest_ne.
Qed.

Lemma runs_authorize req w (Q : string * string * OfflineRecoveryKeyRecord → World → Prop) :
  usable (w_db w) → rq_WorkspaceID req = ws → rq_ConfirmWorkspace req = ws →
  hex (Sum256 (rq_RecoveryKey req)) = rk_KeyHash stored →
  Q (ws, f, stored) (w <| w_calls := VerifyWorkspaceIdentity ws :: w_calls w |>) →
  runs (authorize req) w Q.
Proof.
  intros [(Ei & Ew & Hi) [Hw Hf] (fr & rest & El & Ef & _) Hk _ _] H1 H2 H3 HQ.
  unfold authorize. apply runs_bind, runs_require; [by rewrite H1|].
  apply runs_bind. eapply runs_eq; [apply tx_read; rewrite getInstance_run, Ei; reflexivity|].
  rewrite Ew. do 2 (apply runs_bind, runs_require; [done|]). apply runs_bind, runs_require; [done|].
  apply runs_bind. eapply runs_eq; [by apply tx_read|].
  apply runs_bind. eapply runs_lift; [reflexivity|]. rewrite Ef. apply runs_bind.
  unfold verify_identity, call_VerifyWorkspaceIdentity. rewrite Ew.
  destruct (co_identity _ _ coop (w_calls w)) as (wid & Er & Hwid & Hrole & Hdig).
  apply runs_bind. eapply runs_try; [apply upstream_run|]. apply runs_bind, runs_wait. rewrite Er.
  do 2 (apply runs_bind, runs_require; [done|]). apply runs_require; [done|].
  apply runs_bind. eapply runs_try; [by apply tx_read, select_run|].
  apply runs_bind, runs_require; [done|]. by apply runs_ret.
Qed.

Lemma runs_open key d w :
  usable (w_db w) → d ≠ "" → key ≠ "" → db_recovery_intents (w_db w) !! (ws, key) = None →
  runs (open_intent ws key d) w
    (in_state key [RecoveryIntentPending; RecoveryIntentContained; RecoveryIntentVerifiedEmpty]).
Proof.
  intros Hu Hd Hkey Hn. pose proof (us_names _ Hu) as [Hw Hf]. unfold open_intent, randHex.
  apply runs_bind, runs_bind, runs_random, runs_ret. apply runs_bind, runs_bind, runs_random, runs_ret.
  apply runs_bind, runs_now. cbn [w_draws upd]. cbv zeta. set (i := _ <| rc_UpdatedAt := _ |>).
  assert (∃ m, putRecoveryIntent i (w_db w) = (Ok tt, (w_db w) <| db_recovery_intents := m |>) ∧
    ∃ row, m !! (ws, key) = Some row ∧ rc_State row = RecoveryIntentPending) as (m & Ep & Hm).
  { destruct (co_rand _ _ coop (w_draws w)) as (_ & _ & Hr1).
    destruct (co_rand _ _ coop (S (w_draws w))) as (_ & Hr2 & _).
    unfold putRecoveryIntent. do 3 (rewrite require_then by done). rewrite gets_then. cbv zeta.
    rewrite require_then by done. eexists. split; [reflexivity|]. eexists.
    split; [apply lookup_insert_eq|done]. }
  apply runs_bind. unfold own_step. apply runs_bind. eapply runs_try; [by apply tx_run|].
  apply runs_ret, runs_ret. split; [|by left].
  split_and!; [by apply usable_intents|apply backed_pending|done].
Qed.

Definition resumable (decision : string) (row : RecoveryIntentRecord) : Prop :=
  (rc_CanonicalDigest row = "" ∨ rc_CanonicalDigest row = decision) ∧
  rc_State row ∈ [RecoveryIntentPending; RecoveryIntentContained; RecoveryIntentVerifiedEmpty].

End live.

(** ** On the bench *)

Lemma bench_byte n : byte_of (1 + Z.of_nat n mod 255) ≠ byte_of 0.
Proof.
  assert (0 ≤ Z.of_nat n mod 255 < 255) by (apply Z.mod_pos_bound; lia).
  intros E. apply (f_equal byte_val) in E. rewrite !byte_val_of in E; lia.
Qed.

Lemma bench_cooperative : @cooperative bench_env Minute "ws" 0 bench_digest.
Proof.
  constructor.
  - intros n m Hnm. cbn. unfold Second. lia.
  - intros n. unfold IsZero, zero_time. cbn. change bench_time with (1700000000 * Second).
    unfold Second. lia.
  - intros n j Hj. cbn. unfold Minute, Second. lia.
  - done.
  - intros n. split_and!; [|done..]. intros E. injection E as E _. revert E. apply bench_byte.
  - split; [done|apply tagged_digest_canonical].
  - intros m. eexists. split; [reflexivity|]. by vm_compute.
  - intros h. eexists. split; [reflexivity|]. split_and!; [done|by left|done].
  - intros h req att opts. eexists. split; [reflexivity|]. done.
  - intros h opts _. exists []. split_and!; [done|constructor|done].
Qed.

Lemma bench_usable : @usable bench_env "ws" "founder" bench_recovery_key bench_instance bench_enrolled_DB.
Proof.
  constructor; try done.
  eexists _, []. split; [vm_compute; reflexivity|]. split; [done|]. by eexists.
Qed.

