(* ===== verification/EnrollHistory.v ===== *)
(** * Enrollment over a whole history (src/internal/authn, src/internal/recovery)

    What holds of the founder, the bootstrap codes and the ceremonies in memory
    however the enrollment handlers, offline resets and other requests follow
    one another.  Handlers are atomic steps here: the check for a founder in
    [EnsureBootstrapCode] and the insertion of the code are two store calls. *)

From S2P Require Import Prelude GoTime Sha256 Base64 StoreModel StoreAuth PassModel World Attestor Bench.
From S2P Require Import Ceremony Source Settle Enroll Recovery.

(** ** At most one founder *)

Section history.
Context `{Env}.

Notation ws := instance_WorkspaceID.

(** One founder at most, and no usable code while there is one. *)
Record enrollment_ok (db : DB) : Prop := {
  eo_keyed : ∀ k r, db_founders db !! k = Some r → k = (fo_WorkspaceID r, fo_FounderID r);
  eo_single : ∀ f1 f2, is_Some (db_founders db !! (ws, f1)) → is_Some (db_founders db !! (ws, f2)) →
    f1 = f2;
  eo_codes_keyed : ∀ k c, db_bootstrap_codes db !! k = Some c → k = (bc_WorkspaceID c, bc_CodeHash c);
  eo_active : ∀ h1 h2 c1 c2, db_bootstrap_codes db !! (ws, h1) = Some c1 →
    db_bootstrap_codes db !! (ws, h2) = Some c2 → bc_ConsumedAt c1 = None → bc_ConsumedAt c2 = None →
    h1 = h2;
  eo_guard : ∀ h c f, db_bootstrap_codes db !! (ws, h) = Some c → bc_ConsumedAt c = None →
    db_founders db !! (ws, f) = None
}.

Lemma enrollment_ok_same db db' :
  db_founders db' = db_founders db → db_bootstrap_codes db' = db_bootstrap_codes db →
  enrollment_ok db → enrollment_ok db'.
Proof. intros E1 E2 [H1 H2 H3 H4 H5]. constructor; rewrite ?E1, ?E2; done. Qed.

Lemma countFounders_run db : countFounders ws db =
  (Ok (Z.of_nat (length (table_rows (λ r, fo_WorkspaceID r = ws) (db_founders db)))), db).
Proof. done. Qed.

Lemma no_founder db f :
  length (table_rows (λ r, fo_WorkspaceID r = ws) (db_founders db)) = 0%nat →
  (∀ k r, db_founders db !! k = Some r → k = (fo_WorkspaceID r, fo_FounderID r)) →
  db_founders db !! (ws, f) = None.
Proof.
  intros E%nil_length_inv Hk. destruct (db_founders db !! (ws, f)) as [r|] eqn:Er; [|done].
  exfalso. eapply (proj1 (table_rows_nil _ _) E); [exact Er|].
  apply Hk in Er. by injection Er.
Qed.

(** A new active code where no founder is. *)
Lemma put_code_ok db rec h c k :
  enrollment_ok db → (∀ f, db_founders db !! (ws, f) = None) →
  bc_WorkspaceID rec = ws → bc_CodeHash rec = h → k = (ws, h) →
  c = <[k := rec]> (filter (λ kv, ¬ (bc_WorkspaceID kv.2 = ws ∧ bc_ConsumedAt kv.2 = None))
                      (db_bootstrap_codes db)) →
  enrollment_ok (db <| db_bootstrap_codes := c |>).
Proof.
  intros [H1 H2 H3 H4 H5] Hn Hw <- -> ->. constructor; cbn [db_founders db_bootstrap_codes upd]; try done.
  - intros k c [[<- <-]|[_ Hk]]%lookup_insert_Some; [by rewrite Hw|].
    apply map_lookup_filter_Some in Hk as [Hk _]. by apply H3.
  - assert (∀ h c, <[(ws, bc_CodeHash rec) := rec]> (filter (λ kv, ¬ (bc_WorkspaceID kv.2 = ws ∧
      bc_ConsumedAt kv.2 = None)) (db_bootstrap_codes db)) !! (ws, h) = Some c →
      bc_ConsumedAt c = None → h = bc_CodeHash rec) as Hone.
    { intros h c [[E _]|[_ Hk]]%lookup_insert_Some Hc; [by injection E|].
      apply map_lookup_filter_Some in Hk as [Hk []]. cbn. split; [|done]. apply H3 in Hk. by injection Hk. }
    intros h1 h2 c1 c2 E1 E2 Hc1 Hc2. by rewrite (Hone h1 c1), (Hone h2 c2).
Qed.

Definition enrollment_kept (w w' : World) : Prop :=
  (enrollment_ok (w_db w) → enrollment_ok (w_db w')) ∧ w_bootstrap w' = w_bootstrap w ∧
  w_ceremonies w' = w_ceremonies w ∧ (w_draws w ≤ w_draws w')%nat.
#[export] Instance enrollment_kept_preorder : PreOrder enrollment_kept.
Proof.
  split; [intros w; unfold enrollment_kept; by split_and!|].
  intros a b c (A1 & A2 & A3 & A4) (B1 & B2 & B3 & B4).
  unfold enrollment_kept. split_and!; [auto|congruence|congruence|lia].
Qed.

Lemma enroll_kept_EnsureBootstrapCode : within enrollment_kept EnsureBootstrapCode.
Proof.
  intros w r w' E. unfold EnsureBootstrapCode in E. unfold enrollment_kept.
  call_inv E E1; [|by injection E as _ <-; apply tx_Err in E1 as [_ ->]].
  apply tx_Ok in E1 as (db & E1 & ->). rewrite countFounders_run in E1. injection E1 as <- <-.
  case_decide as Hn; [by injection E as _ <-|].
  call_inv E E2; [|discriminate E2]. injection E2 as <- <-.
  call_inv E E3; [|discriminate E3]. injection E3 as <- <-.
  call_inv E E4; injection E as _ <-.
  2: { apply tx_Err in E4 as [_ ->]. split_and!; try done. cbn. lia. }
  apply tx_Ok in E4 as (db & E4 & ->). split_and!; [|done|done|cbn; lia]. intros Hok.
  cbn [w_db upd]. unfold putBootstrapCode in E4.
  op_inv_step E4; [|discriminate E4]. rewrite gets_then in E4. cbv zeta in E4.
  op_inv_step E4; [|discriminate E4]. unfold modify in E4. injection E4 as _ <-.
  eapply (put_code_ok _ (MkBootstrapCodeRecord ws (hex (Sum256 (rand (w_draws w) 16))) (clock (w_ticks w))
    (clock (w_ticks w) + bootstrapCodeTTL) None)); [exact Hok| |reflexivity..].
  intros f. apply no_founder; [lia|]. apply Hok.
Qed.

Lemma complete_db_ok c f sid sraw craw t code db :
  enrollment_ok db → db_bootstrap_codes db !! (ws, bo_codeHash c) = Some code →
  bc_ConsumedAt code = None → enrollment_ok (complete_db c f sid sraw craw t code db).
Proof.
  intros [H1 H2 H3 H4 H5] Hc Hn.
  assert (∀ f', db_founders db !! (ws, f') = None) as Hf by (intros f'; by eapply H5).
  constructor; unfold complete_db; cbn [db_founders db_bootstrap_codes upd].
  - intros k r [[<- <-]|[_ Hk]]%lookup_insert_Some; [done|by apply H1].
  - intros f1 f2 [r1 [[E1 _]|[_ E1]]%lookup_insert_Some] [r2 [[E2 _]|[_ E2]]%lookup_insert_Some];
      try (by rewrite Hf in E1); try (by rewrite Hf in E2). congruence.
  - intros k c' [[<- <-]|[_ Hk]]%lookup_insert_Some; [|by apply H3]. by apply H3 in Hc.
  - intros h1 h2 c1 c2 [[_ <-]|[_ E1]]%lookup_insert_Some [[_ <-]|[_ E2]]%lookup_insert_Some N1 N2;
      [discriminate N1..|discriminate N2|by eapply H4].
  - intros h c' f' [[_ <-]|[Hne Hk]]%lookup_insert_Some Hc'; [discriminate Hc'|].
    exfalso. apply Hne. f_equal. by eapply H4.
Qed.

Lemma Complete_ok token conf w r w' :
  Complete token conf w = (r, w') → enrollment_ok (w_db w) → enrollment_ok (w_db w').
Proof.
  intros E Hok. apply Complete_run in E. destruct r as [sr|e]; [|by destruct E as [-> _]].
  destruct E as (c & code & sid & sraw & craw & t & _ & _ & Hc & Hn & _ & -> & _).
  by apply complete_db_ok.
Qed.

Lemma reset_db_ok raw ev f key t i row pd ad db :
  enrollment_ok db → is_Some (db_founders db !! (ws, f)) →
  enrollment_ok (reset_db raw ev ws f key t i row pd ad db).
Proof.
  intros Hok Hf. unfold reset_db.
  set (code := MkBootstrapCodeRecord _ _ _ _ _). set (codes := <[_ := code]> _).
  assert (enrollment_ok (db <| db_founders := delete (ws, f) (db_founders db) |>
    <| db_bootstrap_codes := codes |>)) as Hd; [|by eapply enrollment_ok_same, Hd].
  assert (∀ f', db_founders (db <| db_founders := delete (ws, f) (db_founders db) |>) !! (ws, f') = None)
    as Hn.
  { intros f'. cbn [db_founders upd]. destruct (decide (f' = f)) as [->|Hne]; [apply lookup_delete_eq|].
    rewrite lookup_delete_ne by congruence. destruct (db_founders db !! (ws, f')) eqn:E; [|done].
    destruct Hne. apply (eo_single _ Hok); [by eexists|done]. }
  eapply (put_code_ok _ code); [|exact Hn|reflexivity..].
  destruct Hok as [H1 H2 H3 H4 H5]. constructor; cbn [db_founders db_bootstrap_codes upd] in *.
  - intros k r [_ Hk]%lookup_delete_Some. by apply H1.
  - intros f1 f2 [r1 E1] _. by rewrite Hn in E1.
  - done.
  - done.
  - intros h c f' _ _. apply Hn.
Qed.

(** The reset of another workspace. *)
Lemma reset_db_other raw ev wsid f key t i row pd ad db :
  wsid ≠ ws → enrollment_ok db → enrollment_ok (reset_db raw ev wsid f key t i row pd ad db).
Proof.
  intros Hne [H1 H2 H3 H4 H5].
  assert (∀ h c, db_bootstrap_codes (reset_db raw ev wsid f key t i row pd ad db) !! (ws, h) = Some c →
    db_bootstrap_codes db !! (ws, h) = Some c) as Hc.
  { intros h c. unfold reset_db. cbn [db_bootstrap_codes upd].
    intros [[E _]|[_ Hk]]%lookup_insert_Some; [by injection E|].
    by apply map_lookup_filter_Some in Hk as [Hk _]. }
  assert (∀ f', db_founders (reset_db raw ev wsid f key t i row pd ad db) !! (ws, f') =
    db_founders db !! (ws, f')) as Hf.
  { intros f'. unfold reset_db. cbn [db_founders upd]. apply lookup_delete_ne. congruence. }
  constructor.
  - intros k r. unfold reset_db. cbn [db_founders upd]. intros [_ Hk]%lookup_delete_Some. by apply H1.
  - intros f1 f2. rewrite !Hf. apply H2.
  - intros k c. unfold reset_db. cbn [db_bootstrap_codes upd].
    intros [[<- <-]|[_ Hk]]%lookup_insert_Some; [done|].
    apply map_lookup_filter_Some in Hk as [Hk _]. by apply H3.
  - intros h1 h2 c1 c2 E1%Hc E2%Hc. by eapply H4.
  - intros h c f' E%Hc Hn. rewrite Hf. by eapply H5.
Qed.

(** ** The ceremonies in memory *)

Definition drawn (w : World) (id : string) : Prop := ∃ k, (k < w_draws w)%nat ∧ id = hex (rand k 16).

(** A first passkey means a staged passkey, a verified recovery passkey means
    two of them, all distinct. *)
Definition staged_ok (c : bootstrapCeremony) : Prop :=
  NoDup (wc_CredentialID <$> bo_stagedCredentials c) ∧
  Forall (λ r, wc_WorkspaceID r = ws) (bo_stagedCredentials c) ∧
  (bo_firstCredentialID c ≠ "" → (1 ≤ length (bo_stagedCredentials c))%nat) ∧
  (bo_recoveryVerified c = true → (2 ≤ length (bo_stagedCredentials c))%nat).

Record memory_ok (w : World) : Prop := {
  mo_ids : ∀ id c, w_bootstrap w !! id = Some c → bo_id c = id ∧ drawn w id ∧ staged_ok c;
  mo_scoped : ∀ id ce, w_ceremonies w !! id = Some ce → ce_bootstrapCeremonyID ce ≠ "" →
    drawn w (ce_bootstrapCeremonyID ce) ∧
    (ce_isRecovery ce = true → ∀ c, w_bootstrap w !! ce_bootstrapCeremonyID ce = Some c →
       bo_firstCredentialID c ≠ "")
}.

(** Nothing happens to the enrollment: ceremonies of a bootstrap may only be
    taken away. *)
Definition other_request (w w' : World) : Prop :=
  w_bootstrap w' = w_bootstrap w ∧
  (∀ id ce, w_ceremonies w' !! id = Some ce → ce_bootstrapCeremonyID ce ≠ "" →
     w_ceremonies w !! id = Some ce) ∧
  db_founders (w_db w') = db_founders (w_db w) ∧
  db_bootstrap_codes (w_db w') = db_bootstrap_codes (w_db w) ∧ (w_draws w ≤ w_draws w')%nat.

#[export] Instance other_request_preorder : PreOrder other_request.
Proof.
  split; unfold other_request.
  - intros w. by split_and!.
  - intros a b c (A1 & A2 & A3 & A4 & A5) (B1 & B2 & B3 & B4 & B5). split_and!; try congruence; [|lia].
    intros id ce Hc Hb. apply A2; [by apply B2|done].
Qed.

Lemma drawn_more w w' id : (w_draws w ≤ w_draws w')%nat → drawn w id → drawn w' id.
Proof. intros Hd (k & Hk & ->). exists k. split; [lia|done]. Qed.

Lemma other_memory w w' : other_request w w' → memory_ok w → memory_ok w'.
Proof.
  intros (E1 & E2 & _ & _ & E5) [H1 H2]. constructor; rewrite E1.
  - intros id c Hc. destruct (H1 _ _ Hc) as (? & ? & ?). split_and!; [done|by eapply drawn_more|done].
  - intros id ce Hc Hb. destruct (H2 id ce) as [Hd Hr]; [by apply E2|done|].
    split; [by eapply drawn_more|done].
Qed.
Lemma other_enrollment w w' : other_request w w' → enrollment_ok (w_db w) → enrollment_ok (w_db w').
Proof. intros (_ & _ & E3 & E4 & _). by apply enrollment_ok_same. Qed.

(** A ceremony of a living bootstrap is added. *)
Lemma memory_scoped w id ce c w' :
  memory_ok w → w_bootstrap w' = w_bootstrap w → w_ceremonies w' = <[id := ce]> (w_ceremonies w) →
  (w_draws w ≤ w_draws w')%nat → w_bootstrap w !! ce_bootstrapCeremonyID ce = Some c →
  (ce_isRecovery ce = true → bo_firstCredentialID c ≠ "") → memory_ok w'.
Proof.
  intros [H1 H2] E1 E2 Hd Hc Hr. constructor; rewrite E1.
  - intros id' c' Hc'. destruct (H1 _ _ Hc') as (? & ? & ?). split_and!; [done|by eapply drawn_more|done].
  - intros id' ce' Hk Hb. rewrite E2 in Hk. apply lookup_insert_Some in Hk as [[_ <-]|[_ Hk]].
    + destruct (H1 _ _ Hc) as (_ & Hdr & _). split; [by eapply drawn_more|].
      intros Hrec c' Hc'. rewrite Hc in Hc'. injection Hc' as <-. by apply Hr.
    + destruct (H2 _ _ Hk Hb) as [? ?]. split; [by eapply drawn_more|done].
Qed.

(** A living bootstrap moves on. *)
Lemma memory_put w c c' w' :
  memory_ok w → w_bootstrap w !! bo_id c = Some c → bo_id c' = bo_id c → staged_ok c' →
  (bo_firstCredentialID c ≠ "" → bo_firstCredentialID c' ≠ "") →
  w_bootstrap w' = <[bo_id c' := c']> (w_bootstrap w) → w_ceremonies w' = w_ceremonies w →
  (w_draws w ≤ w_draws w')%nat → memory_ok w'.
Proof.
  intros [H1 H2] Hc Ei Hs Hf E1 E2 Hd. destruct (H1 _ _ Hc) as (_ & Hdr & _). constructor.
  - intros id x Hx. rewrite E1 in Hx. apply lookup_insert_Some in Hx as [[<- <-]|[_ Hx]].
    + split_and!; [done|rewrite Ei; by eapply drawn_more|done].
    + destruct (H1 _ _ Hx) as (? & ? & ?). split_and!; [done|by eapply drawn_more|done].
  - intros id ce Hk Hb. rewrite E2 in Hk. destruct (H2 _ _ Hk Hb) as [Hd' Hr].
    split; [by eapply drawn_more|]. intros Hrec x Hx. rewrite E1, Ei in Hx.
    apply lookup_insert_Some in Hx as [[Eid <-]|[_ Hx]]; [|by eapply Hr].
    apply Hf. apply (Hr Hrec). by rewrite <- Eid.
Qed.

(** The update of a field other than the passkeys. *)
Lemma staged_ok_same c c' :
  bo_stagedCredentials c' = bo_stagedCredentials c → bo_firstCredentialID c' = bo_firstCredentialID c →
  bo_recoveryVerified c' = bo_recoveryVerified c → staged_ok c → staged_ok c'.
Proof. unfold staged_ok. by intros -> -> ->. Qed.

Lemma memory_delete w id w' :
  memory_ok w → w_bootstrap w' = delete id (w_bootstrap w) → w_ceremonies w' = w_ceremonies w →
  (w_draws w ≤ w_draws w')%nat → memory_ok w'.
Proof.
  intros [H1 H2] E1 E2 Hd. constructor; rewrite E1.
  - intros id' c [_ Hc]%lookup_delete_Some. destruct (H1 _ _ Hc) as (? & ? & ?).
    split_and!; [done|by eapply drawn_more|done].
  - intros id' ce Hk Hb. rewrite E2 in Hk. destruct (H2 _ _ Hk Hb) as [? Hr].
    split; [by eapply drawn_more|]. intros Hrec c [_ Hc]%lookup_delete_Some. by apply (Hr Hrec).
Qed.

Lemma beginRegistrationLocked_run c name rec ex w r w' :
  beginRegistrationLocked c name rec ex w = (r, w') →
  w_bootstrap w' = w_bootstrap w ∧ w_db w' = w_db w ∧ (w_draws w ≤ w_draws w')%nat ∧
  (w_ceremonies w' = w_ceremonies w ∨ ∃ id ce, w_ceremonies w' = <[id := ce]> (w_ceremonies w) ∧
     ce_bootstrapCeremonyID ce = bo_id c ∧ ce_isRecovery ce = rec).
Proof.
  unfold beginRegistrationLocked. intros E. call_inv E E1; [|discriminate E1]. injection E1 as <- <-.
  cbv zeta in E. call_inv E E2; [|discriminate E2]. injection E2 as <- <-.
  call_inv E E3.
  - destruct (verifier_BeginRegistration _ _ _ _ _) as [o|]; [|discriminate E3]. injection E3 as <- <-.
    rewrite modify_then in E. injection E as <- <-. split_and!; [done|done|cbn; lia|right].
    eexists _, _. by split_and!.
  - destruct (verifier_BeginRegistration _ _ _ _ _) as [o|]; [discriminate E3|]. injection E3 as _ <-.
    injection E as <- <-. split_and!; [done|done|cbn; lia|by left].
Qed.

(** ** The handlers *)

Lemma enrolled_run w : ∃ e, enrolled w = (Ok e, w).
Proof.
  unfold enrolled. rewrite (bind_run _ _ _ _ _ (tx_read _ _ _ (countFounders_run (w_db w)))). by eexists.
Qed.

Lemma Begin_run code w r w' :
  Begin code w = (r, w') → w_db w' = w_db w ∧ w_ceremonies w' = w_ceremonies w ∧
  (w_draws w ≤ w_draws w')%nat ∧
  (w_bootstrap w' = w_bootstrap w ∨ ∃ c k, w_bootstrap w' = <[bo_id c := c]> (w_bootstrap w) ∧
     bo_id c = hex (rand k 16) ∧ (w_draws w ≤ k < w_draws w')%nat ∧
     bo_stagedCredentials c = [] ∧ bo_firstCredentialID c = "" ∧ bo_recoveryVerified c = false).
Proof.
  unfold Begin. intros E. destruct (enrolled_run w) as [e Ee]. rewrite (bind_run _ _ _ _ _ Ee) in E.
  op_inv_step E; [|by injection E as _ <-; split_and!; [| | |left]].
  call_inv E E1; apply lift_inv in E1 as [_ ->]; [|by injection E as _ <-; split_and!; [| | |left]].
  try_inv E E2. assert (w0 = w) as ->.
  { unfold getBootstrapCode in E2. destruct r0; [apply tx_Ok in E2 as (db & E2 & ->)|
      by apply tx_Err in E2 as [_ ->]].
    rewrite gets_then in E2. destruct (rev _); [discriminate E2|]. injection E2 as _ <-. by destruct w. }
  destruct r0 as [rec|]; [|by injection E as _ <-; split_and!; [| | |left]].
  op_inv_step E; [|by injection E as _ <-; split_and!; [| | |left]].
  call_inv E E3; [|discriminate E3]. injection E3 as <- <-.
  op_inv_step E; [|by injection E as _ <-; split_and!; [| | |left]].
  call_inv E E4; [|discriminate E4]. injection E4 as <- <-.
  call_inv E E5; [|discriminate E5]. injection E5 as <- <-.
  call_inv E E6; [|discriminate E6]. injection E6 as <- <-. cbv zeta in E.
  set (c := Mk_bootstrapCeremony _ _ _ _ _ _ _ _ _ _ _ _ _ _) in E. unfold put_bootstrap in E. rewrite !modify_then in E. injection E as _ <-.
  split_and!; [done|done|cbn; lia|right].
  exists c, (S (S (w_draws w))). split_and!; [done|done|lia|cbn; lia|done..].
Qed.

Lemma Begin_memory N code w r w' :
  (∀ n m, (n < m < N)%nat → rand n 16 ≠ rand m 16) → (w_draws w' ≤ N)%nat →
  Begin code w = (r, w') → memory_ok w → memory_ok w'.
Proof.
  intros Hd HN E Hok. apply Begin_run in E as (Edb & Ec & Hdr & Hb).
  destruct Hb as [Eb|(c & k & Eb & Ei & Hk & Hs & Hf & Hv)].
  { assert (other_request w w') as Ho by (unfold other_request; rewrite Eb, Ec, Edb; by split_and!).
    by eapply other_memory. }
  assert (¬ drawn w (bo_id c)) as Hfresh.
  { intros (j & Hj & E). rewrite Ei in E. apply hex_inj in E. by apply (Hd j k); [lia|]. }
  destruct Hok as [H1 H2]. constructor.
  - intros id x Hx. rewrite Eb in Hx. apply lookup_insert_Some in Hx as [[<- <-]|[_ Hx]].
    + split; [done|]. split; [exists k; split; [lia|done]|]. unfold staged_ok. rewrite Hs, Hf, Hv.
      split_and!; [constructor|constructor|done|done].
    + destruct (H1 _ _ Hx) as (? & ? & ?). split_and!; [done|by eapply drawn_more|done].
  - intros id ce Hk' Hb. rewrite Ec in Hk'. destruct (H2 _ _ Hk' Hb) as [Hdrn Hr].
    split; [by eapply drawn_more|]. intros Hrec x Hx. rewrite Eb in Hx.
    apply lookup_insert_Some in Hx as [[Eid _]|[_ Hx]]; [|by eapply Hr].
    exfalso. apply Hfresh. by rewrite Eid.
Qed.

(** What a live ceremony gives. *)
Lemma live_memory token w c w' :
  liveBootstrapCeremony token w = (Ok c, w') → memory_ok w →
  w' = tick w ∧ w_bootstrap w !! bo_id c = Some c ∧ staged_ok c.
Proof.
  intros (-> & raw & id & _ & _ & Hc & _)%live_Ok Hok. destruct (mo_ids _ Hok _ _ Hc) as (Ei & _ & Hs).
  by rewrite Ei.
Qed.
Lemma tick_memory w : memory_ok w → memory_ok (tick w).
Proof. intros [H1 H2]. by constructor. Qed.
Lemma live_other token w r w' : liveBootstrapCeremony token w = (r, w') → other_request w w'.
Proof.
  intros E. assert (∀ {A} (f : World → A), (∀ w n, f (w <| w_ticks := n |>) = f w) → f w' = f w) as Hk.
  { intros A f Hf. by eapply (keeps_live f) in E. }
  unfold other_request. rewrite (Hk _ w_bootstrap), (Hk _ w_ceremonies), (Hk _ w_db), (Hk _ w_draws) by done.
  by split_and!.
Qed.

(** A bootstrap in the map starts a registration. *)
Lemma beginRegistrationLocked_memory c c1 name rec ex w r w' :
  beginRegistrationLocked c name rec ex w = (r, w') → memory_ok w →
  w_bootstrap w !! bo_id c = Some c1 → (rec = true → bo_firstCredentialID c1 ≠ "") →
  memory_ok w' ∧ w_bootstrap w' = w_bootstrap w ∧ w_db w' = w_db w ∧ (w_draws w ≤ w_draws w')%nat.
Proof.
  intros (Eb & Edb & Hd & Hc')%beginRegistrationLocked_run Hok Hc Hf. split_and!; try done.
  destruct Hc' as [Ec|(id & ce & Ec & Eb' & Er)].
  - eapply other_memory, Hok. unfold other_request. rewrite Eb, Ec, Edb. by split_and!.
  - eapply memory_scoped; [exact Hok|exact Eb|exact Ec|exact Hd|by rewrite Eb'|by rewrite Er].
Qed.

Lemma BeginBootstrapRegistration_memory token name w r w' :
  BeginBootstrapRegistration token name w = (r, w') → memory_ok w →
  memory_ok w' ∧ w_db w' = w_db w ∧ (w_draws w ≤ w_draws w')%nat.
Proof.
  unfold BeginBootstrapRegistration. intros E Hok. call_inv E E1.
  2: { injection E as _ <-. apply live_other in E1 as Ho. split_and!; [by eapply other_memory| |by apply Ho].
       by eapply (keeps_live w_db) in E1. }
  apply live_memory in E1 as (-> & Hc & Hs); [|done]. apply tick_memory in Hok. cbv zeta in E.
  set (c' := if decide (name ≠ "") then _ else _) in E.
  assert (bo_id c' = bo_id a ∧ staged_ok c' ∧ bo_firstCredentialID c' = bo_firstCredentialID a) as (Ei & Hs' & Ef).
  { unfold c'. case_decide; [|done]. split_and!; [done|by eapply staged_ok_same|done]. }
  unfold put_bootstrap in E. rewrite modify_then in E.
  assert (memory_ok (tick w <| w_bootstrap := <[bo_id c' := c']> (w_bootstrap (tick w)) |>)) as Hok'.
  { eapply (memory_put (tick w) a c'); try done. by rewrite Ef. }
  eapply beginRegistrationLocked_memory in E as (H1 & _ & H3 & H4);
    [|exact Hok'|apply lookup_insert_eq|done]. split_and!; [done|by rewrite H3|exact H4].
Qed.

Lemma BeginRecovery_memory token method w r w' :
  BeginRecovery token method w = (r, w') → memory_ok w →
  memory_ok w' ∧ w_db w' = w_db w ∧ (w_draws w ≤ w_draws w')%nat.
Proof.
  unfold BeginRecovery. intros E Hok. op_inv_step E; [|by injection E as _ <-].
  call_inv E E1.
  { apply live_memory in E1 as (-> & Hc & Hs); [|done]. apply tick_memory in Hok.
    do 2 (op_inv_step E; [|by injection E as _ <-]).
    assert (∀ c' w1, bo_id c' = bo_id a → staged_ok c' → bo_firstCredentialID c' = bo_firstCredentialID a →
      w_bootstrap w1 = <[bo_id c' := c']> (w_bootstrap w) → w_ceremonies w1 = w_ceremonies w →
      (w_draws w ≤ w_draws w1)%nat → memory_ok w1) as Hput.
    { intros c' w1 Ei Hs' Ef E1 E2 E3. eapply (memory_put (tick w) a c'); try done. by rewrite Ef. }
    case_decide as Hm.
    - unfold put_bootstrap in E. rewrite modify_then in E. try_inv E E2.
      set (c1 := a <| bo_recoveryMethod := RecoveryMethodPasskey |>) in E2.
      assert (memory_ok (tick w <| w_bootstrap := <[bo_id c1 := c1]> (w_bootstrap (tick w)) |>)) as Hok1
        by (eapply (Hput c1); try done; by eapply staged_ok_same).
      eapply beginRegistrationLocked_memory in E2 as (H1 & H2 & H3 & H4);
        [|exact Hok1|apply lookup_insert_eq|done].
      destruct r0 as [[id options]|e].
      + injection E as _ <-. split_and!; [done|by rewrite H3|exact H4].
      + rewrite modify_then in E. injection E as _ <-. split_and!; [|by cbn; rewrite H3|exact H4].
        set (c2 := a <| bo_recoveryMethod := "" |>).
        eapply (memory_put w0 c1 c2); try done. rewrite H2. apply lookup_insert_eq.
    - call_inv E E2; [|discriminate E2]. injection E2 as <- <-. unfold put_bootstrap in E.
      rewrite modify_then in E. injection E as _ <-. split_and!; [|done|cbn; lia].
      eapply (Hput (a <| bo_recoveryMethod := RecoveryMethodOfflineKey |>
        <| bo_recoveryKeyHash := Sum256 (rand (w_draws w) 32) |> <| bo_recoveryIssued := true |>));
        try done. cbn. lia. }
  injection E as _ <-. apply live_other in E1 as Ho. split_and!; [by eapply other_memory| |by apply Ho].
  by eapply (keeps_live w_db) in E1.
Qed.

Lemma other_fields w w' :
  w_bootstrap w' = w_bootstrap w → w_ceremonies w' = w_ceremonies w →
  db_founders (w_db w') = db_founders (w_db w) →
  db_bootstrap_codes (w_db w') = db_bootstrap_codes (w_db w) → (w_draws w ≤ w_draws w')%nat →
  other_request w w'.
Proof. intros E1 E2 E3 E4 Hd. unfold other_request. by rewrite E1, E2, E3, E4. Qed.

Lemma other_now : within other_request now.
Proof. intros w r w' E. injection E as _ <-. by apply other_fields. Qed.
Lemma other_random n : within other_request (randomBytes n).
Proof. intros w r w' E. injection E as _ <-. apply other_fields; try done. cbn. lia. Qed.
Lemma other_tx {A} (fn : Tx A) :
  (∀ db a db', fn db = (Ok a, db') → db_founders db' = db_founders db ∧
     db_bootstrap_codes db' = db_bootstrap_codes db) → within other_request (tx fn).
Proof.
  intros Hf w [a|e] w' E; [|by apply tx_Err in E as [_ ->]].
  apply tx_Ok in E as (db & E & ->). apply Hf in E as [E1 E2]. by apply other_fields.
Qed.
Lemma other_read {A} (fn : Tx A) : within eq fn → within other_request (tx fn).
Proof. intros Hf. apply other_tx. intros db a db' E. by apply Hf in E as <-. Qed.
Lemma other_live token : within other_request (liveBootstrapCeremony token).
Proof. intros w r w'. apply live_other. Qed.
(** A ceremony outside the bootstrap is opened. *)
Lemma other_open id ce : ce_bootstrapCeremonyID ce = "" →
  within other_request (modify (λ w, w <| w_ceremonies := <[id := ce]> (w_ceremonies w) |>)).
Proof.
  intros Hb. apply within_modify. intros w. unfold other_request. split_and!; try done.
  intros id' ce' Hc Hne. cbn in Hc. by apply lookup_insert_Some in Hc as [[_ <-]|[_ Hc]].
Qed.
Lemma other_drop id :
  within other_request (modify (λ w, w <| w_ceremonies := delete id (w_ceremonies w) |>)).
Proof.
  apply within_modify. intros w. unfold other_request. split_and!; try done.
  intros id' ce' Hc _. cbn in Hc. by apply lookup_delete_Some in Hc as [_ Hc].
Qed.
#[local] Hint Resolve other_now other_random other_live other_drop : within.
#[local] Hint Extern 1 (within other_request (modify (λ w, _ <| w_ceremonies := <[_ := _]> _ |>))) =>
  apply other_open; reflexivity : within.

Lemma other_newCeremonyID : within other_request newCeremonyID.
Proof. unfold newCeremonyID. within_auto. Qed.
Lemma other_newSessionMaterial : within other_request newSessionMaterial.
Proof. unfold newSessionMaterial, newCeremonyID. within_auto. Qed.
Lemma other_consumeCeremony id kind : within other_request (consumeCeremony id kind).
Proof. unfold consumeCeremony. within_auto. Qed.
Lemma other_founderCredentials f : within other_request (founderCredentials f).
Proof.
  unfold founderCredentials. apply within_bind; [apply _| |intros ?; apply (within_lift _)].
  apply other_read. intros db r db' E. by injection E as _ <-.
Qed.
Lemma other_checkRegistrationScope req c : within other_request (checkRegistrationScope req c).
Proof. unfold checkRegistrationScope. within_auto. Qed.
#[local] Hint Resolve other_newCeremonyID other_newSessionMaterial other_consumeCeremony
  other_founderCredentials other_checkRegistrationScope : within.
Lemma other_decode_fresh token : within other_request (decode_fresh token).
Proof. unfold decode_fresh. within_auto. Qed.
Lemma other_verifyAssertion c body : within other_request (verifyAssertion c body).
Proof. unfold verifyAssertion. within_auto. Qed.
Lemma other_createSession rec : within other_request (tx (createSession rec)).
Proof.
  apply other_tx. intros db [] db' (_ & _ & _ & _ & ->)%createSession_Ok. done.
Qed.
Lemma updateSignCount_tables wsid id n db r db' :
  updateWebAuthnCredentialSignCount wsid id n db = (r, db') →
  db_founders db' = db_founders db ∧ db_bootstrap_codes db' = db_bootstrap_codes db.
Proof. unfold updateWebAuthnCredentialSignCount. intros E. op_inv E; done. Qed.
Lemma other_login_tx v sid f s1 s2 t : within other_request (tx (login_tx v sid f s1 s2 t)).
Proof.
  apply other_tx. intros db [] db' E. unfold login_tx in E. call_inv E E1; [|discriminate E].
  assert (db_founders d = db_founders db ∧ db_bootstrap_codes d = db_bootstrap_codes db) as [F1 F2].
  { case_decide; [by eapply updateSignCount_tables|by injection E1 as _ <-]. }
  apply createSession_Ok in E as (_ & _ & _ & _ & ->). cbn. by rewrite F1, F2.
Qed.
Lemma other_singleFounder : within other_request singleFounder.
Proof.
  unfold singleFounder. apply within_bind; [apply _| |intros [|? ?]; auto with within typeclass_instances].
  apply other_read. intros db r db' E. by injection E as _ <-.
Qed.
#[local] Hint Resolve other_decode_fresh other_verifyAssertion other_login_tx other_singleFounder : within.

(** The requests outside the enrollment. *)
Lemma other_BeginSessionRegistration p name : within other_request (BeginSessionRegistration p name).
Proof. unfold BeginSessionRegistration. within_auto. Qed.
Lemma other_BeginLogin : within other_request BeginLogin.
Proof. unfold BeginLogin. within_auto. Qed.
Lemma other_FinishLogin id body : within other_request (FinishLogin id body).
Proof. unfold FinishLogin. within_auto. Qed.
Lemma other_BeginDecision p purpose subj claims : within other_request (BeginDecision p purpose subj claims).
Proof. unfold BeginDecision. within_auto. Qed.
Lemma other_AuthenticateSessionToken token : within other_request (AuthenticateSessionToken token).
Proof.
  intros w r w' E. rewrite authenticate_run in E. destruct (decode_token 32 _); [|by injection E as _ <-].
  destruct (session_by_hash _ _); injection E as _ <-; [by apply other_fields|done].
Qed.

Lemma consumeCeremony_was id kind w c w' :
  consumeCeremony id kind w = (Ok c, w') → ∃ c0, w_ceremonies w !! id = Some c0 ∧
    c = c0 <| ce_consumed := true |>.
Proof.
  unfold consumeCeremony. rewrite gets_then. destruct (w_ceremonies w !! id) as [c0|]; [|done].
  intros E. op_inv_step E; [|discriminate E]. call_inv E E1; [|discriminate E1]. injection E1 as <- <-.
  case_decide; [|rewrite modify_then in E; discriminate E]. op_inv_step E; [|discriminate E].
  rewrite modify_then in E. injection E as <- _. by exists c0.
Qed.

Lemma RawURLEncode_ne s : s ≠ "" → RawURLEncode s ≠ "".
Proof. intros Hs E. apply Hs, RawURLEncode_inj. rewrite E. by vm_compute. Qed.

Lemma staged_ok_grow c cid (r : RegisteredCredential) t rec :
  staged_ok c → cid ≠ "" → cid ∉ (wc_CredentialID <$> bo_stagedCredentials c) →
  (rec = true → bo_firstCredentialID c ≠ "") →
  staged_ok ((if rec then c <| bo_recoveryMethod := RecoveryMethodPasskey |> <| bo_recoveryVerified := true |>
              else c <| bo_firstCredentialID := cid |>)
    <| bo_stagedCredentials := (bo_stagedCredentials c ++ [credential_record "" cid r t])%list |>).
Proof.
  intros (H1 & H2 & H3 & H4) Hc Hn Hr. unfold staged_ok.
  assert (NoDup (wc_CredentialID <$> (bo_stagedCredentials c ++ [credential_record "" cid r t])%list)) as Hd.
  { rewrite fmap_app. apply NoDup_app. split_and!; [done| |apply NoDup_singleton].
    intros x Hx Hin. apply list_elem_of_singleton in Hin as ->. done. }
  assert (Forall (λ r, wc_WorkspaceID r = ws) (bo_stagedCredentials c ++ [credential_record "" cid r t])%list) as Hw
    by (apply Forall_app; split; [done|by repeat constructor]).
  destruct rec; cbn [bo_stagedCredentials bo_firstCredentialID bo_recoveryVerified upd];
    rewrite length_app; cbn [length]; split_and!; try done; intros Hx; try lia.
  - specialize (H3 (Hr eq_refl)). lia.
  - specialize (H4 Hx). lia.
Qed.

Lemma stage_memory c cid r t w x w' :
  stage c cid r t w = (x, w') → memory_ok w → cid ≠ "" →
  (ce_isRecovery c = true → ∀ bc, w_bootstrap w !! ce_bootstrapCeremonyID c = Some bc →
     bo_firstCredentialID bc ≠ "") →
  memory_ok w' ∧ w_db w' = w_db w ∧ w_draws w' = w_draws w.
Proof.
  unfold stage. rewrite gets_then. intros E Hok Hc Hr.
  destruct (w_bootstrap w !! ce_bootstrapCeremonyID c) as [bc|] eqn:Eb; [|by injection E as _ <-].
  destruct (mo_ids _ Hok _ _ Eb) as (Ei & _ & Hs).
  op_inv_step E; [|by injection E as _ <-]. op_inv_step E; [|by injection E as _ <-]. cbv zeta in E.
  unfold put_bootstrap in E.
  set (bc' := (if ce_isRecovery c then _ else _) <| bo_stagedCredentials := _ |>) in E.
  injection E as _ <-. split_and!; [|done|done].
  assert (staged_ok bc') as Hs'.
  { unfold bc'. pose proof (staged_ok_grow bc cid r t (ce_isRecovery c) Hs Hc) as Hg.
    destruct (ce_isRecovery c); apply Hg; try done; intros Hx; by apply (Hr Hx bc). }
  assert (bo_id bc' = bo_id bc) as Ei' by (unfold bc'; by destruct (ce_isRecovery c)).
  eapply (memory_put w bc bc'); try done.
  - by rewrite Ei.
  - unfold bc'. by destruct (ce_isRecovery c).
Qed.

Lemma FinishRegistration_memory req w r w' :
  FinishRegistration req w = (r, w') → memory_ok w →
  memory_ok w' ∧ db_founders (w_db w') = db_founders (w_db w) ∧
  db_bootstrap_codes (w_db w') = db_bootstrap_codes (w_db w) ∧ (w_draws w ≤ w_draws w')%nat.
Proof.
  unfold FinishRegistration. intros E Hok.
  assert (∀ w1, other_request w w1 → memory_ok w1 ∧ db_founders (w_db w1) = db_founders (w_db w) ∧
    db_bootstrap_codes (w_db w1) = db_bootstrap_codes (w_db w) ∧ (w_draws w ≤ w_draws w1)%nat) as Hdone.
  { intros w1 Ho. pose proof Ho as (_ & _ & E1 & E2 & E3). split_and!; [by eapply other_memory|done..]. }
  call_inv E E1; apply other_consumeCeremony in E1 as Ho; [|injection E as _ <-; by apply Hdone].
  apply consumeCeremony_was in E1 as (c0 & Hc0 & ->).
  call_inv E E2; apply other_checkRegistrationScope in E2.
  all: assert (other_request w w1) as Ho1 by (by etransitivity); clear Ho E2.
  2: injection E as _ <-; by apply Hdone.
  call_inv E E3.
  2: { destruct (verifier_FinishRegistration _ _ _); [discriminate E3|]. injection E3 as _ <-.
       injection E as _ <-. by apply Hdone. }
  assert (w2 = w1) as -> by (destruct (verifier_FinishRegistration _ _ _); by injection E3). clear E3.
  do 2 (op_inv_step E; [|injection E as _ <-; by apply Hdone]). cbv zeta in E.
  call_inv E E4; [|discriminate E4]. apply other_now in E4.
  assert (other_request w w2) as Ho2 by (by etransitivity). clear Ho1 E4.
  cbn [ce_bootstrapCeremonyID upd] in E. case_decide as Hb.
  - assert (memory_ok w2) as Hok2 by by eapply other_memory.
    pose proof Ho2 as (F0 & _ & F1 & F2 & F3).
    assert (ce_isRecovery c0 = true → ∀ bc, w_bootstrap w2 !! ce_bootstrapCeremonyID c0 = Some bc →
      bo_firstCredentialID bc ≠ "") as Hrec.
    { rewrite F0. intros Hr. by apply (proj2 (mo_scoped _ Hok _ _ Hc0 Hb) Hr). }
    call_inv E E5; destruct (stage_memory _ _ _ _ _ _ _ E5 Hok2 (RawURLEncode_ne _ (proj1 D0)) Hrec)
      as (H1 & H2 & H3); injection E as _ <-; rewrite H2, H3; by split_and!.
  - try_inv E E5. assert (other_request w2 w3) as Ho3.
    { match type of E5 with tx ?fn _ = _ => assert (within other_request (tx fn)) as Ht; [|by eapply Ht] end.
      apply other_tx. intros db [] db' [_ ->]%putWebAuthnCredential_Ok. done. }
    assert (w' = w3) as -> by (destruct r0; [|case_decide]; by injection E). apply Hdone. by etransitivity.
Qed.

Lemma Complete_memory token conf w r w' :
  Complete token conf w = (r, w') → memory_ok w → memory_ok w' ∧ (w_draws w ≤ w_draws w')%nat.
Proof.
  intros E Hok. apply Complete_run in E. destruct r as [sr|e].
  - destruct E as (c & code & sid & sraw & craw & t & _ & _ & _ & _ & _ & _ & E1 & _ & E2 & E3).
    split; [by eapply memory_delete|done].
  - destruct E as (E0 & E1 & _ & E2 & E3). split; [|done].
    eapply other_memory, Hok. apply other_fields; try done; by rewrite E0.
Qed.

(** ** Offline resets *)

Context (peers_ok : ∀ n db, enrollment_ok db → enrollment_ok (peers n db)).

Lemma enroll_kept_now : within enrollment_kept now.
Proof. intros w r w' E. unfold enrollment_kept. by injection E as _ <-. Qed.
Lemma enroll_kept_random n : within enrollment_kept (randomBytes n).
Proof. intros w r w' E. injection E as _ <-. unfold enrollment_kept. split_and!; try done. cbn. lia. Qed.
Lemma enroll_kept_wait : within enrollment_kept wait.
Proof. apply within_modify. intros w. unfold enrollment_kept. split_and!; try done. by apply peers_ok. Qed.
Lemma enroll_kept_upstream {A} c (reply : list call → res A) : within enrollment_kept (upstream c reply).
Proof. intros w r w' E. unfold enrollment_kept. by injection E as _ <-. Qed.
Lemma enroll_kept_tx {A} (fn : Tx A) :
  (∀ db a db', fn db = (Ok a, db') → enrollment_ok db → enrollment_ok db') →
  within enrollment_kept (tx fn).
Proof.
  intros Hf w [a|e] w' E; [|by apply tx_Err in E as [_ ->]].
  apply tx_Ok in E as (db & E & ->). unfold enrollment_kept. split_and!; try done. by eapply Hf.
Qed.
Lemma enroll_kept_read {A} (fn : Tx A) : within eq fn → within enrollment_kept (tx fn).
Proof. intros Hf. apply enroll_kept_tx. intros db a db' E. by apply Hf in E as <-. Qed.
Lemma enroll_kept_own_step {A} (m : M A) : within enrollment_kept m → within enrollment_kept (own_step m).
Proof. intros Hm. unfold own_step. within_auto. Qed.
Lemma enroll_kept_transition wsid key from to extra t :
  within enrollment_kept (tx (transitionRecoveryIntent wsid key from to extra t)).
Proof.
  apply enroll_kept_tx. intros db [] db' (row & _ & _ & ->)%transitionRecoveryIntent_Ok. by apply enrollment_ok_same.
Qed.
Lemma enroll_kept_putRecoveryIntent i : within enrollment_kept (tx (putRecoveryIntent i)).
Proof.
  apply enroll_kept_tx. intros db [] db' E. unfold putRecoveryIntent in E.
  do 3 (op_inv_step E; [|discriminate E]). rewrite gets_then in E. cbv zeta in E.
  op_inv_step E; [|discriminate E]. injection E as <-. by apply enrollment_ok_same.
Qed.
Lemma enroll_kept_reset raw ev wsid f key t i pd ad :
  within enrollment_kept (tx (reset_tx raw ev wsid f key t i pd ad)).
Proof.
  apply enroll_kept_tx. intros db x db' (row & Hr & -> & _)%reset_tx_Ok Hok.
  destruct (decide (wsid = ws)) as [->|Hne]; [apply reset_db_ok; [done|apply Hr]|by apply reset_db_other].
Qed.
#[local] Hint Resolve enroll_kept_now enroll_kept_random enroll_kept_wait enroll_kept_upstream enroll_kept_own_step enroll_kept_transition
  enroll_kept_putRecoveryIntent enroll_kept_reset : within.

Lemma enroll_kept_sign wsid f d p : within enrollment_kept (signContainmentAttestation wsid f d p).
Proof. unfold signContainmentAttestation, Attest. within_auto. Qed.
Lemma enroll_kept_missions ct wsid : within enrollment_kept (authoritativeActiveMissions ct wsid).
Proof. unfold authoritativeActiveMissions, call_ListActiveMissions. within_auto. Qed.
#[local] Hint Resolve enroll_kept_sign enroll_kept_missions : within.
Lemma enroll_kept_contain ct wsid f k d p att : within enrollment_kept (contain ct wsid f k d p att).
Proof. unfold contain, call_contain, call_ContainWorkspace. within_auto. Qed.
Lemma enroll_kept_await ct polls wsid t : within enrollment_kept (await_empty ct polls wsid t).
Proof. revert t. induction polls as [|n IH]; intros t; cbn [await_empty]; within_auto. Qed.
#[local] Hint Resolve enroll_kept_contain enroll_kept_await : within.

Lemma enroll_kept_resetLocalState wsid f key i pd ad :
  within enrollment_kept (resetLocalState wsid f key i pd ad).
Proof. unfold resetLocalState, randHex. within_auto. Qed.
#[local] Hint Resolve enroll_kept_resetLocalState : within.
Lemma enroll_kept_resume ct et polls wsid f key d pd i :
  within enrollment_kept (resume ct et polls wsid f key d pd i).
Proof.
  unfold resume, record_attestation, contain_step, empty_step, awaitEmptyActiveMissions, claims_digest,
    SetRecoveryIntentAttestation, SetRecoveryIntentContained, SetRecoveryIntentVerifiedEmpty.
  within_auto.
Qed.
#[local] Hint Resolve enroll_kept_resume : within.
Lemma enroll_kept_authorize req : within enrollment_kept (authorize req).
Proof.
  unfold authorize, verify_identity, call_VerifyWorkspaceIdentity, getInstance, listFounders,
    getOfflineRecoveryKey.
  repeat (first [apply enroll_kept_read; solve [within_auto]
    |solve [auto with within typeclass_instances]|within_step]).
Qed.
#[local] Hint Resolve enroll_kept_authorize : within.
Lemma enroll_kept_ResetOffline ct et polls req : within enrollment_kept (ResetOffline ct et polls req).
Proof.
  unfold ResetOffline, open_intent, randHex, getRecoveryIntent.
  repeat (first [apply enroll_kept_read; solve [within_auto]
    |solve [auto with within typeclass_instances]|within_step]).
Qed.

(** ** Histories *)

Inductive enroll_step (w w' : World) : Prop :=
  | es_ensure r : EnsureBootstrapCode w = (r, w') → enroll_step w w'
  | es_begin code r : Begin code w = (r, w') → enroll_step w w'
  | es_register token name r : BeginBootstrapRegistration token name w = (r, w') → enroll_step w w'
  | es_recovery token method r : BeginRecovery token method w = (r, w') → enroll_step w w'
  | es_finish req r : FinishRegistration req w = (r, w') → enroll_step w w'
  | es_complete token conf r : Complete token conf w = (r, w') → enroll_step w w'
  | es_reset ct et polls req r : ResetOffline ct et polls req w = (r, w') → enroll_step w w'
  | es_other : other_request w w' → enroll_step w w'.

Lemma step_ensure w : enroll_step w (EnsureBootstrapCode w).2.
Proof. eapply es_ensure, surjective_pairing. Qed.
Lemma step_begin code w : enroll_step w (Begin code w).2.
Proof. eapply es_begin, surjective_pairing. Qed.
Lemma step_register token name w : enroll_step w (BeginBootstrapRegistration token name w).2.
Proof. eapply es_register, surjective_pairing. Qed.
Lemma step_recovery token method w : enroll_step w (BeginRecovery token method w).2.
Proof. eapply es_recovery, surjective_pairing. Qed.
Lemma step_finish req w : enroll_step w (FinishRegistration req w).2.
Proof. eapply es_finish, surjective_pairing. Qed.

(** Draws are never taken back. *)
Definition draws_grow (w w' : World) : Prop := (w_draws w ≤ w_draws w')%nat.
#[local] Instance draws_grow_preorder : PreOrder draws_grow.
Proof. split; unfold draws_grow; [by intros w|intros a b c; lia]. Qed.
Lemma grow_now : within draws_grow now.
Proof. intros w r w' E. injection E as _ <-. by unfold draws_grow. Qed.
Lemma grow_random n : within draws_grow (randomBytes n).
Proof. intros w r w' E. injection E as _ <-. unfold draws_grow. cbn. lia. Qed.
Lemma grow_tx {A} (fn : Tx A) : within draws_grow (tx fn).
Proof.
  intros w [a|e] w' E; [apply tx_Ok in E as (db & _ & ->)|apply tx_Err in E as [_ ->]]; by unfold draws_grow.
Qed.
Lemma grow_modify f : (∀ w, w_draws (f w) = w_draws w) → within draws_grow (modify f).
Proof. intros Hf. apply within_modify. intros w. unfold draws_grow. by rewrite Hf. Qed.
#[local] Hint Resolve grow_now grow_random grow_tx : within.
#[local] Hint Extern 2 (within draws_grow (modify _)) => apply grow_modify; reflexivity : within.

Lemma step_draws w w' : enroll_step w w' → draws_grow w w'.
Proof.
  intros [r E|code r E|token name r E|token method r E|req r E|token conf r E|ct et polls req r E|Ho].
  - by apply enroll_kept_EnsureBootstrapCode in E as (_ & _ & _ & ?).
  - by apply Begin_run in E as (_ & _ & ? & _).
  - eapply (within_weaken draws_grow draws_grow); [done| |exact E].
    unfold BeginBootstrapRegistration, beginRegistrationLocked, liveBootstrapCeremony, newCeremonyID, put_bootstrap.
    within_auto.
  - eapply (within_weaken draws_grow draws_grow); [done| |exact E].
    unfold BeginRecovery, beginRegistrationLocked, liveBootstrapCeremony, newCeremonyID, put_bootstrap.
    within_auto.
  - eapply (within_weaken draws_grow draws_grow); [done| |exact E].
    unfold FinishRegistration, consumeCeremony, checkRegistrationScope, liveBootstrapCeremony, stage, put_bootstrap.
    within_auto.
  - apply Complete_run in E. destruct r; [|by apply E]. by destruct E as (? & ? & ? & ? & ? & ? & E); apply E.
  - by apply enroll_kept_ResetOffline in E as (_ & _ & _ & ?).
  - by apply Ho.
Qed.

Definition enroll_ok (w : World) : Prop := enrollment_ok (w_db w) ∧ memory_ok w.

Lemma enroll_kept_memory w w' : enrollment_kept w w' → memory_ok w → memory_ok w'.
Proof.
  intros (_ & E1 & E2 & Hd) [H1 H2]. constructor; rewrite E1.
  - intros id c Hc. destruct (H1 _ _ Hc) as (? & ? & ?). split_and!; [done|by eapply drawn_more|done].
  - intros id ce. rewrite E2. intros Hc Hb. destruct (H2 _ _ Hc Hb). split; [by eapply drawn_more|done].
Qed.

Lemma step_ok N w w' :
  (∀ n m, (n < m < N)%nat → rand n 16 ≠ rand m 16) → (w_draws w' ≤ N)%nat →
  enroll_step w w' → enroll_ok w → enroll_ok w'.
Proof.
  intros Hd HN [r E|code r E|token name r E|token method r E|req r E|token conf r E|ct et polls req r E|Ho]
    [Hdb Hmem]; unfold enroll_ok.
  - apply enroll_kept_EnsureBootstrapCode in E as Hk. split; [by apply Hk|by eapply enroll_kept_memory].
  - pose proof (Begin_run _ _ _ _ E) as (E1 & _). rewrite E1. split; [done|]. by eapply Begin_memory.
  - apply BeginBootstrapRegistration_memory in E as (? & -> & _); done.
  - apply BeginRecovery_memory in E as (? & -> & _); done.
  - apply FinishRegistration_memory in E as (? & E1 & E2 & _); [|done].
    split; [by eapply enrollment_ok_same|done].
  - apply Complete_memory in E as Hm; [|done]. split; [by eapply Complete_ok|apply Hm].
  - apply enroll_kept_ResetOffline in E as Hk. split; [by apply Hk|by eapply enroll_kept_memory].
  - split; [by eapply other_enrollment|by eapply other_memory].
Qed.

Lemma history_ok N w w' :
  (∀ n m, (n < m < N)%nat → rand n 16 ≠ rand m 16) → (w_draws w' ≤ N)%nat →
  rtc enroll_step w w' → enroll_ok w → enroll_ok w'.
Proof.
  intros Hd HN Hs. induction Hs as [|x y z Hxy Hyz IH]; [done|]. intros Hok. apply IH; [done|].
  eapply step_ok; [exact Hd| |exact Hxy|exact Hok].
  clear IH Hxy Hok. induction Hyz as [|a b c Hab _ IH]; [done|].
  apply step_draws in Hab. unfold draws_grow in Hab. specialize (IH HN). lia.
Qed.

(** C8: A workspace never has two founders: over any history of enrollments,
    logins, registrations and offline resets that starts with no founder and
    no bootstrap code, at most one founder is enrolled, at most one bootstrap
    code is usable, and none is while a founder is enrolled. *)
Theorem single_founder N w w' :
  (∀ n m, (n < m < N)%nat → rand n 16 ≠ rand m 16) → (w_draws w' ≤ N)%nat →
  db_founders (w_db w) = ∅ → db_bootstrap_codes (w_db w) = ∅ → w_bootstrap w = ∅ → w_ceremonies w = ∅ →
  rtc enroll_step w w' →
  (∀ f1 f2, is_Some (db_founders (w_db w') !! (ws, f1)) → is_Some (db_founders (w_db w') !! (ws, f2)) →
     f1 = f2) ∧
  (∀ h c, db_bootstrap_codes (w_db w') !! (ws, h) = Some c → bc_ConsumedAt c = None →
     (∀ f, db_founders (w_db w') !! (ws, f) = None) ∧
     ∀ h' c', db_bootstrap_codes (w_db w') !! (ws, h') = Some c' → bc_ConsumedAt c' = None → h' = h).
Proof.
  intros Hd HN E1 E2 E3 E4 Hs.
  assert (enroll_ok w') as [[H1 H2 H3 H4 H5] _].
  { eapply history_ok; [exact Hd|done|exact Hs|]. split; constructor; rewrite ?E1, ?E2, ?E3, ?E4; try done.
    by intros f1 f2 [? ?]. }
  split; [exact H2|]. intros h c Hc Hn. split; [intros f; by eapply H5|]. intros h' c' Hc' Hn'. by eapply H4.
Qed.

(** ** Independent recovery *)

Definition cred_key (r : WebAuthnCredentialRecord) : string * string :=
  (wc_WorkspaceID r, wc_CredentialID r).

Lemma credentials_put_keep f staged m k v :
  m !! k = Some v → k ∉ (cred_key <$> staged) → credentials_put f staged m !! k = Some v.
Proof.
  revert m. induction staged as [|r staged IH]; intros m Hk Hn; [done|]. cbn [credentials_put foldl].
  rewrite fmap_cons, not_elem_of_cons in Hn. destruct Hn as [Hne Hn].
  apply IH; [|done]. rewrite lookup_insert_ne by (intros E; by apply Hne). done.
Qed.
Lemma credentials_put_get f staged m r :
  NoDup (cred_key <$> staged) → r ∈ staged →
  credentials_put f staged m !! cred_key r = Some (r <| wc_FounderID := f |>).
Proof.
  revert m. induction staged as [|r0 staged IH]; intros m Hd Hr; [by apply elem_of_nil in Hr|].
  rewrite fmap_cons in Hd. apply NoDup_cons in Hd as [Hn Hd]. cbn [credentials_put foldl].
  apply elem_of_cons in Hr as [->|Hr]; [|by apply IH].
  apply credentials_put_keep; [apply lookup_insert_eq|done].
Qed.

Lemma staged_keys c : staged_ok c → NoDup (cred_key <$> bo_stagedCredentials c).
Proof.
  intros (Hd & _). apply (NoDup_fmap_1 snd). rewrite <- list_fmap_compose. exact Hd.
Qed.

(** C9: An enrolled founder can always recover: over any history from an empty
    start, a completed enrollment leaves the founder either with an offline key
    whose stored hash is the hash of the key just presented, or with two
    distinct passkeys. *)
Theorem independent_recovery N w w1 token conf sr w' :
  (∀ n m, (n < m < N)%nat → rand n 16 ≠ rand m 16) → (w_draws w1 ≤ N)%nat →
  db_founders (w_db w) = ∅ → db_bootstrap_codes (w_db w) = ∅ → w_bootstrap w = ∅ → w_ceremonies w = ∅ →
  rtc enroll_step w w1 → Complete token conf w1 = (Ok sr, w') →
  (∃ raw key, decode_token 32 conf = Some raw ∧
     db_offline_recovery_keys (w_db w') !! (ws, sr_FounderID sr) = Some key ∧
     rk_KeyHash key = hex (Sum256 raw)) ∨
  (∃ id1 id2 c1 c2, id1 ≠ id2 ∧
     db_webauthn_credentials (w_db w') !! (ws, id1) = Some c1 ∧ wc_FounderID c1 = sr_FounderID sr ∧
     db_webauthn_credentials (w_db w') !! (ws, id2) = Some c2 ∧ wc_FounderID c2 = sr_FounderID sr).
Proof.
  intros Hd HN E1 E2 E3 E4 Hs E.
  assert (enroll_ok w1) as [_ Hmem].
  { eapply history_ok; [exact Hd|done|exact Hs|]. split; constructor; rewrite ?E1, ?E2, ?E3, ?E4; try done.
    by intros f1 f2 [? ?]. }
  apply Complete_run in E as (c & code & sid & sraw & craw & t & [Hl _ Hr] & _ & _ & _ & _ & -> & _).
  destruct Hl as (raw0 & id & _ & _ & Hc & _). destruct (mo_ids _ Hmem _ _ Hc) as (_ & _ & Hok).
  unfold complete_db. cbn [db_offline_recovery_keys db_webauthn_credentials upd].
  destruct Hr as [[Hm Hr]|(Ho & _ & raw & Hraw & Hr)].
  - right. pose proof (staged_keys _ Hok) as Hkd.
    destruct Hok as (Hnd & Hws & _ & H2). specialize (H2 Hr).
    destruct (bo_stagedCredentials c) as [|r1 [|r2 rest]] eqn:Es; [cbn in H2; lia..|].
    apply Forall_cons in Hws as [W1 Hws]. apply Forall_cons in Hws as [W2 _].
    exists (wc_CredentialID r1), (wc_CredentialID r2), (r1 <| wc_FounderID := sr_FounderID sr |>),
      (r2 <| wc_FounderID := sr_FounderID sr |>). split_and!; try done.
    + rewrite !fmap_cons in Hnd. apply NoDup_cons in Hnd as [Hn _]. intros E. apply Hn. rewrite E. by left.
    + replace (ws, wc_CredentialID r1) with (cred_key r1) by (unfold cred_key; by rewrite W1).
      apply credentials_put_get; [done|by left].
    + replace (ws, wc_CredentialID r2) with (cred_key r2) by (unfold cred_key; by rewrite W2).
      apply credentials_put_get; [done|right; by left].
  - left. rewrite decide_True by done. eexists raw, _. split; [done|]. split; [apply lookup_insert_eq|]. cbn. by rewrite Hr.
Qed.

(** ** After an offline reset *)

Lemma no_founder_rows db : enrollment_ok db → (∀ f, db_founders db !! (ws, f) = None) →
  table_rows (λ r, fo_WorkspaceID r = ws) (db_founders db) = [].
Proof.
  intros Hok Hn. apply table_rows_nil. intros k r Hk Hw. pose proof (eo_keyed _ Hok _ _ Hk) as ->.
  rewrite Hw in Hk. by rewrite Hn in Hk.
Qed.

Lemma getBootstrapCode_only db h c :
  enrollment_ok db → db_bootstrap_codes db !! (ws, h) = Some c → bc_ConsumedAt c = None →
  getBootstrapCode ws db = (Ok c, db).
Proof.
  intros Hok Hc Hn. unfold getBootstrapCode. rewrite gets_then.
  set (l := order_by _ _ _).
  assert (∀ x, x ∈ l → x = c) as Hall.
  { intros x. unfold l. rewrite elem_of_order_by, elem_of_table_rows. intros ([Hw Hx] & k & Hk).
    pose proof (eo_codes_keyed _ Hok _ _ Hk) as ->. rewrite Hw in Hk.
    assert (bc_CodeHash x = h) as Eh by (by eapply eo_active). rewrite Eh in Hk. congruence. }
  assert (c ∈ l) as Hin.
  { unfold l. rewrite elem_of_order_by, elem_of_table_rows. split; [|by exists (ws, h)].
    split; [|done]. pose proof (eo_codes_keyed _ Hok _ _ Hc) as E. by injection E. }
  destruct (rev l) as [|x rest] eqn:Er.
  - apply list_elem_of_In, in_rev in Hin. rewrite Er in Hin. destruct Hin.
  - assert (x ∈ l) as Hx by (apply list_elem_of_In, in_rev; rewrite Er; by left).
    by rewrite (Hall x Hx).
Qed.

Context (rand_length : ∀ n len, String.length (rand n len) = len).

(** The right code opens a ceremony. *)
Lemma Begin_opens raw c w :
  enrollment_ok (w_db w) → String.length raw = 16%nat →
  db_bootstrap_codes (w_db w) !! (ws, hex (Sum256 raw)) = Some c → bc_ConsumedAt c = None →
  clock (w_ticks w) < bc_ExpiresAt c →
  ∃ token expires w', Begin (RawURLEncode raw) w = (Ok (token, expires), w').
Proof.
  intros Hok Hl Hc Hn Ht. cut (runs (Begin (RawURLEncode raw)) w (λ _ _, True)).
  { intros ([token expires] & w' & E & _). by exists token, expires, w'. }
  unfold Begin, enrolled. apply runs_bind.
  assert (table_rows (λ r, fo_WorkspaceID r = ws) (db_founders (w_db w)) = []) as E0.
  { apply no_founder_rows; [done|]. intros f. by eapply eo_guard. }
  apply runs_bind. eapply runs_eq; [apply tx_read, countFounders_run|]. rewrite E0. apply runs_ret.
  apply runs_bind, runs_require; [done|]. apply runs_bind.
  eapply runs_lift; [by rewrite decode_token_encode|]. apply runs_bind.
  eapply runs_try; [exact (tx_read _ _ _ (getBootstrapCode_only _ _ c Hok Hc Hn))|]. cbv beta iota.
  apply runs_bind, runs_require.
  { pose proof (eo_codes_keyed _ Hok _ _ Hc) as E. by injection E. }
  apply runs_bind. eapply runs_eq; [reflexivity|]. apply runs_bind, runs_require; [exact Ht|].
  do 3 (apply runs_bind; eapply runs_eq; [reflexivity|]). cbv zeta. unfold put_bootstrap.
  do 2 (apply runs_bind; eapply runs_eq; [reflexivity|]). by apply runs_ret.
Qed.

(** A session of the workspace does not outlive the reset. *)
Lemma reset_session raw ev f key t i row pd ad db hash rec :
  session_by_hash (reset_db raw ev ws f key t i row pd ad db) hash = Some rec → se_Revoked rec = true.
Proof.
  unfold session_by_hash. intros E. apply head_Some_elem_of in E.
  apply elem_of_table_rows in E as ([Hw _] & k & Hk). unfold reset_db in Hk. cbn [db_sessions upd] in Hk.
  apply lookup_fmap_Some in Hk as (r & <- & _). unfold revoke_if in *.
  case_decide as Hd; [done|]. destruct (se_Revoked r) eqn:E; [done|]. exfalso. by apply Hd.
Qed.

(** C10: Recovery leads back to enrollment: after an offline reset that delivered a
    code, no session token of the workspace is accepted any more, no login can
    start, and the delivered code opens a fresh enrollment until it expires. *)
Theorem recovery_reenrolls ct et polls req w ro code expires w' :
  (∀ n db, db_recovery_intents (peers n db) = db_recovery_intents db) →
  enrollment_ok (w_db w) → evidence w → rq_WorkspaceID req = ws →
  ResetOffline ct et polls req w = (Ok (ro, Some (code, expires)), w') →
  (∀ token, ∃ e w2, AuthenticateSessionToken token w' = (Err e, w2)) ∧
  BeginLogin w' = (Err ErrNotEnrolled, w') ∧
  (clock (w_ticks w') < expires → ∃ token until w2, Begin code w' = (Ok (token, until), w2)).
Proof.
  intros Hleave Hok Hev Hws E. pose proof (enroll_kept_ResetOffline _ _ _ _ _ _ _ E) as (Hk & _).
  specialize (Hk Hok). eapply ResetOffline_outcome in E; [|done|done].
  inversion E as [| |ws0 f stored w1 w2 i ad ro0 code0 w0 [[Hw _] _ _] _ _ _ Hd]; subst; clear E.
  rewrite Hws in Hd. destruct Hd as [(n & raw & ev & t & row & Hraw & Hr & Ed & Ex)].
  injection Ex as -> -> ->.
  set (c := MkBootstrapCodeRecord ws (hex (Sum256 raw)) t (t + bootstrapCodeTTL) None).
  assert (db_bootstrap_codes (w_db w') !! (ws, hex (Sum256 raw)) = Some c) as Hc
    by (rewrite Ed; apply lookup_insert_eq).
  split_and!.
  - intros token. rewrite authenticate_run. destruct (decode_token 32 _) as [r|]; [|by eexists _, _].
    destruct (session_by_hash _ _) as [rec|] eqn:Es; [|by eexists _, _].
    rewrite Ed in Es. apply reset_session in Es. unfold session_verdict. rewrite Es. by eexists _, _.
  - unfold BeginLogin, singleFounder. apply bind_fail.
    assert (listFounders ws (w_db w') = (Ok [], w_db w')) as El.
    { unfold listFounders. rewrite gets_then, no_founder_rows; [done|done|].
      intros f'. eapply eo_guard; [exact Hk|exact Hc|done]. }
    by rewrite (bind_run _ _ _ _ _ (tx_read _ _ _ El)).
  - intros Ht. eapply Begin_opens; [exact Hk|rewrite Hraw; apply rand_length|exact Hc|done|exact Ht].
Qed.
End history.

(** ** On the bench *)

Definition out {A} (d : A) (x : res A * World) : A := match x.1 with Ok a => a | Err _ => d end.

(** A founder enrolls with a passkey and an offline key. *)
Definition bench_new_world : World := start (empty_DB <| db_instance := Some bench_instance |>).
Definition bench_ensured := @EnsureBootstrapCode bench_env bench_new_world.
Definition bench_begun := @Begin bench_env (out "" bench_ensured) bench_ensured.2.
Definition bench_token : string := (out ("", 0) bench_begun).1.
Definition bench_registering := @BeginBootstrapRegistration bench_env bench_token "Ada" bench_begun.2.
Definition bench_registered := @FinishRegistration bench_env
  (MkFinishRegistrationRequest (out ("", "") bench_registering).1 "passkey-1" bench_token None)
  bench_registering.2.
Definition bench_recovering := @BeginRecovery bench_env bench_token RecoveryMethodOfflineKey bench_registered.2.
Definition bench_offline_key : string :=
  match out (RecoveryPasskey "" "") bench_recovering with RecoveryKey k => k | _ => "" end.
Definition bench_completed := @Complete bench_env bench_token bench_offline_key bench_recovering.2.
Definition bench_session : SessionResult := out (MkSessionResult "" "" "") bench_completed.

Example bench_enrolled : bench_completed.1 = Ok bench_session ∧
  map_size (db_founders (w_db bench_completed.2)) = 1%nat.
Proof. split; vm_compute; reflexivity. Qed.

Lemma bench_completed_run : @Complete bench_env bench_token bench_offline_key bench_recovering.2 =
  (Ok bench_session, bench_completed.2).
Proof.
  change (bench_completed = (Ok bench_session, bench_completed.2)).
  rewrite (surjective_pairing bench_completed) at 1. by rewrite (proj1 bench_enrolled).
Qed.

Lemma bench_history : rtc (@enroll_step bench_env) bench_new_world bench_recovering.2.
Proof.
  apply rtc_l with bench_ensured.2; [unfold bench_ensured; apply step_ensure|].
  apply rtc_l with bench_begun.2; [unfold bench_begun; apply step_begin|].
  apply rtc_l with bench_registering.2; [unfold bench_registering; apply step_register|].
  apply rtc_l with bench_registered.2; [unfold bench_registered; apply step_finish|].
  apply rtc_once. unfold bench_recovering. apply step_recovery.
Qed.

Lemma issued_tokens_work_witness : ∃ rec, se_FounderID rec = sr_FounderID bench_session ∧
  @VerifyCSRFToken rec (sr_CSRFToken bench_session) = Ok tt.
Proof.
  destruct (@issued_tokens_work bench_env bench_rand_length bench_session bench_recovering.2
    bench_completed.2) as (rec & H1 & _ & H2 & _).
  - right. exists bench_token, bench_offline_key. exact bench_completed_run.
  - exists rec. split; [exact H1|exact H2].
Defined.

Lemma Complete_sound_witness : ∃ c, @completable bench_env bench_token bench_offline_key c bench_recovering.2.
Proof.
  destruct (@Complete_sound bench_env bench_token bench_offline_key bench_recovering.2 _ _
    bench_completed_run) as (c & code & sid & sraw & craw & t & Hc & _). exists c. exact Hc.
Defined.

Lemma single_founder_witness :
  (∀ n m, (n < m < 255)%nat → @rand bench_env n 16 ≠ @rand bench_env m 16) ∧
  ∀ f1 f2, is_Some (db_founders (w_db bench_completed.2) !! ("ws", f1)) →
    is_Some (db_founders (w_db bench_completed.2) !! ("ws", f2)) → f1 = f2.
Proof.
  split; [exact bench_rand_distinct|].
  apply (@single_founder bench_env (λ _ _ Hok, Hok) 255 bench_new_world bench_completed.2).
  - exact bench_rand_distinct.
  - apply (bool_decide_unpack _). vm_compute. exact I.
  - reflexivity.
  - reflexivity.
  - reflexivity.
  - reflexivity.
  - eapply rtc_r; [exact bench_history|]. eapply es_complete. exact bench_completed_run.
Defined.

Lemma independent_recovery_witness : ∃ key,
  db_offline_recovery_keys (w_db bench_completed.2) !! ("ws", sr_FounderID bench_session) = Some key.
Proof.
  destruct (@independent_recovery bench_env (λ _ _ Hok, Hok) 255 bench_new_world bench_recovering.2
    bench_token bench_offline_key bench_session bench_completed.2)
    as [(raw & key & _ & Hk & _)|(id1 & id2 & c1 & c2 & Hne & H1 & _ & H2 & _)].
  - exact bench_rand_distinct.
  - apply (bool_decide_unpack _). vm_compute. exact I.
  - reflexivity.
  - reflexivity.
  - reflexivity.
  - reflexivity.
  - exact bench_history.
  - exact bench_completed_run.
  - exists key. exact Hk.
  - eexists. vm_compute. reflexivity.
Defined.

Lemma bench_enrolled_ok : @enrollment_ok bench_env bench_enrolled_DB.
Proof.
  assert (db_founders bench_enrolled_DB =
    {[ ("ws", "founder") := MkFounderRecord "ws" "founder" "Founder" bench_time ]}) as Ef by reflexivity.
  assert (db_bootstrap_codes bench_enrolled_DB = ∅) as Ec by reflexivity.
  constructor; rewrite ?Ef, ?Ec; try done.
  - intros k r Hk. apply lookup_singleton_Some in Hk as [<- <-]. reflexivity.
  - intros f1 f2 [r1 E1] [r2 E2]. apply lookup_singleton_Some in E1 as [E1 _].
    apply lookup_singleton_Some in E2 as [E2 _]. congruence.
Qed.

(** The delivered code, while it is still valid. *)
Definition bench_code : option (string * time) :=
  match bench_recovery_run.1 with
  | Ok (_, Some c) => if clock (Env := bench_env) (w_ticks bench_recovery_run.2) <? c.2 then Some c else None
  | _ => None
  end.
Example bench_code_valid : match bench_code with Some _ => true | None => false end = true.
Proof. vm_compute. reflexivity. Qed.

Lemma recovery_reenrolls_witness :
  match bench_code with
  | Some (code, _) => ∃ token until w2, @Begin bench_env code bench_recovery_run.2 = (Ok (token, until), w2)
  | None => False
  end.
Proof.
  pose proof bench_code_valid as Hc. unfold bench_code in *.
  destruct bench_recovery_run as [[[ro [[code expires]|]]|e] w'] eqn:E; [|discriminate Hc|discriminate Hc].
  cbn [fst snd] in *. destruct (_ <? _) eqn:Ht; [|discriminate Hc].
  refine (proj2 (proj2 (@recovery_reenrolls bench_env (λ _ _ Hok, Hok) bench_rand_length Minute Minute 3
    bench_recovery_request (start bench_enrolled_DB) ro code expires w' _ bench_enrolled_ok _ _ E)) _).
  - intros n db. reflexivity.
  - by apply evidence_none.
  - reflexivity.
  - by apply Z.ltb_lt.
Defined.
